(* ===== verification/_CoqProject ===== *)
-Q . S2P
Prelude.v
CInt.v
McgRegs.v
Mcg.v
McgFacts.v
McgLogic.v
McgModes.v
McgSpec.v
McgThms.v
McgProps.v
McgAtc.v
McgRuns.v
Pbuf.v
PbufRead.v
PbufWrite.v
PbufChain.v
PbufSize.v
PbufAlloc.v
PbufThms.v
PbufRuns.v
Chksum.v
ChksumFacts.v
ChksumRoutines.v
ChksumThms.v
ChksumRuns.v
Heap.v
HeapFacts.v
HeapOps.v
HeapAlloc.v
HeapThms.v
HeapProps.v
HeapRuns.v
Memp.v
Memory.v
Text.v
TextThms.v
StringThms.v
PbufOwn.v
PbufCopy.v
Ethernet.v
Etharp.v
EthFacts.v
EtharpTable.v
EtharpFind.v
EtharpSteps.v
EtharpInput.v
EtharpSend.v
EtharpOutput.v
EtharpReceive.v
EtharpDispatch.v
EtharpThms.v
EtharpRuns.v
Udp.v
UdpFacts.v
UdpOps.v
UdpPcbThms.v
UdpTypes.v
Ip4.v
Icmp.v
UdpIo.v
IpInput.v
IpOut.v
UdpOut.v
IpHold.v
IpIn.v
IcmpFacts.v
IpArrive.v
IcmpEcho.v
IpThms.v
IpSafe.v
IpRuns.v
Timeouts.v
TimeoutThms.v
TimeoutLive.v
Audio.v
UdpTask.v
AudioThms.v
TcpTask.v
TcpThms.v
AppRuns.v
