(* ===== verification/Prelude.v ===== *)
(** * Verification of the Wireless K64 Speakers firmware

    The firmware turns an NXP K64F board into a network speaker: FreeRTOS tasks
    receive sound samples in UDP datagrams and play them through the DAC from a timer
    interrupt, and a menu over TCP controls them.  It runs on lwIP, whose sources are in
    the repository.  This development models the code below as pure functions and state
    monads in Rocq and proves what makes it correct.

    ** The program and its model

    - Clock generator, [source/MCG.c], and the start-up of [source/TCP_UDP_AUDIO_main.c]:
      files [McgRegs] (registers as named fields of words; the layout is the class
      [McgLayout], the hardware between two accesses the class [McgHw]), [Mcg] (one
      definition per C function, every register access in order), [McgFacts],
      [McgLogic] (the hardware's contract [McgHwOk], a program logic), [McgModes],
      [McgSpec] (the table of transitions), [McgThms], [McgProps], [McgAtc], [McgRuns].
    - Packet buffers, [lwip/src/core/pbuf.c]: [Pbuf] (pbufs and memory blocks in a store
      of pointers, so that sharing and reference counts are real; the allocators are the
      class [Allocator]), [PbufRead] to [PbufAlloc] (packets as lists of nodes, each
      operation on them), [PbufThms], [PbufRuns]; [PbufOwn] and [PbufCopy] (packets with
      one owner, and the frame of each operation, for the layers above).
    - Internet checksum, [lwip/src/core/inet_chksum.c]: [Chksum] to [ChksumRuns].
    - Heap, [lwip/src/core/mem.c]: [Heap] (one array with headers in it) to [HeapRuns].
    - Pools, [lwip/src/core/memp.c]: [Memp] (free elements linked through their first
      word).  [Memory] puts the heap and the pools into one address space, as [lwip_init]
      does, and implements the interface [Allocator] by them, so that the theorems on
      packets, ARP and IP hold over the firmware's own allocators; the class [MempLayout]
      is what the compiler and the linker choose.
    - Ethernet and ARP, [lwip/src/netif/ethernet.c], [lwip/src/core/ipv4/etharp.c] and the
      frames of [lwip/port/ethernetif.c]: [Ethernet], [Etharp] (definitions), [EthFacts]
      (the frame on the wire), [EtharpTable] to [EtharpDispatch] (each operation in the
      logic [runs]), [EtharpThms], [EtharpRuns].  The loop of the port that waits for a
      free buffer descriptor ([enet_send_frame]) is a definition; the controller with its
      descriptors is the class [Controller]; what IP does with a packet the class [Upper].
    - UDP control blocks, [lwip/src/core/udp.c]: [Udp] (the pool and the list [udp_pcbs] of
      blocks linked by pointers), [UdpFacts], [UdpOps] (each operation), [UdpPcbThms] and
      [UdpTypes] (what a block's fields can hold).
    - UDP, IPv4 and ICMP, [lwip/src/core/udp.c], [lwip/src/core/ipv4/ip4.c],
      [lwip/src/core/ipv4/icmp.c]: definitions in [Ip4] (headers, routing, output), [Icmp],
      [UdpIo] and [IpInput]; [IpInput] ends with the instance of [Upper] by [ip4_input], so
      that a frame runs from the controller to the callback of its block and back.  The
      stack's own state (blocks, addresses of the packet in progress) lies above the
      controller's in [stack].  [IpOut] and [UdpOut] (sending), [IpHold], [IpIn] (receiving),
      [IcmpFacts], [IpArrive] (from the wire to the callback), [IcmpEcho], [IpThms],
      [IpSafe] ([ip4_input] returns on every branch: what [Upper] is asked for), [IpRuns].
      The callbacks of the application, TCP, fragments and DHCP are the class [Peers].
    - Timers, [lwip/src/core/timeouts.c]: [Timeouts] to [TimeoutLive]; what the protocol
      timers do is the class [Protocols].
    - Text, [lwip/src/core/def.c] and [lwip/src/core/ipv4/ip4_addr.c]: [Text] to
      [StringThms].
    - The application, [source/Audio.c], [source/DAC.c], [source/pit.c] with the driver
      functions they call, [lwip/contrib/apps/UDP/UDP.c], [lwip/contrib/apps/TCP/TCP.c]:
      [Audio], [UdpTask], [TcpTask] with their theorems, [AppRuns].

    This file holds the monad every component uses (a C function body ends with a value,
    a [return], a fault or out of fuel), arrays with bounds, and shared lemmas; [CInt]
    the integers of the target.

    ** What the theorems show

    - Clock: every call from a mode where it is allowed reaches its mode with the
      frequency the table says, refused calls change nothing, every call returns, the
      calls of a session refine the table; the start-up reaches its mode.
    - Memory: no sequence of calls of the heap and the pools breaks a list of blocks; what
      is in use is what the clients hold, aligned, large enough and apart; malloc and
      free are inverse.  Every packet operation does to the
      bytes of a packet what it is for, and no pbuf is leaked or freed twice.
    - Checksum: the three routines and the sums over chains equal the one's complement
      sum of the bytes; a computed checksum verifies; a changed byte is noticed.
    - ARP: over any sequence of ticks, received frames and packets to send, nothing
      faults, the table's invariant holds and the memory in use is accounted for, also with
      the modelled IP, UDP and ICMP behind it ([IpSafe]; no TCP, no fragments); a
      request is answered, a reply delivers the waiting packet with its bytes; entries
      end in time; the entry that is recycled is the one the code's order says.
    - UDP blocks: after any calls the list holds each bound block once, no block is lost, and
      no two blocks have one address and port; a new port is free and in the dynamic range;
      the search takes a connected block before one that is not, and then puts it in front.
    - UDP, IPv4 and ICMP: a datagram that is sent goes out as the bytes of its headers with
      checksums that verify; one that arrives for a block reaches its callback with exactly
      its payload; every error branch of [ip4_input] and [udp_input] releases the packet;
      an error message and the answer to a ping carry what the protocol says, and leave
      no memory behind.
    - Timers: no timer is lost, each fires in order, and a delayed check catches up: it
      calls the functions of its rounds, and returns when no timer is due.
    - Application: the playback index stays in its buffers under every interleaving of
      the interrupt with the receiving thread; what the menus do.

    Where memory can be missing, the other case of a theorem says so: [refused] and [no_ram]
    state that [pbuf_alloc] itself, called on the packets' memory at that point, finds none.

    Every theorem with hypotheses has a witness, in a [..Runs] file or at the end of the
    component's theorems: an application at a concrete input (allocator, hardware, packets), so that the hypotheses can hold.

    ** Fuel and bounds

    Loops over pbuf chains take the number of pbufs in the store as fuel ([fuel]); the
    theorems show that a chain never has more.  Loops over the heap take its size in
    headers, waits on hardware the counter of the code, with its type and its wrap-around
    ([poll] in [McgRegs]), the sweep of the
    ARP table its ten entries, the check of timers the bound of [TimeoutLive], walks over
    the UDP blocks the number of blocks, the search for a port the 0x4000 ports of the
    range (six blocks cannot have them all), routing the number of interfaces.  A theorem
    states that the call returns, with its result, never only what holds if it does.
    Integers are [Z] with the wrap-around of their width written out ([u8], [u16], [u32]).

    ** Checks that stop the system

    [source/lwipopts.h] does not define LWIP_NOASSERT, and [sys_assert] of
    [lwip/port/sys_arch.c] disables interrupts and loops for ever.  So a failed LWIP_ASSERT
    or LWIP_ERROR is [Fault], as an access without meaning is, and the statement after an
    LWIP_ERROR that would return an error code is not reached; the theorems that give a
    result show that no check fails.

    ** Not modelled

    - FreeRTOS, its queues, event groups and tasks, the device headers: not in the
      repository.  A received datagram, a message of a connection and the state of a queue
      are inputs of the application's models.
    - lwIP's TCP, its fragmentation and reassembly of IPv4, DHCP, DNS and the sequential API:
      each is a state machine of its own on top of what is modelled.  What the modelled
      code calls of them are operations of [Peers], of which no theorem assumes anything: those
      on sending are about packets that need no fragments ([one_piece]), those on receiving
      about packets that are no fragments and no TCP segments, or they end at the call.  Of
      the callbacks of the UDP blocks [IpSafe] asks that they return and keep the invariant.  IPv6, PPP, raw sockets and IGMP are compiled out by
      [source/lwipopts.h].
    - Between [ethernetif_input] and [ethernet_input] a packet waits in the mailbox of the
      stack's thread ([tcpip_input]); the model calls [ethernet_input] directly.
    - The vendor drivers, of which only the functions the firmware calls for sound are
      modelled, and the board files: register access without logic of the program.
    - The copy of a datagram into a sample buffer is one step of the model, although the
      interrupt can fall inside it: it reads one sample, old or new.
*)
From Stdlib Require Export ZArith Lia.
From stdpp Require Export base tactics option list numbers sets.

#[global] Open Scope Z_scope.
#[global] Unset Lia Cache.

(** ** Outcomes of a C function body

    [Ret a]: control reached the next statement with value [a].
    [Exit c]: a [return c;] statement was executed.
    [Fault]: the body performed an access C gives no meaning to
    (null dereference, use after free, out-of-bounds access).
    [Diverge]: a loop without exit used all its fuel. *)
Inductive outcome (A : Type) : Type :=
  | Ret (a : A)
  | Exit (code : Z)
  | Fault
  | Diverge.
Arguments Ret {A} a.
Arguments Exit {A} code.
Arguments Fault {A}.
Arguments Diverge {A}.

(** A command over a state [S]: the body of a C function that may [return]
    early. *)
Definition cmd (S A : Type) : Type := S -> outcome A * S.

Definition ret {S A : Type} (a : A) : cmd S A := fun s => (Ret a, s).

Definition bind {S A B : Type} (m : cmd S A) (k : A -> cmd S B) : cmd S B := fun s =>
  match m s with
  | (Ret a, s') => k a s'
  | (Exit c, s') => (Exit c, s')
  | (Fault, s') => (Fault, s')
  | (Diverge, s') => (Diverge, s')
  end.

Declare Scope c_scope.
Delimit Scope c_scope with c.
Notation "x <- m ;; k" := (bind m (fun x => k))
  (at level 100, m at next level, right associativity) : c_scope.
Notation "m1 ;;; m2" := (bind m1 (fun _ => m2))
  (at level 100, right associativity) : c_scope.
#[global] Open Scope c_scope.

(** [return c;] *)
Definition exit {S A : Type} (c : Z) : cmd S A := fun s => (Exit c, s).

(** [if (b) { return c; }] *)
Definition exit_if {S : Type} (b : bool) (c : Z) : cmd S unit :=
  if b then exit c else ret tt.

Definition fault {S A : Type} : cmd S A := fun s => (Fault, s).
Definition diverge {S A : Type} : cmd S A := fun s => (Diverge, s).

(** A pure read, and a pure change, of the state. *)
Definition gets {S A : Type} (f : S -> A) : cmd S A := fun s => (Ret (f s), s).
Definition modify {S : Type} (f : S -> S) : cmd S unit := fun s => (Ret tt, f s).

(** [assert(b)], [LWIP_ASSERT(.., b)] *)
Definition assert_ {S : Type} (b : bool) : cmd S unit := if b then ret tt else fault.

(** [LWIP_ERROR(.., b, handler)]: the build has assertions ([LWIP_NOASSERT] is not defined), so
    a failed check ends in [sys_assert], which never returns; the handler is not reached. *)
Definition LWIP_ERROR {S : Type} (b : bool) : cmd S unit := assert_ b.

(** Reading a C array, and copying bytes into one: out of bounds has no meaning. *)
Definition read_array {S : Type} (a : list Z) (k : Z) : cmd S Z :=
  if (0 <=? k) && (k <? Z.of_nat (length a)) then ret (nth (Z.to_nat k) a 0) else fault.

Definition write_list (a : list Z) (k : nat) (bs : list Z) : list Z :=
  take k a ++ bs ++ drop (k + length bs) a.

Definition write_array {S : Type} (a : list Z) (k : Z) (bs : list Z) : cmd S (list Z) :=
  if (0 <=? k) && (k + Z.of_nat (length bs) <=? Z.of_nat (length a))
  then ret (write_list a (Z.to_nat k) bs) else fault.

Definition read_bytes {S : Type} (a : list Z) (k n : Z) : cmd S (list Z) :=
  if (0 <=? k) && (0 <=? n) && (k + n <=? Z.of_nat (length a))
  then ret (take (Z.to_nat n) (drop (Z.to_nat k) a)) else fault.

(** [m1 && m2] on commands: the second operand runs only when the first
    one holds, so its volatile reads happen only then. *)
Definition andM {S : Type} (m1 m2 : cmd S bool) : cmd S bool :=
  b <- m1 ;; if b then m2 else ret false.

(** A call of a C function: its [return] ends the callee only. *)
Definition func {S : Type} (body : cmd S Z) : cmd S Z := fun s =>
  match body s with
  | (Exit c, s') => (Ret c, s')
  | r => r
  end.

(** ** Running a command whose first step is known *)
Lemma bind_ret {S A B : Type} (m : cmd S A) (k : A -> cmd S B) s a s' :
  m s = (Ret a, s') -> bind m k s = k a s'.
Proof. unfold bind. by intros ->. Qed.

Lemma bind_bind {S A B C : Type} (m : cmd S A) (k1 : A -> cmd S B) (k2 : B -> cmd S C) s :
  bind (bind m k1) k2 s = bind m (fun a => bind (k1 a) k2) s.
Proof. unfold bind. by destruct (m s) as [[] ?]. Qed.

Lemma assert_true {S : Type} b (s : S) : b = true -> assert_ b s = (Ret tt, s).
Proof. by intros ->. Qed.

Lemma LWIP_ERROR_true {S : Type} b (s : S) : b = true -> LWIP_ERROR b s = (Ret tt, s).
Proof. by intros ->. Qed.

(** [cstep H]: the first command of the goal's sequence runs as [H] says. *)
Tactic Notation "cstep" uconstr(H) := rewrite (bind_ret _ _ _ _ _ H).

(** ** Writing a run of elements into an array *)
Lemma write_array_at {S} (a bs : list Z) k (s : S) :
  0 <= k -> k + Z.of_nat (length bs) <= Z.of_nat (length a) ->
  write_array a k bs s = (Ret (write_list a (Z.to_nat k) bs), s).
Proof. intros Hk Hl. unfold write_array. by rewrite !(proj2 (Z.leb_le _ _)) by lia. Qed.

Lemma read_bytes_at {S} (a : list Z) k n (s : S) :
  0 <= k -> 0 <= n -> k + n <= Z.of_nat (length a) ->
  read_bytes a k n s = (Ret (take (Z.to_nat n) (drop (Z.to_nat k) a)), s).
Proof. intros Hk Hn Hl. unfold read_bytes. by rewrite !(proj2 (Z.leb_le _ _)) by lia. Qed.

Lemma write_list_length a k bs : (k + length bs <= length a)%nat ->
  length (write_list a k bs) = length a.
Proof. intros Hk. unfold write_list. rewrite !length_app, length_take, length_drop. lia. Qed.

Lemma write_list_app a k bs cs : (k + length bs + length cs <= length a)%nat ->
  write_list (write_list a k bs) (k + length bs) cs = write_list a k (bs ++ cs).
Proof.
  intros Hk. unfold write_list at 1 3.
  assert (Ht : take (k + length bs) (write_list a k bs) = take k a ++ bs).
  { unfold write_list. rewrite app_assoc.
    rewrite take_app_length' by (rewrite length_app, length_take; lia). done. }
  assert (Hd : drop (k + length bs + length cs) (write_list a k bs)
               = drop (k + length (bs ++ cs)) a).
  { unfold write_list. rewrite app_assoc.
    rewrite drop_app_ge by (rewrite length_app, length_take; lia).
    rewrite drop_drop. f_equal. rewrite !length_app, length_take. lia. }
  by rewrite Ht, Hd, <- !app_assoc.
Qed.

Lemma write_list_nil a k : write_list a k [] = a.
Proof. unfold write_list. cbn. rewrite Nat.add_0_r. apply take_drop. Qed.

(** ** Weakest preconditions of commands *)
Definition wp {S A : Type} (m : cmd S A) (Q : outcome A -> S -> Prop) (s : S) : Prop :=
  Q (m s).1 (m s).2.

Section wp_rules.
Context {S : Type}.
Implicit Types s : S.

Lemma wp_ret {A} (a : A) Q s : Q (Ret a) s -> wp (ret a : cmd S A) Q s.
Proof. done. Qed.

Lemma wp_exit {A} c (Q : outcome A -> S -> Prop) s : Q (Exit c) s -> wp (exit c : cmd S A) Q s.
Proof. done. Qed.

Lemma wp_bind {A B} (m : cmd S A) (k : A -> cmd S B) Q s :
  wp m (fun o s' => match o with
                    | Ret a => wp (k a) Q s'
                    | Exit c => Q (Exit c) s'
                    | Fault => Q Fault s'
                    | Diverge => Q Diverge s'
                    end) s ->
  wp (bind m k) Q s.
Proof.
  unfold wp, bind. destruct (m s) as [[a|c| |] s']; simpl; done.
Qed.

Lemma wp_exit_if (b : bool) c Q s :
  (if b then Q (Exit c) s else Q (Ret tt) s) -> wp (exit_if b c) Q s.
Proof. by destruct b. Qed.

Lemma wp_andM (m1 m2 : cmd S bool) Q s :
  wp m1 (fun o s' => match o with
                     | Ret true => wp m2 Q s'
                     | Ret false => Q (Ret false) s'
                     | Exit c => Q (Exit c) s'
                     | Fault => Q Fault s'
                     | Diverge => Q Diverge s'
                     end) s ->
  wp (andM m1 m2) Q s.
Proof.
  intros H. apply wp_bind. revert H. unfold wp.
  by destruct (m1 s) as [[[]|c| |] s'].
Qed.

Lemma wp_mono {A} (m : cmd S A) (P Q : outcome A -> S -> Prop) s :
  (forall o s', P o s' -> Q o s') -> wp m P s -> wp m Q s.
Proof. unfold wp; auto. Qed.

Lemma wp_func (m : cmd S Z) Q s :
  wp m (fun o s' => match o with
                    | Ret v | Exit v => Q (Ret v) s'
                    | Fault => Q Fault s'
                    | Diverge => Q Diverge s'
                    end) s ->
  wp (func m) Q s.
Proof. unfold wp, func. by destruct (m s) as [[] ?]. Qed.
End wp_rules.
