(* ===== verification/CInt.v ===== *)
(** * C integers of the target (ARM Cortex-M4, little endian)

    Fixed-width integers as [Z] with their wrap-around, C's truncating
    division, the 16/32-bit byte swaps of [lwip/src/core/def.c], and the
    alignment macro of [lwip/src/include/lwip/arch.h]. *)
From S2P Require Export Prelude.

(** ** Conversions to a fixed width *)
Definition u8 (x : Z) : Z := x mod 2 ^ 8.
Definition u16 (x : Z) : Z := x mod 2 ^ 16.
Definition u32 (x : Z) : Z := x mod 2 ^ 32.
Definition s16 (x : Z) : Z := (x + 2 ^ 15) mod 2 ^ 16 - 2 ^ 15.
Definition s32 (x : Z) : Z := (x + 2 ^ 31) mod 2 ^ 32 - 2 ^ 31.

(** [a / b] on [int]: truncation towards zero. *)
Definition cdiv (a b : Z) : Z := Z.quot a b.

(** A C condition holds when its value is not zero. *)
Definition truthy (x : Z) : bool := negb (x =? 0).

(** ** [def.c]: byte order *)
Definition PP_HTONS (x : Z) : Z :=
  Z.lor (Z.shiftl (Z.land x 0x00ff) 8) (Z.shiftr (Z.land x 0xff00) 8).

Definition PP_HTONL (x : Z) : Z :=
  Z.lor (Z.lor (Z.shiftl (Z.land x 0x000000ff) 24) (Z.shiftl (Z.land x 0x0000ff00) 8))
        (Z.lor (Z.shiftr (Z.land x 0x00ff0000) 8) (Z.shiftr (Z.land x 0xff000000) 24)).

Definition lwip_htons (n : Z) : Z := u16 (PP_HTONS n).
Definition lwip_htonl (n : Z) : Z := u32 (PP_HTONL n).

(** ** [arch.h]: [LWIP_MEM_ALIGN_SIZE], computed in [unsigned int] *)
Definition MEM_ALIGNMENT : Z := 4.
Definition LWIP_MEM_ALIGN_SIZE (size : Z) : Z :=
  Z.land (u32 (size + MEM_ALIGNMENT - 1)) (u32 (Z.lnot (MEM_ALIGNMENT - 1))).

(** ** Ranges *)
Lemma u8_range x : 0 <= u8 x < 256.
Proof. apply Z.mod_pos_bound. lia. Qed.
Lemma u16_range x : 0 <= u16 x < 65536.
Proof. apply Z.mod_pos_bound. lia. Qed.
Lemma u32_range x : 0 <= u32 x < 2 ^ 32.
Proof. apply Z.mod_pos_bound. lia. Qed.
Lemma s16_range x : - 2 ^ 15 <= s16 x < 2 ^ 15.
Proof. unfold s16. pose proof (Z.mod_pos_bound (x + 2 ^ 15) (2 ^ 16) ltac:(lia)). lia. Qed.
Lemma s32_range x : - 2 ^ 31 <= s32 x < 2 ^ 31.
Proof. unfold s32. pose proof (Z.mod_pos_bound (x + 2 ^ 31) (2 ^ 32) ltac:(lia)). lia. Qed.

Lemma u8_small x : 0 <= x < 256 -> u8 x = x.
Proof. apply Z.mod_small. Qed.
Lemma u16_small x : 0 <= x < 65536 -> u16 x = x.
Proof. apply Z.mod_small. Qed.
Lemma u32_small x : 0 <= x < 2 ^ 32 -> u32 x = x.
Proof. apply Z.mod_small. Qed.
Lemma s16_small x : - 2 ^ 15 <= x < 2 ^ 15 -> s16 x = x.
Proof. intros ?. unfold s16. rewrite Z.mod_small; lia. Qed.
Lemma s32_small x : - 2 ^ 31 <= x < 2 ^ 31 -> s32 x = x.
Proof. intros ?. unfold s32. rewrite Z.mod_small; lia. Qed.

Create HintDb cint discriminated.
#[export] Hint Resolve u8_range u16_range u32_range s16_range s32_range : cint.
Create Rewrite HintDb cwrap.
#[export] Hint Rewrite u8_small u16_small u32_small s16_small s32_small using lia : cwrap.

Lemma truthy_true x : truthy x = true <-> x <> 0.
Proof. unfold truthy. destruct (Z.eqb_spec x 0); naive_solver. Qed.
Lemma truthy_false x : truthy x = false <-> x = 0.
Proof. unfold truthy. destruct (Z.eqb_spec x 0); naive_solver. Qed.

(** ** Byte order: arithmetic reading and involution *)
Lemma land_ff x : Z.land x 0xff = x mod 256.
Proof. change 0xff with (Z.ones 8). by rewrite Z.land_ones by lia. Qed.

Lemma land_ffff x : Z.land x 0xffff = x mod 65536.
Proof. change 0xffff with (Z.ones 16). by rewrite Z.land_ones by lia. Qed.

Lemma lor_shiftl_add a b k :
  0 <= k -> 0 <= b < 2 ^ k -> Z.lor (Z.shiftl a k) b = a * 2 ^ k + b.
Proof.
  intros Hk Hb. rewrite <- Z.shiftl_mul_pow2 by done.
  assert (Hdisj : Z.land (Z.shiftl a k) b = 0).
  { apply Z.bits_inj'. intros i Hi. rewrite Z.land_spec, Z.bits_0.
    destruct (Z.lt_ge_cases i k).
    - by rewrite Z.shiftl_spec_low.
    - rewrite <- (Z.mod_small b (2 ^ k)) by done.
      rewrite Z.mod_pow2_bits_high by lia. apply andb_false_r. }
  rewrite <- Z.lxor_lor, <- Z.add_nocarry_lxor by done. done.
Qed.

Lemma shiftr_land_ff00 x : Z.shiftr (Z.land x 0xff00) 8 = (x / 256) mod 256.
Proof.
  rewrite Z.shiftr_land. change (Z.shiftr 0xff00 8) with (Z.ones 8).
  rewrite Z.land_ones, Z.shiftr_div_pow2 by lia. done.
Qed.

(** The 16-bit byte swap, read arithmetically. *)
Lemma PP_HTONS_arith x : PP_HTONS x = x mod 256 * 256 + (x / 256) mod 256.
Proof.
  unfold PP_HTONS. change 0x00ff with 0xff.
  rewrite land_ff, shiftr_land_ff00, lor_shiftl_add; [done|lia|].
  apply Z.mod_pos_bound. lia.
Qed.

Lemma PP_HTONS_range x : 0 <= PP_HTONS x < 65536.
Proof.
  rewrite PP_HTONS_arith.
  pose proof (Z.mod_pos_bound x 256 ltac:(lia)).
  pose proof (Z.mod_pos_bound (x / 256) 256 ltac:(lia)). lia.
Qed.

Lemma lwip_htons_arith x : lwip_htons x = x mod 256 * 256 + (x / 256) mod 256.
Proof.
  unfold lwip_htons. rewrite u16_small by apply PP_HTONS_range.
  apply PP_HTONS_arith.
Qed.

Lemma PP_HTONS_involutive x : 0 <= x < 65536 -> PP_HTONS (PP_HTONS x) = x.
Proof. intros. rewrite !PP_HTONS_arith. Z.to_euclidean_division_equations; lia. Qed.

(** The 32-bit byte swap on the four bytes of a word. *)
Definition word_of (b0 b1 b2 b3 : Z) : Z := b0 * 2 ^ 24 + b1 * 2 ^ 16 + b2 * 2 ^ 8 + b3.

Lemma land_byte x k : 0 <= k -> Z.land x (Z.shiftl 0xff k) = (x / 2 ^ k) mod 256 * 2 ^ k.
Proof.
  intros Hk. rewrite <- Z.shiftl_mul_pow2, <- land_ff, <- Z.shiftr_div_pow2 by done.
  apply Z.bits_inj'. intros i Hi. rewrite Z.land_spec, !Z.shiftl_spec, Z.land_spec by done.
  destruct (Z.lt_ge_cases i k).
  - rewrite !(Z.testbit_neg_r _ (i - k)) by lia. rewrite !andb_false_r. done.
  - rewrite Z.shiftr_spec by lia. by replace (i - k + k) with i by lia.
Qed.

Lemma lor_word b0 b1 b2 b3 : 0 <= b0 < 256 -> 0 <= b1 < 256 -> 0 <= b2 < 256 -> 0 <= b3 < 256 ->
  Z.lor (Z.shiftl b0 24) (Z.lor (Z.shiftl b1 16) (Z.lor (Z.shiftl b2 8) b3)) = word_of b0 b1 b2 b3.
Proof.
  intros. unfold word_of.
  rewrite (lor_shiftl_add b2 b3 8), (lor_shiftl_add b1 _ 16), (lor_shiftl_add b0 _ 24) by lia. lia.
Qed.

Lemma lwip_htonl_word b0 b1 b2 b3 : 0 <= b0 < 256 -> 0 <= b1 < 256 -> 0 <= b2 < 256 -> 0 <= b3 < 256 ->
  lwip_htonl (word_of b0 b1 b2 b3) = word_of b3 b2 b1 b0.
Proof.
  intros. unfold lwip_htonl, PP_HTONL. set (x := word_of b0 b1 b2 b3).
  change 0x000000ff with (Z.shiftl 0xff 0). change 0x0000ff00 with (Z.shiftl 0xff 8).
  change 0x00ff0000 with (Z.shiftl 0xff 16). change 0xff000000 with (Z.shiftl 0xff 24).
  rewrite !land_byte by lia.
  assert ((x / 2 ^ 0) mod 256 = b3) as -> by (unfold x, word_of; Z.to_euclidean_division_equations; lia).
  assert ((x / 2 ^ 8) mod 256 = b2) as -> by (unfold x, word_of; Z.to_euclidean_division_equations; lia).
  assert ((x / 2 ^ 16) mod 256 = b1) as -> by (unfold x, word_of; Z.to_euclidean_division_equations; lia).
  assert ((x / 2 ^ 24) mod 256 = b0) as -> by (unfold x, word_of; Z.to_euclidean_division_equations; lia).
  rewrite !Z.shiftr_div_pow2 by lia.
  replace (b1 * 2 ^ 16 / 2 ^ 8) with (b1 * 2 ^ 8) by (Z.to_euclidean_division_equations; lia).
  replace (b0 * 2 ^ 24 / 2 ^ 24) with b0 by (Z.to_euclidean_division_equations; lia).
  replace (Z.shiftl (b3 * 2 ^ 0) 24) with (Z.shiftl b3 24) by (f_equal; lia).
  replace (Z.shiftl (b2 * 2 ^ 8) 8) with (Z.shiftl b2 16) by (rewrite !Z.shiftl_mul_pow2 by lia; lia).
  replace (b1 * 2 ^ 8) with (Z.shiftl b1 8) by (rewrite Z.shiftl_mul_pow2; lia).
  rewrite <- Z.lor_assoc, lor_word by done. apply u32_small. unfold word_of. lia.
Qed.

(** [LWIP_MEM_ALIGN_SIZE] rounds up to a multiple of 4. *)
Lemma LWIP_MEM_ALIGN_SIZE_div x : 0 <= x <= 2 ^ 32 - 4 ->
  LWIP_MEM_ALIGN_SIZE x = 4 * ((x + 3) / 4).
Proof.
  intros Hx. unfold LWIP_MEM_ALIGN_SIZE. change MEM_ALIGNMENT with 4.
  change (u32 (Z.lnot (4 - 1))) with (Z.ldiff (Z.ones 32) (Z.ones 2)).
  replace (x + 4 - 1) with (x + 3) by lia. rewrite u32_small by lia.
  assert (Z.land (x + 3) (Z.ldiff (Z.ones 32) (Z.ones 2)) = Z.ldiff (x + 3) (Z.ones 2)) as ->.
  { apply Z.bits_inj'. intros i Hi. rewrite Z.land_spec, !Z.ldiff_spec.
    destruct (Z.lt_ge_cases i 32); [by rewrite Z.ones_spec_low by lia|].
    rewrite (Z.ones_spec_high 32) by lia. cbn. rewrite andb_false_r.
    rewrite <- (Z.mod_small (x + 3) (2 ^ 32)) by lia. by rewrite Z.mod_pow2_bits_high by lia. }
  rewrite Z.ldiff_ones_r, Z.shiftr_div_pow2, Z.shiftl_mul_pow2 by lia.
  change (2 ^ 2) with 4. lia.
Qed.

Lemma LWIP_MEM_ALIGN_SIZE_range x : 0 <= x <= 2 ^ 32 - 4 ->
  x <= LWIP_MEM_ALIGN_SIZE x <= x + 3.
Proof. intros Hx. rewrite LWIP_MEM_ALIGN_SIZE_div by done. Z.to_euclidean_division_equations; lia. Qed.
