(* ===== verification/McgRegs.v ===== *)
(** * The registers of the clock generator (MCG) and how the firmware reaches them

    [source/MCG.c] drives the K64 clock generator through memory-mapped
    registers whose layout is in the vendor's device header.  The header is not
    part of the repository: the field positions are the class [McgLayout], the
    hardware behind the registers is the class [McgHw], and both are arguments
    of everything that uses them. *)
From S2P Require Export CInt.

(** ** Registers *)
Inductive reg : Type :=
  | C1 | C2 | C3 | C4 | C5 | C6 | S_ | ATCVH | ATCVL | C7 | C8 | SC  (* MCG->... *)
  | CLKDIV1 | SCGC6                                                  (* SIM->... *)
  | RTC_TSR | RTC_TPR | RTC_CR | RTC_SR.                             (* RTC->... *)

#[export] Instance reg_eq_dec : EqDecision reg.
Proof. solve_decision. Defined.

(** MCG registers are bytes, SIM and RTC registers are words. *)
Definition reg_width (r : reg) : Z :=
  match r with
  | CLKDIV1 | SCGC6 | RTC_TSR | RTC_TPR | RTC_CR | RTC_SR => 32
  | _ => 8
  end.

(** ** Register fields named by the program *)
Inductive field : Type :=
  | CLKS | FRDIV | IREFS | IRCLKEN | IREFSTEN          (* C1 *)
  | RANGE0 | HGO0 | EREFS0 | LP | IRCS                 (* C2 *)
  | DMX32 | DRST_DRS | FCTRIM                          (* C4 *)
  | PRDIV0                                             (* C5 *)
  | PLLS | CME0 | VDIV0                                (* C6 *)
  | LOCK0 | PLLST | IREFST | CLKST | OSCINIT0 | IRCST  (* S *)
  | OSCSEL                                             (* C7 *)
  | CME1                                               (* C8 *)
  | ATME | ATMS | ATMF | FCRDIV                        (* SC *)
  | OUTDIV2 | OUTDIV4                                  (* CLKDIV1 *)
  | SCGC6_RTC                                          (* SCGC6 *)
  | RTC_OSCE                                           (* RTC_CR *)
  | RTC_TCE | RTC_TIF.                                 (* RTC_SR *)

#[export] Instance field_eq_dec : EqDecision field.
Proof. solve_decision. Defined.

Definition f_reg (f : field) : reg :=
  match f with
  | CLKS | FRDIV | IREFS | IRCLKEN | IREFSTEN => C1
  | RANGE0 | HGO0 | EREFS0 | LP | IRCS => C2
  | DMX32 | DRST_DRS | FCTRIM => C4
  | PRDIV0 => C5
  | PLLS | CME0 | VDIV0 => C6
  | LOCK0 | PLLST | IREFST | CLKST | OSCINIT0 | IRCST => S_
  | OSCSEL => C7
  | CME1 => C8
  | ATME | ATMS | ATMF | FCRDIV => SC
  | OUTDIV2 | OUTDIV4 => CLKDIV1
  | SCGC6_RTC => SCGC6
  | RTC_OSCE => RTC_CR
  | RTC_TCE | RTC_TIF => RTC_SR
  end.

(** Documented field widths (K64 reference manual, chapter MCG).  The width of
    [OSCSEL] differs between parts of the family and is left open. *)
Definition doc_width (f : field) : option Z :=
  match f with
  | CLKS | CLKST | RANGE0 | DRST_DRS => Some 2
  | FRDIV | FCRDIV => Some 3
  | FCTRIM | OUTDIV2 | OUTDIV4 => Some 4
  | PRDIV0 | VDIV0 => Some 5
  | OSCSEL => None
  | _ => Some 1
  end.

(** The device header: the place of every field.  Fields lie inside their
    register, those of one register do not overlap, and PRDIV0 and VDIV0 start
    at bit 0. *)
Class McgLayout := {
  f_shift : field -> Z;
  f_width : field -> Z;
  f_low : f_shift PRDIV0 = 0 /\ f_shift VDIV0 = 0;
  f_documented : forall f w, doc_width f = Some w -> f_width f = w;
  f_fits : forall f,
    0 <= f_shift f /\ 0 < f_width f /\ f_shift f + f_width f <= reg_width (f_reg f);
  f_disjoint : forall f g, f <> g -> f_reg f = f_reg g ->
    f_shift f + f_width f <= f_shift g \/ f_shift g + f_width g <= f_shift f
}.

Section Layout.
Context `{McgLayout}.

(** [MCG_x_f_MASK] *)
Definition MASK (f : field) : Z := Z.shiftl (Z.ones (f_width f)) (f_shift f).

(** [MCG_x_f(v)] *)
Definition FLD (f : field) (v : Z) : Z := Z.land (Z.shiftl v (f_shift f)) (MASK f).

(** [(x & MCG_x_f_MASK) >> MCG_x_f_SHIFT] *)
Definition GET (f : field) (x : Z) : Z := Z.shiftr (Z.land x (MASK f)) (f_shift f).
End Layout.

(** ** The device *)
Definition regfile := reg -> Z.

Definition upd (r : reg) (v : Z) (rf : regfile) : regfile :=
  fun r' => if decide (r' = r) then v else rf r'.

(** The hardware: whatever it does to the register file (and to its own hidden
    state [E]) between two accesses of the program. *)
Class McgHw (E : Type) := hw_tick : regfile -> E -> regfile * E.

(** Accesses are observable: the log lists them, latest first. *)
Inductive access : Type := Rd (r : reg) (v : Z) | Wr (r : reg) (v : Z).

Record dev (E : Type) := Dev { rf : regfile; hw : E; log : list access }.
Arguments Dev {E} _ _ _.
Arguments rf {E} _.
Arguments hw {E} _.
Arguments log {E} _.

Section Access.
Context `{McgLayout} {E : Type} `{McgHw E}.

(** A volatile read: the hardware acts, then the value is sampled. *)
Definition rd (r : reg) : cmd (dev E) Z := fun d =>
  let '(rf', e') := hw_tick (rf d) (hw d) in
  (Ret (rf' r), Dev rf' e' (Rd r (rf' r) :: log d)).

(** A volatile write, truncated to the register's width. *)
Definition wr (r : reg) (v : Z) : cmd (dev E) unit := fun d =>
  let v' := v mod 2 ^ reg_width r in
  (Ret tt, Dev (upd r v' (rf d)) (hw d) (Wr r v' :: log d)).

(** [R |= m] and [R &= ~m] *)
Definition set_bits (r : reg) (m : Z) : cmd (dev E) unit :=
  v <- rd r ;; wr r (Z.lor v m).
Definition clr_bits (r : reg) (m : Z) : cmd (dev E) unit :=
  v <- rd r ;; wr r (Z.land v (Z.lnot m)).

(** [R & MASK] and [!(R & MASK)] as conditions *)
Definition tst (f : field) : cmd (dev E) bool :=
  v <- rd (f_reg f) ;; ret (truthy (Z.land v (MASK f))).
Definition ntst (f : field) : cmd (dev E) bool :=
  b <- tst f ;; ret (negb b).

(** [((R & MASK) >> SHIFT) == n] *)
Definition fld_is (f : field) (n : Z) : cmd (dev E) bool :=
  v <- rd (f_reg f) ;; ret (GET f v =? n).

(** [for (i = 0; i < n; i++) { if (c) break; }] with the counter kept at the width
    of its C type: [w] is [s16] for the [short i] of most functions and [s32] for the
    [int i] of [fei_fee] and of the two RTC functions.  [n + 1] tests of [i < n] are
    enough when every count up to [n] fits the type ([poll_polls] in [McgFacts]); a
    count that wraps before [n] never ends the loop ([poll_wraps]). *)
Fixpoint poll_from (fuel : nat) (w : Z -> Z) (i n : Z) (c : cmd (dev E) bool) : cmd (dev E) unit :=
  match fuel with
  | O => diverge
  | S fuel =>
      if i <? n then b <- c ;; if b then ret tt else poll_from fuel w (w (i + 1)) n c
      else ret tt
  end.

Definition poll (w : Z -> Z) (n : Z) (c : cmd (dev E) bool) : cmd (dev E) unit :=
  poll_from (S (Z.to_nat n)) w 0 n c.

(** [for (i = 0; i < n; i++) { if (c) break; }
     if (!c) return code;] *)
Definition wait_for (w : Z -> Z) (n : Z) (c : cmd (dev E) bool) (code : Z) : cmd (dev E) unit :=
  poll w n c ;;; b <- c ;; exit_if (negb b) code.
End Access.
