(* ===== verification/Mcg.v ===== *)
(** * [source/MCG.c]: the clock-mode transition functions

    One definition per C function, over the device of [McgRegs].  The blocks
    the C functions repeat verbatim (mode guards, field updates, polling loops)
    are the shared definitions of the first two sections. *)
From Stdlib Require Import SpecFloat.
From S2P Require Export McgRegs.

(** Mode codes of [source/MCG.h]. *)
Definition BLPI := 1.
Definition FBI := 2.
Definition FEI := 3.
Definition FEE := 4.
Definition FBE := 5.
Definition BLPE := 6.
Definition PBE := 7.
Definition PEE := 8.

Section Mcg.
Context `{McgLayout} {E : Type} `{McgHw E}.
#[local] Abbreviation M := (cmd (dev E)).

(** ** Mode guards (the conditions at the head of every function) *)
Definition in_FEI : M bool := andM (fld_is CLKST 0) (andM (tst IREFST) (ntst PLLST)).
Definition in_FEE : M bool := andM (fld_is CLKST 0) (andM (ntst IREFST) (ntst PLLST)).
Definition in_PEE : M bool := andM (fld_is CLKST 3) (andM (ntst IREFST) (tst PLLST)).
Definition in_PBE : M bool :=
  andM (fld_is CLKST 2) (andM (ntst IREFST) (andM (tst PLLST) (ntst LP))).
Definition in_FBE : M bool :=
  andM (fld_is CLKST 2) (andM (ntst IREFST) (andM (ntst PLLST) (ntst LP))).
Definition in_BLPE : M bool := andM (fld_is CLKST 2) (andM (ntst IREFST) (tst LP)).
Definition in_FBI : M bool :=
  andM (fld_is CLKST 1) (andM (tst IREFST) (andM (ntst PLLST) (ntst LP))).
Definition in_BLPI : M bool :=
  andM (fld_is CLKST 1) (andM (tst IREFST) (andM (ntst PLLST) (tst LP))).

(** [if (!(in mode)) { return code; }] *)
Definition guard (mode : M bool) (code : Z) : M unit :=
  b <- mode ;; exit_if (negb b) code.

(** ** Repeated register updates *)

(** [if (hgo_val > 0) hgo_val = 1;] *)
Definition clamp_hgo (hgo_val : Z) : Z := if hgo_val >? 0 then 1 else hgo_val.

(** the [MCG_C2] update: clear RANGE0, HGO0, EREFS0 and write new values *)
Definition set_C2_osc (range hgo_val erefs_val : Z) : M unit :=
  t <- rd C2 ;;
  let t := u8 (Z.land t (Z.lnot (Z.lor (Z.lor (MASK RANGE0) (MASK HGO0)) (MASK EREFS0)))) in
  let t := u8 (Z.lor t (Z.lor (Z.lor (FLD RANGE0 range) (Z.shiftl hgo_val (f_shift HGO0)))
                              (Z.shiftl erefs_val (f_shift EREFS0)))) in
  wr C2 t.

(** RANGE from the external frequency *)
Definition range_of (crystal_val : Z) : Z :=
  if crystal_val <=? 40000 then 0 else if crystal_val <=? 8000000 then 1 else 2.

(** FRDIV from the external frequency *)
Definition frdiv_of (crystal_val : Z) : Z :=
  if crystal_val <=? 1250000 then 0
  else if crystal_val <=? 2500000 then 1
  else if crystal_val <=? 5000000 then 2
  else if crystal_val <=? 10000000 then 3
  else if crystal_val <=? 20000000 then 4
  else 5.

(** the [MCG_C1] update: clear CLKS, FRDIV, IREFS and write CLKS and FRDIV *)
Definition set_C1_ext (clks frdiv_val : Z) : M unit :=
  t <- rd C1 ;;
  let t := u8 (Z.land t (Z.lnot (Z.lor (Z.lor (MASK CLKS) (MASK FRDIV)) (MASK IREFS)))) in
  wr C1 (u8 (Z.lor t (Z.lor (FLD CLKS clks) (FLD FRDIV frdiv_val)))).

(** the [MCG_C5] and [MCG_C6] updates that configure and enable the PLL *)
Definition set_PLL (prdiv_val vdiv_val : Z) : M unit :=
  t <- rd C5 ;;
  wr C5 (u8 (Z.lor (u8 (Z.land t (Z.lnot (MASK PRDIV0)))) (FLD PRDIV0 (prdiv_val - 1)))) ;;;
  t <- rd C6 ;;
  wr C6 (u8 (Z.lor (u8 (Z.land t (Z.lnot (MASK VDIV0))))
                   (Z.lor (MASK PLLS) (FLD VDIV0 (vdiv_val - 24))))).

(** select the internal reference clock: set or clear IRCS *)
Definition select_irc (irc_select : Z) : M unit :=
  if truthy irc_select then set_bits C2 (MASK IRCS) else clr_bits C2 (MASK IRCS).

(** the frequency checks on the internal reference clock *)
Definition check_irc (irc_freq irc_select : Z) : M unit :=
  if negb (truthy irc_select)
  then exit_if ((irc_freq <? 31250) || (irc_freq >? 39063)) 0x31
  else exit_if ((irc_freq <? 3000000) || (irc_freq >? 5000000)) 0x32.

(** the frequency checks on the external clock *)
Definition check_ext (crystal_val erefs_val : Z) : M unit :=
  exit_if (crystal_val >? 50000000) 0x21 ;;;
  if truthy erefs_val
  then exit_if ((crystal_val <? 30000)
                || ((crystal_val >? 40000) && (crystal_val <? 3000000))
                || (crystal_val >? 32000000)) 0x22
  else ret tt.

(** wait until the internal reference switches to the requested IRC *)
Definition wait_irc (irc_select : Z) : M unit :=
  if negb (truthy irc_select)
  then wait_for s16 2000 (ntst IRCST) 0x13
  else wait_for s16 2000 (tst IRCST) 0x14.

(** the result of the functions that end on an internal reference clock *)
Definition irc_out (irc_freq irc_select : Z) : M Z :=
  if truthy irc_select
  then v <- rd SC ;; ret (cdiv irc_freq (u8 (Z.shiftl 1 (GET FCRDIV v))))
  else ret irc_freq.

(** wait for OSCINIT when the crystal oscillator is used *)
Definition wait_osc (w : Z -> Z) (n : Z) (erefs_val : Z) : M unit :=
  if truthy erefs_val then wait_for w n (tst OSCINIT0) 0x23 else ret tt.

(** [MCGOUT] from the PLL dividers actually programmed *)
Definition pll_out (prdiv vdiv crystal_val : Z) : Z := s32 (cdiv crystal_val prdiv * vdiv).

(** ** [fll_freq] *)
Definition fll_check (f lo hi elo ehi : Z) : M Z :=
  if f <? lo then exit elo else if f >? hi then exit ehi else ret f.

Definition fll_freq (fll_ref : Z) : M Z := func (
  dmx32 <- tst DMX32 ;;
  c4 <- rd C4 ;;
  let drs := GET DRST_DRS c4 in
  if (dmx32 : bool) then
    if drs =? 0 then fll_check (s32 (fll_ref * 732)) 20000000 25000000 0x33 0x34
    else if drs =? 1 then fll_check (s32 (fll_ref * 1464)) 40000000 50000000 0x35 0x36
    else if drs =? 2 then fll_check (s32 (fll_ref * 2197)) 60000000 75000000 0x37 0x38
    else fll_check (s32 (fll_ref * 2929)) 80000000 100000000 0x39 0x3A
  else
    if drs =? 0 then fll_check (s32 (fll_ref * 640)) 20000000 25000000 0x33 0x34
    else if drs =? 1 then fll_check (s32 (fll_ref * 1280)) 40000000 50000000 0x35 0x36
    else if drs =? 2 then fll_check (s32 (fll_ref * 1920)) 60000000 75000000 0x37 0x38
    else fll_check (s32 (fll_ref * 2560)) 80000000 100000000 0x39 0x3A).

(** [mcg_out = fll_freq(ref); if (mcg_out < 0x5B) { return mcg_out; }] *)
Definition fll_checked (fll_ref : Z) : M Z :=
  mcg_out <- fll_freq fll_ref ;;
  exit_if (mcg_out <? 0x5B) mcg_out ;;;
  ret mcg_out.

(** ** [what_mcg_mode], [clk_monitor_0] *)
Definition what_mcg_mode : M Z :=
  fei <- in_FEI ;; if (fei : bool) then ret FEI else
  pee <- in_PEE ;; if (pee : bool) then ret PEE else
  pbe <- in_PBE ;; if (pbe : bool) then ret PBE else
  fbe <- in_FBE ;; if (fbe : bool) then ret FBE else
  blpe <- in_BLPE ;; if (blpe : bool) then ret BLPE else
  blpi <- in_BLPI ;; if (blpi : bool) then ret BLPI else
  fbi <- in_FBI ;; if (fbi : bool) then ret FBI else
  fee <- in_FEE ;; if (fee : bool) then ret FEE else ret 0.

Definition clk_monitor_0 (en_dis : Z) : M unit :=
  if truthy en_dis then set_bits C6 (MASK CME0) else clr_bits C6 (MASK CME0).

(** ** Transitions between FEI, FEE, FBI, FBE *)

Definition fei_fbi (irc_freq irc_select : Z) : M Z := func (
  guard in_FEI 0x1 ;;;
  check_irc irc_freq irc_select ;;;
  select_irc irc_select ;;;
  t <- rd C1 ;;
  let t := u8 (Z.land t (Z.lnot (MASK CLKS))) in
  let t := u8 (Z.lor t (FLD CLKS 1)) in
  wr C1 t ;;;
  wait_irc irc_select ;;;
  wait_for s16 2000 (fld_is CLKST 1) 0x19 ;;;
  irc_out irc_freq irc_select).

Definition fbi_fei (slow_irc_freq : Z) : M Z := func (
  guard in_FBI 0x3 ;;;
  exit_if ((slow_irc_freq <? 31250) || (slow_irc_freq >? 39063)) 0x31 ;;;
  mcg_out <- fll_checked slow_irc_freq ;;
  t <- rd C1 ;;
  let t := u8 (Z.land t (Z.lnot (MASK CLKS))) in
  let t := u8 (Z.lor t (FLD CLKS 0)) in
  let t := u8 (Z.lor t (MASK IREFS)) in
  wr C1 t ;;;
  wait_for s16 2000 (tst IREFST) 0x12 ;;;
  wait_for s16 2000 (fld_is CLKST 0) 0x18 ;;;
  ret mcg_out).

Definition fbi_fbe (crystal_val hgo_val erefs_val : Z) : M Z := func (
  guard in_FBI 0x3 ;;;
  check_ext crystal_val erefs_val ;;;
  let hgo_val := clamp_hgo hgo_val in
  set_C2_osc (range_of crystal_val) hgo_val erefs_val ;;;
  let frdiv_val := frdiv_of crystal_val in
  set_C1_ext 2 frdiv_val ;;;
  wait_osc s16 10000 erefs_val ;;;
  wait_for s16 2000 (ntst IREFST) 0x11 ;;;
  wait_for s16 2000 (fld_is CLKST 2) 0x1A ;;;
  set_bits C6 (MASK CME0) ;;;
  ret crystal_val).

Definition fei_fbe (crystal_val hgo_val erefs_val : Z) : M Z := func (
  guard in_FEI 0x1 ;;;
  check_ext crystal_val erefs_val ;;;
  let hgo_val := clamp_hgo hgo_val in
  set_C2_osc (range_of crystal_val) hgo_val erefs_val ;;;
  let frdiv_val := frdiv_of crystal_val in
  set_C1_ext 2 frdiv_val ;;;
  wait_osc s16 10000 erefs_val ;;;
  wait_for s16 2000 (ntst IREFST) 0x11 ;;;
  wait_for s16 2000 (fld_is CLKST 2) 0x1A ;;;
  set_bits C6 (MASK CME0) ;;;
  ret crystal_val).

Definition fbe_fei (slow_irc_freq : Z) : M Z := func (
  guard in_FBE 0x4 ;;;
  exit_if ((slow_irc_freq <? 31250) || (slow_irc_freq >? 39063)) 0x31 ;;;
  mcg_out <- fll_checked slow_irc_freq ;;
  clr_bits C6 (MASK CME0) ;;;
  t <- rd C1 ;;
  let t := u8 (Z.land t (Z.lnot (MASK CLKS))) in
  let t := u8 (Z.lor t (MASK IREFS)) in
  wr C1 t ;;;
  wait_for s16 2000 (tst IREFST) 0x12 ;;;
  wait_for s16 2000 (fld_is CLKST 0) 0x18 ;;;
  ret mcg_out).

Definition fbe_fbi (irc_freq irc_select : Z) : M Z := func (
  guard in_FBE 0x4 ;;;
  check_irc irc_freq irc_select ;;;
  select_irc irc_select ;;;
  clr_bits C6 (MASK CME0) ;;;
  t <- rd C1 ;;
  let t := u8 (Z.land t (Z.lnot (MASK CLKS))) in
  let t := u8 (Z.lor t (Z.lor (FLD CLKS 1) (MASK IREFS))) in
  wr C1 t ;;;
  wait_irc irc_select ;;;
  wait_for s16 2000 (fld_is CLKST 1) 0x19 ;;;
  wait_for s16 2000 (tst IREFST) 0x12 ;;;
  irc_out irc_freq irc_select).

(** the FLL reference frequency is kept in a [short] here *)
Definition fbe_fee (crystal_val : Z) : M Z := func (
  guard in_FBE 0x4 ;;;
  c2 <- rd C2 ;;
  fll_ref_freq <-
    (if GET RANGE0 c2 >? 0 then
       c1 <- rd C1 ;; ret (s16 (cdiv crystal_val (Z.shiftl 32 (GET FRDIV c1))))
     else
       c2 <- rd C2 ;; ret (s16 (cdiv crystal_val (Z.shiftl 1 (GET RANGE0 c2))))) ;;
  mcg_out <- fll_checked fll_ref_freq ;;
  clr_bits C1 (MASK CLKS) ;;;
  wait_for s16 2000 (fld_is CLKST 0) 0x18 ;;;
  ret mcg_out).

Definition fee_fbe (crystal_val : Z) : M Z := func (
  guard in_FEE 0x2 ;;;
  set_bits C1 (FLD CLKS 2) ;;;
  wait_for s16 2000 (fld_is CLKST 2) 0x1A ;;;
  ret crystal_val).

Definition fee_fbi (irc_freq irc_select : Z) : M Z := func (
  guard in_FEE 0x2 ;;;
  check_irc irc_freq irc_select ;;;
  select_irc irc_select ;;;
  clr_bits C6 (MASK CME0) ;;;
  set_bits C1 (Z.lor (FLD CLKS 1) (MASK IREFS)) ;;;
  wait_irc irc_select ;;;
  wait_for s16 2000 (fld_is CLKST 1) 0x19 ;;;
  wait_for s16 2000 (tst IREFST) 0x12 ;;;
  irc_out irc_freq irc_select).

(** the FLL reference frequency from the RANGE field just written *)
Definition ext_fll_ref (crystal_val frdiv_val : Z) : M Z :=
  c2 <- rd C2 ;;
  ret (if GET RANGE0 c2 >? 0 then cdiv crystal_val (Z.shiftl 32 frdiv_val)
       else cdiv crystal_val (Z.shiftl 1 frdiv_val)).

Definition fbi_fee (crystal_val hgo_val erefs_val : Z) : M Z := func (
  guard in_FBI 0x3 ;;;
  check_ext crystal_val erefs_val ;;;
  let hgo_val := clamp_hgo hgo_val in
  set_C2_osc (range_of crystal_val) hgo_val erefs_val ;;;
  let frdiv_val := frdiv_of crystal_val in
  fll_ref_freq <- ext_fll_ref crystal_val frdiv_val ;;
  mcg_out <- fll_checked fll_ref_freq ;;
  set_C1_ext 0 frdiv_val ;;;
  wait_osc s16 10000 erefs_val ;;;
  wait_for s16 2000 (ntst IREFST) 0x11 ;;;
  wait_for s16 2000 (fld_is CLKST 0) 0x18 ;;;
  set_bits C6 (MASK CME0) ;;;
  ret mcg_out).

Definition fei_fee (crystal_val hgo_val erefs_val : Z) : M Z := func (
  guard in_FEI 0x1 ;;;
  check_ext crystal_val erefs_val ;;;
  let hgo_val := clamp_hgo hgo_val in
  set_C2_osc (range_of crystal_val) hgo_val erefs_val ;;;
  let frdiv_val := frdiv_of crystal_val in
  fll_ref_freq <- ext_fll_ref crystal_val frdiv_val ;;
  mcg_out <- fll_checked fll_ref_freq ;;
  set_C1_ext 0 frdiv_val ;;;
  wait_osc s32 20000000 erefs_val ;;;
  wait_for s32 2000 (ntst IREFST) 0x11 ;;;
  set_bits C6 (MASK CME0) ;;;
  ret mcg_out).

Definition fee_fei (slow_irc_freq : Z) : M Z := func (
  guard in_FEE 0x2 ;;;
  exit_if ((slow_irc_freq <? 31250) || (slow_irc_freq >? 39063)) 0x31 ;;;
  mcg_out <- fll_checked slow_irc_freq ;;
  clr_bits C6 (MASK CME0) ;;;
  set_bits C1 (MASK IREFS) ;;;
  wait_for s16 2000 (tst IREFST) 0x12 ;;;
  ret mcg_out).

(** ** Transitions through the PLL: PBE, PEE, BLPE *)

Definition pee_pbe (crystal_val : Z) : M Z := func (
  guard in_PEE 0x8 ;;;
  set_bits C1 (FLD CLKS 2) ;;;
  wait_for s16 2000 (fld_is CLKST 2) 0x1A ;;;
  ret crystal_val).

Definition pbe_pee (crystal_val : Z) : M Z := func (
  guard in_PBE 0x7 ;;;
  wait_for s16 2000 (tst LOCK0) 0x44 ;;;
  c5 <- rd C5 ;;
  let prdiv := u8 (Z.land c5 (MASK PRDIV0) + 1) in
  c6 <- rd C6 ;;
  let vdiv := u8 (Z.land c6 (MASK VDIV0) + 24) in
  clr_bits C1 (MASK CLKS) ;;;
  wait_for s16 2000 (fld_is CLKST 3) 0x1B ;;;
  ret (pll_out prdiv vdiv crystal_val)).

Definition pbe_fbe (crystal_val : Z) : M Z := func (
  guard in_PBE 0x7 ;;;
  clr_bits C6 (MASK PLLS) ;;;
  wait_for s16 2000 (ntst PLLST) 0x15 ;;;
  ret crystal_val).

Definition fbe_pbe (crystal_val prdiv_val vdiv_val : Z) : M Z := func (
  guard in_FBE 0x4 ;;;
  exit_if ((prdiv_val <? 1) || (prdiv_val >? 25)) 0x41 ;;;
  exit_if ((vdiv_val <? 24) || (vdiv_val >? 55)) 0x42 ;;;
  exit_if ((cdiv crystal_val prdiv_val <? 2000000)
           || (cdiv crystal_val prdiv_val >? 4000000)) 0x43 ;;;
  let pll_freq := s32 (cdiv crystal_val prdiv_val * vdiv_val) in
  exit_if ((pll_freq <? 48000000) || (pll_freq >? 100000000)) 0x45 ;;;
  set_PLL prdiv_val vdiv_val ;;;
  wait_for s16 2000 (tst PLLST) 0x16 ;;;
  wait_for s16 2000 (tst LOCK0) 0x44 ;;;
  ret crystal_val).

Definition pbe_blpe (crystal_val : Z) : M Z := func (
  guard in_PBE 0x7 ;;;
  set_bits C2 (MASK LP) ;;;
  ret crystal_val).

Definition blpe_pbe (crystal_val prdiv_val vdiv_val : Z) : M Z := func (
  guard in_BLPE 0x6 ;;;
  exit_if ((prdiv_val <? 1) || (prdiv_val >? 25)) 0x41 ;;;
  exit_if ((vdiv_val <? 24) || (vdiv_val >? 55)) 0x42 ;;;
  exit_if ((cdiv crystal_val prdiv_val <? 2000000)
           || (cdiv crystal_val prdiv_val >? 4000000)) 0x43 ;;;
  set_PLL prdiv_val vdiv_val ;;;
  clr_bits C2 (MASK LP) ;;;
  wait_for s16 2000 (tst PLLST) 0x16 ;;;
  wait_for s16 2000 (tst LOCK0) 0x44 ;;;
  ret crystal_val).

Definition blpe_fbe (crystal_val : Z) : M Z := func (
  guard in_BLPE 0x6 ;;;
  clr_bits C6 (MASK PLLS) ;;;
  clr_bits C2 (MASK LP) ;;;
  wait_for s16 2000 (ntst PLLST) 0x15 ;;;
  ret crystal_val).

Definition fbe_blpe (crystal_val : Z) : M Z := func (
  guard in_FBE 0x4 ;;;
  set_bits C2 (MASK LP) ;;;
  ret crystal_val).

(** ** Low-power internal modes *)

Definition fbi_blpi (irc_freq irc_select : Z) : M Z := func (
  guard in_FBI 0x3 ;;;
  set_bits C2 (MASK LP) ;;;
  irc_out irc_freq irc_select).

Definition blpi_fbi (irc_freq irc_select : Z) : M Z := func (
  guard in_BLPI 0x5 ;;;
  clr_bits C2 (MASK LP) ;;;
  irc_out irc_freq irc_select).

(** ** [pll_init]: from FEI to PEE in one call *)

Definition pll_init (crystal_val hgo_val erefs_val prdiv_val vdiv_val mcgout_select : Z) : M Z := func (
  guard in_FEI 0x1 ;;;
  exit_if (crystal_val >? 50000000) 0x21 ;;;
  (if truthy erefs_val
   then exit_if ((crystal_val <? 3000000) || (crystal_val >? 32000000)) 0x22
   else ret tt) ;;;
  let hgo_val := clamp_hgo hgo_val in
  exit_if ((prdiv_val <? 1) || (prdiv_val >? 25)) 0x41 ;;;
  exit_if ((vdiv_val <? 24) || (vdiv_val >? 55)) 0x42 ;;;
  let ref_freq := cdiv crystal_val prdiv_val in
  exit_if ((ref_freq <? 2000000) || (ref_freq >? 4000000)) 0x43 ;;;
  let pll_freq := s32 (cdiv crystal_val prdiv_val * vdiv_val) in
  exit_if ((pll_freq <? 48000000) || (pll_freq >? 100000000)) 0x45 ;;;
  set_C2_osc (if crystal_val <=? 8000000 then 1 else 2) hgo_val erefs_val ;;;
  let frdiv_val := frdiv_of crystal_val in
  set_C1_ext 2 frdiv_val ;;;
  wait_osc s16 20000 erefs_val ;;;
  wait_for s16 2000 (ntst IREFST) 0x11 ;;;
  wait_for s16 2000 (fld_is CLKST 2) 0x1A ;;;
  set_bits C6 (MASK CME0) ;;;
  set_PLL prdiv_val vdiv_val ;;;
  wait_for s16 2000 (tst PLLST) 0x16 ;;;
  wait_for s16 4000 (tst LOCK0) 0x44 ;;;
  c5 <- rd C5 ;;
  let prdiv := u8 (Z.land c5 (MASK PRDIV0) + 1) in
  c6 <- rd C6 ;;
  let vdiv := u8 (Z.land c6 (MASK VDIV0) + 24) in
  clr_bits C1 (MASK CLKS) ;;;
  wait_for s16 2000 (fld_is CLKST 3) 0x1B ;;;
  ret (pll_out prdiv vdiv crystal_val)).

(** [rtc_as_refclk] is declared in [MCG.h] but defined nowhere in the
    repository: it is an argument. *)
Definition fll_rtc_init (rtc_as_refclk : M unit) (clk_option crystal_val : Z) : M Z := func (
  rtc_as_refclk ;;;
  let pll_freq := 24 in
  ret pll_freq).

(** ** The RTC oscillator as FLL reference *)

(** [if (disable_rtc_tce) ...; if (disable_rtc_clk_gate) ...] *)
Definition rtc_undo (disable_rtc_tce disable_rtc_clk_gate : bool) : M unit :=
  (if disable_rtc_tce then clr_bits RTC_SR (MASK RTC_TCE) else ret tt) ;;;
  (if disable_rtc_clk_gate then clr_bits SCGC6 (MASK SCGC6_RTC) else ret tt).

Definition fei_fee_rtc (rtc_freq : Z) : M Z := func (
  guard in_FEI 0x1 ;;;
  exit_if ((rtc_freq >? 40000) || (rtc_freq <? 30000)) 0x24 ;;;
  gated <- ntst SCGC6_RTC ;;
  (if (gated : bool) then set_bits SCGC6 (MASK SCGC6_RTC) else ret tt) ;;;
  let disable_rtc_clk_gate := gated in
  stopped <- ntst RTC_TCE ;;
  (if (stopped : bool) then set_bits RTC_SR (MASK RTC_TCE) else ret tt) ;;;
  let disable_rtc_tce := stopped in
  osc_off <- ntst RTC_OSCE ;;
  (if (osc_off : bool) then set_bits RTC_CR (MASK RTC_OSCE) else ret tt) ;;;
  invalid <- tst RTC_TIF ;;
  (if (invalid : bool) then
     clr_bits RTC_SR (MASK RTC_TCE) ;;;
     wr RTC_TSR 0 ;;;
     set_bits RTC_SR (MASK RTC_TCE)
   else ret tt) ;;;
  tpr <- rd RTC_TPR ;;
  rtc_count <-
    (if tpr >? 0x6FFF then t <- rd RTC_TPR ;; ret (s32 (u32 (0x8000 - t)))
     else t <- rd RTC_TPR ;; ret (s32 (u32 (t + 4096)))) ;;
  poll s32 11250000 (t <- rd RTC_TPR ;; ret (t =? u32 rtc_count)) ;;;
  t <- rd RTC_TPR ;;
  (if negb (t =? u32 rtc_count)
   then rtc_undo disable_rtc_tce disable_rtc_clk_gate ;;; exit 0x25
   else ret tt) ;;;
  rtc_undo disable_rtc_tce disable_rtc_clk_gate ;;;
  set_bits C7 (MASK OSCSEL) ;;;
  t <- rd C1 ;;
  wr C1 (u8 (Z.land t (Z.lor (MASK IRCLKEN) (MASK IREFSTEN)))) ;;;
  wait_for s32 2000 (ntst IREFST) 0x11 ;;;
  mcg_out <- fll_checked rtc_freq ;;
  set_bits C8 (MASK CME1) ;;;
  ret mcg_out).

Definition fee_fei_rtc (slow_irc_freq : Z) : M Z := func (
  guard in_FEE 0x2 ;;;
  exit_if ((slow_irc_freq <? 31250) || (slow_irc_freq >? 39063)) 0x31 ;;;
  mcg_out <- fll_checked slow_irc_freq ;;
  clr_bits C8 (MASK CME1) ;;;
  set_bits C1 (MASK IREFS) ;;;
  wait_for s32 2000 (tst IREFST) 0x12 ;;;
  clr_bits C7 (MASK OSCSEL) ;;;
  ret mcg_out).

(** ** [atc]: auto-trim of an internal reference *)

(** [float] of the target: IEEE binary32, round to nearest even. *)
Definition f32 (z : Z) : spec_float := binary_normalize 24 128 z 0 false.
Definition f32_mul (a b : spec_float) : spec_float := SFmul 24 128 a b.
Definition f32_div (a b : spec_float) : spec_float := SFdiv 24 128 a b.

(** [(unsigned short)x] for a float in range: truncation towards zero. *)
Definition f32_to_u16 (x : spec_float) : Z :=
  match x with
  | S754_finite false m e =>
      u16 (if 0 <=? e then Z.pos m * 2 ^ e else Z.pos m / 2 ^ (- e))
  | _ => 0
  end.

(** the auto-trim compare value *)
Definition atcv_of (irc_select bus_clock_freq irc_freq : Z) : Z :=
  if truthy irc_select
  then f32_to_u16 (f32_mul (f32 128) (f32_mul (f32 21) (f32_div (f32 bus_clock_freq) (f32 irc_freq))))
  else f32_to_u16 (f32_mul (f32 21) (f32_div (f32 bus_clock_freq) (f32 irc_freq))).

(** [while (MCG->SC & MCG_SC_ATME_MASK) {}]: no bound in the code, so the
    number of polls is the argument [fuel]. *)
Fixpoint spin_ATME (fuel : nat) : M unit :=
  match fuel with
  | O => diverge
  | S n => b <- tst ATME ;; if (b : bool) then spin_ATME n else ret tt
  end.

(** [SIM->CLKDIV1 = orig_div; return code;] *)
Definition restore_exit (orig_div code : Z) : M unit := wr CLKDIV1 orig_div ;;; exit code.

Definition atc (fuel : nat) (irc_select irc_freq mcg_out_freq : Z) : M Z := func (
  let irc_select := if irc_select >? 0 then 1 else irc_select in
  mcg_mode <- what_mcg_mode ;;
  exit_if (negb (mcg_mode =? PEE) && negb (mcg_mode =? PBE) && negb (mcg_mode =? FBE)) 1 ;;;
  orig_div <- rd CLKDIV1 ;;
  let orig_div := s32 orig_div in
  let bus_clk_div_val := cdiv mcg_out_freq 16000000 in
  t <- rd CLKDIV1 ;;
  let t := Z.land (s32 t) (Z.lnot (Z.lor (MASK OUTDIV2) (MASK OUTDIV4))) in
  let t := Z.lor t (Z.lor (FLD OUTDIV2 bus_clk_div_val) (FLD OUTDIV4 bus_clk_div_val)) in
  wr CLKDIV1 t ;;;
  div <- rd CLKDIV1 ;;
  let bus_clock_freq :=
    s32 (u32 mcg_out_freq / u32 (Z.shiftr (Z.land div (MASK OUTDIV2)) 24 + 1)) in
  (if (bus_clock_freq <? 8000000) || (bus_clock_freq >? 16000000)
   then restore_exit orig_div 3 else ret tt) ;;;
  (if negb (truthy irc_select) then
     (if irc_freq <? 31250 then restore_exit orig_div 4 else ret tt) ;;;
     (if irc_freq >? 39062 then restore_exit orig_div 5 else ret tt)
   else
     (if irc_freq <? 3000000 then restore_exit orig_div 6 else ret tt) ;;;
     (if irc_freq >? 5000000 then restore_exit orig_div 7 else ret tt)) ;;;
  let atcv := atcv_of irc_select bus_clock_freq irc_freq in
  wr ATCVL (Z.land atcv 0xFF) ;;;
  wr ATCVH (Z.shiftr (Z.land atcv 0xFF00) 8) ;;;
  clr_bits SC (Z.lor (Z.lor (MASK ATME) (MASK ATMS)) (MASK ATMF)) ;;;
  set_bits SC (Z.lor (MASK ATME) (Z.shiftl irc_select (f_shift ATMS))) ;;;
  spin_ATME fuel ;;;
  failed <- tst ATMF ;;
  (if (failed : bool) then restore_exit orig_div 8
   else if negb (truthy irc_select) then
     a <- rd C3 ;;
     (if a =? 0xFF then restore_exit orig_div 9
      else b <- rd C3 ;; if b =? 0 then restore_exit orig_div 9 else ret tt)
   else
     a <- fld_is FCTRIM 0xF ;;
     (if (a : bool) then restore_exit orig_div 10
      else b <- fld_is FCTRIM 0 ;; if (b : bool) then restore_exit orig_div 10 else ret tt)) ;;;
  wr CLKDIV1 orig_div ;;;
  ret 0).

(** ** The clock start-up sequence of [main] ([source/TCP_UDP_AUDIO_main.c]) *)
Definition CLK_FREQ_HZ := 50000000.
Definition SLOW_IRC_FREQ := 32768.
Definition EXTERNAL_CLOCK := 0.
Definition LOW_POWER := 0.
Definition SLOW_IRC := 0.
Definition PLL0_PRDIV := 25.
Definition PLL0_VDIV := 30.

(** The four transitions, then [modeMCG = what_mcg_mode()].  Every result but the
    last is overwritten; here all of them are kept. *)
Definition main_clock : M (list Z * Z) :=
  f1 <- fei_fbi SLOW_IRC_FREQ SLOW_IRC ;;
  f2 <- fbi_fbe CLK_FREQ_HZ LOW_POWER EXTERNAL_CLOCK ;;
  f3 <- fbe_pbe CLK_FREQ_HZ PLL0_PRDIV PLL0_VDIV ;;
  f4 <- pbe_pee CLK_FREQ_HZ ;;
  modeMCG <- what_mcg_mode ;;
  ret ([f1; f2; f3; f4], modeMCG).
End Mcg.
