(* ===== verification/McgFacts.v ===== *)
(** * Field algebra and program logic for the clock generator

    - how the mask-and-shift expressions of the C code act on register fields;
    - rules to step through volatile accesses, for any hardware;
    - the documented contract of the clock hardware ([McgHwOk]) and the rules it
      adds for polling loops;
    - a concrete layout and a concrete hardware meeting the contract. *)
From S2P Require Export Mcg.

(** ** The K64 layout *)
Definition k64_shift (f : field) : Z :=
  match f with
  | CLKS => 6 | FRDIV => 3 | IREFS => 2 | IRCLKEN => 1 | IREFSTEN => 0
  | RANGE0 => 4 | HGO0 => 3 | EREFS0 => 2 | LP => 1 | IRCS => 0
  | DMX32 => 7 | DRST_DRS => 5 | FCTRIM => 1
  | PRDIV0 => 0
  | PLLS => 6 | CME0 => 5 | VDIV0 => 0
  | LOCK0 => 6 | PLLST => 5 | IREFST => 4 | CLKST => 2 | OSCINIT0 => 1 | IRCST => 0
  | OSCSEL => 0
  | CME1 => 5
  | ATME => 7 | ATMS => 6 | ATMF => 5 | FCRDIV => 1
  | OUTDIV2 => 24 | OUTDIV4 => 16
  | SCGC6_RTC => 29
  | RTC_OSCE => 8
  | RTC_TCE => 4 | RTC_TIF => 0
  end.

#[export] Instance k64 : McgLayout.
Proof.
  refine {| f_shift := k64_shift; f_width f := default 2 (doc_width f) |}.
  - done.
  - intros f w Hw. by rewrite Hw.
  - by intros []; cbn.
  - intros [] [] Hne Hr; cbn in *; solve [done | lia].
Defined.

(** ** A concrete hardware

    Every control register keeps its value; the status register follows the
    control registers one field per tick, in turn. *)
Definition k64_goal (rf : regfile) (f : field) : Z :=
  match f with
  | IREFST => GET IREFS (rf C1)
  | PLLST => GET PLLS (rf C6)
  | IRCST => GET IRCS (rf C2)
  | OSCINIT0 => GET EREFS0 (rf C2)
  | LOCK0 => if decide (GET PLLS (rf C6) = 1 /\ GET LP (rf C2) = 0) then 1 else 0
  | CLKST =>
      let c := GET CLKS (rf C1) in
      if decide (c = 0) then (if decide (GET PLLS (rf C6) = 1) then 3 else 0) else c
  | _ => 0
  end.

Definition put (f : field) (v x : Z) : Z :=
  Z.lor (Z.land x (Z.lnot (MASK f))) (FLD f v).

Definition status_turn (n : nat) : field :=
  match (n mod 6)%nat with
  | 0%nat => IREFST | 1%nat => CLKST | 2%nat => PLLST | 3%nat => LOCK0 | 4%nat => IRCST
  | _ => OSCINIT0
  end.

#[export] Instance k64_hw : McgHw nat := fun rf n =>
  let f := status_turn n in
  (upd S_ (put f (k64_goal rf f) (rf S_)) rf, Nat.succ n).

(** The state after reset: FEI, everything else 0. *)
Definition reset_dev : dev nat :=
  Dev (upd C1 (MASK IREFS) (upd S_ (MASK IREFST) (fun _ => 0))) 0%nat [].

Example boot : (main_clock reset_dev).1 = Ret ([32768; 50000000; 50000000; 60000000], PEE).
Proof. vm_compute. reflexivity. Qed.

(** ** Field algebra *)
Create Rewrite HintDb fields.

Section FieldAlgebra.
Context `{L : McgLayout}.

Lemma f_width_pos f : 0 < f_width f.
Proof. apply f_fits. Qed.

Lemma f_shift_nonneg f : 0 <= f_shift f.
Proof. apply f_fits. Qed.

Lemma MASK_spec f i : 0 <= i ->
  Z.testbit (MASK f) i = (f_shift f <=? i) && (i <? f_shift f + f_width f).
Proof.
  intros Hi. unfold MASK. rewrite Z.shiftl_spec by done.
  destruct (Z.leb_spec (f_shift f) i); simpl.
  - destruct (Z.ltb_spec i (f_shift f + f_width f)).
    + apply Z.ones_spec_low. lia.
    + apply Z.ones_spec_high. pose proof (f_width_pos f). lia.
  - apply Z.testbit_neg_r. lia.
Qed.

(** [GET f x] holds exactly the bits of field [f]. *)
Lemma GET_spec f x i : 0 <= i ->
  Z.testbit (GET f x) i = Z.testbit x (i + f_shift f) && (i <? f_width f).
Proof.
  intros Hi. pose proof (f_shift_nonneg f). unfold GET.
  rewrite Z.shiftr_spec, Z.land_spec, MASK_spec by lia. f_equal.
  destruct (Z.leb_spec (f_shift f) (i + f_shift f)); [|lia]. simpl.
  destruct (Z.ltb_spec i (f_width f)), (Z.ltb_spec (i + f_shift f) (f_shift f + f_width f));
    lia || done.
Qed.

Lemma GET_range f x : 0 <= GET f x < 2 ^ f_width f.
Proof.
  pose proof (f_width_pos f).
  replace (GET f x) with (GET f x mod 2 ^ f_width f); [apply Z.mod_pos_bound; lia|].
  apply Z.bits_inj'. intros i Hi. destruct (Z.lt_ge_cases i (f_width f)).
  - by rewrite Z.mod_pow2_bits_low.
  - rewrite Z.mod_pow2_bits_high by lia. rewrite GET_spec by done.
    destruct (Z.ltb_spec i (f_width f)); [lia|]. by rewrite andb_false_r.
Qed.

Lemma GET_lor f x y : GET f (Z.lor x y) = Z.lor (GET f x) (GET f y).
Proof.
  apply Z.bits_inj'. intros i Hi. rewrite Z.lor_spec, !GET_spec, Z.lor_spec by done.
  apply andb_orb_distrib_l.
Qed.

Lemma GET_ldiff f x y : GET f (Z.land x (Z.lnot y)) = Z.ldiff (GET f x) (GET f y).
Proof.
  pose proof (f_shift_nonneg f).
  apply Z.bits_inj'. intros i Hi.
  rewrite Z.ldiff_spec, !GET_spec, Z.land_spec, Z.lnot_spec by lia.
  destruct (Z.testbit x _), (Z.testbit y _), (_ <? _); done.
Qed.

Lemma GET_MASK_eq f : GET f (MASK f) = Z.ones (f_width f).
Proof.
  pose proof (f_shift_nonneg f). pose proof (f_width_pos f).
  apply Z.bits_inj'. intros i Hi. rewrite GET_spec, MASK_spec by lia.
  destruct (Z.ltb_spec i (f_width f)).
  - rewrite Z.ones_spec_low by lia.
    destruct (Z.leb_spec (f_shift f) (i + f_shift f)),
      (Z.ltb_spec (i + f_shift f) (f_shift f + f_width f)); lia || done.
  - rewrite Z.ones_spec_high by lia. apply andb_false_r.
Qed.

Lemma GET_MASK_ne f g : f <> g -> f_reg f = f_reg g -> GET f (MASK g) = 0.
Proof.
  intros Hne Hr. pose proof (f_disjoint f g Hne Hr) as Hd.
  pose proof (f_shift_nonneg f). pose proof (f_width_pos f). pose proof (f_width_pos g).
  apply Z.bits_inj'. intros i Hi. rewrite Z.bits_0, GET_spec, MASK_spec by lia.
  destruct (Z.ltb_spec i (f_width f)); [|apply andb_false_r].
  destruct (Z.leb_spec (f_shift g) (i + f_shift f)),
    (Z.ltb_spec (i + f_shift f) (f_shift g + f_width g)); lia || done.
Qed.

Lemma GET_FLD_eq f v : GET f (FLD f v) = v mod 2 ^ f_width f.
Proof.
  pose proof (f_shift_nonneg f). pose proof (f_width_pos f).
  rewrite <- Z.land_ones by lia.
  apply Z.bits_inj'. intros i Hi. unfold FLD.
  rewrite GET_spec, !Z.land_spec, MASK_spec, Z.shiftl_spec by lia.
  replace (i + f_shift f - f_shift f) with i by lia.
  destruct (Z.ltb_spec i (f_width f)).
  - rewrite Z.ones_spec_low by lia.
    destruct (Z.leb_spec (f_shift f) (i + f_shift f)),
      (Z.ltb_spec (i + f_shift f) (f_shift f + f_width f)); try lia.
    by rewrite !andb_true_r.
  - rewrite Z.ones_spec_high by lia. by rewrite !andb_false_r.
Qed.

Lemma GET_FLD_ne f g v : f <> g -> f_reg f = f_reg g -> GET f (FLD g v) = 0.
Proof.
  intros Hne Hr. pose proof (GET_MASK_ne f g Hne Hr) as Hm.
  pose proof (f_shift_nonneg f).
  apply Z.bits_inj'. intros i Hi. rewrite Z.bits_0.
  apply (f_equal (fun z => Z.testbit z i)) in Hm. revert Hm.
  unfold FLD. rewrite Z.bits_0, !GET_spec, Z.land_spec by lia.
  by destruct (Z.testbit (MASK g) _), (Z.testbit _ _), (_ <? _).
Qed.

(** A value below [2 ^ width] shifted to a field is that field's encoding. *)
Lemma shiftl_FLD f v : 0 <= v < 2 ^ f_width f -> Z.shiftl v (f_shift f) = FLD f v.
Proof.
  intros Hv. pose proof (f_shift_nonneg f). pose proof (f_width_pos f).
  apply Z.bits_inj'. intros i Hi. unfold FLD. rewrite Z.land_spec, MASK_spec by done.
  rewrite Z.shiftl_spec by done.
  destruct (Z.leb_spec (f_shift f) i); simpl.
  - destruct (Z.ltb_spec i (f_shift f + f_width f)); [by rewrite andb_true_r|].
    rewrite andb_false_r. rewrite <- (Z.mod_small v (2 ^ f_width f)) by done.
    apply Z.mod_pow2_bits_high. lia.
  - by rewrite Z.testbit_neg_r by lia.
Qed.

(** Truncating a value to its register keeps every field. *)
Lemma GET_mod f x : GET f (x mod 2 ^ reg_width (f_reg f)) = GET f x.
Proof.
  pose proof (f_fits f). apply Z.bits_inj'. intros i Hi. rewrite !GET_spec by done.
  destruct (Z.ltb_spec i (f_width f)); [|by rewrite !andb_false_r].
  rewrite Z.mod_pow2_bits_low by lia. done.
Qed.

Lemma GET_u8 f x : reg_width (f_reg f) = 8 -> GET f (u8 x) = GET f x.
Proof. intros Hw. unfold u8. rewrite <- Hw. apply GET_mod. Qed.

(** [x & MASK] is zero exactly when the field is. *)
Lemma truthy_GET f x : truthy (Z.land x (MASK f)) = negb (GET f x =? 0).
Proof.
  unfold truthy. f_equal. apply Bool.eq_iff_eq_true. rewrite !Z.eqb_eq.
  split; intros Hz; [unfold GET; by rewrite Hz, Z.shiftr_0_l|].
  pose proof (f_shift_nonneg f).
  apply Z.bits_inj'. intros i Hi. rewrite Z.land_spec, MASK_spec, Z.bits_0 by done.
  destruct (Z.leb_spec (f_shift f) i); [|apply andb_false_r]. simpl.
  apply (f_equal (fun z => Z.testbit z (i - f_shift f))) in Hz. revert Hz.
  rewrite Z.bits_0, GET_spec by lia. replace (i - f_shift f + f_shift f) with i by lia.
  destruct (Z.ltb_spec (i - f_shift f) (f_width f)),
    (Z.ltb_spec i (f_shift f + f_width f)); lia || done.
Qed.
End FieldAlgebra.
(** ** Polling loops

    [polls] is the loop without a counter; [poll] is that loop whenever every
    value of the counter up to the bound fits its type. *)
Definition counts (w : Z -> Z) (n : Z) : Prop := forall i, 0 <= i < n -> w (i + 1) = i + 1.

Lemma s16_counts n : n <= 32767 -> counts s16 n.
Proof. intros Hn i Hi. apply s16_small. lia. Qed.

Lemma s32_counts n : n <= 2147483647 -> counts s32 n.
Proof. intros Hn i Hi. apply s32_small. lia. Qed.

Ltac counted := first [apply s16_counts; lia | apply s32_counts; lia].

Section Polling.
Context `{L : McgLayout} {E : Type} `{H : McgHw E}.
Implicit Types (c : cmd (dev E) bool) (d : dev E).

Fixpoint polls (n : nat) c : cmd (dev E) unit :=
  match n with
  | O => ret tt
  | S n => b <- c ;; if b then ret tt else polls n c
  end.

Lemma poll_from_polls w n c k : forall fuel i d, counts w n -> 0 <= i ->
  i + Z.of_nat k = n -> (k < fuel)%nat -> poll_from fuel w i n c d = polls k c d.
Proof.
  induction k as [|k IH]; intros [|fuel] i d Hw Hi Hk Hf; try lia; cbn [poll_from polls].
  - by destruct (Z.ltb_spec i n); [lia|].
  - destruct (Z.ltb_spec i n); [|lia]. rewrite (Hw i) by lia.
    unfold bind. destruct (c d) as [[[]|?| |] d']; [done| |done..]. apply IH; [done|lia..].
Qed.

Lemma poll_polls w n c d : counts w n -> 0 <= n -> poll w n c d = polls (Z.to_nat n) c d.
Proof. intros Hw Hn. apply poll_from_polls; [done|lia..]. Qed.

(** A [short] never reaches a bound above 32767: such a loop ends by its
    condition only, whatever the fuel. *)
Lemma poll_wraps n c fuel : forall i d, 32767 < n -> i <= 32767 ->
  (forall d, exists d', c d = (Ret false, d')) -> (poll_from fuel s16 i n c d).1 = Diverge.
Proof.
  induction fuel as [|fuel IH]; intros i d Hn Hi Hc; [done|]. cbn [poll_from].
  destruct (Z.ltb_spec i n); [|lia]. destruct (Hc d) as [d' Hd]. unfold bind. rewrite Hd.
  apply IH; [done| |done]. pose proof (s16_range (i + 1)). lia.
Qed.
End Polling.
