(* ===== verification/McgLogic.v ===== *)
(** * The contract of the clock hardware and a program logic over it

    [McgHwOk] states what the K64 reference manual promises of the clock
    generator: control registers keep what software wrote, and once they stop
    changing the status fields reach the value the control fields ask for
    within a bounded number of accesses and stay there.  [At d a K] abstracts a
    device state: [a] gives the value of every control field and [K] lists the
    status fields known to have reached their goal. *)
From S2P Require Export McgFacts.

(** ** What the status register follows *)

(** Registers only software changes. *)
Definition is_ctl (r : reg) : bool :=
  match r with C1 | C2 | C5 | C6 | C7 | C8 => true | _ => false end.

(** Control fields: those of the control registers, and the FLL and fast-IRC
    dividers, which the trimming hardware of C4 and SC leaves alone. *)
Definition ctl_field (f : field) : bool :=
  is_ctl (f_reg f) || match f with DMX32 | DRST_DRS | FCRDIV => true | _ => false end.

(** The value a status field reaches for given control fields; [None] where
    the manual promises nothing. *)
Definition goal (a : field -> Z) (f : field) : option Z :=
  match f with
  | IREFST => Some (a IREFS)
  | PLLST => Some (a PLLS)
  | IRCST => Some (a IRCS)
  | CLKST =>
      if a CLKS =? 0 then Some (if a PLLS =? 1 then 3 else 0)
      else if a CLKS =? 3 then None else Some (a CLKS)
  | LOCK0 => if (a PLLS =? 1) && (a LP =? 0) then Some 1 else None
  | OSCINIT0 => if a EREFS0 =? 1 then Some 1 else None
  | _ => None
  end.

Definition status_fields : list field := [IREFST; PLLST; IRCST; CLKST; LOCK0; OSCINIT0].

Section Contract.
Context `{L : McgLayout} {E : Type} `{H : McgHw E}.

Definition fld (rf : regfile) (f : field) : Z := GET f (rf (f_reg f)).

(** [n] hardware steps *)
Definition ticks (n : nat) (rf : regfile) (e : E) : regfile * E :=
  Nat.iter n (fun p => hw_tick p.1 p.2) (rf, e).

(** The polling loops of the code give the hardware at least 2000 accesses. *)
Class McgHwOk := {
  settle_time : nat;
  settle_fast : (settle_time < 2000)%nat;
  tick_ctl : forall rf e r, is_ctl r = true -> (hw_tick rf e).1 r = rf r;
  tick_div : forall rf e f, ctl_field f = true -> fld (hw_tick rf e).1 f = fld rf f;
  tick_stays : forall rf e f v, goal (fld rf) f = Some v ->
    fld rf f = v -> fld (hw_tick rf e).1 f = v;
  tick_settles : forall rf e f v, goal (fld rf) f = Some v ->
    exists n, (n <= settle_time)%nat /\ fld (ticks n rf e).1 f = v
}.
End Contract.
Arguments McgHwOk {L} E {H}.

(** The concrete hardware meets the contract. *)
Lemma k64_hw_turn rf n :
  forall f, f_reg f = S_ -> fld (hw_tick rf n).1 f =
    if decide (f = status_turn n) then (k64_goal rf f) mod 2 ^ f_width f else fld rf f.
Proof.
  intros f Hf. unfold fld, hw_tick, k64_hw. cbn [fst]. rewrite Hf.
  unfold upd. rewrite decide_True by done. unfold put.
  assert (Hr : f_reg (status_turn n) = S_).
  { unfold status_turn. by destruct (n mod 6)%nat as [|[|[|[|[]]]]]. }
  rewrite GET_lor, GET_ldiff. case_decide as Hd.
  - subst f. rewrite GET_MASK_eq, GET_FLD_eq.
    rewrite Z.ldiff_ones_r by (pose proof (f_width_pos (status_turn n)); lia).
    pose proof (f_width_pos (status_turn n)).
    rewrite Z.shiftr_div_pow2, Z.div_small by (try apply GET_range; lia).
    by rewrite Z.shiftl_0_l, Z.lor_0_l.
  - rewrite GET_MASK_ne, GET_FLD_ne by congruence. by rewrite Z.ldiff_0_r, Z.lor_0_r.
Qed.

Lemma k64_goal_fld rf f v :
  goal (fld rf) f = Some v -> f_reg f = S_ /\ k64_goal rf f mod 2 ^ f_width f = v.
Proof.
  unfold goal, k64_goal, fld. cbn [f_reg].
  pose proof (GET_range CLKS (rf C1)). pose proof (GET_range IREFS (rf C1)).
  pose proof (GET_range PLLS (rf C6)). pose proof (GET_range IRCS (rf C2)).
  pose proof (GET_range LP (rf C2)). pose proof (GET_range EREFS0 (rf C2)).
  change (2 ^ f_width CLKS) with 4 in *. change (2 ^ f_width IREFS) with 2 in *.
  change (2 ^ f_width PLLS) with 2 in *. change (2 ^ f_width IRCS) with 2 in *.
  change (2 ^ f_width LP) with 2 in *. change (2 ^ f_width EREFS0) with 2 in *.
  destruct f; intros Hg; try done; split; try done.
  all: repeat (case_decide || case_match); simplify_eq; try lia.
  all: rewrite Z.mod_small by (simpl; lia); lia.
Qed.

Lemma ticks_S `{McgLayout} `{McgHw E} m rf e :
  ticks (S m) rf e = hw_tick (ticks m rf e).1 (ticks m rf e).2.
Proof. done. Qed.

(** Ticks leave all but the status register alone, so goals do not move. *)
Lemma k64_tick_ctl rf n r : r <> S_ -> (hw_tick rf n).1 r = rf r.
Proof.
  intros Hr. unfold hw_tick, k64_hw. cbn [fst]. unfold upd. by rewrite decide_False.
Qed.

Lemma k64_ticks_ctl m rf n r : r <> S_ -> (ticks m rf n).1 r = rf r.
Proof.
  intros Hr. induction m as [|m IH]; [done|]. by rewrite ticks_S, k64_tick_ctl.
Qed.

Lemma k64_ticks_goal m rf n f : goal (fld (ticks m rf n).1) f = goal (fld rf) f.
Proof.
  assert (forall g, f_reg g <> S_ -> fld (ticks m rf n).1 g = fld rf g) as Hg.
  { intros g Hr. unfold fld. by rewrite k64_ticks_ctl. }
  unfold goal. rewrite !Hg by done. done.
Qed.

Lemma k64_ticks_env m rf n : (ticks m rf n).2 = (m + n)%nat.
Proof.
  induction m as [|m IH]; [done|]. rewrite ticks_S.
  change (hw_tick (ticks m rf n).1 (ticks m rf n).2).2 with (Nat.succ (ticks m rf n).2).
  by rewrite IH.
Qed.

#[export] Instance k64_hw_ok : McgHwOk nat.
Proof.
  refine {| settle_time := 6%nat |}.
  - lia.
  - intros rf e r Hr. apply k64_tick_ctl. by intros ->.
  - intros rf e f Hf. unfold fld. rewrite k64_tick_ctl; [done|]. by destruct f.
  - intros rf e f v Hg Hv. destruct (k64_goal_fld _ _ _ Hg) as [Hr Hk].
    rewrite k64_hw_turn by done. case_decide; [by rewrite Hk|done].
  - intros rf e f v Hg. destruct (k64_goal_fld _ _ _ Hg) as [Hr Hk].
    assert (exists i, (i < 6)%nat /\ f = status_turn (i + e)) as (i & Hi & Hf).
    { pose proof (Nat.mod_upper_bound e 6 ltac:(lia)).
      assert (exists k, (k < 6)%nat /\ forall i, (i mod 6 = k)%nat -> f = status_turn i) as (k & Hk6 & Hturn).
      { destruct f; try done; unfold status_turn;
          [exists 3%nat|exists 2%nat|exists 0%nat|exists 1%nat|exists 5%nat|exists 4%nat];
          (split; [lia|by intros i ->]). }
      exists ((k + 6 - e mod 6) mod 6)%nat. split; [apply Nat.mod_upper_bound; lia|].
      apply Hturn. rewrite Nat.Div0.add_mod_idemp_l.
      replace (k + 6 - e mod 6 + e)%nat with (k + (1 + e / 6) * 6)%nat.
      - rewrite Nat.Div0.mod_add. apply Nat.mod_small. lia.
      - pose proof (Nat.div_mod_eq e 6). lia. }
    exists (S i). split; [lia|].
    rewrite ticks_S, k64_hw_turn, k64_ticks_env by done.
    rewrite decide_True by done.
    destruct (k64_goal_fld (ticks i rf e).1 f v) as [_ Hk']; [|done].
    by rewrite k64_ticks_goal.
Qed.

(** ** Abstract states and the rules of the accesses *)
Section Logic.
Context `{L : McgLayout} {E : Type} `{H : McgHw E} `{Hok : !McgHwOk E}.
Implicit Types (d : dev E) (a : field -> Z) (K : list field).

Record At d a K : Prop := {
  at_ctl : forall f, ctl_field f = true -> fld (rf d) f = a f;
  at_known : forall f v, f ∈ K -> goal a f = Some v -> fld (rf d) f = v
}.

(** Goals are functions of the control fields. *)
Lemma goal_ext a b f :
  (forall g, ctl_field g = true -> a g = b g) -> goal a f = goal b f.
Proof. intros Hab. unfold goal. by rewrite !Hab by done. Qed.

Lemma goal_status a f v : goal a f = Some v -> f_reg f = S_.
Proof. by destruct f. Qed.

Lemma fld_range (r : regfile) f : 0 <= fld r f < 2 ^ f_width f.
Proof. apply GET_range. Qed.

Lemma at_goal d a K f : At d a K -> goal (fld (rf d)) f = goal a f.
Proof. intros Hd. apply goal_ext. apply Hd. Qed.

Definition tick d l : dev E :=
  let p := hw_tick (rf d) (hw d) in Dev p.1 p.2 l.

Lemma at_tick d a K l : At d a K -> At (tick d l) a K.
Proof.
  intros Hd. split; cbn.
  - intros f Hf. rewrite tick_div by done. by apply Hd.
  - intros f v HK Hg. apply tick_stays.
    + by rewrite (at_goal _ _ _ _ Hd).
    + by apply Hd.
Qed.

Lemma at_mono d a K K' : (forall f, f ∈ K' -> f ∈ K) -> At d a K -> At d a K'.
Proof. intros HK [Hc Hk]. split; eauto. Qed.

(** The value a field shows in an abstract state. *)
Definition sees a K f v : Prop :=
  (ctl_field f = true /\ a f = v) \/ (f ∈ K /\ goal a f = Some v).

Lemma sees_fld d a K f v : At d a K -> sees a K f v -> fld (rf d) f = v.
Proof. intros Hd [[Hf <-]|[HK Hg]]; [by apply Hd|by eapply at_known]. Qed.

Lemma rd_tick r d : rd r d = (Ret (rf (tick d []) r), tick d (Rd r (rf (tick d []) r) :: log d)).
Proof. unfold rd, tick. by destruct (hw_tick _ _). Qed.

Lemma wp_rd_at r d a K Q :
  At d a K ->
  (forall v d', At d' a K ->
     (forall f w, f_reg f = r -> sees a K f w -> GET f v = w) -> Q (Ret v) d') ->
  wp (rd r) Q d.
Proof.
  intros Hd HQ. unfold wp. rewrite rd_tick. apply HQ; [by apply at_tick|].
  intros f w <- Hs. apply (sees_fld (tick d []) a K); [by apply at_tick|done].
Qed.

Lemma wp_tst_at f d a K v Q :
  At d a K -> sees a K f v ->
  (forall d', At d' a K -> Q (Ret (negb (v =? 0))) d') -> wp (tst f) Q d.
Proof.
  intros Hd Hs HQ. apply wp_bind. apply (wp_rd_at _ _ _ _ _ Hd). intros x d' Hd' Hx.
  apply wp_ret. rewrite truthy_GET, (Hx f v) by done. by apply HQ.
Qed.

Lemma wp_ntst_at f d a K v Q :
  At d a K -> sees a K f v ->
  (forall d', At d' a K -> Q (Ret (v =? 0)) d') -> wp (ntst f) Q d.
Proof.
  intros Hd Hs HQ. apply wp_bind, (wp_tst_at _ _ _ _ _ _ Hd Hs). intros d' Hd'.
  apply wp_ret. rewrite negb_involutive. by apply HQ.
Qed.

Lemma wp_fld_is_at f n d a K v Q :
  At d a K -> sees a K f v ->
  (forall d', At d' a K -> Q (Ret (v =? n)) d') -> wp (fld_is f n) Q d.
Proof.
  intros Hd Hs HQ. apply wp_bind, (wp_rd_at _ _ _ _ _ Hd). intros x d' Hd' Hx.
  apply wp_ret. rewrite (Hx f v) by done. by apply HQ.
Qed.

(** A write moves the control fields of its register, and forgets the status
    fields whose goal it moves. *)
Lemma wp_wr_at r v d a a' K K' Q :
  At d a K -> r <> S_ ->
  (forall f, ctl_field f = true -> f_reg f = r -> GET f v = a' f) ->
  (forall f, ctl_field f = true -> f_reg f <> r -> a' f = a f) ->
  (forall f, f ∈ K' -> f ∈ K /\ (goal a' f = goal a f \/ goal a' f = None)) ->
  (forall d', At d' a' K' -> Q (Ret tt) d') ->
  wp (wr r v) Q d.
Proof.
  intros Hd HrS Hin Hout HK HQ. unfold wp, wr. cbn. apply HQ. split; cbn.
  - intros f Hf. unfold fld, upd. case_decide as Hr.
    + rewrite <- Hr, GET_mod. by apply Hin.
    + rewrite Hout by done. by apply Hd.
  - intros f w Hf Hg. destruct (HK f Hf) as [HfK [Hgo|Hgo]]; [|congruence].
    unfold fld, upd. rewrite decide_False by (rewrite (goal_status _ _ _ Hg); congruence).
    apply (at_known _ _ _ Hd); congruence.
Qed.

(** ** Polling loops *)

(** The condition [c] samples status field [f] and tests it with [p]. *)
Definition samples (c : cmd (dev E) bool) f (p : Z -> bool) : Prop :=
  forall d, exists l, c d = (Ret (p (fld (rf (tick d [])) f)), tick d l).

Lemma tst_samples f : samples (tst f) f (fun v => negb (v =? 0)).
Proof.
  intros d. unfold tst, bind. rewrite rd_tick. eexists. cbn. by rewrite truthy_GET.
Qed.

Lemma ntst_samples f : samples (ntst f) f (fun v => v =? 0).
Proof.
  intros d. unfold ntst, bind. destruct (tst_samples f d) as [l ->].
  exists l. cbn. by rewrite negb_involutive.
Qed.

Lemma fld_is_samples f n : samples (fld_is f n) f (fun v => v =? n).
Proof. intros d. unfold fld_is, bind. rewrite rd_tick. by eexists. Qed.

Lemma ticks_shift n (r : regfile) e :
  ticks (S n) r e = ticks n (hw_tick r e).1 (hw_tick r e).2.
Proof.
  induction n as [|n IH]; [apply surjective_pairing|]. by rewrite ticks_S, IH, <- ticks_S.
Qed.

(** [p] holds of the value [v] and of no other value of [f]. *)
Definition pins f (p : Z -> bool) v : Prop :=
  p v = true /\ forall x, 0 <= x < 2 ^ f_width f -> p x = true -> x = v.

Lemma polls_finds c f p v a n : forall d K,
  samples c f p -> pins f p v -> At d a K -> goal a f = Some v -> (0 < n)%nat ->
  (exists k, (k <= n)%nat /\ fld (ticks k (rf d) (hw d)).1 f = v) ->
  exists d', polls n c d = (Ret tt, d') /\ At d' a (f :: K).
Proof.
  induction n as [|n IH]; intros d K Hc [Hpv Hp] Hd Hg Hn (k & Hk & Hv); [lia|].
  destruct (Hc d) as [l Hcd]. cbn [polls]. unfold bind. rewrite Hcd.
  assert (Hd' : At (tick d l) a K) by by apply at_tick.
  destruct (p (fld (rf (tick d [])) f)) eqn:Hpx.
  - exists (tick d l). split; [done|]. split; [apply Hd'|].
    intros g w [->|HK]%elem_of_cons Hgo; [|exact (at_known _ _ _ Hd' g w HK Hgo)].
    rewrite Hg in Hgo. injection Hgo as <-.
    apply Hp; [apply fld_range|exact Hpx].
  - assert (fld (rf (tick d [])) f <> v) as Hne by congruence.
    destruct k as [|k].
    { destruct Hne. cbn in Hv. apply tick_stays; [|done].
      by rewrite (at_goal _ _ _ _ Hd). }
    rewrite ticks_shift in Hv.
    assert ((0 < n)%nat).
    { destruct n as [|n]; [|lia]. assert (k = 0%nat) as -> by lia. done. }
    apply IH; [done|by split|done|done|done|].
    exists k. split; [lia|]. done.
Qed.

Lemma wp_wait_at w n c code f p v d a K Q :
  samples c f p -> pins f p v -> At d a K -> goal a f = Some v -> 2000 <= n -> counts w n ->
  (forall d', At d' a (f :: K) -> Q (Ret tt) d') ->
  wp (wait_for w n c code) Q d.
Proof.
  intros Hc Hp Hd Hg Hn Hw HQ. unfold wait_for. apply wp_bind.
  destruct (tick_settles (rf d) (hw d) f v) as (k & Hk & Hv).
  { by rewrite (at_goal _ _ _ _ Hd). }
  pose proof settle_fast.
  destruct (polls_finds c f p v a (Z.to_nat n) d K) as (d' & Hpoll & Hd');
    [done..|lia|exists k; split; [lia|done]|].
  unfold wp at 1. rewrite poll_polls by (done || lia). rewrite Hpoll. cbn. apply wp_bind.
  destruct (Hc d') as [l Hcd]. unfold wp at 1. rewrite Hcd. cbn [fst snd].
  assert (fld (rf (tick d' [])) f = v) as ->.
  { apply (at_known _ _ _ (at_tick _ _ _ [] Hd')); [left|done]. }
  destruct Hp as [-> _]. apply wp_ret, HQ. by apply at_tick.
Qed.

(** The three shapes of polling loop in [MCG.c]. *)
Lemma wp_wait_set w n code f d a K Q :
  f_width f = 1 -> At d a K -> goal a f = Some 1 -> 2000 <= n -> counts w n ->
  (forall d', At d' a (f :: K) -> Q (Ret tt) d') -> wp (wait_for w n (tst f) code) Q d.
Proof.
  intros Hf. apply wp_wait_at with (1 := tst_samples f).
  split; [done|]. rewrite Hf. intros x Hx. destruct (Z.eqb_spec x 0); simpl; [done|lia].
Qed.

Lemma wp_wait_clear w n code f d a K Q :
  At d a K -> goal a f = Some 0 -> 2000 <= n -> counts w n ->
  (forall d', At d' a (f :: K) -> Q (Ret tt) d') -> wp (wait_for w n (ntst f) code) Q d.
Proof.
  apply wp_wait_at with (1 := ntst_samples f). split; [done|]. intros x _. apply Z.eqb_eq.
Qed.

Lemma wp_wait_is w n code f v d a K Q :
  At d a K -> goal a f = Some v -> 2000 <= n -> counts w n ->
  (forall d', At d' a (f :: K) -> Q (Ret tt) d') -> wp (wait_for w n (fld_is f v) code) Q d.
Proof.
  apply wp_wait_at with (1 := fld_is_samples f v). split; [apply Z.eqb_refl|].
  intros x _. apply Z.eqb_eq.
Qed.
End Logic.
