(* ===== verification/McgModes.v ===== *)
(** * Clock modes: what the transition functions of [source/MCG.c] achieve

    [steady m d]: the device is in mode [m] and its status register shows it.
    For any hardware meeting [McgHwOk], a transition called in its start mode
    with parameters in range returns the new [MCGOUT] frequency and leaves the
    device steady in the end mode; called in any other mode it returns its error
    code and writes nothing. *)
From S2P Require Export McgLogic.

Inductive mode : Type := mFEI | mFEE | mFBI | mFBE | mBLPI | mBLPE | mPBE | mPEE.

#[export] Instance mode_eq_dec : EqDecision mode.
Proof. solve_decision. Defined.

(** The code [what_mcg_mode] gives a mode. *)
Definition mode_code (m : mode) : Z :=
  match m with
  | mFEI => FEI | mFEE => FEE | mFBI => FBI | mFBE => FBE
  | mBLPI => BLPI | mBLPE => BLPE | mPBE => PBE | mPEE => PEE
  end.

(** Control-field values of a mode.  BLPE leaves the PLL selection open. *)
Definition mode_cfg (m : mode) (a : field -> Z) : Prop :=
  match m with
  | mFEI => a CLKS = 0 /\ a IREFS = 1 /\ a PLLS = 0 /\ a LP = 0
  | mFEE => a CLKS = 0 /\ a IREFS = 0 /\ a PLLS = 0 /\ a LP = 0
  | mFBI => a CLKS = 1 /\ a IREFS = 1 /\ a PLLS = 0 /\ a LP = 0
  | mBLPI => a CLKS = 1 /\ a IREFS = 1 /\ a PLLS = 0 /\ a LP = 1
  | mFBE => a CLKS = 2 /\ a IREFS = 0 /\ a PLLS = 0 /\ a LP = 0
  | mBLPE => a CLKS = 2 /\ a IREFS = 0 /\ a LP = 1
  | mPBE => a CLKS = 2 /\ a IREFS = 0 /\ a PLLS = 1 /\ a LP = 0
  | mPEE => a CLKS = 0 /\ a IREFS = 0 /\ a PLLS = 1 /\ a LP = 0
  end.

Definition fset (f : field) (v : Z) (a : field -> Z) : field -> Z :=
  fun g => if decide (g = f) then v else a g.

Definition dropK (fs K : list field) : list field := filter (fun f => f ∉ fs) K.

Section Rules.
Context `{L : McgLayout} {E : Type} `{H : McgHw E} `{Hok : !McgHwOk E}.
Implicit Types (d : dev E) (a : field -> Z) (K : list field).

Definition steady (m : mode) d : Prop :=
  exists a, mode_cfg m a /\ At d a status_fields.

Lemma width_of f w : doc_width f = Some w -> f_width f = w.
Proof. apply f_documented. Qed.

Lemma GET_ldiff_ones f x : Z.ldiff (GET f x) (Z.ones (f_width f)) = 0.
Proof.
  pose proof (f_width_pos f).
  rewrite Z.ldiff_ones_r, Z.shiftr_div_pow2, Z.div_small by (try apply GET_range; lia).
  apply Z.shiftl_0_l.
Qed.

Lemma GET_lor_ones f x : Z.lor (GET f x) (Z.ones (f_width f)) = Z.ones (f_width f).
Proof.
  pose proof (f_width_pos f). apply Z.bits_inj'. intros i Hi.
  rewrite Z.lor_spec, GET_spec by done. destruct (Z.ltb_spec i (f_width f)).
  - rewrite Z.ones_spec_low by lia. apply orb_true_r.
  - by rewrite andb_false_r.
Qed.

Lemma at_ctl_range d a K f : At d a K -> ctl_field f = true -> 0 <= a f < 2 ^ f_width f.
Proof. intros Hd Hf. rewrite <- (at_ctl _ _ _ Hd f Hf). apply fld_range. Qed.

(** Moving one or more control fields of a register with a write, naming the
    status fields whose goal moves. *)
Lemma wp_set_at r v d a a' K fs Q :
  At d a K -> r <> S_ ->
  (forall f, ctl_field f = true -> f_reg f = r -> GET f v = a' f) ->
  (forall f, ctl_field f = true -> f_reg f <> r -> a' f = a f) ->
  (forall f, f ∉ fs -> goal a' f = goal a f \/ goal a' f = None) ->
  (forall d', At d' a' (dropK fs K) -> Q (Ret tt) d') ->
  wp (wr r v) Q d.
Proof.
  intros Hd HrS Hin Hout HK. apply (wp_wr_at _ _ _ _ _ _ _ _ Hd HrS Hin Hout).
  intros f [Hf HfK]%list_elem_of_filter. split; [done|]. by apply HK.
Qed.
End Rules.

(** Replace documented widths by their values. *)
Ltac widths :=
  repeat match goal with
         | |- context [f_width ?f] =>
             let w := eval compute in (doc_width f) in
             match w with Some ?n => rewrite (width_of f n eq_refl) end
         end.

(** [GET f (written value) = new field value], for the expressions of the code. *)
Ltac fields :=
  let f := fresh "f" in let Hc := fresh in let Hr := fresh in
  intros f Hc Hr; destruct f; try discriminate Hr; try discriminate Hc; clear Hc Hr;
  unfold fset;
  repeat first
    [ rewrite decide_True by reflexivity | rewrite decide_False by discriminate
    | rewrite GET_u8 by reflexivity | rewrite GET_lor | rewrite GET_ldiff
    | rewrite GET_MASK_eq | rewrite GET_ldiff_ones | rewrite GET_lor_ones
    | rewrite GET_MASK_ne by done | rewrite GET_FLD_eq | rewrite GET_FLD_ne by done
    | rewrite Z.lor_0_l | rewrite Z.lor_0_r | rewrite Z.ldiff_0_r ];
  try (match goal with
       | Hv : forall f w, f_reg f = _ -> sees _ _ f w -> GET f ?x = w |- GET ?g ?x = _ =>
           apply Hv; [reflexivity | left; by split]
       | |- _ mod 2 ^ f_width _ = _ =>
           widths; apply Z.mod_small; lia
       | |- Z.ones (f_width _) = 1 => widths; reflexivity
       | |- _ => reflexivity
       end).

(** [a' f = a f] outside the written register. *)
Ltac others :=
  let f := fresh "f" in let Hc := fresh in let Hr := fresh in
  intros f Hc Hr; destruct f; try discriminate Hc; try (exfalso; by apply Hr); reflexivity.

(** Goals of the status fields not named are unmoved. *)
Ltac goals :=
  let f := fresh "f" in let Hf := fresh in
  intros f Hf; destruct f; try (left; reflexivity); try (exfalso; apply Hf, (bool_decide_unpack _); exact I);
  unfold goal, fset;
  repeat first [ rewrite decide_True by reflexivity | rewrite decide_False by discriminate ];
  try (left; reflexivity);
  repeat match goal with
         | Ha : ?a ?f = _ |- context [?a ?f] => rewrite Ha
         end;
  rewrite ?andb_false_r;
  try (left; reflexivity); try (right; reflexivity).

(** ** Rules of the shared blocks *)
Section Blocks.
Context `{L : McgLayout} {E : Type} `{H : McgHw E} `{Hok : !McgHwOk E}.
Implicit Types (d : dev E) (a : field -> Z) (K : list field).

Lemma ctl_not_status f : ctl_field f = true -> f_reg f <> S_.
Proof. by destruct f. Qed.

Lemma fset_other f v a g : f_reg g <> f_reg f -> fset f v a g = a g.
Proof. intros Hr. unfold fset. by rewrite decide_False by (by intros ->). Qed.

Lemma wp_set_bit f d a K fs Q :
  At d a K -> ctl_field f = true -> doc_width f = Some 1 ->
  (forall g, g ∉ fs -> goal (fset f 1 a) g = goal a g \/ goal (fset f 1 a) g = None) ->
  (forall d', At d' (fset f 1 a) (dropK fs K) -> Q (Ret tt) d') ->
  wp (set_bits (f_reg f) (MASK f)) Q d.
Proof.
  intros Hd Hf Hw HK HQ. apply wp_bind, (wp_rd_at _ _ _ _ _ Hd). intros v d' Hd' Hv.
  apply (wp_set_at _ _ _ _ (fset f 1 a) _ fs _ Hd'); [by apply ctl_not_status| | |done|done].
  - intros g Hg Hr. rewrite GET_lor. unfold fset. case_decide as He.
    + subst g. by rewrite GET_MASK_eq, GET_lor_ones, (width_of _ _ Hw).
    + rewrite GET_MASK_ne, Z.lor_0_r by done. apply Hv; [done|by left].
  - intros g Hg Hr. by apply fset_other.
Qed.

(** [R |= m] in general. *)
Lemma wp_set_bits r m d a a' K fs Q :
  At d a K -> r <> S_ ->
  (forall v, (forall f w, f_reg f = r -> sees a K f w -> GET f v = w) ->
     forall f, ctl_field f = true -> f_reg f = r -> GET f (Z.lor v m) = a' f) ->
  (forall f, ctl_field f = true -> f_reg f <> r -> a' f = a f) ->
  (forall f, f ∉ fs -> goal a' f = goal a f \/ goal a' f = None) ->
  (forall d', At d' a' (dropK fs K) -> Q (Ret tt) d') ->
  wp (set_bits r m) Q d.
Proof.
  intros Hd Hr Hin Hout HK HQ. apply wp_bind, (wp_rd_at _ _ _ _ _ Hd). intros v d' Hd' Hv.
  apply (wp_set_at _ _ _ _ a' _ fs _ Hd'); auto.
Qed.

Lemma wp_clr_bit f d a K fs Q :
  At d a K -> ctl_field f = true ->
  (forall g, g ∉ fs -> goal (fset f 0 a) g = goal a g \/ goal (fset f 0 a) g = None) ->
  (forall d', At d' (fset f 0 a) (dropK fs K) -> Q (Ret tt) d') ->
  wp (clr_bits (f_reg f) (MASK f)) Q d.
Proof.
  intros Hd Hf HK HQ. apply wp_bind, (wp_rd_at _ _ _ _ _ Hd). intros v d' Hd' Hv.
  apply (wp_set_at _ _ _ _ (fset f 0 a) _ fs _ Hd'); [by apply ctl_not_status| | |done|done].
  - intros g Hg Hr. rewrite GET_ldiff. unfold fset. case_decide as He.
    + subst g. by rewrite GET_MASK_eq, GET_ldiff_ones.
    + rewrite GET_MASK_ne, Z.ldiff_0_r by done. apply Hv; [done|by left].
  - intros g Hg Hr. by apply fset_other.
Qed.

Lemma wp_set_C2_osc range hgo erefs d a K Q :
  At d a K -> 0 <= range <= 2 -> 0 <= hgo <= 1 -> 0 <= erefs <= 1 ->
  (forall d', At d' (fset RANGE0 range (fset HGO0 hgo (fset EREFS0 erefs a)))
                 (dropK [OSCINIT0] K) -> Q (Ret tt) d') ->
  wp (set_C2_osc range hgo erefs) Q d.
Proof.
  intros Hd Hr Hh He HQ. apply wp_bind, (wp_rd_at _ _ _ _ _ Hd). intros v d' Hd' Hv.
  rewrite !shiftl_FLD by (widths; lia).
  apply (wp_set_at _ _ _ _ (fset RANGE0 range (fset HGO0 hgo (fset EREFS0 erefs a)))
           _ [OSCINIT0] _ Hd'); [done|fields|others|goals|done].
Qed.

Lemma wp_set_C1_ext clks frdiv d a K Q :
  At d a K -> 0 <= clks <= 3 -> 0 <= frdiv <= 7 ->
  (forall d', At d' (fset CLKS clks (fset FRDIV frdiv (fset IREFS 0 a)))
                 (dropK [CLKST; IREFST] K) -> Q (Ret tt) d') ->
  wp (set_C1_ext clks frdiv) Q d.
Proof.
  intros Hd Hc Hf HQ. apply wp_bind, (wp_rd_at _ _ _ _ _ Hd). intros v d' Hd' Hv.
  apply (wp_set_at _ _ _ _ (fset CLKS clks (fset FRDIV frdiv (fset IREFS 0 a)))
           _ [CLKST; IREFST] _ Hd'); [done|fields|others|goals|done].
Qed.

(** The same when CLKS keeps its value. *)
Lemma wp_set_C1_ext_keep clks frdiv d a K Q :
  At d a K -> a CLKS = clks -> 0 <= clks <= 3 -> 0 <= frdiv <= 7 ->
  (forall d', At d' (fset CLKS clks (fset FRDIV frdiv (fset IREFS 0 a)))
                 (dropK [IREFST] K) -> Q (Ret tt) d') ->
  wp (set_C1_ext clks frdiv) Q d.
Proof.
  intros Hd Ha Hc Hf HQ. apply wp_bind, (wp_rd_at _ _ _ _ _ Hd). intros v d' Hd' Hv.
  apply (wp_set_at _ _ _ _ (fset CLKS clks (fset FRDIV frdiv (fset IREFS 0 a)))
           _ [IREFST] _ Hd'); [done|fields|others|goals|done].
Qed.

Lemma wp_select_irc s d a K Q :
  At d a K ->
  (forall d', At d' (fset IRCS (if truthy s then 1 else 0) a) (dropK [IRCST] K) -> Q (Ret tt) d') ->
  wp (select_irc s) Q d.
Proof.
  intros Hd HQ. unfold select_irc. destruct (truthy s).
  - apply (wp_set_bit IRCS _ _ _ [IRCST] _ Hd); [done|done|goals|done].
  - apply (wp_clr_bit IRCS _ _ _ [IRCST] _ Hd); [done|goals|done].
Qed.

(** The PLL dividers; needs CLKS on the external reference, so that CLKST does
    not depend on PLLS. *)
Lemma wp_set_PLL prdiv vdiv d a K Q :
  At d a K -> a CLKS = 2 -> 1 <= prdiv <= 25 -> 24 <= vdiv <= 55 ->
  (forall d', At d' (fset PLLS 1 (fset VDIV0 (vdiv - 24) (fset PRDIV0 (prdiv - 1) a)))
                 (dropK [PLLST; LOCK0] (dropK [] K)) -> Q (Ret tt) d') ->
  wp (set_PLL prdiv vdiv) Q d.
Proof.
  intros Hd HC Hp Hv HQ. apply wp_bind, (wp_rd_at _ _ _ _ _ Hd). intros v d1 Hd1 Hv1.
  apply wp_bind.
  apply (wp_set_at _ _ _ _ (fset PRDIV0 (prdiv - 1) a) _ [] _ Hd1);
    [done|fields|others|goals|intros d2 Hd2].
  apply wp_bind, (wp_rd_at _ _ _ _ _ Hd2). intros w d3 Hd3 Hv3.
  apply (wp_set_at _ _ _ _ (fset PLLS 1 (fset VDIV0 (vdiv - 24) (fset PRDIV0 (prdiv - 1) a)))
           _ [PLLST; LOCK0] _ Hd3); [done|fields|others|goals|done].
Qed.

(** ** [fll_freq] against its table *)

(** Multiplier, bounds and error codes for DMX32 and DRST_DRS. *)
Definition fll_row (dmx32 drs : Z) : Z * (Z * Z) * (Z * Z) :=
  match Z.to_nat drs with
  | 0%nat => (if dmx32 =? 0 then 640 else 732, (20000000, 25000000), (0x33, 0x34))
  | 1%nat => (if dmx32 =? 0 then 1280 else 1464, (40000000, 50000000), (0x35, 0x36))
  | 2%nat => (if dmx32 =? 0 then 1920 else 2197, (60000000, 75000000), (0x37, 0x38))
  | _ => (if dmx32 =? 0 then 2560 else 2929, (80000000, 100000000), (0x39, 0x3A))
  end.

Definition fll_spec (dmx32 drs ref : Z) : Z :=
  let '(mul, (lo, hi), (elo, ehi)) := fll_row dmx32 drs in
  let f := s32 (ref * mul) in
  if f <? lo then elo else if f >? hi then ehi else f.

Lemma wp_fll_check f lo hi elo ehi d (Q : Z -> dev E -> Prop) :
  Q (if f <? lo then elo else if f >? hi then ehi else f) d ->
  wp (fll_check f lo hi elo ehi)
     (fun o s => match o with Ret v | Exit v => Q v s | _ => False end) d.
Proof. unfold fll_check, wp. destruct (f <? lo); [done|]. by destruct (f >? hi). Qed.

Lemma wp_fll_freq ref d a K Q :
  At d a K ->
  (forall d', At d' a K -> Q (Ret (fll_spec (a DMX32) (a DRST_DRS) ref)) d') ->
  wp (fll_freq ref) Q d.
Proof.
  intros Hd HQ. apply wp_func, wp_bind.
  apply (wp_tst_at _ _ _ _ (a DMX32) _ Hd); [by left|]. intros d1 Hd1.
  apply wp_bind, (wp_rd_at _ _ _ _ _ Hd1). intros v d2 Hd2 Hv.
  rewrite (Hv DRST_DRS (a DRST_DRS)) by (done || by left).
  pose proof (at_ctl_range _ _ _ DRST_DRS Hd eq_refl) as Hr. revert Hr. widths. intros Hr.
  assert (forall v, Q (Ret v) d2 = (fun v s => Q (Ret v) s) v d2) as Hq by done.
  eapply wp_mono with (P := fun o s => match o with
                                      | Ret v | Exit v => v = fll_spec (a DMX32) (a DRST_DRS) ref /\ s = d2
                                      | _ => False end).
  { intros [x|x| |] s; try done; intros [-> ->]; by apply HQ. }
  assert (a DRST_DRS = 0 \/ a DRST_DRS = 1 \/ a DRST_DRS = 2 \/ a DRST_DRS = 3) as Hc by lia.
  unfold fll_spec, fll_row.
  destruct (a DMX32 =? 0); destruct Hc as [-> | [-> | [-> | ->]]]; cbn -[fll_check s32];
    apply (wp_fll_check _ _ _ _ _ _ (fun v s => v = _ /\ s = d2)); done.
Qed.

Lemma wp_fll_checked ref d a K Q :
  At d a K -> 0x5B <= fll_spec (a DMX32) (a DRST_DRS) ref ->
  (forall d', At d' a K -> Q (Ret (fll_spec (a DMX32) (a DRST_DRS) ref)) d') ->
  wp (fll_checked ref) Q d.
Proof.
  intros Hd Hok' HQ. apply wp_bind, (wp_fll_freq _ _ _ _ _ Hd). intros d' Hd'.
  apply wp_bind, wp_exit_if. destruct (Z.ltb_spec (fll_spec (a DMX32) (a DRST_DRS) ref) 0x5B); [lia|].
  by apply HQ.
Qed.

(** ** Results on the internal reference *)
Definition irc_value (irc_freq irc_select fcrdiv : Z) : Z :=
  if truthy irc_select then cdiv irc_freq (2 ^ fcrdiv) else irc_freq.

Lemma wp_irc_out f s d a K Q :
  At d a K -> (forall d', At d' a K -> Q (Ret (irc_value f s (a FCRDIV))) d') ->
  wp (irc_out f s) Q d.
Proof.
  intros Hd HQ. unfold irc_out, irc_value in *. destruct (truthy s); [|by apply wp_ret, HQ].
  apply wp_bind, (wp_rd_at _ _ _ _ _ Hd). intros v d' Hd' Hv. apply wp_ret.
  rewrite (Hv FCRDIV (a FCRDIV)) by (done || by left).
  pose proof (at_ctl_range _ _ _ FCRDIV Hd eq_refl) as Hr. revert Hr. widths. intros Hr.
  rewrite Z.shiftl_mul_pow2, Z.mul_1_l, u8_small by
    (pose proof (Z.pow_lt_mono_r 2 (a FCRDIV) 8); pose proof (Z.pow_pos_nonneg 2 (a FCRDIV)); lia).
  by apply HQ.
Qed.
End Blocks.

(** ** Mode guards *)
Section Guards.
Context `{L : McgLayout} {E : Type} `{H : McgHw E} `{Hok : !McgHwOk E}.
Implicit Types (d : dev E) (a : field -> Z) (K : list field).

Definition in_mode (m : mode) : cmd (dev E) bool :=
  match m with
  | mFEI => in_FEI | mFEE => in_FEE | mFBI => in_FBI | mFBE => in_FBE
  | mBLPI => in_BLPI | mBLPE => in_BLPE | mPBE => in_PBE | mPEE => in_PEE
  end.

(** [c] has the result [b] in every state described by [a] and [K], and does
    not leave that description. *)
Definition yields {A} a K (c : cmd (dev E) A) (b : A) : Prop :=
  forall d Q, At d a K -> (forall d', At d' a K -> Q (Ret b) d') -> wp c Q d.

Lemma yields_andM a K c1 c2 b1 b2 :
  yields a K c1 b1 -> yields a K c2 b2 -> yields a K (andM c1 c2) (b1 && b2).
Proof.
  intros H1 H2 d Q Hd HQ. apply wp_andM, (H1 _ _ Hd). intros d1 Hd1.
  destruct b1; [by apply (H2 _ _ Hd1)|by apply HQ].
Qed.

Lemma yields_tst a K f v : sees a K f v -> yields a K (tst f) (negb (v =? 0)).
Proof. intros Hs d Q Hd. by apply wp_tst_at. Qed.

Lemma yields_ntst a K f v : sees a K f v -> yields a K (ntst f) (v =? 0).
Proof. intros Hs d Q Hd. by apply wp_ntst_at. Qed.

Lemma yields_fld_is a K f n v : sees a K f v -> yields a K (fld_is f n) (v =? n).
Proof. intros Hs d Q Hd. by apply wp_fld_is_at. Qed.

Definition mode_clkst (m : mode) : Z :=
  match m with
  | mFEI | mFEE => 0 | mFBI | mBLPI => 1 | mFBE | mBLPE | mPBE => 2 | mPEE => 3
  end.

(** The clock status shown in a mode. *)
Lemma mode_CLKST m a : mode_cfg m a -> goal a CLKST = Some (mode_clkst m).
Proof.
  destruct m; cbn [mode_cfg]; intros Hm; destruct_and!; unfold goal;
    by repeat match goal with Hf : a _ = _ |- _ => rewrite Hf; clear Hf end.
Qed.

(** What the guard of a mode computes from CLKST, IREFST, PLLST and LP. *)
Definition guard_value (m : mode) (clkst irefst pllst lp : Z) : bool :=
  match m with
  | mFEI => (clkst =? 0) && (negb (irefst =? 0) && (pllst =? 0))
  | mFEE => (clkst =? 0) && ((irefst =? 0) && (pllst =? 0))
  | mPEE => (clkst =? 3) && ((irefst =? 0) && negb (pllst =? 0))
  | mPBE => (clkst =? 2) && ((irefst =? 0) && (negb (pllst =? 0) && (lp =? 0)))
  | mFBE => (clkst =? 2) && ((irefst =? 0) && ((pllst =? 0) && (lp =? 0)))
  | mBLPE => (clkst =? 2) && ((irefst =? 0) && negb (lp =? 0))
  | mFBI => (clkst =? 1) && (negb (irefst =? 0) && ((pllst =? 0) && (lp =? 0)))
  | mBLPI => (clkst =? 1) && (negb (irefst =? 0) && ((pllst =? 0) && negb (lp =? 0)))
  end.

Lemma mode_guard_value m m' a : mode_cfg m a ->
  guard_value m' (mode_clkst m) (a IREFS) (a PLLS) (a LP) = bool_decide (m' = m).
Proof.
  destruct m; cbn [mode_cfg]; intros Hm; destruct_and!;
    repeat match goal with Hf : a _ = _ |- _ => rewrite Hf in *; clear Hf end;
    destruct m'; try reflexivity; cbn; destruct (a PLLS =? 0); reflexivity.
Qed.

(** In a steady device a guard holds exactly in its own mode. *)
Lemma yields_in_mode m m' a : mode_cfg m a ->
  yields a status_fields (in_mode m') (bool_decide (m' = m)).
Proof.
  intros Hm.
  assert (Hc : sees a status_fields CLKST (mode_clkst m)).
  { right. split; [set_solver|by apply mode_CLKST]. }
  assert (Hi : sees a status_fields IREFST (a IREFS)) by (right; split; [set_solver|done]).
  assert (Hp : sees a status_fields PLLST (a PLLS)) by (right; split; [set_solver|done]).
  assert (Hl : sees a status_fields LP (a LP)) by by left.
  assert (Hy : yields a status_fields (in_mode m')
                 (guard_value m' (mode_clkst m) (a IREFS) (a PLLS) (a LP))).
  { destruct m'; repeat apply yields_andM;
      first [by apply yields_fld_is|by apply yields_tst|by apply yields_ntst]. }
  by rewrite (mode_guard_value m m' a Hm) in Hy.
Qed.

(** [guard]: passes in its own mode, returns the code in any other. *)
Lemma wp_guard_pass m code d a Q :
  mode_cfg m a -> At d a status_fields ->
  (forall d', At d' a status_fields -> Q (Ret tt) d') ->
  wp (guard (in_mode m) code) Q d.
Proof.
  intros Hm Hd HQ. apply wp_bind, (yields_in_mode m m a Hm _ _ Hd). intros d' Hd'.
  rewrite bool_decide_true by done. apply wp_exit_if. by apply HQ.
Qed.

Lemma wp_guard_stop m m' code d a (Q : outcome unit -> dev E -> Prop) :
  mode_cfg m a -> m' <> m -> At d a status_fields ->
  (forall d', At d' a status_fields -> Q (Exit code) d') ->
  wp (guard (in_mode m') code) Q d.
Proof.
  intros Hm Hne Hd HQ. apply wp_bind, (yields_in_mode m m' a Hm _ _ Hd). intros d' Hd'.
  rewrite bool_decide_false by done. apply wp_exit_if. by apply HQ.
Qed.

(** [what_mcg_mode] names the mode of a steady device. *)
Lemma wp_what_mcg_mode m d a Q :
  mode_cfg m a -> At d a status_fields ->
  (forall d', At d' a status_fields -> Q (Ret (mode_code m)) d') ->
  wp what_mcg_mode Q d.
Proof.
  intros Hm Hd HQ. unfold what_mcg_mode.
  repeat match goal with
  | Hd : At ?d a status_fields |- wp (bind ?c _) _ ?d =>
      let m' := match c with
                | in_FEI => mFEI | in_PEE => mPEE | in_PBE => mPBE | in_FBE => mFBE
                | in_BLPE => mBLPE | in_BLPI => mBLPI | in_FBI => mFBI | in_FEE => mFEE end in
      apply wp_bind, (yields_in_mode m m' a Hm _ _ Hd);
      let d' := fresh "d" in let Hd' := fresh "Hd" in intros d' Hd';
      case_bool_decide; [subst m; by apply wp_ret, HQ|]
  end.
  exfalso. by destruct m.
Qed.
End Guards.
