(* ===== verification/McgSpec.v ===== *)
(** * Specification of the mode transitions of [source/MCG.c]

    [transition] lists the calls between the eight modes of the generator with the
    oscillator OSC0 as external clock; [fei_fee_rtc] and [fee_fei_rtc], which also drive
    the real-time clock, join them in [McgProps.mcg_call].  For each one: the mode it
    starts from and ends in, the code it returns when called in another mode,
    the parameters it accepts, the frequency it returns and its effect on the
    control fields.  [transition_ok] proves the C functions meet this table. *)
From S2P Require Export McgModes.

Inductive transition : Type :=
  | T_fei_fbi (f s : Z) | T_fbi_fei (f : Z)
  | T_fbi_fbe (c h e : Z) | T_fei_fbe (c h e : Z) | T_fbe_fei (f : Z) | T_fbe_fbi (f s : Z)
  | T_fbe_fee (c : Z) | T_fee_fbe (c : Z) | T_fee_fbi (f s : Z)
  | T_fbi_fee (c h e : Z) | T_fei_fee (c h e : Z) | T_fee_fei (f : Z)
  | T_pee_pbe (c : Z) | T_pbe_pee (c : Z) | T_pbe_fbe (c : Z) | T_fbe_pbe (c p v : Z)
  | T_pbe_blpe (c : Z) | T_blpe_pbe (c p v : Z) | T_blpe_fbe (c : Z) | T_fbe_blpe (c : Z)
  | T_fbi_blpi (f s : Z) | T_blpi_fbi (f s : Z)
  | T_pll_init (c h e p v m : Z).

Definition from (t : transition) : mode :=
  match t with
  | T_fei_fbi _ _ | T_fei_fbe _ _ _ | T_fei_fee _ _ _ | T_pll_init _ _ _ _ _ _ => mFEI
  | T_fbi_fei _ | T_fbi_fbe _ _ _ | T_fbi_fee _ _ _ | T_fbi_blpi _ _ => mFBI
  | T_fbe_fei _ | T_fbe_fbi _ _ | T_fbe_fee _ | T_fbe_pbe _ _ _ | T_fbe_blpe _ => mFBE
  | T_fee_fbe _ | T_fee_fbi _ _ | T_fee_fei _ => mFEE
  | T_pee_pbe _ => mPEE
  | T_pbe_pee _ | T_pbe_fbe _ | T_pbe_blpe _ => mPBE
  | T_blpe_pbe _ _ _ | T_blpe_fbe _ => mBLPE
  | T_blpi_fbi _ _ => mBLPI
  end.

Definition to (t : transition) : mode :=
  match t with
  | T_fbi_fei _ | T_fbe_fei _ | T_fee_fei _ => mFEI
  | T_fei_fbi _ _ | T_fbe_fbi _ _ | T_fee_fbi _ _ | T_blpi_fbi _ _ => mFBI
  | T_fbi_fbe _ _ _ | T_fei_fbe _ _ _ | T_fee_fbe _ | T_pbe_fbe _ | T_blpe_fbe _ => mFBE
  | T_fbe_fee _ | T_fbi_fee _ _ _ | T_fei_fee _ _ _ => mFEE
  | T_pbe_pee _ | T_pll_init _ _ _ _ _ _ => mPEE
  | T_pee_pbe _ | T_fbe_pbe _ _ _ | T_blpe_pbe _ _ _ => mPBE
  | T_pbe_blpe _ | T_fbe_blpe _ => mBLPE
  | T_fbi_blpi _ _ => mBLPI
  end.

(** The code a mode's guard returns. *)
Definition guard_code (m : mode) : Z :=
  match m with
  | mFEI => 0x1 | mFEE => 0x2 | mFBI => 0x3 | mFBE => 0x4
  | mBLPI => 0x5 | mBLPE => 0x6 | mPBE => 0x7 | mPEE => 0x8
  end.

(** ** Accepted parameters *)
Definition slow_irc_ok (f : Z) : Prop := 31250 <= f <= 39063.

Definition irc_ok (f s : Z) : Prop :=
  if truthy s then 3000000 <= f <= 5000000 else slow_irc_ok f.

(** A square-wave clock ([e = 0]) or a crystal in one of the two ranges. *)
Definition ext_ok (c h e : Z) : Prop :=
  c <= 50000000 /\ 0 <= h <= 255 /\
  (e = 0 \/ e = 1 /\ (30000 <= c <= 40000 \/ 3000000 <= c <= 32000000)).

Definition div_ok (c p v : Z) : Prop :=
  1 <= p <= 25 /\ 24 <= v <= 55 /\ 2000000 <= cdiv c p <= 4000000.

Definition pll_ok (c p v : Z) : Prop :=
  div_ok c p v /\ 48000000 <= cdiv c p * v <= 100000000.

Definition ext_ref (c : Z) : Z :=
  if range_of c >? 0 then cdiv c (Z.shiftl 32 (frdiv_of c)) else cdiv c (Z.shiftl 1 (frdiv_of c)).

Definition fbe_fee_ref (a : field -> Z) (c : Z) : Z :=
  s16 (if a RANGE0 >? 0 then cdiv c (Z.shiftl 32 (a FRDIV)) else cdiv c (Z.shiftl 1 (a RANGE0))).

Definition fll_out (a : field -> Z) (ref : Z) : Z := fll_spec (a DMX32) (a DRST_DRS) ref.

Definition valid (t : transition) (a : field -> Z) : Prop :=
  match t with
  | T_fei_fbi f s | T_fbe_fbi f s | T_fee_fbi f s => irc_ok f s
  | T_fbi_fei f | T_fbe_fei f | T_fee_fei f => slow_irc_ok f /\ 0x5B <= fll_out a f
  | T_fbi_fbe c h e | T_fei_fbe c h e => ext_ok c h e
  | T_fbe_fee c => 0x5B <= fll_out a (fbe_fee_ref a c)
  | T_fbi_fee c h e | T_fei_fee c h e => ext_ok c h e /\ 0x5B <= fll_out a (ext_ref c)
  | T_fbe_pbe c p v => pll_ok c p v
  | T_blpe_pbe c p v => div_ok c p v
  | T_pll_init c h e p v _ =>
      pll_ok c p v /\ c <= 50000000 /\ 0 <= h <= 255 /\ (e = 0 \/ e = 1 /\ 3000000 <= c <= 32000000)
  | _ => True
  end.

(** ** Refused parameters: the code of the first check that fails

    The checks on the FLL output depend on the device and are not in this list. *)
Definition irc_refusal (f s : Z) : option Z :=
  if truthy s then if (f <? 3000000) || (f >? 5000000) then Some 0x32 else None
  else if (f <? 31250) || (f >? 39063) then Some 0x31 else None.

Definition slow_irc_refusal (f : Z) : option Z :=
  if (f <? 31250) || (f >? 39063) then Some 0x31 else None.

Definition ext_refusal (c e : Z) : option Z :=
  if c >? 50000000 then Some 0x21
  else if truthy e && ((c <? 30000) || ((c >? 40000) && (c <? 3000000)) || (c >? 32000000))
  then Some 0x22 else None.

Definition div_refusal (c p v : Z) : option Z :=
  if (p <? 1) || (p >? 25) then Some 0x41
  else if (v <? 24) || (v >? 55) then Some 0x42
  else if (cdiv c p <? 2000000) || (cdiv c p >? 4000000) then Some 0x43 else None.

Definition pll_refusal (c p v : Z) : option Z :=
  match div_refusal c p v with
  | Some n => Some n
  | None =>
      if (s32 (cdiv c p * v) <? 48000000) || (s32 (cdiv c p * v) >? 100000000)
      then Some 0x45 else None
  end.

Definition refusal (t : transition) : option Z :=
  match t with
  | T_fei_fbi f s | T_fbe_fbi f s | T_fee_fbi f s => irc_refusal f s
  | T_fbi_fei f | T_fbe_fei f | T_fee_fei f => slow_irc_refusal f
  | T_fbi_fbe c h e | T_fei_fbe c h e | T_fbi_fee c h e | T_fei_fee c h e => ext_refusal c e
  | T_fbe_pbe c p v => pll_refusal c p v
  | T_blpe_pbe c p v => div_refusal c p v
  | T_pll_init c h e p v _ =>
      if c >? 50000000 then Some 0x21
      else if truthy e && ((c <? 3000000) || (c >? 32000000)) then Some 0x22
      else pll_refusal c p v
  | _ => None
  end.

(** ** Returned frequency *)
Definition freq (t : transition) (a : field -> Z) : Z :=
  match t with
  | T_fei_fbi f s | T_fbe_fbi f s | T_fee_fbi f s | T_fbi_blpi f s | T_blpi_fbi f s =>
      irc_value f s (a FCRDIV)
  | T_fbi_fei f | T_fbe_fei f | T_fee_fei f => fll_out a f
  | T_fbe_fee c => fll_out a (fbe_fee_ref a c)
  | T_fbi_fee c _ _ | T_fei_fee c _ _ => fll_out a (ext_ref c)
  | T_pbe_pee c => s32 (cdiv c (a PRDIV0 + 1) * (a VDIV0 + 24))
  | T_pll_init c _ _ p v _ => cdiv c p * v
  | T_fbi_fbe c _ _ | T_fei_fbe c _ _ | T_fee_fbe c | T_pee_pbe c | T_pbe_fbe c
  | T_fbe_pbe c _ _ | T_pbe_blpe c | T_blpe_pbe c _ _ | T_blpe_fbe c | T_fbe_blpe c => c
  end.

(** ** Effect on the control fields *)
Definition irc_bit (s : Z) : Z := if truthy s then 1 else 0.

Definition osc_set (range c h e clks : Z) (a : field -> Z) : field -> Z :=
  fset CLKS clks (fset FRDIV (frdiv_of c) (fset IREFS 0
    (fset RANGE0 range (fset HGO0 (clamp_hgo h) (fset EREFS0 e a))))).

Definition pll_set (p v : Z) (a : field -> Z) : field -> Z :=
  fset PLLS 1 (fset VDIV0 (v - 24) (fset PRDIV0 (p - 1) a)).

Definition effect (t : transition) (a : field -> Z) : field -> Z :=
  match t with
  | T_fei_fbi f s => fset CLKS 1 (fset IRCS (irc_bit s) a)
  | T_fbi_fei f => fset CLKS 0 (fset IREFS 1 a)
  | T_fbi_fbe c h e | T_fei_fbe c h e => fset CME0 1 (osc_set (range_of c) c h e 2 a)
  | T_fbe_fei f => fset CLKS 0 (fset IREFS 1 (fset CME0 0 a))
  | T_fbe_fbi f s => fset CLKS 1 (fset IREFS 1 (fset CME0 0 (fset IRCS (irc_bit s) a)))
  | T_fbe_fee c => fset CLKS 0 a
  | T_fee_fbe c => fset CLKS 2 a
  | T_fee_fbi f s => fset CLKS 1 (fset IREFS 1 (fset CME0 0 (fset IRCS (irc_bit s) a)))
  | T_fbi_fee c h e | T_fei_fee c h e => fset CME0 1 (osc_set (range_of c) c h e 0 a)
  | T_fee_fei f => fset IREFS 1 (fset CME0 0 a)
  | T_pee_pbe c => fset CLKS 2 a
  | T_pbe_pee c => fset CLKS 0 a
  | T_pbe_fbe c => fset PLLS 0 a
  | T_fbe_pbe c p v => pll_set p v a
  | T_pbe_blpe c | T_fbe_blpe c => fset LP 1 a
  | T_blpe_pbe c p v => fset LP 0 (pll_set p v a)
  | T_blpe_fbe c => fset LP 0 (fset PLLS 0 a)
  | T_fbi_blpi f s => fset LP 1 a
  | T_blpi_fbi f s => fset LP 0 a
  | T_pll_init c h e p v _ =>
      fset CLKS 0 (pll_set p v (fset CME0 1
        (osc_set (if c <=? 8000000 then 1 else 2) c h e 2 a)))
  end.

(** The effect of a transition leads from its start mode to its end mode. *)
Lemma effect_mode t a : mode_cfg (from t) a -> mode_cfg (to t) (effect t a).
Proof.
  unfold effect, osc_set, pll_set, fset.
  destruct t; cbn [from to mode_cfg]; intros Hm; destruct_and!; split_and?; done.
Qed.

(** ** The abstract clock generator

    One call on the control fields: the value returned and the new fields. *)
#[export] Instance mode_cfg_dec m a : Decision (mode_cfg m a).
Proof. destruct m; apply _. Defined.

Definition abs_call (t : transition) (a : field -> Z) : Z * (field -> Z) :=
  if decide (mode_cfg (from t) a) then
    match refusal t with
    | Some code => (code, a)
    | None => (freq t a, effect t a)
    end
  else (guard_code (from t), a).

Fixpoint abs_session (ts : list transition) (a : field -> Z) : list Z * (field -> Z) :=
  match ts with
  | [] => ([], a)
  | t :: ts =>
      let '(v, a1) := abs_call t a in
      let '(vs, a2) := abs_session ts a1 in (v :: vs, a2)
  end.

(** A client that gives parameters in range to the calls that get past the mode
    guard and the static checks. *)
Fixpoint client_ok (ts : list transition) (a : field -> Z) : Prop :=
  match ts with
  | [] => True
  | t :: ts =>
      (mode_cfg (from t) a -> refusal t = None -> valid t a) /\ client_ok ts (abs_call t a).2
  end.

(** ** The calls *)
Section Run.
Context `{L : McgLayout} {E : Type} `{H : McgHw E}.

Definition run (t : transition) : cmd (dev E) Z :=
  match t with
  | T_fei_fbi f s => fei_fbi f s | T_fbi_fei f => fbi_fei f
  | T_fbi_fbe c h e => fbi_fbe c h e | T_fei_fbe c h e => fei_fbe c h e
  | T_fbe_fei f => fbe_fei f | T_fbe_fbi f s => fbe_fbi f s
  | T_fbe_fee c => fbe_fee c | T_fee_fbe c => fee_fbe c | T_fee_fbi f s => fee_fbi f s
  | T_fbi_fee c h e => fbi_fee c h e | T_fei_fee c h e => fei_fee c h e
  | T_fee_fei f => fee_fei f | T_pee_pbe c => pee_pbe c | T_pbe_pee c => pbe_pee c
  | T_pbe_fbe c => pbe_fbe c | T_fbe_pbe c p v => fbe_pbe c p v
  | T_pbe_blpe c => pbe_blpe c | T_blpe_pbe c p v => blpe_pbe c p v
  | T_blpe_fbe c => blpe_fbe c | T_fbe_blpe c => fbe_blpe c
  | T_fbi_blpi f s => fbi_blpi f s | T_blpi_fbi f s => blpi_fbi f s
  | T_pll_init c h e p v m => pll_init c h e p v m
  end.

(** A client's sequence of calls. *)
Fixpoint session (ts : list transition) : cmd (dev E) (list Z) :=
  match ts with
  | [] => ret []
  | t :: ts => v <- run t ;; vs <- session ts ;; ret (v :: vs)
  end.
End Run.
