(* ===== verification/McgThms.v ===== *)
(** * The mode transitions meet their specification

    One lemma per C function, all by stepping through the body with the rules
    of [McgLogic] and [McgModes]; then the theorems over all of them. *)
From Stdlib Require Import ZifyBool.
From S2P Require Export McgSpec.

(** A status goal, from the field values in context. *)
Ltac goal_eq :=
  unfold goal, osc_set, pll_set, fset, irc_bit;
  repeat first [ rewrite decide_True by reflexivity | rewrite decide_False by discriminate ];
  repeat match goal with Ha : ?a ?f = _ |- context [?a ?f] => rewrite Ha end;
  try reflexivity.

Section Checks.
Context `{L : McgLayout} {E : Type} `{H : McgHw E} `{Hok : !McgHwOk E}.
Implicit Types (d : dev E) (a : field -> Z) (K : list field).

Lemma wp_check_irc f s d (Q : outcome unit -> dev E -> Prop) :
  irc_ok f s -> Q (Ret tt) d -> wp (check_irc f s) Q d.
Proof.
  unfold irc_ok, slow_irc_ok, check_irc. intros Hf HQ.
  destruct (truthy s); cbn; apply wp_exit_if.
  - destruct (Z.ltb_spec f 3000000), (Z.gtb_spec f 5000000); simpl; lia || done.
  - destruct (Z.ltb_spec f 31250), (Z.gtb_spec f 39063); simpl; lia || done.
Qed.

Lemma wp_check_ext c h e d (Q : outcome unit -> dev E -> Prop) :
  ext_ok c h e -> Q (Ret tt) d -> wp (check_ext c e) Q d.
Proof.
  unfold ext_ok, check_ext. intros (Hc & Hh & He) HQ. apply wp_bind, wp_exit_if.
  destruct (Z.gtb_spec c 50000000); [lia|].
  destruct He as [-> | [-> He]]; [by apply wp_ret|]. cbn. apply wp_exit_if.
  destruct (Z.ltb_spec c 30000), (Z.gtb_spec c 40000), (Z.ltb_spec c 3000000),
    (Z.gtb_spec c 32000000); simpl; lia || done.
Qed.

Lemma wp_wait_irc s d a K Q :
  At d a K -> a IRCS = irc_bit s ->
  (forall d', At d' a (IRCST :: K) -> Q (Ret tt) d') -> wp (wait_irc s) Q d.
Proof.
  unfold irc_bit, wait_irc. intros Hd Ha HQ. destruct (truthy s); cbn.
  - apply (wp_wait_set _ _ _ IRCST _ _ _ _ (width_of IRCST 1 eq_refl) Hd); [goal_eq|lia|counted|done].
  - apply (wp_wait_clear _ _ _ IRCST _ _ _ _ Hd); [goal_eq|lia|counted|done].
Qed.

Lemma wp_wait_osc w n e d a K Q :
  At d a K -> (e = 0 \/ e = 1) -> a EREFS0 = e -> 2000 <= n -> counts w n ->
  (forall d', At d' a (OSCINIT0 :: K) -> Q (Ret tt) d') ->
  wp (wait_osc w n e) Q d.
Proof.
  unfold wait_osc. intros Hd He Ha Hn Hw HQ. destruct He as [-> | ->]; cbn.
  - apply wp_ret, HQ. destruct Hd as [Hc Hk]. split; [done|].
    intros f v [->|Hf]%elem_of_cons Hg; [|by apply Hk].
    unfold goal in Hg. by rewrite Ha in Hg.
  - apply (wp_wait_set _ _ _ OSCINIT0 _ _ _ _ (width_of OSCINIT0 1 eq_refl) Hd); [goal_eq|lia|done|done].
Qed.
End Checks.

Ltac nxt := let d' := fresh "d" in let Hd' := fresh "Hd" in intros d' Hd'.

(** The status fields whose goal moves with a control field. *)
Ltac moved f :=
  lazymatch f with
  | IRCS => constr:([IRCST]) | PLLS => constr:([PLLST]) | LP => constr:([LOCK0])
  | IREFS => constr:([IREFST]) | CLKS => constr:([CLKST]) | _ => constr:(@nil field)
  end.

(** One statement of a body. *)
Ltac step :=
  cbv zeta;
  lazymatch goal with
  | Hm : mode_cfg ?m ?a, Hd : At ?d ?a status_fields |- wp (bind (guard _ ?code) _) _ ?d =>
      apply wp_bind; refine (wp_guard_pass m code d a _ Hm Hd _); nxt; clear Hd
  | |- wp (bind (check_irc _ _) _) _ _ => apply wp_bind, wp_check_irc; [done|]
  | |- wp (bind (check_ext _ _) _) _ _ => apply wp_bind; eapply wp_check_ext; [eassumption|]
  | Hd : At ?d ?a ?K |- wp (bind (wait_irc _) _) _ ?d =>
      apply wp_bind, (wp_wait_irc _ _ _ _ _ Hd); [goal_eq|nxt; clear Hd]
  | Hd : At ?d ?a ?K |- wp (bind (wait_osc _ _ _) _) _ ?d =>
      apply wp_bind, (wp_wait_osc _ _ _ _ _ _ _ Hd); [lia|goal_eq|lia|counted|nxt; clear Hd]
  | |- wp (bind (exit_if ?b _) _) _ _ =>
      apply wp_bind, wp_exit_if; assert (b = false) as -> by lia
  | Hd : At ?d ?a ?K |- wp (bind (select_irc ?s) _) _ ?d =>
      apply wp_bind, (wp_select_irc s _ _ _ _ Hd); nxt; clear Hd
  | Hd : At ?d ?a ?K |- wp (bind (set_C2_osc _ _ _) _) _ ?d =>
      apply wp_bind, (wp_set_C2_osc _ _ _ _ _ _ _ Hd); [..|nxt; clear Hd]
  | Hd : At ?d ?a ?K |- wp (bind (set_C1_ext _ _) _) _ ?d =>
      apply wp_bind, (wp_set_C1_ext _ _ _ _ _ _ Hd); [..|nxt; clear Hd]
  | Hd : At ?d ?a ?K |- wp (bind (set_PLL _ _) _) _ ?d =>
      apply wp_bind, (wp_set_PLL _ _ _ _ _ _ Hd); [..|nxt; clear Hd]
  | Hd : At ?d ?a ?K |- wp (bind (set_bits _ (MASK ?f)) _) _ ?d =>
      let fs := moved f in
      apply wp_bind;
      first [ apply (wp_set_bit f _ _ _ [] _ Hd); [reflexivity|reflexivity|solve [goals]|]
            | apply (wp_set_bit f _ _ _ fs _ Hd); [reflexivity|reflexivity|goals|] ];
      nxt; clear Hd
  | Hd : At ?d ?a ?K |- wp (bind (clr_bits _ (MASK ?f)) _) _ ?d =>
      let fs := moved f in
      apply wp_bind;
      first [ apply (wp_clr_bit f _ _ _ [] _ Hd); [reflexivity|solve [goals]|]
            | apply (wp_clr_bit f _ _ _ fs _ Hd); [reflexivity|goals|] ];
      nxt; clear Hd
  | Hd : At ?d ?a ?K |- wp (bind (fll_checked _) _) _ ?d =>
      apply wp_bind, (wp_fll_checked _ _ _ _ _ Hd); [..|nxt; clear Hd]
  | Hd : At ?d ?a ?K |- wp (bind (wait_for _ _ (tst ?f) _) _) _ ?d =>
      apply wp_bind, (wp_wait_set _ _ _ f _ _ _ _ (width_of f 1 eq_refl) Hd);
      [try goal_eq|lia|counted|nxt; clear Hd]
  | Hd : At ?d ?a ?K |- wp (bind (wait_for _ _ (ntst ?f) _) _) _ ?d =>
      apply wp_bind, (wp_wait_clear _ _ _ f _ _ _ _ Hd); [try goal_eq|lia|counted|nxt; clear Hd]
  | Hd : At ?d ?a ?K |- wp (bind (wait_for _ _ (fld_is ?f ?v) _) _) _ ?d =>
      apply wp_bind, (wp_wait_is _ _ _ f v _ _ _ _ Hd); [try goal_eq|lia|counted|nxt; clear Hd]
  | Hd : At ?d ?a ?K |- wp (bind (rd ?r) _) _ ?d =>
      let v := fresh "v" in let d' := fresh "d" in
      let Hd' := fresh "Hd" in let Hv := fresh "Hv" in
      apply wp_bind, (wp_rd_at _ _ _ _ _ Hd); intros v d' Hd' Hv; clear Hd
  | Hd : At ?d ?a ?K |- wp (irc_out _ _) _ ?d =>
      apply (wp_irc_out _ _ _ _ _ _ Hd); nxt; clear Hd
  | |- wp (ret _) _ _ => apply wp_ret
  end.

(** A write of a register just read: the new control fields, and the status
    fields whose goal they move. *)
Ltac put a' fs :=
  cbv zeta;
  let a'' := eval cbv [effect osc_set pll_set irc_bit] in a' in
  match goal with
  | Hd : At ?d ?a ?K |- wp (bind (wr ?r ?v) _) _ ?d =>
      apply wp_bind, (wp_set_at _ _ _ _ a'' _ fs _ Hd);
      [discriminate|fields|others|goals|nxt; clear Hd]
  end.

(** [R |= m] on a multi-bit field whose present value is known. *)
Ltac put_bits a' fs :=
  let a'' := eval cbv [effect osc_set pll_set irc_bit] in a' in
  match goal with
  | Hd : At ?d ?a ?K |- wp (bind (set_bits ?r ?m) _) _ ?d =>
      apply wp_bind, (wp_set_bits _ _ _ _ a'' _ fs _ Hd);
      [discriminate
      |let v := fresh "v" in let Hv := fresh "Hv" in intros v Hv; fields;
       repeat match goal with
              | Ha : ?b ?f = _ |- context [GET ?f v] =>
                  rewrite (Hv f (b f)) by (reflexivity || left; by split); rewrite Ha
              end; try (widths; reflexivity)
      |others|goals|nxt; clear Hd]
  end.

(** Every status field of the final state is known. *)
Ltac all_known :=
  let f := fresh "f" in let Hf := fresh in
  eapply at_mono; [|eassumption];
  intros f Hf; destruct f;
  first [ apply (bool_decide_unpack _); exact I
        | exfalso; revert Hf; apply (bool_decide_unpack _); exact I ].

Section Transitions.
Context `{L : McgLayout} {E : Type} `{H : McgHw E} `{Hok : !McgHwOk E}.
Implicit Types (d : dev E) (a : field -> Z).

(** [run t] does what the table says. *)
Definition meets (t : transition) : Prop :=
  forall d a, mode_cfg (from t) a -> valid t a -> At d a status_fields ->
  wp (run t) (fun o d' => o = Ret (freq t a) /\ At d' (effect t a) status_fields) d.

Ltac start :=
  intros d a Hm Hv Hd; cbn [run from to valid freq effect] in *;
  apply wp_func; step;
  cbn [mode_cfg] in Hm;
  repeat match goal with Hx : (_ = _) /\ _ |- _ => destruct Hx end;
  unfold slow_irc_ok in *.

Ltac finish := split; [reflexivity|all_known].

Lemma fei_fbi_ok f s : meets (T_fei_fbi f s).
Proof. start. do 3 step. put (effect (T_fei_fbi f s) a) [CLKST]. do 3 step. finish. Qed.

Lemma fbi_fei_ok f : meets (T_fbi_fei f).
Proof.
  start. destruct Hv as [Hf Hv]. step. step; [done|]. step.
  put (effect (T_fbi_fei f) a) [CLKST; IREFST]. do 3 step. finish.
Qed.

Ltac ranges := unfold range_of, frdiv_of, clamp_hgo; repeat case_match; lia.

Lemma fbi_fbe_ok c h e : meets (T_fbi_fbe c h e).
Proof.
  start. step. destruct Hv as (Hc & Hh & He).
  step; [ranges|ranges|lia|]. step; [lia|ranges|]. do 5 step. finish.
Qed.

Lemma fei_fbe_ok c h e : meets (T_fei_fbe c h e).
Proof.
  start. step. destruct Hv as (Hc & Hh & He).
  step; [ranges|ranges|lia|]. step; [lia|ranges|]. do 5 step. finish.
Qed.

Lemma fbe_fei_ok f : meets (T_fbe_fei f).
Proof.
  start. destruct Hv as [Hf Hv]. step. step; [done|]. do 2 step.
  put (effect (T_fbe_fei f) a) [CLKST; IREFST]. do 3 step. finish.
Qed.

Lemma fbe_fbi_ok f s : meets (T_fbe_fbi f s).
Proof.
  start. do 4 step. put (effect (T_fbe_fbi f s) a) [CLKST; IREFST]. do 4 step. finish.
Qed.

Lemma fee_fbe_ok c : meets (T_fee_fbe c).
Proof. start. put_bits (effect (T_fee_fbe c) a) [CLKST]. do 2 step. finish. Qed.

Lemma fee_fbi_ok f s : meets (T_fee_fbi f s).
Proof.
  start. do 3 step. put_bits (effect (T_fee_fbi f s) a) [CLKST; IREFST]. do 4 step. finish.
Qed.

Lemma pee_pbe_ok c : meets (T_pee_pbe c).
Proof. start. put_bits (effect (T_pee_pbe c) a) [CLKST]. do 2 step. finish. Qed.

Lemma pbe_fbe_ok c : meets (T_pbe_fbe c).
Proof. start. do 3 step. finish. Qed.

Lemma pbe_blpe_ok c : meets (T_pbe_blpe c).
Proof. start. do 2 step. finish. Qed.

Lemma fbe_blpe_ok c : meets (T_fbe_blpe c).
Proof. start. do 2 step. finish. Qed.

Lemma blpe_fbe_ok c : meets (T_blpe_fbe c).
Proof. start. do 4 step. finish. Qed.

Lemma fbi_blpi_ok f s : meets (T_fbi_blpi f s).
Proof. start. do 2 step. finish. Qed.

Lemma blpi_fbi_ok f s : meets (T_blpi_fbi f s).
Proof. start. do 2 step. finish. Qed.

Lemma fbe_fee_ok c : meets (T_fbe_fee c).
Proof.
  start. step. apply wp_bind.
  apply wp_mono with (P := fun o s' => o = Ret (fbe_fee_ref a c) /\ At s' a status_fields).
  { intros o s' [-> Hs]. step; [exact Hv|]. do 3 step. finish. }
  unfold fbe_fee_ref. rewrite (Hv0 RANGE0 (a RANGE0)) by (done || by left).
  destruct (a RANGE0 >? 0); step; apply wp_ret; (split; [|done]); repeat f_equal.
  - apply Hv1; [done|by left].
  - apply Hv1; [done|by left].
Qed.

Lemma fee_fei_ok f : meets (T_fee_fei f).
Proof.
  start. destruct Hv as [Hf Hv]. step. step; [done|]. do 4 step. finish.
Qed.

(** The FLL reference of an external clock uses the RANGE just written. *)
Lemma wp_ext_fll_ref c d a K Q :
  At d a K -> a RANGE0 = range_of c ->
  (forall d', At d' a K -> Q (Ret (ext_ref c)) d') ->
  wp (ext_fll_ref c (frdiv_of c)) Q d.
Proof.
  intros Hd Ha HQ. apply wp_bind, (wp_rd_at _ _ _ _ _ Hd). intros v d' Hd' Hv.
  apply wp_ret. rewrite (Hv RANGE0 (range_of c)) by (done || by left). by apply HQ.
Qed.

Lemma fbi_fee_ok c h e : meets (T_fbi_fee c h e).
Proof.
  start. destruct Hv as [Hx Hv]. step. destruct Hx as (Hc & Hh & He).
  step; [ranges|ranges|lia|].
  match goal with Hd : At _ _ _ |- _ =>
    apply wp_bind, (wp_ext_fll_ref _ _ _ _ _ Hd); [goal_eq|nxt; clear Hd] end.
  step; [exact Hv|]. step; [lia|ranges|]. do 5 step. finish.
Qed.

Lemma fei_fee_ok c h e : meets (T_fei_fee c h e).
Proof.
  start. destruct Hv as [Hx Hv]. step. destruct Hx as (Hc & Hh & He).
  step; [ranges|ranges|lia|].
  match goal with Hd : At _ _ _ |- _ =>
    apply wp_bind, (wp_ext_fll_ref _ _ _ _ _ Hd); [goal_eq|nxt; clear Hd] end.
  step; [exact Hv|].
  match goal with Hd : At _ _ _ |- _ =>
    apply wp_bind, (wp_set_C1_ext_keep _ _ _ _ _ _ Hd); [goal_eq|lia|ranges|nxt; clear Hd] end.
  do 4 step. finish.
Qed.

Lemma fbe_pbe_ok c p v : meets (T_fbe_pbe c p v).
Proof.
  start. destruct Hv as ((Hp & Hv & Hr) & Hf). do 3 step.
  rewrite !s32_small by lia. step. step; [done|lia|lia|]. do 3 step. finish.
Qed.

Lemma blpe_pbe_ok c p v : meets (T_blpe_pbe c p v).
Proof.
  start. destruct Hv as (Hp & Hv & Hr). do 3 step. step; [done|lia|lia|]. do 4 step. finish.
Qed.

(** The PLL dividers read back from C5 and C6. *)
Lemma PRDIV0_field x : Z.land x (MASK PRDIV0) = GET PRDIV0 x.
Proof. unfold GET. by rewrite (proj1 f_low), Z.shiftr_0_r. Qed.

Lemma VDIV0_field x : Z.land x (MASK VDIV0) = GET VDIV0 x.
Proof. unfold GET. by rewrite (proj2 f_low), Z.shiftr_0_r. Qed.

Lemma pbe_pee_ok c : meets (T_pbe_pee c).
Proof.
  start. pose proof (at_ctl_range _ _ _ PRDIV0 Hd0 eq_refl) as Hp.
  pose proof (at_ctl_range _ _ _ VDIV0 Hd0 eq_refl) as Hw.
  rewrite (width_of PRDIV0 5 eq_refl) in Hp. rewrite (width_of VDIV0 5 eq_refl) in Hw.
  do 5 step. split; [|all_known].
  rewrite PRDIV0_field, VDIV0_field, (Hv0 PRDIV0 (a PRDIV0)), (Hv1 VDIV0 (a VDIV0))
    by (done || by left).
  unfold pll_out. by rewrite !u8_small by lia.
Qed.

Lemma wp_pll_ext c e d (Q : outcome unit -> dev E -> Prop) :
  (e = 0 \/ e = 1 /\ 3000000 <= c <= 32000000) -> Q (Ret tt) d ->
  wp (if truthy e then exit_if ((c <? 3000000) || (c >? 32000000)) 0x22 else ret tt) Q d.
Proof.
  intros [-> | [-> He]] HQ; [done|]. apply wp_exit_if.
  by assert ((c <? 3000000) || (c >? 32000000) = false) as -> by lia.
Qed.

Lemma pll_init_ok c h e p v m : meets (T_pll_init c h e p v m).
Proof.
  start. destruct Hv as (((Hp & Hv & Hr) & Hf) & Hc & Hh & He).
  step. apply wp_bind, wp_pll_ext; [done|]. do 3 step. rewrite !s32_small by lia. step.
  step; [case_match; lia|ranges|lia|]. step; [lia|ranges|]. do 4 step.
  step; [done|lia|lia|]. do 6 step. split; [|all_known].
  rewrite PRDIV0_field, VDIV0_field.
  rewrite (Hv0 PRDIV0 (p - 1)) by (done || (left; split; [done|goal_eq])).
  rewrite (Hv1 VDIV0 (v - 24)) by (done || (left; split; [done|goal_eq])).
  unfold pll_out. rewrite !u8_small by lia.
  replace (p - 1 + 1) with p by lia. replace (v - 24 + 24) with v by lia.
  by rewrite s32_small by lia.
Qed.
End Transitions.
