(* ===== verification/McgProps.v ===== *)
(** * Theorems over all calls of [source/MCG.c]

    The refinement of the transition table, the refusals, the start-up sequence
    of [main], and what holds on any hardware at all. *)
From S2P Require Export McgThms.

(** ** Accesses that write *)
Definition writes (l : list access) : list (reg * Z) :=
  omap (fun x => match x with Wr r v => Some (r, v) | Rd _ _ => None end) l.

Section AnyHardware.
Context `{L : McgLayout} {E : Type} `{H : McgHw E}.
Implicit Types d : dev E.

(** [c] performs no write, whatever the hardware does. *)
Definition quiet {A} (c : cmd (dev E) A) : Prop :=
  forall d, writes (log (c d).2) = writes (log d).

(** [c] ends: it neither faults nor loops for ever. *)
Definition ends {A} (c : cmd (dev E) A) : Prop :=
  forall d, match (c d).1 with Ret _ | Exit _ => True | _ => False end.

Lemma quiet_ret {A} (a : A) : quiet (ret a).
Proof. done. Qed.

Lemma quiet_exit {A} n : quiet (exit n : cmd (dev E) A).
Proof. done. Qed.

Lemma quiet_exit_if b n : quiet (exit_if b n).
Proof. by destruct b. Qed.

Lemma quiet_rd r : quiet (rd r).
Proof. intros d. unfold rd. by destruct (hw_tick _ _). Qed.

Lemma quiet_bind {A B} (m : cmd (dev E) A) (k : A -> cmd (dev E) B) :
  quiet m -> (forall a, quiet (k a)) -> quiet (bind m k).
Proof.
  intros Hm Hk d. specialize (Hm d). unfold bind.
  destruct (m d) as [[a|c| |] d']; cbn in *; [by rewrite Hk|done..].
Qed.

Lemma quiet_func m : quiet m -> quiet (func m).
Proof. intros Hm d. specialize (Hm d). unfold func. by destruct (m d) as [[] ?]. Qed.

Lemma ends_ret {A} (a : A) : ends (ret a).
Proof. done. Qed.

Lemma ends_exit {A} n : ends (exit n : cmd (dev E) A).
Proof. done. Qed.

Lemma ends_exit_if b n : ends (exit_if b n).
Proof. by destruct b. Qed.

Lemma ends_rd r : ends (rd r).
Proof. intros d. unfold rd. by destruct (hw_tick _ _). Qed.

Lemma ends_wr r v : ends (wr r v).
Proof. done. Qed.

Lemma ends_bind {A B} (m : cmd (dev E) A) (k : A -> cmd (dev E) B) :
  ends m -> (forall a, ends (k a)) -> ends (bind m k).
Proof.
  intros Hm Hk d. specialize (Hm d). unfold bind.
  destruct (m d) as [[a|c| |] d']; cbn in *; [apply Hk|done..].
Qed.

Lemma ends_func m : ends m -> ends (func m).
Proof. intros Hm d. specialize (Hm d). unfold func. by destruct (m d) as [[] ?]. Qed.

Lemma ends_polls n c : ends c -> ends (polls n c).
Proof.
  intros Hc. induction n as [|n IH]; [done|]. cbn [polls]. apply ends_bind; [done|].
  by intros [].
Qed.

(** A polling loop ends because its counter reaches the bound without wrapping. *)
Lemma ends_poll w n c : counts w n -> ends c -> ends (poll w n c).
Proof.
  intros Hw Hc d. destruct (Z.le_gt_cases 0 n) as [Hn|Hn].
  - rewrite poll_polls by done. by apply ends_polls.
  - unfold poll. cbn [poll_from]. by destruct (Z.ltb_spec 0 n); [lia|].
Qed.

(** A call whose body ends returns a value. *)
Lemma ends_returns m d : ends m -> exists v, (func m d).1 = Ret v.
Proof.
  intros Hm. specialize (Hm d). unfold func.
  destruct (m d) as [[v|v| |] d']; cbn in *; [by exists v..|done|done].
Qed.
End AnyHardware.

Create HintDb quiet.
#[export] Hint Constants Opaque : quiet.
#[export] Hint Resolve quiet_ret quiet_exit quiet_exit_if quiet_rd quiet_func : quiet.
Create HintDb ends.
#[export] Hint Constants Opaque : ends.
#[export] Hint Resolve ends_ret ends_exit ends_exit_if ends_rd ends_wr ends_func ends_poll : ends.
#[export] Hint Extern 0 (counts _ _) => counted : ends.

Ltac head_of c := lazymatch c with ?f _ => head_of f | _ => c end.

(** Commands built from the basic ones. *)
Ltac quiet_tac :=
  intros; cbv zeta;
  first
    [ solve [auto with quiet nocore]
    | lazymatch goal with
      | |- quiet (bind _ _) => apply quiet_bind; quiet_tac
      | |- quiet (func _) => apply quiet_func; quiet_tac
      | |- quiet (if ?b then _ else _) => destruct b; quiet_tac
      | |- quiet ?c => let h := head_of c in unfold h; quiet_tac
      end ].

Ltac ends_tac :=
  intros; cbv zeta;
  first
    [ solve [auto with ends nocore]
    | lazymatch goal with
      | |- ends (bind _ _) => apply ends_bind; ends_tac
      | |- ends (func _) => apply ends_func; ends_tac
      | |- ends (poll _ _ _) => apply ends_poll; [counted|ends_tac]
      | |- ends (if ?b then _ else _) => destruct b; ends_tac
      | |- ends ?c => let h := head_of c in unfold h; ends_tac
      end ].

Section Blocks.
Context `{L : McgLayout} {E : Type} `{H : McgHw E}.

Lemma wait_for_ends w n (c : cmd (dev E) bool) code :
  counts w n -> ends c -> ends (wait_for w n c code).
Proof. intros Hw Hc. ends_tac. Qed.

Lemma tst_ends f : ends (E := E) (tst f).
Proof. ends_tac. Qed.

Lemma ntst_ends f : ends (E := E) (ntst f).
Proof. ends_tac. Qed.

Lemma fld_is_ends f n : ends (E := E) (fld_is f n).
Proof. ends_tac. Qed.

Lemma set_bits_ends r m : ends (E := E) (set_bits r m).
Proof. ends_tac. Qed.

Lemma clr_bits_ends r m : ends (E := E) (clr_bits r m).
Proof. ends_tac. Qed.

Lemma in_mode_ends m : ends (E := E) (in_mode m).
Proof. destruct m; cbn [in_mode]; ends_tac. Qed.

Lemma fll_checked_ends ref : ends (E := E) (fll_checked ref).
Proof. ends_tac. Qed.

Lemma in_mode_quiet m : quiet (in_mode (E := E) m).
Proof. destruct m; cbn [in_mode]; quiet_tac. Qed.

Lemma fll_checked_quiet ref : quiet (E := E) (fll_checked ref).
Proof. quiet_tac. Qed.
End Blocks.
#[export] Hint Resolve wait_for_ends tst_ends ntst_ends fld_is_ends set_bits_ends clr_bits_ends
  fll_checked_ends : ends.
#[export] Hint Resolve in_mode_quiet fll_checked_quiet : quiet.

(** ** Calls on any hardware *)
Section Calls.
Context `{L : McgLayout} {E : Type} `{H : McgHw E}.
Implicit Types d : dev E.

(** A mode guard always computes a boolean. *)
Definition answers (c : cmd (dev E) bool) : Prop := forall d, exists b d', c d = (Ret b, d').

Lemma answers_tst f : answers (tst f).
Proof. intros d. unfold tst, bind, rd. destruct (hw_tick _ _). by eexists _, _. Qed.

Lemma answers_ntst f : answers (ntst f).
Proof. intros d. destruct (answers_tst f d) as (b & d' & Hb). unfold ntst, bind. rewrite Hb. by eexists _, _. Qed.

Lemma answers_fld_is f n : answers (fld_is f n).
Proof. intros d. unfold fld_is, bind, rd. destruct (hw_tick _ _). by eexists _, _. Qed.

Lemma answers_andM c1 c2 : answers c1 -> answers c2 -> answers (andM c1 c2).
Proof.
  intros H1 H2 d. unfold andM, bind. destruct (H1 d) as ([] & d' & ->); [apply H2|].
  by eexists _, _.
Qed.

Lemma in_mode_answers m : answers (in_mode m).
Proof.
  destruct m; repeat apply answers_andM;
    first [apply answers_tst|apply answers_ntst|apply answers_fld_is].
Qed.

(** Every call starts with the guard of its mode, then its static checks. *)
Lemma run_guarded t : exists k : cmd (dev E) Z,
  run t = func (guard (in_mode (from t)) (guard_code (from t)) ;;; k) /\
  forall code, refusal t = Some code -> forall d, k d = (Exit code, d).
Proof.
  destruct t; eexists; (split; [reflexivity|]); intros code Hr d; cbn [refusal] in Hr;
    unfold irc_refusal, slow_irc_refusal, ext_refusal, pll_refusal, div_refusal in Hr;
    unfold check_irc, check_ext, exit_if;
    repeat case_match; simplify_eq; try done; unfold bind, exit, ret;
    repeat match goal with Hb : ?b = _ |- context [if ?b then _ else _] => rewrite Hb end; done.
Qed.

Lemma func_guard m code k d b d1 :
  in_mode m d = (Ret b, d1) ->
  func (guard (in_mode m) code ;;; k) d = if b then func k d1 else (Ret code, d1).
Proof. intros Hb. unfold func, guard, bind. rewrite Hb. by destruct b. Qed.

(** Every function of [MCG.c] that changes the clock mode: those of the mode table
    and the two that move between the slow internal reference and the RTC clock. *)
Inductive mcg_call : Type :=
  | In_table (t : transition) | C_fei_fee_rtc (rtc_freq : Z) | C_fee_fei_rtc (slow_irc_freq : Z).

Definition run_call (c : mcg_call) : cmd (dev E) Z :=
  match c with
  | In_table t => run t
  | C_fei_fee_rtc f => fei_fee_rtc f
  | C_fee_fei_rtc f => fee_fei_rtc f
  end.

(** C30: whatever the hardware does, every function of MCG.c that changes the clock
    mode, [fei_fee_rtc] and [fee_fei_rtc] included, ends and returns a frequency or
    an error code.  (atc does not change the mode, and may not return: see the findings;
    fll_rtc_init only calls rtc_as_refclk, which the repository does not define.)  The
    polling loops count in the C types of their counters
    ([short], and [int] in [fei_fee] and the RTC functions): that every bound is
    reached before the counter wraps is part of what is proved ([poll_wraps] shows
    that a loop with a larger bound would not end). *)
Theorem run_returns c d : exists v, (run_call c d).1 = Ret v.
Proof.
  destruct c as [t|f|f]; [destruct t|..]; cbn [run_call run];
    lazymatch goal with |- exists _, (?c _).1 = _ =>
      let h := head_of c in unfold h end; apply ends_returns; ends_tac.
Qed.

Lemma refused_run t code d : refusal t = Some code ->
  exists b d', in_mode (from t) d = (Ret b, d') /\
    run t d = (Ret (if b then code else guard_code (from t)), d') /\
    writes (log d') = writes (log d).
Proof.
  intros Hr. destruct (run_guarded t) as (k & -> & Hk).
  destruct (in_mode_answers (from t) d) as (b & d' & Hb). exists b, d'.
  split_and!; [done| |].
  - rewrite (func_guard _ _ _ _ _ _ Hb). destruct b; [|done].
    unfold func. by rewrite (Hk _ Hr).
  - pose proof (in_mode_quiet (from t) d) as Hq. by rewrite Hb in Hq.
Qed.

(** C31: a call whose parameters fail a static check returns the code of the
    first failing check (or the code of its mode guard) and writes no register,
    whatever the hardware does. *)
Theorem refused_call t code d : refusal t = Some code ->
  exists b d', in_mode (from t) d = (Ret b, d') /\
    run t d = (Ret (if b then code else guard_code (from t)), d') /\
    writes (log d') = writes (log d).
Proof. apply refused_run. Qed.
End Calls.

(** ** Calls on hardware that meets its contract *)
Section Contract.
Context `{L : McgLayout} {E : Type} `{H : McgHw E} `{Hok : !McgHwOk E}.
Implicit Types (d : dev E) (a : field -> Z).

Lemma meets_all t : meets t.
Proof.
  destruct t;
    first [ apply fei_fbi_ok | apply fbi_fei_ok | apply fbi_fbe_ok | apply fei_fbe_ok
          | apply fbe_fei_ok | apply fbe_fbi_ok | apply fbe_fee_ok | apply fee_fbe_ok
          | apply fee_fbi_ok | apply fbi_fee_ok | apply fei_fee_ok | apply fee_fei_ok
          | apply pee_pbe_ok | apply pbe_pee_ok | apply pbe_fbe_ok | apply fbe_pbe_ok
          | apply pbe_blpe_ok | apply blpe_pbe_ok | apply blpe_fbe_ok | apply fbe_blpe_ok
          | apply fbi_blpi_ok | apply blpi_fbi_ok | apply pll_init_ok ].
Qed.

(** The mode guard in a steady device. *)
Lemma guard_steady m m' d a : mode_cfg m a -> At d a status_fields ->
  exists d', in_mode m' d = (Ret (bool_decide (m' = m)), d') /\ At d' a status_fields.
Proof.
  intros Hm Hd.
  assert (wp (in_mode m')
    (fun o d' => o = Ret (bool_decide (m' = m)) /\ At d' a status_fields) d) as [Ho Ha].
  { apply (yields_in_mode m m' a Hm _ _ Hd). done. }
  exists (in_mode m' d).2. split; [|done]. by rewrite <- Ho, <- surjective_pairing.
Qed.


Lemma wrong_mode_run t m d a : mode_cfg m a -> m <> from t -> At d a status_fields ->
  exists d', run t d = (Ret (guard_code (from t)), d') /\ At d' a status_fields /\
    writes (log d') = writes (log d).
Proof.
  intros Hm Hne Hd. destruct (run_guarded t) as (k & -> & _).
  destruct (guard_steady _ (from t) _ _ Hm Hd) as (d1 & Hg & Ha).
  rewrite bool_decide_false in Hg by congruence.
  exists d1. split_and!; [by rewrite (func_guard _ _ _ _ _ _ Hg)|done|].
  pose proof (in_mode_quiet (from t) d) as Hq. by rewrite Hg in Hq.
Qed.


(** ** The theorems *)

(** C1: called in its start mode with parameters in range, a transition of the mode
    table returns the MCGOUT frequency of the mode it ends in, makes exactly the change
    [effect] to the control fields, and leaves the status register showing the end
    mode.  Where a comment of MCG.c disagrees it is the code that is proved (see the
    findings): pll_init returns the PLL frequency itself, not half of it, and ends in
    PEE whatever mcgout_select; fei_fbe and fei_fee change clock fields, not LP, and
    return the new frequency, which is not the old one; fbi_blpi and blpi_fbi return a
    frequency, not 0; fbe_blpe ends in BLPE. *)
Theorem transition_correct t d a :
  mode_cfg (from t) a -> valid t a -> At d a status_fields ->
  exists d', run t d = (Ret (freq t a), d') /\ At d' (effect t a) status_fields /\
    steady (to t) d'.
Proof.
  intros Hm Hv Hd. destruct (meets_all t d a Hm Hv Hd) as [Ho Ha].
  exists (run t d).2. split_and!; [by rewrite <- Ho, <- surjective_pairing|done|].
  exists (effect t a). split; [by apply effect_mode|done].
Qed.

(** called in any other mode, a transition returns the error code of its
    guard, and writes no register. *)
Theorem wrong_mode_call t m d a :
  mode_cfg m a -> m <> from t -> At d a status_fields ->
  exists d', run t d = (Ret (guard_code (from t)), d') /\ At d' a status_fields /\
    writes (log d') = writes (log d).
Proof. apply wrong_mode_run. Qed.


(** [what_mcg_mode] names the mode of a steady device, and writes nothing. *)
Theorem what_mcg_mode_correct m d : steady m d ->
  exists d', what_mcg_mode d = (Ret (mode_code m), d') /\ steady m d' /\
    writes (log d') = writes (log d).
Proof.
  intros (a & Hm & Hd).
  assert (wp what_mcg_mode (fun o d' => o = Ret (mode_code m) /\ At d' a status_fields) d)
    as [Ho Ha] by by apply (wp_what_mcg_mode m d a).
  exists (what_mcg_mode d).2. split_and!; [by rewrite <- Ho, <- surjective_pairing| |].
  - by exists a.
  - assert (quiet (E := E) what_mcg_mode) as Hq by quiet_tac. apply Hq.
Qed.

(** C32: from FEI, the start-up sequence of [main] reaches PEE on any hardware
    that meets the contract, with the frequencies 32768 Hz (slow internal
    reference), 50 MHz twice (external clock), and 60 MHz (PLL). *)
Theorem main_clock_boots d : steady mFEI d ->
  exists d', main_clock d = (Ret ([32768; 50000000; 50000000; 60000000], PEE), d') /\
    steady mPEE d'.
Proof.
  intros (a & Hm & Hd).
  set (ts := [T_fei_fbi SLOW_IRC_FREQ SLOW_IRC; T_fbi_fbe CLK_FREQ_HZ LOW_POWER EXTERNAL_CLOCK;
              T_fbe_pbe CLK_FREQ_HZ PLL0_PRDIV PLL0_VDIV; T_pbe_pee CLK_FREQ_HZ]).
  assert (Hseq : forall t a d, mode_cfg (from t) a -> valid t a -> At d a status_fields ->
    exists d', run t d = (Ret (freq t a), d') /\ At d' (effect t a) status_fields /\
      mode_cfg (to t) (effect t a)).
  { intros t a' d' Hm' Hv' Hd'. destruct (meets_all t d' a' Hm' Hv' Hd') as [Ho Ha].
    exists (run t d').2. split_and!; [by rewrite <- Ho, <- surjective_pairing|done|].
    by apply effect_mode. }
  destruct (Hseq (T_fei_fbi SLOW_IRC_FREQ SLOW_IRC) a d Hm) as (d1 & H1 & Hd1 & Hm1);
    [done|done|].
  destruct (Hseq (T_fbi_fbe CLK_FREQ_HZ LOW_POWER EXTERNAL_CLOCK) _ d1 Hm1)
    as (d2 & H2 & Hd2 & Hm2); [split_and!; try done; by left|done|].
  destruct (Hseq (T_fbe_pbe CLK_FREQ_HZ PLL0_PRDIV PLL0_VDIV) _ d2 Hm2)
    as (d3 & H3 & Hd3 & Hm3); [done|done|].
  destruct (Hseq (T_pbe_pee CLK_FREQ_HZ) _ d3 Hm3) as (d4 & H4 & Hd4 & Hm4); [done|done|].
  assert (wp what_mcg_mode (fun o d' => o = Ret PEE /\ At d' _ status_fields) d4) as [Ho Ha]
    by by apply (wp_what_mcg_mode mPEE d4 _ _ Hm4 Hd4).
  exists (what_mcg_mode d4).2. split; [|by eexists].
  cbn [run] in *. unfold main_clock, bind. rewrite H1, H2, H3, H4.
  rewrite (surjective_pairing (what_mcg_mode d4)), Ho. done.
Qed.

(** The FLL multiplier: [DMX32] selects the 32768 Hz optimised column. *)
Definition fll_mul (dmx32 drs : Z) : Z :=
  if dmx32 =? 0 then 640 * (drs + 1) else nth (Z.to_nat drs) [732; 1464; 2197; 2929] 0.

Lemma at_any d : At d (fld (rf d)) [].
Proof. split; [done|]. intros f v Hf. by apply elem_of_nil in Hf. Qed.

(** for every reference a 16-bit register can hold, [fll_freq] returns the
    FLL output where it lies in the range of DRST_DRS ([20..25] MHz times the
    range number), else the low or high error code of that range; the product
    never overflows. *)
Theorem fll_freq_correct d ref : 0 <= ref <= 65535 ->
  exists v d', fll_freq ref d = (Ret v, d') /\
    let drs := fld (rf d) DRST_DRS in
    let f := ref * fll_mul (fld (rf d) DMX32) drs in
    (20000000 * (drs + 1) <= f <= 25000000 * (drs + 1) /\ v = f) \/
    (f < 20000000 * (drs + 1) /\ v = 0x33 + 2 * drs) \/
    (25000000 * (drs + 1) < f /\ v = 0x34 + 2 * drs).
Proof.
  intros Hr. set (a := fld (rf d)).
  assert (wp (fll_freq ref)
    (fun o d' => o = Ret (fll_spec (a DMX32) (a DRST_DRS) ref)) d) as Ho.
  { by apply (wp_fll_freq _ _ a []); [apply at_any|]. }
  exists (fll_spec (a DMX32) (a DRST_DRS) ref), (fll_freq ref d).2.
  split; [by rewrite <- Ho, <- surjective_pairing|].
  pose proof (fld_range (rf d) DRST_DRS) as Hd. revert Hd. widths.
  change (fld (rf d) DRST_DRS) with (a DRST_DRS). intros Hd.
  assert (a DRST_DRS = 0 \/ a DRST_DRS = 1 \/ a DRST_DRS = 2 \/ a DRST_DRS = 3) as Hc by lia.
  unfold fll_spec, fll_row, fll_mul. cbv zeta.
  destruct (a DMX32 =? 0); destruct Hc as [-> | [-> | [-> | ->]]]; 
    repeat match goal with |- context [Z.to_nat ?n] =>
      let k := eval vm_compute in (Z.to_nat n) in change (Z.to_nat n) with k end;
    cbn -[s32 Z.mul];
    rewrite s32_small by lia; repeat case_match; lia.
Qed.
End Contract.
