(* ===== verification/McgAtc.v ===== *)
(** * [atc] of [source/MCG.c], and limits of the transition functions

    - the auto-trim: it ends when the hardware finishes trimming, and restores
      the bus divider on every path; it does not end when the hardware never
      clears ATME;
    - two transitions that accept or refuse more than they document;
    - concrete runs of the theorems of [McgProps]. *)
From S2P Require Export McgProps.

(** A 32-bit register value survives a signed [int] variable. *)
Lemma s32_mod x : 0 <= x < 2 ^ 32 -> s32 x mod 2 ^ 32 = x.
Proof.
  intros Hx. unfold s32. rewrite Zminus_mod_idemp_l.
  replace (x + 2 ^ 31 - 2 ^ 31) with x by lia. by apply Z.mod_small.
Qed.

(** ** Straight-line steps with early returns *)
Section Steps.
Context `{L : McgLayout} {E : Type} `{H : McgHw E}.
Implicit Types d : dev E.

(** [c] lets control go on, or returns a code in a state allowed by [P]. *)
Definition checks {A} (P : Z -> dev E -> Prop) (c : cmd (dev E) A) : Prop := forall d,
  match c d with
  | (Ret _, _) => True
  | (Exit n, d') => P n d'
  | _ => False
  end.

Lemma checks_ret {A} P (x : A) : checks P (ret x).
Proof. done. Qed.

Lemma checks_bind {A B} P (c : cmd (dev E) A) (k : A -> cmd (dev E) B) :
  checks P c -> (forall b, checks P (k b)) -> checks P (bind c k).
Proof.
  intros Hc Hk d. specialize (Hc d). unfold bind.
  destruct (c d) as [[b|n| |] d']; [apply Hk|done..].
Qed.

Lemma checks_rd P r : checks P (rd r).
Proof. intros d. by rewrite rd_tick. Qed.

Lemma checks_wr P r x : checks P (wr r x).
Proof. done. Qed.

Lemma checks_exit {A} (P : Z -> dev E -> Prop) n :
  (forall d, P n d) -> checks P (exit n : cmd (dev E) A).
Proof. intros HP d. apply HP. Qed.

Lemma checks_restore (P : Z -> dev E -> Prop) v n :
  (forall d, P n (wr CLKDIV1 (s32 v) d).2) -> checks P (restore_exit (s32 v) n).
Proof. intros HP d. apply HP. Qed.

(** The exits of [c] meet [P], and what follows it meets [P]. *)
Lemma after_checks {A B} (P : Z -> dev E -> Prop) (R : outcome B -> dev E -> Prop)
    (c : cmd (dev E) A) (k : A -> cmd (dev E) B) d :
  checks P c -> (forall n d', P n d' -> R (Exit n) d') ->
  (forall b d', wp (k b) R d') -> wp (bind c k) R d.
Proof.
  intros Hc HR Hk. specialize (Hc d). apply wp_bind. unfold wp at 1.
  destruct (c d) as [[b|n| |] d']; [apply Hk|by apply HR|done..].
Qed.

(** The exits that restore the divider. *)
Definition restored (v : Z) (n : Z) d : Prop := rf d CLKDIV1 = v.

Lemma restored_wr v n d : 0 <= v < 2 ^ 32 -> restored v n (wr CLKDIV1 (s32 v) d).2.
Proof.
  intros Hv. unfold restored. cbn. unfold upd. rewrite decide_True by done. by apply s32_mod.
Qed.

(** The codes returned before the trim is started. *)
Definition early (n : Z) d : Prop := n ∈ [1; 3; 4; 5; 6; 7].
End Steps.

Ltac chk := lazymatch goal with
  | |- checks _ (bind _ _) => apply checks_bind; [chk|intros; chk]
  | |- checks _ (if ?b then _ else _) => destruct b; chk
  | |- checks _ (ret _) => apply checks_ret
  | |- checks _ (rd _) => apply checks_rd
  | |- checks _ (wr _ _) => apply checks_wr
  | |- checks early (exit _) => apply checks_exit; intros; unfold early; apply (bool_decide_unpack _); exact I
  | |- checks early (restore_exit _ _) =>
      apply checks_restore; intros; unfold early; apply (bool_decide_unpack _); exact I
  | |- checks (restored _) (restore_exit _ _) =>
      apply checks_restore; intros; by apply restored_wr
  | |- checks _ (spin_ATME _) => by auto
  | |- checks _ ?c => let h := head_of c in unfold h; chk
  end.

Section Atc.
Context `{L : McgLayout} {E : Type} `{H : McgHw E}.
Implicit Types d : dev E.

(** The hardware leaves the dividers of the SIM module alone. *)
Context (Hclk : forall r e, (hw_tick r e).1 CLKDIV1 = r CLKDIV1).

(** Every trim finishes within [N] accesses. *)
Context (N : nat).
Context (Htrim : forall r e, exists n, (0 < n <= N)%nat /\ fld (ticks n r e).1 ATME = 0).

(** [c] ends, with CLKDIV1 equal to [v]. *)
Definition leaves {A} (v : Z) (c : cmd (dev E) A) d : Prop :=
  wp c (fun o d' => match o with Ret _ | Exit _ => rf d' CLKDIV1 = v | _ => False end) d.

Lemma spin_ends : forall m d,
  (exists n, (0 < n <= m)%nat /\ fld (ticks n (rf d) (hw d)).1 ATME = 0) ->
  exists d', spin_ATME m d = (Ret tt, d').
Proof.
  induction m as [|m IH]; intros d (n & Hn & Hz); [lia|].
  destruct (tst_samples ATME d) as [l Hl]. cbn [spin_ATME]. unfold bind. rewrite Hl.
  destruct (Z.eqb_spec (fld (rf (tick d [])) ATME) 0) as [Hs|Hs]; [by eexists|]. cbn.
  apply IH. destruct n as [|[|n]]; [lia| |].
  - destruct Hs. exact Hz.
  - rewrite ticks_shift in Hz. exists (S n). split; [lia|exact Hz].
Qed.

(** The mode test leaves CLKDIV1 alone. *)
Definition samples_only {A} (c : cmd (dev E) A) : Prop :=
  forall d, exists b d', c d = (Ret b, d') /\ rf d' CLKDIV1 = rf d CLKDIV1.

Lemma samples_tst f : samples_only (tst f).
Proof. intros d. unfold tst, bind. rewrite rd_tick. eexists _, _. split; [done|]. apply Hclk. Qed.

Lemma samples_fld_is f n : samples_only (fld_is f n).
Proof. intros d. unfold fld_is, bind. rewrite rd_tick. eexists _, _. split; [done|]. apply Hclk. Qed.

Lemma samples_ret {A} (x : A) : samples_only (ret x).
Proof. intros d. by eexists _, _. Qed.

Lemma samples_bind {A B} (c : cmd (dev E) A) (k : A -> cmd (dev E) B) :
  samples_only c -> (forall b, samples_only (k b)) -> samples_only (bind c k).
Proof.
  intros Hc Hk d. destruct (Hc d) as (b & d1 & Hb & H1). unfold bind. rewrite Hb.
  destruct (Hk b d1) as (b2 & d2 & H2 & H3). exists b2, d2. split; [done|congruence].
Qed.

Lemma samples_in_mode m : samples_only (in_mode m).
Proof.
  destruct m; cbn [in_mode]; unfold in_FEI, in_FEE, in_FBI, in_FBE, in_BLPI, in_BLPE, in_PBE, in_PEE;
    repeat first [apply samples_tst | apply samples_fld_is | apply samples_ret
                 | apply samples_bind; [|intros []] ].
Qed.

Lemma samples_what_mcg_mode : samples_only what_mcg_mode.
Proof.
  unfold what_mcg_mode.
  repeat first
    [ apply samples_ret
    | apply samples_bind; [|intros []];
      [first [ apply (samples_in_mode mFEI) | apply (samples_in_mode mPEE)
             | apply (samples_in_mode mPBE) | apply (samples_in_mode mFBE)
             | apply (samples_in_mode mBLPE) | apply (samples_in_mode mBLPI)
             | apply (samples_in_mode mFBI) | apply (samples_in_mode mFEE) ]|..] ].
Qed.

Lemma leaves_samples {A B} v (c : cmd (dev E) A) (k : A -> cmd (dev E) B) d :
  samples_only c -> rf d CLKDIV1 = v ->
  (forall b d', rf d' CLKDIV1 = v -> leaves v (k b) d') -> leaves v (bind c k) d.
Proof.
  intros Hc Hd Hk. destruct (Hc d) as (b & d' & Hb & Hd'). apply wp_bind.
  unfold wp. rewrite Hb. apply Hk. cbn. congruence.
Qed.

Lemma checks_spin P : checks P (spin_ATME N).
Proof. intros d. by destruct (spin_ends N d (Htrim _ _)) as [d' ->]. Qed.

Lemma leaves_checks {A B} v (c : cmd (dev E) A) (k : A -> cmd (dev E) B) d :
  checks (restored v) c -> (forall b d', leaves v (k b) d') -> leaves v (bind c k) d.
Proof. intros Hc. by apply (after_checks (restored v)). Qed.

Lemma atc_leaves s f m d : 0 <= rf d CLKDIV1 < 2 ^ 32 ->
  exists r d', atc N s f m d = (Ret r, d') /\ rf d' CLKDIV1 = rf d CLKDIV1.
Proof.
  set (v := rf d CLKDIV1). intros Hv.
  assert (wp (atc N s f m) (fun o d' => exists r, o = Ret r /\ rf d' CLKDIV1 = v) d) as (r & Ho & Hr).
  2:{ exists r, (atc N s f m d).2. split; [|done]. by rewrite <- Ho, <- surjective_pairing. }
  apply wp_func. apply wp_mono with
    (P := fun o d' => match o with Ret _ | Exit _ => rf d' CLKDIV1 = v | _ => False end).
  { intros [x|x| |] d' Hx; [by exists x|by exists x|done|done]. }
  cbv zeta. set (s' := if s >? 0 then 1 else s).
  match goal with |- wp ?c _ _ => change (leaves v c d) end.
  apply leaves_samples; [apply samples_what_mcg_mode|done|]. intros mode d1 Hd1.
  unfold exit_if. destruct (_ && _ && _); [exact Hd1|].
  apply wp_bind, wp_ret, wp_bind. unfold wp at 1. rewrite rd_tick. cbn [fst snd].
  assert (rf (tick d1 []) CLKDIV1 = v) as -> by (cbn; by rewrite Hclk).
  match goal with |- wp ?c _ ?d => change (leaves v c d) end.
  pose proof checks_spin as Hspin.
  repeat lazymatch goal with
         | |- leaves _ (bind (wr CLKDIV1 _) (fun _ => ret 0)) _ => fail
         | _ => apply leaves_checks; [chk|intros ? ?]
         end.
  by apply (restored_wr v 0).
Qed.
End Atc.

(** ** A trim that never finishes *)
Section Stuck.
Context `{L : McgLayout} {E : Type} `{H : McgHw E}.
Context (Hstuck : forall r e, fld (hw_tick r e).1 ATME = fld r ATME).
Implicit Types d : dev E.

Lemma spin_stuck n : forall d, fld (rf d) ATME <> 0 -> (spin_ATME n d).1 = Diverge.
Proof.
  induction n as [|n IH]; intros d Hd; [done|].
  destruct (tst_samples ATME d) as [l Hl]. cbn [spin_ATME]. unfold bind. rewrite Hl.
  assert (fld (rf (tick d [])) ATME <> 0) as Hne by (cbn; by rewrite Hstuck).
  destruct (Z.eqb_spec (fld (rf (tick d [])) ATME) 0); [done|].
  by apply IH.
Qed.

(** Writing ATME to SC starts the trim. *)
Lemma start_trim m d :
  fld (rf (set_bits SC (Z.lor (MASK ATME) m) d).2) ATME <> 0.
Proof.
  unfold set_bits, bind. rewrite rd_tick. cbn. unfold fld, upd. cbn [f_reg].
  rewrite decide_True by done. change 8 with (reg_width (f_reg ATME)).
  rewrite GET_mod, !GET_lor, GET_MASK_eq, (width_of ATME 1 eq_refl).
  intros Hz. apply Z.lor_eq_0_iff in Hz as [_ Hz]. by apply Z.lor_eq_0_iff in Hz as [Hz _].
Qed.

Lemma atc_stuck_run fuel s f m d :
  (atc fuel s f m d).1 = Diverge \/
  exists c, c ∈ [1; 3; 4; 5; 6; 7] /\ (atc fuel s f m d).1 = Ret c.
Proof.
  change (wp (atc fuel s f m) (fun o _ => o = Diverge \/
            exists c, c ∈ [1; 3; 4; 5; 6; 7] /\ o = Ret c) d).
  apply wp_func. set (R := fun (o : outcome Z) (d' : dev E) =>
    o = Diverge \/ exists n, o = Exit n /\ early n d').
  apply wp_mono with (P := R).
  { intros o d' [->|(n & -> & Hn)]; [by left|right; by exists n]. }
  assert (forall n d', early n d' -> R (Exit n) d') as HR by (intros; right; eauto).
  unfold what_mcg_mode. cbv zeta.
  repeat lazymatch goal with
         | |- wp (bind (set_bits SC _) _) _ _ => fail
         | |- _ => apply (after_checks early); [chk|exact HR|intros ? ?]
         end.
  apply wp_bind. unfold wp at 1.
  match goal with |- context [set_bits SC (Z.lor (MASK ATME) ?x) ?d0] =>
    pose proof (start_trim x d0) as Hs;
    assert ((set_bits SC (Z.lor (MASK ATME) x) d0).1 = Ret tt) as ->
      by (unfold set_bits, bind; by rewrite rd_tick) end.
  apply wp_bind. unfold wp at 1. rewrite spin_stuck by exact Hs. by left.
Qed.
End Stuck.

(** ** The theorems on [atc] *)
Section AtcTheorems.
Context `{L : McgLayout} {E : Type} `{H : McgHw E}.
Implicit Types d : dev E.

(** on hardware whose trims finish within [N] accesses, [atc] returns, and
    on every path (success or any of its error codes) the bus divider CLKDIV1
    has its original value again. *)
Theorem atc_restores_divider N s f m d :
  (forall r e, (hw_tick r e).1 CLKDIV1 = r CLKDIV1) ->
  (forall r e, exists n, (0 < n <= N)%nat /\ fld (ticks n r e).1 ATME = 0) ->
  0 <= rf d CLKDIV1 < 2 ^ 32 ->
  exists v d', atc N s f m d = (Ret v, d') /\ rf d' CLKDIV1 = rf d CLKDIV1.
Proof. intros Hclk Htrim. by apply atc_leaves. Qed.

(** the wait for the end of the trim has no bound: if the hardware never
    clears ATME, [atc] either returns one of the codes checked before the trim
    starts, or never returns, however long it is left to run. *)
Theorem atc_never_returns fuel s f m d :
  (forall r e, fld (hw_tick r e).1 ATME = fld r ATME) ->
  (atc fuel s f m d).1 = Diverge \/
  exists c, c ∈ [1; 3; 4; 5; 6; 7] /\ (atc fuel s f m d).1 = Ret c.
Proof. intros Hstuck. by apply atc_stuck_run. Qed.
End AtcTheorems.

(** ** Two limits of the transition functions *)
Section Limits.
Context `{L : McgLayout} {E : Type} `{H : McgHw E} `{Hok : !McgHwOk E}.
Implicit Types (d : dev E) (a : field -> Z).

(** A negative reference is below the range of every DRST_DRS value. *)
Lemma fll_spec_negative dmx32 drs ref :
  - 32768 <= ref < 0 -> 0 <= drs <= 3 -> fll_spec dmx32 drs ref = 0x33 + 2 * drs.
Proof.
  intros Hr Hd. assert (drs = 0 \/ drs = 1 \/ drs = 2 \/ drs = 3) as Hc by lia.
  unfold fll_spec, fll_row.
  destruct (dmx32 =? 0); destruct Hc as [-> | [-> | [-> | ->]]];
    repeat match goal with |- context [Z.to_nat ?n] =>
      let k := eval vm_compute in (Z.to_nat n) in change (Z.to_nat n) with k end;
    cbn -[s32 Z.mul]; rewrite s32_small by lia; repeat case_match; lia.
Qed.

Lemma fbe_fee_neg d a c : mode_cfg mFBE a -> At d a status_fields -> 0 < a RANGE0 ->
  32768 <= cdiv c (Z.shiftl 32 (a FRDIV)) <= 65535 ->
  exists d', run (T_fbe_fee c) d = (Ret (0x33 + 2 * a DRST_DRS), d') /\ At d' a status_fields.
Proof.
  intros Hm Hd Hr Hc.
  assert (wp (run (T_fbe_fee c)) (fun o d' => o = Ret (0x33 + 2 * a DRST_DRS) /\
    At d' a status_fields) d) as [Ho Ha].
  2:{ exists (run (T_fbe_fee c) d).2. split; [|done]. by rewrite <- Ho, <- surjective_pairing. }
  pose proof (at_ctl_range _ _ _ DRST_DRS Hd eq_refl) as Hs. revert Hs. widths. intros Hs.
  apply wp_func. change mFBE with (from (T_fbe_fee c)) in Hm. step.
  apply wp_bind, (wp_rd_at _ _ _ _ _ Hd0). intros v1 d1 Hd1 Hv1.
  rewrite (Hv1 RANGE0 (a RANGE0)) by (done || by left).
  assert ((a RANGE0 >? 0) = true) as -> by lia.
  do 2 apply wp_bind. apply (wp_rd_at _ _ _ _ _ Hd1). intros v2 d2 Hd2 Hv2.
  rewrite (Hv2 FRDIV (a FRDIV)) by (done || by left). apply wp_ret.
  set (ref := cdiv c (Z.shiftl 32 (a FRDIV))) in *.
  assert (s16 ref = ref - 65536) as ->.
  { unfold s16. rewrite (Z.mod_eq _ (2 ^ 16)) by lia.
    assert ((ref + 2 ^ 15) / 2 ^ 16 = 1) as ->; [|lia].
    symmetry; apply Z.div_unique with (r := ref + 2 ^ 15 - 2 ^ 16); lia. }
  do 2 apply wp_bind. apply (wp_fll_freq _ _ _ _ _ Hd2). intros d3 Hd3.
  rewrite fll_spec_negative by lia. apply wp_bind, wp_exit_if.
  by assert ((51 + 2 * a DRST_DRS <? 91) = true) as -> by lia.
Qed.

(** [fbe_fee] keeps the FLL reference in a [short]: a reference of 32768 Hz
    or more, inside the documented 31250..39063 Hz, turns negative, and the call
    refuses it with the "below range" code. *)
Theorem fbe_fee_refuses_high_reference d a c :
  mode_cfg mFBE a -> At d a status_fields -> 0 < a RANGE0 ->
  32768 <= cdiv c (Z.shiftl 32 (a FRDIV)) <= 39063 ->
  exists d', run (T_fbe_fee c) d = (Ret (0x33 + 2 * a DRST_DRS), d') /\
    At d' a status_fields.
Proof. intros Hm Hd Hr Hc. apply fbe_fee_neg; (done || lia). Qed.

(** [blpe_pbe] does not check the PLL output that [fbe_pbe] checks: from BLPE
    it programs and reports success for a 211 MHz PLL, which [fbe_pbe] refuses
    with 0x45. *)
Theorem blpe_pbe_overclocks d : steady mBLPE d ->
  refusal (T_fbe_pbe 50000000 13 55) = Some 0x45 /\
  exists a' d', blpe_pbe 50000000 13 55 d = (Ret 50000000, d') /\
    mode_cfg mPBE a' /\ At d' a' status_fields /\
    cdiv 50000000 (a' PRDIV0 + 1) * (a' VDIV0 + 24) = 211538415.
Proof.
  intros (a & Hm & Hd). split; [done|].
  destruct (meets_all (T_blpe_pbe 50000000 13 55) d a Hm) as [Ho Ha]; [done|done|].
  exists (effect (T_blpe_pbe 50000000 13 55) a), (blpe_pbe 50000000 13 55 d).2.
  split_and!; [|by apply (effect_mode (T_blpe_pbe 50000000 13 55))|done|done].
  change (Ret 50000000) with (Ret (A := Z) (freq (T_blpe_pbe 50000000 13 55) a)).
  rewrite <- Ho. apply surjective_pairing.
Qed.
End Limits.
