(* ===== verification/McgRuns.v ===== *)
(** * Concrete runs of the clock theorems

    Each theorem of [McgProps] and [McgAtc] applied to the K64 layout and the
    concrete hardware of [McgFacts]. *)
From S2P Require Export McgAtc.

(** A concrete device is described by its own fields once its status fields
    have reached their goals. *)
Lemma at_concrete (d : dev nat) :
  Forall (fun f => match goal (fld (rf d)) f with
                   | Some v => fld (rf d) f = v
                   | None => True
                   end) status_fields ->
  At d (fld (rf d)) status_fields.
Proof.
  intros Hs. split; [done|]. intros f v Hf Hg.
  pose proof (proj1 (Forall_forall _ _) Hs f Hf) as Hx. cbv beta in Hx. by rewrite Hg in Hx.
Qed.

Ltac at_tac := apply at_concrete; repeat constructor.

(** FBE with a crystal of 33.5 MHz, and BLPE. *)
Definition fbe_dev : dev nat :=
  Dev (upd C1 (Z.lor (FLD CLKS 2) (FLD FRDIV 5)) (upd C2 (FLD RANGE0 2)
        (upd S_ (FLD CLKST 2) (fun _ => 0)))) 0%nat [].

Definition blpe_dev : dev nat :=
  Dev (upd C1 (FLD CLKS 2) (upd C2 (MASK LP) (upd S_ (FLD CLKST 2) (fun _ => 0)))) 0%nat [].

Abbreviation reset_fields := (fld (rf reset_dev)).

Lemma reset_at : At reset_dev reset_fields status_fields.
Proof. at_tac. Qed.

Lemma reset_mode : mode_cfg mFEI reset_fields.
Proof. by vm_compute. Qed.

Lemma reset_steady : steady mFEI reset_dev.
Proof. exists reset_fields. split; [exact reset_mode|exact reset_at]. Qed.

Lemma transition_correct_witness : exists d',
  run (T_fei_fbe 8000000 1 1) reset_dev = (Ret 8000000, d') /\
  At d' (effect (T_fei_fbe 8000000 1 1) reset_fields) status_fields /\ steady mFBE d'.
Proof.
  apply (transition_correct (T_fei_fbe 8000000 1 1) reset_dev reset_fields);
    [exact reset_mode| |exact reset_at].
  split_and!; [lia|lia|lia|]. right. split; [done|]. right. lia.
Defined.

Lemma wrong_mode_call_witness : exists d',
  run (T_pee_pbe 50000000) reset_dev = (Ret 0x8, d') /\ At d' reset_fields status_fields /\
  writes (log d') = writes (log reset_dev).
Proof.
  apply (wrong_mode_call (T_pee_pbe 50000000) mFEI reset_dev reset_fields);
    [exact reset_mode|done|exact reset_at].
Defined.



Lemma what_mcg_mode_correct_witness : exists d',
  what_mcg_mode reset_dev = (Ret FEI, d') /\ steady mFEI d' /\
  writes (log d') = writes (log reset_dev).
Proof. apply (what_mcg_mode_correct mFEI reset_dev), reset_steady. Defined.

Lemma main_clock_boots_witness : exists d',
  main_clock reset_dev = (Ret ([32768; 50000000; 50000000; 60000000], PEE), d') /\
  steady mPEE d'.
Proof. apply (main_clock_boots reset_dev), reset_steady. Defined.

Lemma refused_call_witness : exists b d',
  in_mode mFEI reset_dev = (Ret b, d') /\
  run (T_pll_init 50000000 0 0 26 30 1) reset_dev = (Ret (if b : bool then 0x41 else 0x1), d') /\
  writes (log d') = writes (log reset_dev).
Proof. apply (refused_call (T_pll_init 50000000 0 0 26 30 1) 0x41 reset_dev). reflexivity. Defined.

Lemma fll_freq_correct_witness : exists v d',
  fll_freq 32768 reset_dev = (Ret v, d') /\
  let drs := fld (rf reset_dev) DRST_DRS in
  let f := 32768 * fll_mul (fld (rf reset_dev) DMX32) drs in
  (20000000 * (drs + 1) <= f <= 25000000 * (drs + 1) /\ v = f) \/
  (f < 20000000 * (drs + 1) /\ v = 0x33 + 2 * drs) \/
  (25000000 * (drs + 1) < f /\ v = 0x34 + 2 * drs).
Proof. apply (fll_freq_correct reset_dev 32768). lia. Defined.

(** A hardware whose trims finish at once. *)
Definition trim_hw : McgHw nat := fun r n =>
  (upd SC (Z.land (r SC) (Z.lnot (MASK ATME))) r, n).

Lemma atc_restores_divider_witness : exists v d',
  atc (H0 := trim_hw) 1 0 32768 60000000 reset_dev = (Ret v, d') /\
  rf d' CLKDIV1 = rf reset_dev CLKDIV1.
Proof.
  apply (atc_restores_divider (H := trim_hw) 1 0 32768 60000000 reset_dev).
  - intros r e. reflexivity.
  - intros r e. exists 1%nat. split; [lia|]. unfold fld. cbn.
    unfold upd. rewrite decide_True by done. rewrite GET_ldiff, GET_MASK_eq. apply GET_ldiff_ones.
  - vm_compute. split; [discriminate|reflexivity].
Defined.

(** From PEE on the concrete hardware, which never clears ATME. *)
Definition pee_dev : dev nat := (main_clock reset_dev).2.

Lemma atc_never_returns_witness : forall fuel,
  (atc fuel 0 32768 60000000 pee_dev).1 = Diverge \/
  exists c, c ∈ [1; 3; 4; 5; 6; 7] /\ (atc fuel 0 32768 60000000 pee_dev).1 = Ret c.
Proof.
  intros fuel. apply (atc_never_returns fuel 0 32768 60000000 pee_dev).
  intros r e. unfold fld. cbn [f_reg]. by rewrite k64_tick_ctl.
Defined.

Lemma fbe_fee_refuses_high_reference_witness : exists d',
  run (T_fbe_fee 33554432) fbe_dev = (Ret (0x33 + 2 * fld (rf fbe_dev) DRST_DRS), d') /\
  At d' (fld (rf fbe_dev)) status_fields.
Proof.
  apply (fbe_fee_refuses_high_reference fbe_dev (fld (rf fbe_dev)) 33554432);
    [by vm_compute|at_tac|by vm_compute|by vm_compute].
Defined.

Lemma blpe_pbe_overclocks_witness :
  refusal (T_fbe_pbe 50000000 13 55) = Some 0x45 /\
  exists a' d', blpe_pbe 50000000 13 55 blpe_dev = (Ret 50000000, d') /\
    mode_cfg mPBE a' /\ At d' a' status_fields /\
    cdiv 50000000 (a' PRDIV0 + 1) * (a' VDIV0 + 24) = 211538415.
Proof.
  apply (blpe_pbe_overclocks blpe_dev). exists (fld (rf blpe_dev)).
  split; [by vm_compute|at_tac].
Defined.
