(* ===== verification/Pbuf.v ===== *)
(** * Packet buffers: [lwip/src/core/pbuf.c]

    Pbufs live in a store indexed by pointers, so chains can share their tails
    and reference counts matter.  Payload bytes live in memory blocks; a payload
    pointer is a block and an offset.  The allocators ([memp_malloc] and
    [mem_malloc] with their free functions) are the interface [Allocator]. *)
From stdpp Require Export gmap.
From S2P Require Export CInt.

(** ** Constants of [pbuf.h], [opt.h] and [lwipopts.h] *)
Definition PBUF_RAM := 0.
Definition PBUF_ROM := 1.
Definition PBUF_REF := 2.
Definition PBUF_POOL := 3.

Definition PBUF_TRANSPORT := 0.
Definition PBUF_IP := 1.
Definition PBUF_LINK := 2.
Definition PBUF_RAW_TX := 3.
Definition PBUF_RAW := 4.

Definition PBUF_FLAG_IS_CUSTOM := 0x02.

Definition PBUF_TRANSPORT_HLEN := 20.
Definition PBUF_IP_HLEN := 20.
Definition PBUF_LINK_HLEN := 14.
Definition PBUF_LINK_ENCAPSULATION_HLEN := 0.
Definition TCP_MSS := 1500 - 40.
Definition SIZEOF_STRUCT_PBUF := LWIP_MEM_ALIGN_SIZE 16.
Definition PBUF_POOL_BUFSIZE :=
  LWIP_MEM_ALIGN_SIZE (TCP_MSS + 40 + PBUF_LINK_ENCAPSULATION_HLEN + PBUF_LINK_HLEN).
Definition PBUF_POOL_BUFSIZE_ALIGNED := LWIP_MEM_ALIGN_SIZE PBUF_POOL_BUFSIZE.

Definition ERR_OK := 0.
Definition ERR_MEM := -1.
Definition ERR_BUF := -2.
Definition ERR_VAL := -6.
Definition ERR_ARG := -16.

(** ** [struct pbuf] *)
Abbreviation ptr := positive.

Record pbuf := Pbuf {
  next : option ptr;
  payload : option (ptr * Z);    (* block and offset; NULL *)
  tot_len : Z;                   (* u16_t *)
  len : Z;                       (* u16_t *)
  type : Z;                      (* u8_t *)
  flags : Z;                     (* u8_t *)
  ref : Z                        (* u16_t *)
}.

Definition with_next v x := Pbuf v (payload x) (tot_len x) (len x) (type x) (flags x) (ref x).
Definition with_payload v x := Pbuf (next x) v (tot_len x) (len x) (type x) (flags x) (ref x).
Definition with_tot_len v x := Pbuf (next x) (payload x) v (len x) (type x) (flags x) (ref x).
Definition with_len v x := Pbuf (next x) (payload x) (tot_len x) v (type x) (flags x) (ref x).
Definition with_type v x := Pbuf (next x) (payload x) (tot_len x) (len x) v (flags x) (ref x).
Definition with_flags v x := Pbuf (next x) (payload x) (tot_len x) (len x) (type x) v (ref x).
Definition with_ref v x := Pbuf (next x) (payload x) (tot_len x) (len x) (type x) (flags x) v.

(** ** The allocators *)
Inductive akind : Type :=
  | MEMP_PBUF_POOL | MEMP_PBUF | MEMP_NETBUF   (* memp_malloc *)
  | RAM.                                       (* mem_malloc *)

(** The interface the packet buffers rely on: a granted pointer is one not in
    use, and what memory held before is arbitrary. *)
Class Allocator (A : Type) := {
  al_get : akind -> Z -> A -> option ptr * A;
  al_put : akind -> ptr -> A -> A;
  al_trim : ptr -> Z -> A -> A;
  live : A -> gset ptr;
  stale_pbuf : ptr -> pbuf;
  stale_bytes : ptr -> Z -> list Z;
  stale_length : forall p n, length (stale_bytes p n) = Z.to_nat n;
  get_live : forall k n a,
    match al_get k n a with
    | (Some p, a') => (p ∉ live a) /\ live a' = {[p]} ∪ live a
    | (None, a') => live a' = live a
    end;
  put_live : forall k p a, live (al_put k p a) = live a ∖ {[p]};
  trim_live : forall p n a, live (al_trim p n a) = live a
}.

Record heap (A : Type) := Heap {
  pb : gmap ptr pbuf;
  bl : gmap ptr (list Z);
  al : A
}.
Arguments Heap {A} _ _ _.
Arguments pb {A} _.
Arguments bl {A} _.
Arguments al {A} _.

Definition PBUF_FLAG_custom (x : pbuf) : bool := truthy (Z.land (flags x) PBUF_FLAG_IS_CUSTOM).

Section Pbuf.
Context {A : Type} `{Allocator A}.
(** [pc->custom_free_function], set by the owner of a custom pbuf *)
Context (custom_free_function : ptr -> heap A -> heap A).
#[local] Abbreviation M := (cmd (heap A)).

(** ** Access through pointers *)
Definition load (p : ptr) : M pbuf := fun h =>
  match pb h !! p with Some x => (Ret x, h) | None => (Fault, h) end.
Definition store (p : ptr) (x : pbuf) : M unit :=
  load p ;;; modify (fun h => Heap (<[p := x]> (pb h)) (bl h) (al h)).
Definition update (p : ptr) (f : pbuf -> pbuf) : M unit := x <- load p ;; store p (f x).

(** [*p] for a pointer that may be NULL *)
Definition deref (p : option ptr) : M ptr := match p with Some q => ret q | None => fault end.

(** bytes [off .. off+n) at a payload pointer *)
Definition block (b : ptr) : M (list Z) := fun h =>
  match bl h !! b with Some a => (Ret a, h) | None => (Fault, h) end.
Definition read_mem (pl : option (ptr * Z)) (off n : Z) : M (list Z) :=
  match pl with
  | Some (b, o) => a <- block b ;; read_bytes a (o + off) n
  | None => if n =? 0 then ret [] else fault
  end.
Definition write_mem (pl : option (ptr * Z)) (off : Z) (bs : list Z) : M unit :=
  match pl with
  | Some (b, o) =>
      a <- block b ;; a' <- write_array a (o + off) bs ;;
      modify (fun h => Heap (pb h) (<[b := a']> (bl h)) (al h))
  | None => if (length bs =? 0)%nat then ret tt else fault
  end.

(** The number of pbufs bounds every walk along a chain without a cycle. *)
Definition fuel : M nat := gets (fun h => S (size (pb h))).

(** ** Allocation *)
Definition malloc (k : akind) (n : Z) : M (option ptr) := fun h =>
  let '(r, a) := al_get k n (al h) in
  match r with
  | Some p =>
      (Ret (Some p), Heap (<[p := stale_pbuf p]> (pb h))
                          (<[p := stale_bytes p (n - SIZEOF_STRUCT_PBUF)]> (bl h)) a)
  | None => (Ret None, Heap (pb h) (bl h) a)
  end.

Definition release (k : akind) (p : ptr) : M unit := modify (fun h =>
  Heap (delete p (pb h)) (delete p (bl h)) (al_put k p (al h))).

(** ** [pbuf_free] *)
Fixpoint free_loop (n : nat) (p : option ptr) (count : Z) : M Z :=
  match p with
  | None => ret count
  | Some q =>
    match n with
    | O => diverge
    | S n =>
        x <- load q ;;
        assert_ (0 <? ref x) ;;;
        let r := u16 (ref x - 1) in
        store q (with_ref r x) ;;;
        if r =? 0 then
          (if PBUF_FLAG_custom x then modify (custom_free_function q)
           else if type x =? PBUF_POOL then release MEMP_PBUF_POOL q
           else if (type x =? PBUF_ROM) || (type x =? PBUF_REF) then release MEMP_PBUF q
           else release RAM q) ;;;
          free_loop n (next x) (u8 (count + 1))
        else ret count
    end
  end.

Definition pbuf_free (p : option ptr) : M Z :=
  q <- deref p ;;
  x <- load q ;;
  assert_ ((type x =? PBUF_RAM) || (type x =? PBUF_ROM) || (type x =? PBUF_REF) || (type x =? PBUF_POOL)) ;;;
  n <- fuel ;; free_loop n (Some q) 0.

(** ** [pbuf_alloc] *)
Definition header_offset (layer : Z) : option Z :=
  if layer =? PBUF_TRANSPORT then
    Some (PBUF_LINK_ENCAPSULATION_HLEN + PBUF_LINK_HLEN + PBUF_IP_HLEN + PBUF_TRANSPORT_HLEN)
  else if layer =? PBUF_IP then Some (PBUF_LINK_ENCAPSULATION_HLEN + PBUF_LINK_HLEN + PBUF_IP_HLEN)
  else if layer =? PBUF_LINK then Some (PBUF_LINK_ENCAPSULATION_HLEN + PBUF_LINK_HLEN)
  else if layer =? PBUF_RAW_TX then Some PBUF_LINK_ENCAPSULATION_HLEN
  else if layer =? PBUF_RAW then Some 0
  else None.

(** The tail of a pool chain: [p] is its head, [r] the pbuf to link to. *)
Fixpoint alloc_tail (n : nat) (p r : ptr) (rem_len : Z) : M (option ptr) :=
  if 0 <? rem_len then
    match n with
    | O => diverge
    | S n =>
        q <- malloc MEMP_PBUF_POOL (SIZEOF_STRUCT_PBUF + PBUF_POOL_BUFSIZE_ALIGNED) ;;
        match q with
        | None => pbuf_free (Some p) ;;; ret None
        | Some q =>
            update q (fun x => with_next None (with_flags 0 (with_type PBUF_POOL x))) ;;;
            update r (with_next (Some q)) ;;;
            assert_ (rem_len <? 0xffff) ;;;
            let qlen := Z.min (u16 rem_len) PBUF_POOL_BUFSIZE_ALIGNED in
            update q (fun x => with_ref 1 (with_payload (Some (q, 0))
                       (with_len qlen (with_tot_len (u16 rem_len) x)))) ;;;
            alloc_tail n p q (rem_len - qlen)
        end
    end
  else ret (Some p).

Definition pbuf_alloc (layer length_ type_ : Z) : M (option ptr) :=
  match header_offset layer with
  | None => fault
  | Some offset =>
    p <- (if type_ =? PBUF_POOL then
      p <- malloc MEMP_PBUF_POOL (SIZEOF_STRUCT_PBUF + PBUF_POOL_BUFSIZE_ALIGNED) ;;
      match p with
      | None => ret None
      | Some p =>
          let plen := Z.min length_ (PBUF_POOL_BUFSIZE_ALIGNED - LWIP_MEM_ALIGN_SIZE offset) in
          update p (fun x => with_tot_len length_ (with_payload (Some (p, LWIP_MEM_ALIGN_SIZE offset))
                     (with_next None (with_type type_ x)))) ;;;
          update p (with_len plen) ;;;
          assert_ (LWIP_MEM_ALIGN_SIZE offset + plen <=? PBUF_POOL_BUFSIZE_ALIGNED) ;;;
          assert_ (0 <? PBUF_POOL_BUFSIZE_ALIGNED - LWIP_MEM_ALIGN_SIZE offset) ;;;
          update p (with_ref 1) ;;;
          alloc_tail (Z.to_nat length_) p p (length_ - plen)
      end
    else if type_ =? PBUF_RAM then
      let alloc_len := u16 (LWIP_MEM_ALIGN_SIZE (SIZEOF_STRUCT_PBUF + offset)
                            + LWIP_MEM_ALIGN_SIZE length_) in
      if alloc_len <? LWIP_MEM_ALIGN_SIZE length_ then ret None else
      p <- malloc RAM alloc_len ;;
      match p with
      | None => ret None
      | Some p =>
          update p (fun x => with_type type_ (with_next None (with_tot_len length_
            (with_len length_ (with_payload (Some (p, LWIP_MEM_ALIGN_SIZE offset)) x))))) ;;;
          ret (Some p)
      end
    else if (type_ =? PBUF_ROM) || (type_ =? PBUF_REF) then
      p <- malloc MEMP_PBUF SIZEOF_STRUCT_PBUF ;;
      match p with
      | None => ret None
      | Some p =>
          update p (fun x => with_type type_ (with_next None (with_tot_len length_
            (with_len length_ (with_payload None x))))) ;;;
          ret (Some p)
      end
    else fault) ;;
    match p with
    | None => ret None
    | Some p => update p (fun x => with_flags 0 (with_ref 1 x)) ;;; ret (Some p)
    end
  end.

(** ** [pbuf_realloc] *)
Fixpoint realloc_skip (n : nat) (q : ptr) (rem_len grow : Z) : M (ptr * Z) :=
  x <- load q ;;
  if len x <? rem_len then
    match n with
    | O => diverge
    | S n =>
        assert_ (grow <? 0xffff) ;;;
        store q (with_tot_len (u16 (tot_len x + u16 grow)) x) ;;;
        q' <- deref (next x) ;;
        realloc_skip n q' (u16 (rem_len - len x)) grow
    end
  else ret (q, rem_len).

(** [mem_trim]: the first [newsize] bytes of the block stay. *)
Definition mem_trim (q : ptr) (newsize : Z) : M unit := modify (fun h =>
  Heap (pb h) (alter (take (Z.to_nat (newsize - SIZEOF_STRUCT_PBUF))) q (bl h)) (al_trim q newsize (al h))).

Definition pbuf_realloc (p : ptr) (new_len : Z) : M unit :=
  x <- load p ;;
  assert_ ((type x =? PBUF_POOL) || (type x =? PBUF_ROM) || (type x =? PBUF_RAM) || (type x =? PBUF_REF)) ;;;
  if tot_len x <=? new_len then ret tt else
  let grow := new_len - tot_len x in
  n <- fuel ;;
  qr <- realloc_skip n p new_len grow ;;
  let '(q, rem_len) := (qr : ptr * Z) in
  y <- load q ;;
  (if (type y =? PBUF_RAM) && negb (rem_len =? len y) && negb (PBUF_FLAG_custom y) then
     match payload y with
     | Some (b, o) => mem_trim q (u16 (u16 (SIZEOF_STRUCT_PBUF + o) + rem_len))
     | None => fault
     end
   else ret tt) ;;;
  update q (fun y => with_tot_len rem_len (with_len rem_len y)) ;;;
  (match next y with
   | Some t => pbuf_free (Some t) ;;; ret tt
   | None => ret tt
   end) ;;;
  update q (with_next None).

(** ** [pbuf_header] *)
Definition pbuf_header_impl (p : ptr) (header_size_increment force : Z) : M Z := func (
  if header_size_increment =? 0 then ret 0 else
  x <- load p ;;
  let increment_magnitude := if header_size_increment <? 0 then u16 (- header_size_increment)
                             else u16 header_size_increment in
  LWIP_ERROR (negb (header_size_increment <? 0) || (increment_magnitude <=? len x)) ;;;
  let moved := option_map (fun bo : ptr * Z => (bo.1, bo.2 - header_size_increment)) (payload x) in
  (if (type x =? PBUF_RAM) || (type x =? PBUF_POOL) then
     match payload x with
     | Some (b, o) => exit_if (o - header_size_increment <? 0) 1
     | None => fault
     end
   else if (type x =? PBUF_REF) || (type x =? PBUF_ROM) then
     exit_if (negb ((header_size_increment <? 0) && (increment_magnitude <=? len x))
              && negb ((0 <? header_size_increment) && truthy force)) 1
   else fault) ;;;
  store p (with_tot_len (u16 (tot_len x + header_size_increment))
            (with_len (u16 (len x + header_size_increment)) (with_payload moved x))) ;;;
  ret 0).

Definition pbuf_header (p : ptr) (header_size_increment : Z) : M Z :=
  pbuf_header_impl p header_size_increment 0.
Definition pbuf_header_force (p : ptr) (header_size_increment : Z) : M Z :=
  pbuf_header_impl p header_size_increment 1.

(** ** Chains *)
Fixpoint clen_loop (n : nat) (p : option ptr) (len : Z) : M Z :=
  match p with
  | None => ret len
  | Some q => match n with
              | O => diverge
              | S n => x <- load q ;; clen_loop n (next x) (u16 (len + 1))
              end
  end.
Definition pbuf_clen (p : option ptr) : M Z := n <- fuel ;; clen_loop n p 0.

Definition pbuf_ref (p : option ptr) : M unit :=
  match p with
  | None => ret tt
  | Some q =>
      x <- load q ;;
      store q (with_ref (u16 (ref x + 1)) x) ;;;
      assert_ (0 <? u16 (ref x + 1))
  end.

Fixpoint cat_loop (n : nat) (p : ptr) (t_tot : Z) : M ptr :=
  x <- load p ;;
  match next x with
  | None => ret p
  | Some q => match n with
              | O => diverge
              | S n => store p (with_tot_len (u16 (tot_len x + t_tot)) x) ;;; cat_loop n q t_tot
              end
  end.

Definition pbuf_cat (h t : option ptr) : M unit :=
  LWIP_ERROR ((if h is Some _ then true else false) && (if t is Some _ then true else false)) ;;;
  match h, t with
  | Some h, Some t =>
      n <- fuel ;;
      y <- load t ;;
      p <- cat_loop n h (tot_len y) ;;
      x <- load p ;;
      assert_ (tot_len x =? len x) ;;;
      store p (with_next (Some t) (with_tot_len (u16 (tot_len x + tot_len y)) x))
  | _, _ => fault
  end.

Definition pbuf_chain (h t : option ptr) : M unit := pbuf_cat h t ;;; pbuf_ref t.

Definition pbuf_dechain (p : ptr) : M (option ptr) :=
  x <- load p ;;
  r <- (match next x with
   | Some q =>
       y <- load q ;;
       assert_ (tot_len y =? tot_len x - len x) ;;;
       store q (with_tot_len (u16 (tot_len x - len x)) y) ;;;
       update p (with_next None) ;;;
       update p (with_tot_len (len x)) ;;;
       tail_gone <- pbuf_free (Some q) ;;
       ret (tail_gone : Z)
   | None => ret 1
   end) ;;
  z <- load p ;;
  assert_ (tot_len z =? len z) ;;;
  ret (if 0 <? r then None else next x).

(** ** Copies *)

(** one round of [pbuf_copy]: the two cursors *)
Fixpoint copy_loop (n : nat) (p_to p_from : ptr) (offset_to offset_from : Z) : M Z :=
  match n with
  | O => diverge
  | S n =>
      t <- load p_to ;;
      f <- load p_from ;;
      let clen := u16 (if (len f - offset_from <=? len t - offset_to)
                       then len f - offset_from else len t - offset_to) in
      bs <- read_mem (payload f) offset_from clen ;;
      write_mem (payload t) offset_to bs ;;;
      let offset_to := u16 (offset_to + clen) in
      let offset_from := u16 (offset_from + clen) in
      assert_ (offset_to <=? len t) ;;;
      assert_ (offset_from <=? len f) ;;;
      let '(p_from', offset_from) :=
        if len f <=? offset_from then (next f, 0) else (Some p_from, offset_from) in
      let '(p_to', offset_to) :=
        if offset_to =? len t then (next t, 0) else (Some p_to, offset_to) in
      LWIP_ERROR ((if p_to' is Some _ then true else false)
                  || (if p_from' is Some _ then false else true)) ;;;
      (match p_from' with
       | Some q => y <- load q ;;
                   LWIP_ERROR (negb (len y =? tot_len y) || (if next y is Some _ then false else true))
       | None => ret tt
       end) ;;;
      (match p_to' with
       | Some q => y <- load q ;;
                   LWIP_ERROR (negb (len y =? tot_len y) || (if next y is Some _ then false else true))
       | None => ret tt
       end) ;;;
      match p_from', p_to' with
      | None, _ => ret ERR_OK
      | Some pf, Some pt => copy_loop n pt pf offset_to offset_from
      | Some _, None => fault
      end
  end.

(** Every round ends a pbuf of one of the two chains. *)
Definition pbuf_copy (p_to p_from : option ptr) : M Z :=
  LWIP_ERROR ((if p_to is Some _ then true else false) && (if p_from is Some _ then true else false)) ;;;
  match p_to, p_from with
  | Some t, Some f =>
      x <- load t ;;
      y <- load f ;;
      LWIP_ERROR (tot_len y <=? tot_len x) ;;;
      n <- fuel ;; copy_loop (n + n) t f 0 0
  | _, _ => fault
  end.

(** The destination is the caller's own memory: it is passed and returned. *)
Fixpoint copy_partial_loop (n : nat) (p : option ptr) (dst : list Z)
    (len_ offset left copied_total : Z) : M (Z * list Z) :=
  match p with
  | Some q =>
    if len_ =? 0 then ret (copied_total, dst) else
    match n with
    | O => diverge
    | S n =>
        x <- load q ;;
        if negb (offset =? 0) && (len x <=? offset) then
          copy_partial_loop n (next x) dst len_ (u16 (offset - len x)) left copied_total
        else
          let buf_copy_len := u16 (len x - offset) in
          let buf_copy_len := if len_ <? buf_copy_len then len_ else buf_copy_len in
          bs <- read_mem (payload x) offset buf_copy_len ;;
          dst' <- write_array dst left bs ;;
          copy_partial_loop n (next x) dst' (u16 (len_ - buf_copy_len)) 0
            (u16 (left + buf_copy_len)) (u16 (copied_total + buf_copy_len))
    end
  | None => ret (copied_total, dst)
  end.

Definition pbuf_copy_partial (buf : option ptr) (dst : list Z) (len_ offset : Z) : M (Z * list Z) :=
  LWIP_ERROR (if buf is Some _ then true else false) ;;;
  n <- fuel ;; copy_partial_loop n buf dst len_ offset 0 0.

Fixpoint skip_loop (n : nat) (q : option ptr) (offset_left : Z) : M (option ptr * Z) :=
  match q with
  | None => ret (None, offset_left)
  | Some p => match n with
              | O => diverge
              | S n => x <- load p ;;
                       if len x <=? offset_left then skip_loop n (next x) (u16 (offset_left - len x))
                       else ret (q, offset_left)
              end
  end.
Definition pbuf_skip_const (in_ : option ptr) (in_offset : Z) : M (option ptr * Z) :=
  n <- fuel ;; skip_loop n in_ in_offset.
Definition pbuf_skip (in_ : option ptr) (in_offset : Z) : M (option ptr * Z) :=
  pbuf_skip_const in_ in_offset.

Fixpoint take_loop (n : nat) (p : option ptr) (dataptr : list Z) (total_copy_len copied_total : Z) : M Z :=
  if total_copy_len =? 0 then ret copied_total else
  match n with
  | O => diverge
  | S n =>
      q <- deref p ;;
      x <- load q ;;
      let buf_copy_len := if len x <? total_copy_len then len x else total_copy_len in
      bs <- read_bytes dataptr copied_total buf_copy_len ;;
      write_mem (payload x) 0 bs ;;;
      take_loop n (next x) dataptr (u16 (total_copy_len - buf_copy_len)) (u16 (copied_total + buf_copy_len))
  end.

Definition pbuf_take (buf : option ptr) (dataptr : list Z) (len_ : Z) : M Z :=
  LWIP_ERROR (if buf is Some _ then true else false) ;;;
  p <- deref buf ;;
  x <- load p ;;
  LWIP_ERROR (len_ <=? tot_len x) ;;;
  n <- fuel ;;
  copied_total <- take_loop n buf dataptr len_ 0 ;;
  assert_ (copied_total =? len_) ;;;
  ret ERR_OK.

Definition pbuf_take_at (buf : option ptr) (dataptr : list Z) (len_ offset : Z) : M Z :=
  qo <- pbuf_skip buf offset ;;
  let '(q, target_offset) := (qo : option ptr * Z) in
  match q with
  | None => ret ERR_MEM
  | Some p =>
      x <- load p ;;
      if target_offset + len_ <=? tot_len x then
        let first_copy_len := u16 (Z.min (len x - target_offset) len_) in
        bs <- read_bytes dataptr 0 first_copy_len ;;
        write_mem (payload x) target_offset bs ;;;
        let remaining_len := u16 (len_ - first_copy_len) in
        if 0 <? remaining_len
        then pbuf_take (next x) (drop (Z.to_nat first_copy_len) dataptr) remaining_len
        else ret ERR_OK
      else ret ERR_MEM
  end.

Definition pbuf_coalesce (p : ptr) (layer : Z) : M ptr :=
  x <- load p ;;
  match next x with
  | None => ret p
  | Some _ =>
      q <- pbuf_alloc layer (tot_len x) PBUF_RAM ;;
      match q with
      | None => ret p
      | Some q =>
          err <- pbuf_copy (Some q) (Some p) ;;
          assert_ (err =? ERR_OK) ;;;
          pbuf_free (Some p) ;;;
          ret q
      end
  end.

(** ** Bytes of a packet *)
Definition pbuf_try_get_at (p : option ptr) (offset : Z) : M Z :=
  qo <- pbuf_skip_const p offset ;;
  let '(q, q_idx) := (qo : option ptr * Z) in
  match q with
  | Some q => x <- load q ;;
              if q_idx <? len x
              then bs <- read_mem (payload x) q_idx 1 ;; ret (nth 0 bs 0)
              else ret (-1)
  | None => ret (-1)
  end.

Definition pbuf_get_at (p : option ptr) (offset : Z) : M Z :=
  r <- pbuf_try_get_at p offset ;; ret (if 0 <=? r then u8 r else 0).

Definition pbuf_put_at (p : option ptr) (offset data : Z) : M unit :=
  qo <- pbuf_skip p offset ;;
  let '(q, q_idx) := (qo : option ptr * Z) in
  match q with
  | Some q => x <- load q ;;
              if q_idx <? len x then write_mem (payload x) q_idx [data] else ret tt
  | None => ret tt
  end.

Fixpoint memcmp_loop (k : nat) (q : option ptr) (start : Z) (s2 : list Z) (i : Z) : M Z :=
  match k with
  | O => ret 0
  | S k =>
      a <- pbuf_get_at q (u16 (start + i)) ;;
      b <- read_array s2 i ;;
      if negb (a =? b) then ret (u16 (i + 1)) else memcmp_loop k q start s2 (u16 (i + 1))
  end.

Definition pbuf_memcmp (p : ptr) (offset : Z) (s2 : list Z) (n : Z) : M Z :=
  x <- load p ;;
  if tot_len x <? offset + n then ret 0xffff else
  qo <- pbuf_skip (Some p) offset ;;
  let '(q, start) := (qo : option ptr * Z) in
  memcmp_loop (Z.to_nat n) q start s2 0.

Fixpoint memfind_loop (k : nat) (p : ptr) (mem : list Z) (mem_len max i : Z) : M Z :=
  if i <=? max then
    match k with
    | O => diverge
    | S k =>
        plus <- pbuf_memcmp p i mem mem_len ;;
        if plus =? 0 then ret i else memfind_loop k p mem mem_len max (u16 (i + 1))
    end
  else ret 0xFFFF.

Definition pbuf_memfind (p : ptr) (mem : list Z) (mem_len start_offset : Z) : M Z :=
  x <- load p ;;
  let max := u16 (tot_len x - mem_len) in
  if mem_len + start_offset <=? tot_len x
  then memfind_loop (Z.to_nat 65536) p mem mem_len max start_offset
  else ret 0xFFFF.

(** [strlen] of the C library on the bytes from [substr] on. *)
Fixpoint strlen (s : list Z) : option nat :=
  match s with
  | [] => None
  | c :: s => if c =? 0 then Some O else S <$> strlen s
  end.

Definition pbuf_strstr (p : ptr) (substr : option (list Z)) : M Z :=
  match substr with
  | None => ret 0xFFFF
  | Some s =>
      c <- read_array s 0 ;;
      if c =? 0 then ret 0xFFFF else
      x <- load p ;;
      if tot_len x =? 0xFFFF then ret 0xFFFF else
      match strlen s with
      | None => fault
      | Some n => if 0xFFFF <=? Z.of_nat n then ret 0xFFFF
                  else pbuf_memfind p s (u16 (Z.of_nat n)) 0
      end
  end.
End Pbuf.
