(* ===== verification/PbufRead.v ===== *)
(** * Packets: what a chain of pbufs stands for, and reading it

    [packet h p l]: from pointer [p] the store [h] holds the chain [l] of pbufs,
    each with its bytes, ending in NULL and with consistent lengths.
    [content l] is the byte string the packet carries.  Then copy, byte access,
    comparison and search. *)
From S2P Require Export Pbuf.

Record node := Node { n_ptr : ptr; n_buf : pbuf; n_bytes : list Z }.

Definition content (l : list node) : list Z := concat (n_bytes <$> l).

Lemma content_cons n l : content (n :: l) = n_bytes n ++ content l.
Proof. done. Qed.

Lemma content_app l1 l2 : content (l1 ++ l2) = content l1 ++ content l2.
Proof. unfold content. by rewrite fmap_app, concat_app. Qed.

Section Packets.
Context {A : Type} `{Allocator A}.
Implicit Types (h : heap A) (p : option ptr) (q : ptr) (x : pbuf) (l : list node).

(** The payload bytes of one pbuf. *)
Definition holds (bl : gmap ptr (list Z)) x (bs : list Z) : Prop :=
  exists b o a, payload x = Some (b, o) /\ bl !! b = Some a /\ 0 <= o /\ 0 <= len x /\
    o + len x <= Z.of_nat (length a) /\ bs = take (Z.to_nat (len x)) (drop (Z.to_nat o) a).

Fixpoint packet h p l : Prop :=
  match l with
  | [] => p = None
  | Node q x bs :: l =>
      p = Some q /\ pb h !! q = Some x /\ holds (bl h) x bs /\
      tot_len x = len x + Z.of_nat (length (content l)) /\ packet h (next x) l
  end.

Lemma holds_length b x bs : holds b x bs -> Z.of_nat (length bs) = len x.
Proof.
  intros (b' & o & a & Hp & Hb & Ho & Hl & Hx & ->).
  rewrite length_take, length_drop. lia.
Qed.

(** The pointers of a chain are distinct, so the store bounds its length. *)
Lemma packet_det h p l1 l2 : packet h p l1 -> packet h p l2 -> n_ptr <$> l1 = n_ptr <$> l2.
Proof.
  revert p l2. induction l1 as [|[q x bs] l1 IH]; intros p [|[q' x' bs'] l2]; cbn.
  - done.
  - intros -> [? _]. done.
  - intros [-> _] ?. done.
  - intros (-> & Hx & _ & _ & H1) (Hq & Hx' & _ & _ & H2). simplify_eq.
    f_equal. by eapply IH.
Qed.

Lemma packet_suffix h p l1 l2 : packet h p (l1 ++ l2) -> exists p', packet h p' l2.
Proof.
  revert p. induction l1 as [|[q x bs] l1 IH]; intros p Hp; [by exists p|].
  destruct Hp as (_ & _ & _ & _ & Hp). by apply IH in Hp.
Qed.

Lemma packet_head h p n l : packet h p (n :: l) -> p = Some (n_ptr n).
Proof. destruct n. by intros (? & _). Qed.

Lemma packet_NoDup h p l : packet h p l -> NoDup (n_ptr <$> l).
Proof.
  revert p. induction l as [|n l IH]; intros p Hp; [constructor|].
  assert (Ht : exists p', packet h p' l) by exact (packet_suffix h p [n] l Hp).
  destruct Ht as [p' Ht]. rewrite fmap_cons. constructor; [|by eapply IH].
  intros (m & Hm & [l1 [l2 ->]]%list_elem_of_split)%list_elem_of_fmap.
  destruct (packet_suffix h p' l1 (m :: l2) Ht) as [p2 H2].
  pose proof (packet_head _ _ _ _ H2) as ->. pose proof (packet_head _ _ _ _ Hp) as ->.
  rewrite Hm in Hp. pose proof (packet_det _ _ _ _ Hp H2) as Heq.
  apply (f_equal length) in Heq. cbn in Heq. rewrite !length_fmap, length_app in Heq.
  cbn in Heq. lia.
Qed.

Lemma packet_lookup h p l n : packet h p l -> n ∈ l -> pb h !! n_ptr n = Some (n_buf n).
Proof.
  revert p. induction l as [|[q x bs] l IH]; intros p Hp Hn; [by apply elem_of_nil in Hn|].
  destruct Hp as (_ & Hx & _ & _ & Hp). apply elem_of_cons in Hn as [->|Hn]; [done|].
  by eapply IH.
Qed.

Lemma packet_size h p l : packet h p l -> (length l <= size (pb h))%nat.
Proof.
  intros Hp. rewrite <- (length_fmap n_ptr l), <- size_dom.
  rewrite <- (size_list_to_set (C := gset ptr)) by by eapply packet_NoDup.
  apply subseteq_size. intros q Hq%elem_of_list_to_set.
  apply list_elem_of_fmap in Hq as (n & -> & Hn). apply elem_of_dom.
  exists (n_buf n). by eapply packet_lookup.
Qed.

Lemma packet_tot h q n l : packet h (Some q) (n :: l) ->
  tot_len (n_buf n) = Z.of_nat (length (content (n :: l))).
Proof.
  destruct n as [q' x bs]. intros (_ & _ & Hx & Ht & _). apply holds_length in Hx.
  rewrite content_cons, length_app. cbn in *. lia.
Qed.

(** ** Reads *)
Lemma load_at h q x : pb h !! q = Some x -> load q h = (Ret x, h).
Proof. unfold load. by intros ->. Qed.

Lemma read_mem_at h x bs off n : holds (bl h) x bs -> 0 <= off -> 0 <= n -> off + n <= len x ->
  read_mem (payload x) off n h = (Ret (take (Z.to_nat n) (drop (Z.to_nat off) bs)), h).
Proof.
  intros (b & o & a & Hp & Hb & Ho & Hl & Hx & ->) Hoff Hn Hle.
  unfold read_mem, bind, block. rewrite Hp, Hb. unfold read_bytes.
  rewrite !(proj2 (Z.leb_le _ _)) by lia. cbn. unfold ret. f_equal. f_equal.
  rewrite skipn_firstn_comm, firstn_firstn, skipn_skipn. f_equal; [lia|].
  f_equal. lia.
Qed.
End Packets.

(** ** Copy, byte access, comparison, search *)
Section Reads.
Context {A : Type} `{Allocator A}.
Implicit Types (h : heap A) (p : option ptr) (q : ptr) (l : list node) (bs dst : list Z).

(** Bytes [off .. off+n) of a packet. *)
Definition slice (off n : Z) bs : list Z := take (Z.to_nat n) (drop (Z.to_nat off) bs).

Lemma slice_length off n bs : (length (slice off n bs) <= Z.to_nat n)%nat.
Proof. unfold slice. rewrite length_take. lia. Qed.

(** Skipping a first part not longer than the offset. *)
Lemma slice_skip off n bs cs : Z.of_nat (length bs) <= off ->
  slice off n (bs ++ cs) = slice (off - Z.of_nat (length bs)) n cs.
Proof.
  intros Hoff. unfold slice. rewrite drop_app_ge by lia. do 2 f_equal. lia.
Qed.

(** A first part longer than the offset: what it gives, then the rest. *)
Lemma slice_split off n bs cs : 0 <= off -> 0 <= n -> off < Z.of_nat (length bs) \/ off = 0 ->
  let k := Z.min n (Z.of_nat (length bs) - off) in
  slice off n (bs ++ cs) = slice off k bs ++ slice 0 (n - k) cs.
Proof.
  intros Ho Hn Hlt. cbv zeta. unfold slice. rewrite drop_0.
  rewrite drop_app_le by lia. rewrite firstn_app, length_drop.
  destruct (Z.le_gt_cases n (Z.of_nat (length bs) - off)).
  - rewrite Z.min_l by lia. f_equal. f_equal. lia.
  - rewrite Z.min_r by lia. f_equal; [|f_equal; lia].
    rewrite !firstn_all2; [done|rewrite length_drop; lia..].
Qed.

Lemma copy_partial_loop_ok l : forall n p h dst len_ off left copied,
  packet h p l -> (length l <= n)%nat ->
  0 <= len_ -> 0 <= off -> off <= 65535 -> 0 <= left -> left + len_ <= 65535 ->
  Z.of_nat (length (content l)) <= 65535 ->
  0 <= copied -> copied + len_ <= 65535 ->
  left + Z.of_nat (length (slice off len_ (content l))) <= Z.of_nat (length dst) ->
  let bs := slice off len_ (content l) in
  copy_partial_loop n p dst len_ off left copied h =
    (Ret (copied + Z.of_nat (length bs), write_list dst (Z.to_nat left) bs), h).
Proof.
  induction l as [|[q x bs] l IH];
    intros n p h dst len_ off left copied Hp Hn Hl Ho Ho' Hle Hll Hc Hcp Hcl Hdst; cbv zeta.
  - cbn in Hp. subst p. change (content []) with (@nil Z). destruct n; cbn [copy_partial_loop]; unfold slice; rewrite drop_nil, take_nil,
      write_list_nil; cbn; by rewrite Z.add_0_r.
  - destruct Hp as (-> & Hx & Hb & Ht & Hp). pose proof (holds_length _ _ _ Hb) as Hlen.
    rewrite content_cons, length_app in Hc. cbn [n_bytes] in Hc.
    destruct n as [|n]; [cbn in Hn; lia|]. cbn [length] in Hn. cbn [copy_partial_loop].
    destruct (Z.eqb_spec len_ 0) as [->|Hl0].
    { unfold slice. rewrite Z2Nat.inj_0, take_0, write_list_nil. cbn. by rewrite Z.add_0_r. }
    unfold bind at 1. rewrite (load_at h q x) by done.
    rewrite content_cons in *. cbn [n_bytes] in *.
    destruct (Z.eqb_spec off 0), (Z.leb_spec (len x) off); cbn [negb andb].
    all: try (rewrite slice_skip in * by lia; rewrite u16_small by lia;
              replace (off - len x) with (off - Z.of_nat (length bs)) by lia;
              apply IH; (done || lia)).
    all: pose proof (slice_split off len_ bs (content l)) as Hs; cbv zeta in Hs;
      rewrite Hs in * by lia; clear Hs;
      rewrite (u16_small (len x - off)) by lia;
      replace (if len_ <? len x - off then len_ else len x - off)
        with (Z.min len_ (Z.of_nat (length bs) - off))
        by (destruct (Z.ltb_spec len_ (len x - off)); lia);
      set (k := Z.min len_ (Z.of_nat (length bs) - off)) in *;
      assert (Hk : Z.of_nat (length (slice off k bs)) = k)
        by (unfold slice; rewrite length_take, length_drop; lia);
      rewrite length_app in *;
      unfold bind at 1; rewrite (read_mem_at h x bs off k) by (done || lia);
      fold (slice off k bs); unfold bind at 1;
      rewrite write_array_at by lia;
      rewrite !u16_small by lia;
      rewrite (IH n (next x)) by (done || lia || (rewrite write_list_length; lia));
      f_equal; f_equal; f_equal; [lia|];
      replace (Z.to_nat (left + k)) with (Z.to_nat left + length (slice off k bs))%nat by lia;
      apply write_list_app; lia.
Qed.
End Reads.

Section Bytes.
Context {A : Type} `{Allocator A}.
Implicit Types (h : heap A) (p : option ptr) (q : ptr) (l : list node).

Lemma copy_partial_ok q n l h dst len_ off :
  packet h (Some q) (n :: l) -> 0 <= len_ <= 65535 -> 0 <= off <= 65535 ->
  Z.of_nat (length (content (n :: l))) <= 65535 ->
  Z.of_nat (length (slice off len_ (content (n :: l)))) <= Z.of_nat (length dst) ->
  let bs := slice off len_ (content (n :: l)) in
  pbuf_copy_partial (Some q) dst len_ off h =
    (Ret (Z.of_nat (length bs), write_list dst 0 bs), h).
Proof.
  intros Hp Hl Ho Hc Hd bs. unfold pbuf_copy_partial. rewrite (bind_ret (LWIP_ERROR _) _ h tt h) by done.
  unfold fuel, gets, bind.
  pose proof (packet_size _ _ _ Hp).
  rewrite (copy_partial_loop_ok (n :: l)) by (done || lia). done.
Qed.

(** Skipping to the pbuf that holds an offset. *)
Lemma skip_loop_ok l : forall n p h off, packet h p l -> (length l <= n)%nat ->
  0 <= off <= 65535 ->
  (exists l1 q x bs l2, l = l1 ++ Node q x bs :: l2 /\
     skip_loop n p off h = (Ret (Some q, off - Z.of_nat (length (content l1))), h) /\
     0 <= off - Z.of_nat (length (content l1)) < len x) \/
  (Z.of_nat (length (content l)) <= off /\
   skip_loop n p off h = (Ret (None, off - Z.of_nat (length (content l))), h)).
Proof.
  induction l as [|[q x bs] l IH]; intros n p h off Hp Hn Ho.
  - cbn in Hp. subst p. right. change (content []) with (@nil Z). cbn [length].
    split; [lia|]. rewrite Z.sub_0_r. by destruct n.
  - destruct Hp as (-> & Hx & Hb & Ht & Hp). pose proof (holds_length _ _ _ Hb) as Hlen.
    destruct n as [|n]; [cbn in Hn; lia|]. cbn in Hn. cbn [skip_loop].
    unfold bind. rewrite (load_at h q x) by done.
    destruct (Z.leb_spec (len x) off).
    + rewrite u16_small by lia.
      destruct (IH n (next x) h (off - len x) Hp) as [(l1 & q' & x' & bs' & l2 & -> & Hs & Hr)|[Hge Hs]];
        [lia|lia| |]; rewrite Hs; [left|right].
      * exists (Node q x bs :: l1), q', x', bs', l2. rewrite content_cons, length_app. cbn [n_bytes].
        split_and!; [done|do 3 f_equal; lia|lia|lia].
      * rewrite content_cons, length_app. cbn [n_bytes]. split; [lia|]. do 3 f_equal. lia.
    + left. exists [], q, x, bs, l. change (content []) with (@nil Z). cbn [length].
      split_and!; [done|unfold ret; do 3 f_equal; lia|lia|lia].
Qed.

Lemma skip_ok l p h off : packet h p l -> 0 <= off <= 65535 ->
  (exists l1 q x bs l2, l = l1 ++ Node q x bs :: l2 /\
     pbuf_skip_const p off h = (Ret (Some q, off - Z.of_nat (length (content l1))), h) /\
     0 <= off - Z.of_nat (length (content l1)) < len x) \/
  (Z.of_nat (length (content l)) <= off /\
   pbuf_skip_const p off h = (Ret (None, off - Z.of_nat (length (content l))), h)).
Proof.
  intros Hp Ho. unfold pbuf_skip_const, fuel, gets, bind.
  apply skip_loop_ok; [done| |done]. pose proof (packet_size _ _ _ Hp). lia.
Qed.

Lemma packet_mid h p l1 n l2 : packet h p (l1 ++ n :: l2) ->
  pb h !! n_ptr n = Some (n_buf n) /\ holds (bl h) (n_buf n) (n_bytes n) /\
  packet h (next (n_buf n)) l2.
Proof.
  intros [p' Hp]%packet_suffix. destruct n. by destruct Hp as (_ & ? & ? & _ & ?).
Qed.

(** The bytes a packet carries are bytes. *)
Definition bytes (bs : list Z) : Prop := Forall (fun b => 0 <= b < 256) bs.

Lemma try_get_at_ok h p l off : packet h p l -> 0 <= off <= 65535 ->
  pbuf_try_get_at p off h = (Ret (default (-1) (content l !! Z.to_nat off)), h).
Proof.
  intros Hp Ho. unfold pbuf_try_get_at, bind.
  destruct (skip_ok l p h off Hp Ho) as [(l1 & q & x & bs & l2 & -> & Hs & Hr)|[Hge Hs]]; rewrite Hs.
  - destruct (packet_mid _ _ _ _ _ Hp) as (Hx & Hb & _). cbn in Hx, Hb.
    pose proof (holds_length _ _ _ Hb).
    rewrite (load_at h q x) by done. rewrite (proj2 (Z.ltb_lt _ _)) by lia.
    rewrite (read_mem_at h x bs) by (done || lia). unfold ret. do 2 f_equal.
    rewrite content_app, content_cons. cbn [n_bytes].
    rewrite lookup_app_r by lia. rewrite lookup_app_l by lia.
    set (k := (off - Z.of_nat (length (content l1)))) in *.
    replace (Z.to_nat off - length (content l1))%nat with (Z.to_nat k) by lia.
    destruct (lookup_lt_is_Some_2 bs (Z.to_nat k)) as [b Hbk]; [lia|].
    rewrite Hbk. cbn. by rewrite (drop_S _ _ _ Hbk).
  - rewrite (lookup_ge_None_2 _ (Z.to_nat off)) by lia. done.
Qed.

Lemma get_at_ok h p l off : packet h p l -> bytes (content l) -> 0 <= off <= 65535 ->
  pbuf_get_at p off h = (Ret (default 0 (content l !! Z.to_nat off)), h).
Proof.
  intros Hp Hb Ho. unfold pbuf_get_at, bind. rewrite (try_get_at_ok _ _ _ _ Hp Ho).
  unfold ret. do 2 f_equal. destruct (content l !! Z.to_nat off) as [b|] eqn:Hl; [|done]. cbn.
  pose proof (Forall_lookup_1 _ _ _ _ Hb Hl) as Hr. cbn in Hr.
  rewrite (proj2 (Z.leb_le _ _)) by lia. by apply u8_small.
Qed.
End Bytes.

(** ** Comparison and search *)

(** 0 when the lists agree, else one more than the first index where they differ. *)
Fixpoint first_diff (xs ys : list Z) (i : Z) : Z :=
  match xs, ys with
  | x :: xs, y :: ys => if x =? y then first_diff xs ys (i + 1) else i + 1
  | _, _ => 0
  end.

Lemma first_diff_zero xs : forall ys i, 0 <= i -> length xs = length ys ->
  first_diff xs ys i = 0 <-> xs = ys.
Proof.
  induction xs as [|x xs IH]; intros [|y ys] i Hi Hl; try done. cbn.
  destruct (Z.eqb_spec x y) as [->|Hne].
  - rewrite IH; [|lia|by injection Hl]. split; [by intros ->|by intros [=]].
  - split; [lia|congruence].
Qed.

Section Search.
Context {A : Type} `{Allocator A}.
Implicit Types (h : heap A) (p : option ptr) (q : ptr) (l : list node).

Lemma memcmp_loop_ok h p l s2 start k : forall i,
  packet h p l -> bytes (content l) -> 0 <= start -> 0 <= i ->
  start + i + Z.of_nat k <= 65535 ->
  (start + i + Z.of_nat k <= Z.of_nat (length (content l))) ->
  i + Z.of_nat k <= Z.of_nat (length s2) ->
  memcmp_loop k p start s2 i h =
    (Ret (first_diff (slice (start + i) (Z.of_nat k) (content l))
                     (slice i (Z.of_nat k) s2) i), h).
Proof.
  induction k as [|k IH]; intros i Hp Hb Hs Hi H1 H2 H3; [done|].
  cbn [memcmp_loop]. unfold bind at 1. rewrite u16_small by lia.
  rewrite (get_at_ok _ _ _ _ Hp Hb) by lia.
  destruct (lookup_lt_is_Some_2 (content l) (Z.to_nat (start + i))) as [a Ha]; [lia|].
  destruct (lookup_lt_is_Some_2 s2 (Z.to_nat i)) as [b Hb2]; [lia|].
  rewrite Ha. change (default 0 (Some a)) with a. unfold bind, read_array.
  rewrite (proj2 (Z.leb_le _ _)), (proj2 (Z.ltb_lt _ _)) by lia. cbn [andb ret].
  rewrite (nth_lookup_Some _ _ _ _ Hb2).
  unfold slice at 1 2. rewrite (drop_S _ _ _ Ha), (drop_S _ _ _ Hb2).
  replace (Z.to_nat (Z.of_nat (S k))) with (S k) by lia. cbn [take first_diff default option_fmap].
  destruct (Z.eqb_spec a b) as [->|Hne]; cbn [negb].
  - rewrite u16_small by lia. rewrite IH by (done || lia). unfold slice.
    replace (Z.to_nat (Z.of_nat k)) with k by lia.
    replace (Z.to_nat (start + (i + 1))) with (S (Z.to_nat (start + i))) by lia.
    by replace (Z.to_nat (i + 1)) with (S (Z.to_nat i)) by lia.
  - rewrite u16_small by lia. done.
Qed.

Lemma memcmp_ok h q n l s2 off m : packet h (Some q) (n :: l) -> bytes (content (n :: l)) ->
  0 <= off <= 65535 -> 0 <= m <= Z.of_nat (length s2) ->
  Z.of_nat (length (content (n :: l))) <= 65535 ->
  pbuf_memcmp q off s2 m h =
    (Ret (if Z.of_nat (length (content (n :: l))) <? off + m then 0xffff
          else first_diff (slice off m (content (n :: l))) (slice 0 m s2) 0), h).
Proof.
  intros Hp Hb Ho Hm Hc. pose proof (packet_tot _ _ _ _ Hp) as Ht.
  pose proof (packet_head _ _ _ _ Hp) as Hq. injection Hq as ->.
  assert (Hx : pb h !! n_ptr n = Some (n_buf n)) by (eapply packet_lookup; [exact Hp|left]).
  unfold pbuf_memcmp, bind at 1. rewrite (load_at _ _ _ Hx), Ht.
  destruct (Z.ltb_spec (Z.of_nat (length (content (n :: l)))) (off + m)); [done|].
  unfold bind, pbuf_skip.
  destruct (skip_ok _ _ _ _ Hp Ho) as [(l1 & q & x & bs & l2 & Hl & Hs & Hr)|[Hge Hs]]; rewrite Hs.
  - rewrite Hl in *. destruct (packet_suffix _ _ l1 _ Hp) as [p' Hp'].
    pose proof (packet_head _ _ _ _ Hp') as Hq'. cbn in Hq'. subst p'.
    rewrite content_app, length_app in *. set (o := (off - Z.of_nat (length (content l1)))) in *.
    apply Forall_app in Hb as [_ Hb].
    rewrite (memcmp_loop_ok _ _ _ _ _ _ _ Hp' Hb) by lia.
    rewrite Z.add_0_r, slice_skip by lia. by rewrite Z2Nat.id by lia.
  - assert (m = 0) as -> by lia. cbn. unfold slice. by rewrite Z2Nat.inj_0, !take_0.
Qed.

(** [i] is the first position from [from] on where [m] occurs in [c]. *)
Definition first_at (c m : list Z) (from i : Z) : Prop :=
  from <= i /\ slice i (Z.of_nat (length m)) c = m /\
  forall j, from <= j < i -> slice j (Z.of_nat (length m)) c <> m.

Lemma memfind_loop_ok h q n l mem k : forall i,
  packet h (Some q) (n :: l) -> bytes (content (n :: l)) ->
  Z.of_nat (length (content (n :: l))) <= 65534 ->
  0 <= i <= 65535 ->
  Z.of_nat (length mem) <= Z.of_nat (length (content (n :: l))) ->
  let max := Z.of_nat (length (content (n :: l))) - Z.of_nat (length mem) in
  max < i + Z.of_nat k ->
  exists r, memfind_loop k q mem (Z.of_nat (length mem)) max i h = (Ret r, h) /\
    (first_at (content (n :: l)) mem i r \/
     r = 0xFFFF /\ forall j, i <= j <= max ->
       slice j (Z.of_nat (length mem)) (content (n :: l)) <> mem).
Proof.
  set (c := content (n :: l)).
  induction k as [|k IH]; intros i Hp Hb Hc Hi Hm max Hmax.
  - exists 0xFFFF. cbn [memfind_loop]. rewrite (proj2 (Z.leb_gt _ _)) by lia.
    split; [done|]. right. split; [done|]. lia.
  - cbn [memfind_loop]. destruct (Z.leb_spec i max).
    + unfold bind. rewrite (memcmp_ok _ _ _ _ _ _ _ Hp Hb) by (fold c; lia). fold c.
      rewrite (proj2 (Z.ltb_ge _ _)) by lia.
      assert (slice 0 (Z.of_nat (length mem)) mem = mem) as ->
        by (unfold slice; rewrite Nat2Z.id; apply firstn_all).
      pose proof (first_diff_zero (slice i (Z.of_nat (length mem)) c) mem 0) as Hz.
      assert (Hlen : length (slice i (Z.of_nat (length mem)) c) = length mem)
        by (unfold slice; rewrite length_take, length_drop; lia).
      destruct (Z.eqb_spec (first_diff (slice i (Z.of_nat (length mem)) c) mem 0) 0) as [He|He].
      * exists i. split; [done|]. left. unfold first_at. split_and!; [lia| |lia].
        apply Hz; [lia|done|done].
      * rewrite u16_small by lia.
        destruct (IH (i + 1) Hp Hb Hc) as (r & Hr & Hspec); [lia|done|lia|].
        exists r. split; [exact Hr|].
        assert (Hne : slice i (Z.of_nat (length mem)) c <> mem)
          by (intros Heq; apply He, Hz; [lia|done|done]).
        destruct Hspec as [(H1 & H2 & H3)|[-> H3]].
        -- left. split_and!; [lia|done|]. intros j Hj. destruct (decide (j = i)) as [->|]; [done|].
           apply H3. lia.
        -- right. split; [done|]. intros j Hj. destruct (decide (j = i)) as [->|]; [done|].
           apply H3. lia.
    + exists 0xFFFF. split; [done|]. right. split; [done|]. lia.
Qed.
End Search.
