(* ===== verification/PbufWrite.v ===== *)
(** * Writing packets: [pbuf_take], [pbuf_put_at] *)
From S2P Require Export PbufRead.

(** The memory block of a node's payload; a packet whose nodes have different
    blocks can be written node by node. *)
Definition n_block (n : node) : option ptr := fst <$> payload (n_buf n).
Definition separate (l : list node) : Prop := NoDup (n_block <$> l).

(** The nodes after [d] is written over the front of the packet. *)
Fixpoint refill (l : list node) (d : list Z) : list node :=
  match l with
  | [] => []
  | Node q x bs :: l =>
      Node q x (take (length bs) d ++ drop (length d) bs) :: refill l (drop (length bs) d)
  end.

Lemma refill_nil l : refill l [] = l.
Proof.
  induction l as [|[q x bs] l IH]; [done|]. cbn. by rewrite take_nil, drop_nil, drop_0, IH.
Qed.

Lemma refill_content l : forall d, (length d <= length (content l))%nat ->
  content (refill l d) = d ++ drop (length d) (content l).
Proof.
  induction l as [|[q x bs] l IH]; intros d Hd.
  - change (content []) with (@nil Z) in *. destruct d; [done|cbn in Hd; lia].
  - rewrite content_cons, length_app in Hd. cbn [refill n_bytes] in *.
    rewrite !content_cons. cbn [n_bytes]. rewrite IH by (rewrite length_drop; lia).
    rewrite length_drop, drop_app, <- app_assoc.
    destruct (Nat.le_gt_cases (length d) (length bs)).
    + rewrite (take_ge d) by lia. rewrite (drop_ge d) by lia. cbn.
      by replace (length d - length bs)%nat with 0%nat by lia.
    + rewrite (drop_ge bs) by lia. cbn. by rewrite app_assoc, take_drop.
Qed.

Lemma refill_blocks l : forall d, n_block <$> refill l d = n_block <$> l.
Proof. induction l as [|[q x bs] l IH]; intros d; [done|]. cbn. by rewrite IH. Qed.

Lemma refill_bufs l : forall d, n_buf <$> refill l d = n_buf <$> l.
Proof. induction l as [|[q x bs] l IH]; intros d; [done|]. cbn. by rewrite IH. Qed.

Section Writes.
Context {A : Type} `{Allocator A}.
Implicit Types (h : heap A) (p : option ptr) (q b : ptr) (x : pbuf) (l : list node).

Definition set_block b (a : list Z) h : heap A := Heap (pb h) (<[b := a]> (bl h)) (al h).

(** [h'] is [h] with other contents in the blocks of [l]. *)
Definition writes_only l h h' : Prop :=
  pb h' = pb h /\ al h' = al h /\
  forall b, Some b ∉ n_block <$> l -> bl h' !! b = bl h !! b.

Lemma packet_frame l : forall p h h', packet h p l -> pb h' = pb h ->
  (forall b, Some b ∈ n_block <$> l -> bl h' !! b = bl h !! b) -> packet h' p l.
Proof.
  induction l as [|[q x bs] l IH]; intros p h h' Hp Hpb Hbl; [done|].
  destruct Hp as (-> & Hx & Hb & Ht & Hp). split_and!; [done|by rewrite Hpb| |done|].
  - destruct Hb as (b & o & a & Hpl & Ha & Hr). exists b, o, a. split; [done|].
    rewrite Hbl; [done|]. cbn. unfold n_block at 1. cbn. rewrite Hpl. left.
  - apply (IH _ h); [done|done|]. intros b Hin. apply Hbl. by right.
Qed.

Lemma write_mem_at h x bs off cs : holds (bl h) x bs -> 0 <= off ->
  off + Z.of_nat (length cs) <= len x ->
  exists b a, n_block (Node 1%positive x bs) = Some b /\
    write_mem (payload x) off cs h = (Ret tt, set_block b a h) /\
    holds (bl (set_block b a h)) x (write_list bs (Z.to_nat off) cs).
Proof.
  intros (b & o & a & Hpl & Ha & Ho & Hl & Hr & ->) Hoff Hle.
  exists b, (write_list a (Z.to_nat (o + off)) cs). unfold n_block. cbn. rewrite Hpl.
  split_and!; [done| |].
  - unfold write_mem, bind, block. rewrite Ha, write_array_at by lia. done.
  - exists b, o, (write_list a (Z.to_nat (o + off)) cs).
    rewrite write_list_length by lia. cbn. rewrite lookup_insert_eq.
    split_and!; try done.
    replace (Z.to_nat (o + off)) with (Z.to_nat o + Z.to_nat off)%nat by lia.
    apply list_eq. intros i. unfold write_list.
    destruct (decide (i < Z.to_nat (len x))%nat) as [Hi|Hi].
    + rewrite (lookup_take_lt _ _ _ Hi), lookup_drop.
      rewrite !lookup_app, !lookup_drop, !length_take, length_drop.
      rewrite !Nat.min_l by lia.
      destruct (decide (i < Z.to_nat off)%nat).
      * rewrite (lookup_take_lt a (Z.to_nat o + Z.to_nat off)) by lia.
        rewrite !lookup_take_lt, lookup_drop by lia.
        destruct (a !! _) eqn:E; [done|]. apply lookup_ge_None in E. lia.
      * rewrite (lookup_take_ge a (Z.to_nat o + Z.to_nat off)) by lia.
        rewrite (lookup_take_ge (take _ _) (Z.to_nat off)) by lia.
        replace (Z.to_nat o + i - (Z.to_nat o + Z.to_nat off))%nat with (i - Z.to_nat off)%nat by lia.
        destruct (cs !! _) eqn:E; [done|]. apply lookup_ge_None in E.
        rewrite lookup_take_lt, lookup_drop by lia. f_equal. lia.
    + rewrite (lookup_take_ge _ _ _) by lia. apply lookup_ge_None_2.
      rewrite !length_app, !length_take, !length_drop, length_take, length_drop. lia.
Qed.

Lemma write_list_front bs cs : (length cs <= length bs)%nat ->
  write_list bs 0 cs = cs ++ drop (length cs) bs.
Proof. done. Qed.

(** [take_loop] writes [total] bytes of [d], from [copied] on, over the front. *)
Lemma take_loop_ok l : forall n p h d total copied,
  packet h p l -> separate l -> (length l <= n)%nat -> 0 <= copied -> 0 <= total ->
  copied + total <= 65535 -> copied + total <= Z.of_nat (length d) ->
  total <= Z.of_nat (length (content l)) -> Z.of_nat (length (content l)) <= 65535 ->
  exists h', take_loop n p d total copied h = (Ret (copied + total), h') /\
    packet h' p (refill l (slice copied total d)) /\ writes_only l h h'.
Proof.
  induction l as [|[q x bs] l IH]; intros n p h d total copied Hp Hs Hn Hc0 Ht0 Hc Hd Ht Hcl.
  - change (content []) with (@nil Z) in *. cbn in Ht. assert (total = 0) as -> by lia.
    exists h. rewrite Z.add_0_r. by destruct n.
  - destruct Hp as (-> & Hx & Hb & Htot & Hp). pose proof (holds_length _ _ _ Hb) as Hlen.
    rewrite content_cons, length_app in *. cbn [n_bytes] in *.
    apply NoDup_cons in Hs as [Hnb Hs].
    destruct n as [|n]; [cbn in Hn; lia|]. cbn in Hn. cbn [take_loop].
    destruct (Z.eqb_spec total 0) as [->|Hne].
    { exists h. rewrite Z.add_0_r. split; [done|]. unfold slice.
      rewrite Z2Nat.inj_0, take_0, refill_nil. by split. }
    unfold bind at 1, deref. cbn [ret]. unfold bind at 1. rewrite (load_at h q x) by done.
    set (k := if len x <? total then len x else total).
    assert (Hk : k = Z.min total (len x)) by (unfold k; destruct (Z.ltb_spec (len x) total); lia); clearbody k.
    unfold bind at 1, read_bytes. rewrite !(proj2 (Z.leb_le _ _)) by lia. cbn [andb ret].
    fold (slice copied k d). assert (Hsl : length (slice copied k d) = Z.to_nat k)
      by (unfold slice; rewrite length_take, length_drop; lia).
    destruct (write_mem_at h x bs 0 (slice copied k d) Hb) as (b & a & Hblk & Hw & Hb'); [lia|lia|].
    unfold bind. rewrite Hw, !u16_small by lia.
    assert (Hp' : packet (set_block b a h) (next x) l).
    { apply (packet_frame l _ h); [done|done|]. intros b' Hin. cbn.
      rewrite lookup_insert_ne; [done|]. intros <-. apply Hnb. cbn in Hblk.
      unfold n_block in Hblk |- *. cbn in *. by rewrite Hblk. }
    destruct (IH n (next x) _ d (total - k) (copied + k) Hp' Hs) as (h' & Hl & Hp2 & Hpb & Hal & Hw2);
      [lia..|].
    replace (copied + k + (total - k)) with (copied + total) in Hl by lia.
    exists h'. rewrite Hl. unfold writes_only.
    split_and!; [done| |by rewrite Hpb|exact Hal|].
    + cbn [refill]. cbn [packet]. rewrite Hpb. split_and!; [done|done| | |].
      * assert (Hbl : bl h' !! b = Some a).
        { rewrite Hw2; [by cbn; rewrite lookup_insert_eq|].
          intros Hin. apply Hnb. unfold n_block in Hblk |- *. cbn in *. by rewrite Hblk. }
        assert (take (length bs) (slice copied total d) ++ drop (length (slice copied total d)) bs
                = write_list bs 0 (slice copied k d)) as ->.
        { assert (take (length bs) (slice copied total d) = slice copied k d) as ->.
          { unfold slice. rewrite take_take. f_equal. lia. }
          rewrite write_list_front by lia. f_equal.
          assert (length (slice copied total d) = Z.to_nat total)
            by (unfold slice; rewrite length_take, length_drop; lia).
          destruct (Z.le_gt_cases total (len x)); [f_equal; lia|].
          rewrite !drop_ge by lia. done. }
        destruct Hb' as (b0 & o & a0 & Hpl & Ha0 & Hr). cbn in Ha0.
        assert (b0 = b) as -> by (unfold n_block in Hblk; cbn in Hblk; rewrite Hpl in Hblk;
          by injection Hblk).
        rewrite lookup_insert_eq in Ha0. injection Ha0 as ->. exists b, o, a0. by rewrite Hbl.
      * rewrite refill_content by (unfold slice; rewrite length_drop, length_take, length_drop; lia).
        rewrite length_app, !length_drop. unfold slice. rewrite length_take, length_drop. lia.
      * assert (drop (length bs) (slice copied total d) = slice (copied + k) (total - k) d) as ->; [|done].
        unfold slice. rewrite skipn_firstn_comm, drop_drop.
        destruct (Z.le_gt_cases total (len x)).
        -- replace (Z.to_nat (total - k)) with 0%nat by lia.
           by replace (Z.to_nat total - length bs)%nat with 0%nat by lia.
        -- f_equal; [lia|]. f_equal. lia.
    + intros b' Hb2. rewrite fmap_cons in Hb2. apply not_elem_of_cons in Hb2 as [Hne2 Hin2].
      rewrite Hw2 by done. cbn. rewrite lookup_insert_ne; [done|]. intros <-.
      apply Hne2. unfold n_block in Hblk |- *. cbn in *. by rewrite Hblk.
Qed.

Lemma take_ok q n l h d m : packet h (Some q) (n :: l) -> separate (n :: l) ->
  0 <= m <= Z.of_nat (length d) -> Z.of_nat (length (content (n :: l))) <= 65535 ->
  if Z.of_nat (length (content (n :: l))) <? m
  then pbuf_take (Some q) d m h = (Fault, h)
  else exists h', pbuf_take (Some q) d m h = (Ret ERR_OK, h') /\
         packet h' (Some q) (refill (n :: l) (slice 0 m d)) /\ writes_only (n :: l) h h'.
Proof.
  intros Hp Hs Hm Hc. pose proof (packet_tot _ _ _ _ Hp) as Ht.
  pose proof (packet_head _ _ _ _ Hp) as Hq. injection Hq as Hq.
  assert (Hx : pb h !! q = Some (n_buf n))
    by (rewrite Hq; eapply packet_lookup; [exact Hp|left]).
  unfold pbuf_take. rewrite (bind_ret (LWIP_ERROR _) _ h tt h) by done. rewrite (bind_ret (deref _) _ h q h) by done.
  cstep (load_at _ _ _ Hx). rewrite Ht. destruct (Z.ltb_spec (Z.of_nat (length (content (n :: l)))) m).
  { unfold bind at 1. by rewrite (proj2 (Z.leb_gt _ _)) by lia. }
  rewrite (bind_ret (LWIP_ERROR _) _ h tt h) by (apply LWIP_ERROR_true; lia). unfold fuel, gets, bind.
  pose proof (packet_size _ _ _ Hp) as Hsz.
  destruct (take_loop_ok (n :: l) (S (size (pb h))) (Some q) h d m 0 Hp Hs) as (h' & Hl & Hr);
    [lia..|].
  exists h'. rewrite Hl. rewrite Z.add_0_l, Z.eqb_refl. by split.
Qed.

(** Rewriting one node of a packet. *)
Lemma packet_write h q x bs bs' b a l1 l2 : forall p,
  packet h p (l1 ++ Node q x bs :: l2) -> n_block (Node q x bs) = Some b ->
  Some b ∉ n_block <$> l1 -> Some b ∉ n_block <$> l2 ->
  holds (bl (set_block b a h)) x bs' ->
  packet (set_block b a h) p (l1 ++ Node q x bs' :: l2).
Proof.
  induction l1 as [|[q1 x1 bs1] l1 IH]; intros p Hp Hb H1 H2 Hh.
  - destruct Hp as (-> & Hx & _ & Ht & Hp). split_and!; [done|done|done|done|].
    apply (packet_frame l2 _ h); [done|done|]. intros b' Hin. cbn.
    rewrite lookup_insert_ne; [done|]. by intros <-.
  - destruct Hp as (-> & Hx & Hb1 & Ht & Hp). rewrite fmap_cons in H1.
    apply not_elem_of_cons in H1 as [Hne H1]. split_and!; [done|done| | |by apply IH].
    + destruct Hb1 as (b1 & o & a1 & Hpl & Ha & Hr). exists b1, o, a1. split; [done|]. cbn.
      rewrite lookup_insert_ne; [done|]. intros <-. apply Hne. unfold n_block. cbn. by rewrite Hpl.
    + destruct (packet_mid _ _ _ _ _ Hp) as (_ & Hm & _). apply holds_length in Hm, Hh. cbn in Hm.
      rewrite Ht. rewrite !content_app, !content_cons, !length_app. cbn. lia.
Qed.

(** [pbuf_put_at]: one byte. *)
Lemma put_at_ok p l h off v : packet h p l -> separate l -> 0 <= off <= 65535 ->
  exists h' l', pbuf_put_at p off v h = (Ret tt, h') /\ packet h' p l' /\
    content l' = <[Z.to_nat off := v]> (content l) /\ writes_only l h h'.
Proof.
  intros Hp Hs Ho. unfold pbuf_put_at, pbuf_skip, bind at 1.
  destruct (skip_ok l p h off Hp Ho) as [(l1 & q & x & bs & l2 & -> & Hsk & Hr)|[Hge Hsk]]; rewrite Hsk.
  2:{ exists h, l. split_and!; [done|done| |by split].
      symmetry. apply list_insert_ge. lia. }
  destruct (packet_mid _ _ _ _ _ Hp) as (Hx & Hb & Hp2). cbn in Hx, Hb, Hp2.
  pose proof (holds_length _ _ _ Hb) as Hlen.
  set (o := (off - Z.of_nat (length (content l1)))) in *.
  unfold bind. rewrite (load_at h q x), (proj2 (Z.ltb_lt _ _)) by (done || lia).
  destruct (write_mem_at h x bs o [v] Hb) as (b & a & Hblk & Hw & Hb'); [lia|cbn; lia|].
  rewrite Hw. unfold separate in Hs. rewrite fmap_app, fmap_cons in Hs.
  apply NoDup_app in Hs as (_ & Hs1 & [Hs2 _]%NoDup_cons).
  assert (Hbq : n_block (Node q x bs) = Some b) by exact Hblk. rewrite Hbq in Hs2.
  assert (Hbi : write_list bs (Z.to_nat o) [v] = <[Z.to_nat o := v]> bs).
  { rewrite insert_take_drop by lia. unfold write_list. cbn. by rewrite Nat.add_1_r. }
  exists (set_block b a h), (l1 ++ Node q x (<[Z.to_nat o := v]> bs) :: l2).
  split_and!; [done| | |].
  - rewrite Hbi in Hb'. apply (packet_write _ _ _ bs); try done.
    intros Hin. apply (Hs1 _ Hin). rewrite Hbq. left.
  - rewrite !content_app, !content_cons. cbn [n_bytes]. rewrite insert_app_r_alt by lia.
    f_equal. rewrite insert_app_l by lia. by replace (Z.to_nat off - length (content l1))%nat
      with (Z.to_nat o) by lia.
  - split_and!; [done|done|]. intros b' Hb2. cbn. rewrite lookup_insert_ne; [done|].
    intros <-. apply Hb2. rewrite fmap_app, fmap_cons, Hbq. apply elem_of_app. right. left.
Qed.
End Writes.
