(* ===== verification/PbufChain.v ===== *)
(** * The life of pbufs: allocation, reference counts, chaining, headers *)
From S2P Require Export PbufWrite.

(** ** Chains, whatever their payload *)
Section Chain.
Context {A : Type} `{Allocator A}.
Implicit Types (h : heap A) (p : option ptr) (q : ptr) (x : pbuf) (c : list (ptr * pbuf)).

Fixpoint chain (m : gmap ptr pbuf) p c : Prop :=
  match c with
  | [] => p = None
  | (q, x) :: c => p = Some q /\ m !! q = Some x /\ chain m (next x) c
  end.

Definition links (l : list node) : list (ptr * pbuf) := (fun n => (n_ptr n, n_buf n)) <$> l.

Lemma links_ptrs l : (links l).*1 = n_ptr <$> l.
Proof. unfold links. by rewrite <- list_fmap_compose. Qed.

Lemma packet_chain h p l : packet h p l -> chain (pb h) p (links l).
Proof.
  revert p. induction l as [|[q x bs] l IH]; intros p; [done|].
  intros (-> & Hx & _ & _ & Hp). split_and!; [done|done|by apply IH].
Qed.

Lemma chain_suffix m p c1 c2 : chain m p (c1 ++ c2) -> exists p', chain m p' c2.
Proof.
  revert p. induction c1 as [|[q x] c1 IH]; intros p Hp; [by exists p|].
  destruct Hp as (_ & _ & Hp). by apply IH in Hp.
Qed.

Lemma chain_det m p c1 c2 : chain m p c1 -> chain m p c2 -> c1 = c2.
Proof.
  revert p c2. induction c1 as [|[q x] c1 IH]; intros p [|[q' x'] c2]; cbn.
  - done.
  - intros -> [? _]. done.
  - intros [-> _] ?. done.
  - intros (-> & Hx & H1) (Hq & Hx' & H2). simplify_eq. f_equal. by eapply IH.
Qed.

Lemma chain_NoDup m p c : chain m p c -> NoDup c.*1.
Proof.
  revert p. induction c as [|[q x] c IH]; intros p Hp; [constructor|].
  destruct (chain_suffix m p [(q, x)] c Hp) as [p' Ht]. cbn. constructor; [|by eapply IH].
  intros ([q' x'] & Hq & Hin)%list_elem_of_fmap. cbn in Hq. subst q'.
  apply list_elem_of_split in Hin as (c1 & c2 & ->).
  destruct (chain_suffix m p' c1 _ Ht) as [p2 H2].
  assert (p2 = Some q) as -> by by destruct H2.
  destruct Hp as (-> & Hx & Hp). assert (x' = x) as -> by (destruct H2 as (_ & ? & _); congruence).
  pose proof (chain_det m (Some q) ((q, x) :: c1 ++ (q, x) :: c2) ((q, x) :: c2)) as Heq.
  specialize (Heq (conj eq_refl (conj Hx Hp)) H2). apply (f_equal length) in Heq.
  cbn in Heq. rewrite length_app in Heq. cbn in Heq. lia.
Qed.

Lemma chain_lookup m p c q x : chain m p c -> (q, x) ∈ c -> m !! q = Some x.
Proof.
  revert p. induction c as [|[q' x'] c IH]; intros p Hp Hin; [by apply elem_of_nil in Hin|].
  destruct Hp as (_ & Hx & Hp). apply elem_of_cons in Hin as [[= -> ->]|Hin]; [done|by eapply IH].
Qed.

Lemma chain_size m p c : chain m p c -> (length c <= size m)%nat.
Proof.
  intros Hp. rewrite <- (length_fmap fst c), <- size_dom.
  rewrite <- (size_list_to_set (C := gset ptr)) by by eapply chain_NoDup.
  apply subseteq_size. intros q Hq%elem_of_list_to_set.
  apply list_elem_of_fmap in Hq as ([q' x] & -> & Hn). apply elem_of_dom.
  exists x. by eapply chain_lookup.
Qed.

(** A chain does not see changes to other pbufs. *)
Lemma pchain_frame m m' p c : chain m p c ->
  (forall q, q ∈ c.*1 -> m' !! q = m !! q) -> chain m' p c.
Proof.
  revert p. induction c as [|[q x] c IH]; intros p Hp Hm; [done|].
  destruct Hp as (-> & Hx & Hp). split_and!; [done| |].
  - rewrite Hm; [done|]. left.
  - apply IH; [done|]. intros q' Hq'. apply Hm. by right.
Qed.
End Chain.

(** ** [pbuf_free] *)
Section Free.
Context {A : Type} `{Allocator A}.
Context (custom : ptr -> heap A -> heap A).
Implicit Types (h : heap A) (p : option ptr) (q : ptr) (x : pbuf) (c : list (ptr * pbuf)).

Definition kind_of x : akind :=
  if type x =? PBUF_POOL then MEMP_PBUF_POOL
  else if (type x =? PBUF_ROM) || (type x =? PBUF_REF) then MEMP_PBUF else RAM.

Definition released q x h : heap A :=
  Heap (delete q (pb h)) (delete q (bl h)) (al_put (kind_of x) q (al h)).

(** Give back the pbufs of [c], in order. *)
Definition release_all c h : heap A := foldl (fun h qx => released qx.1 qx.2 h) h c.

(** One reference to the head of [c] less. *)
Definition unref c h : heap A :=
  match c with
  | [] => h
  | (q, x) :: _ => Heap (<[q := with_ref (ref x - 1) x]> (pb h)) (bl h) (al h)
  end.

(** [c1] has one reference per pbuf, and what follows has more. *)
Definition sole c : Prop := Forall (fun qx : ptr * pbuf => ref qx.2 = 1 /\ PBUF_FLAG_custom qx.2 = false) c.
Definition shared c : Prop := match c with [] => True | (q, x) :: _ => 1 < ref x <= 65535 end.

Lemma release_all_cons q x c h : release_all ((q, x) :: c) h = release_all c (released q x h).
Proof. done. Qed.

Lemma release_all_lookup c h q : q ∉ c.*1 -> pb (release_all c h) !! q = pb h !! q.
Proof.
  revert h. induction c as [|[q' x] c IH]; intros h Hq; [done|]. cbn in Hq.
  apply not_elem_of_cons in Hq as [Hne Hq]. rewrite release_all_cons, IH by done. cbn.
  by rewrite lookup_delete_ne.
Qed.

Lemma release_all_block c h q : q ∉ c.*1 -> bl (release_all c h) !! q = bl h !! q.
Proof.
  revert h. induction c as [|[q' x] c IH]; intros h Hq; [done|]. cbn in Hq.
  apply not_elem_of_cons in Hq as [Hne Hq]. rewrite release_all_cons, IH by done. cbn.
  by rewrite lookup_delete_ne.
Qed.

Lemma release_all_gone c h q : q ∈ c.*1 ->
  pb (release_all c h) !! q = None /\ bl (release_all c h) !! q = None.
Proof.
  revert h. induction c as [|[q' x] c IH]; intros h Hq; [by apply elem_of_nil in Hq|]. cbn in Hq. rewrite release_all_cons.
  destruct (decide (q ∈ c.*1)) as [Hin|Hin]; [by apply IH|].
  apply elem_of_cons in Hq as [->|Hq]; [|done].
  rewrite (release_all_lookup c _ _ Hin), (release_all_block c _ _ Hin). cbn.
  by rewrite !lookup_delete_eq.
Qed.

Lemma release_all_live c : forall h, live (al (release_all c h)) = live (al h) ∖ list_to_set c.*1.
Proof.
  induction c as [|[q x] c IH]; intros h; [cbn; by rewrite difference_empty_L|].
  rewrite release_all_cons, IH. cbn. rewrite put_live. apply difference_difference_l_L.
Qed.

Lemma free_loop_ok c1 : forall n p h count c2,
  chain (pb h) p (c1 ++ c2) -> sole c1 -> shared c2 -> (length c1 < n)%nat ->
  free_loop custom n p count h =
    (Ret (Nat.iter (length c1) (fun k => u8 (k + 1)) count), unref c2 (release_all c1 h)).
Proof.
  induction c1 as [|[q x] c1 IH]; intros n p h count c2 Hp H1 H2 Hn.
  - destruct n as [|n]; [lia|]. destruct c2 as [|[q x] c2].
    { cbn in Hp. by subst p. }
    destruct Hp as (-> & Hx & Hp). cbn in H2 |- *. unfold bind.
    rewrite (load_at h q x), (proj2 (Z.ltb_lt _ _)) by (done || lia). cbn.
    unfold store, bind. rewrite (load_at h q x) by done. cbn. rewrite u16_small by lia.
    by rewrite (proj2 (Z.eqb_neq _ _)) by lia.
  - destruct n as [|n]; [lia|]. cbn in Hn. destruct Hp as (-> & Hx & Hp).
    pose proof (chain_NoDup (pb h) (Some q) ((q, x) :: c1 ++ c2) (conj eq_refl (conj Hx Hp))) as Hnd.
    cbn in Hnd. apply NoDup_cons in Hnd as [Hnd _].
    apply Forall_cons in H1 as [[Hr Hcu] H1]. cbn in Hr, Hcu.
    cbn [free_loop]. unfold bind. rewrite (load_at h q x) by done. rewrite Hr.
    change (0 <? 1) with true. change (u16 (1 - 1) =? 0) with true. cbn [assert_ ret].
    unfold store, bind. rewrite (load_at h q x) by done. unfold modify. rewrite Hcu.
    assert (Hk : forall h0, (if type x =? PBUF_POOL then release MEMP_PBUF_POOL q
       else if (type x =? PBUF_ROM) || (type x =? PBUF_REF) then release MEMP_PBUF q
       else release RAM q) h0 = (Ret tt, released q x h0)).
    { intros h0. unfold released, kind_of. repeat case_match; done. }
    assert (Hrel : forall y, released q x (Heap (<[q := y]> (pb h)) (bl h) (al h)) = released q x h)
      by (intros y; unfold released; cbn; by rewrite delete_insert_eq).
    rewrite Hk, Hrel.
    rewrite (IH n (next x) (released q x h) (u8 (count + 1)) c2).
    + cbn [length]. by rewrite Nat.iter_succ_r.
    + eapply pchain_frame; [exact Hp|]. intros q' Hq'. cbn. rewrite lookup_delete_ne; [done|].
      by intros <-.
    + done.
    + done.
    + lia.
Qed.

(** The type byte is one of the four. *)
Definition known_type x : Prop :=
  type x = PBUF_RAM \/ type x = PBUF_ROM \/ type x = PBUF_REF \/ type x = PBUF_POOL.

Lemma known_type_true x : known_type x ->
  (type x =? PBUF_RAM) || (type x =? PBUF_ROM) || (type x =? PBUF_REF) || (type x =? PBUF_POOL) = true.
Proof. by intros [-> | [-> | [-> | ->]]]. Qed.

Lemma free_ok h q x c1 c2 :
  chain (pb h) (Some q) (c1 ++ c2) -> pb h !! q = Some x -> known_type x -> sole c1 -> shared c2 ->
  pbuf_free custom (Some q) h =
    (Ret (Nat.iter (length c1) (fun k => u8 (k + 1)) 0), unref c2 (release_all c1 h)).
Proof.
  intros Hp Hx Ht H1 H2. pose proof (chain_size _ _ _ Hp) as Hs. rewrite length_app in Hs.
  unfold pbuf_free, deref, fuel, gets, bind. cbn [ret]. rewrite (load_at h q x) by done.
  rewrite known_type_true by done. cbn [assert_ ret].
  apply free_loop_ok; (done || lia).
Qed.

Lemma count_u8 n : Nat.iter n (fun k => u8 (k + 1)) 0 = u8 (Z.of_nat n).
Proof.
  induction n as [|n IH]; [done|]. rewrite Nat.iter_succ, IH. unfold u8.
  rewrite Zplus_mod_idemp_l. f_equal. lia.
Qed.
End Free.

(** ** [pbuf_ref], [pbuf_cat], [pbuf_chain], [pbuf_dechain] *)
Section Cat.
Context {A : Type} `{Allocator A}.
Context (custom : ptr -> heap A -> heap A).
Implicit Types (h : heap A) (p : option ptr) (q : ptr) (x : pbuf) (l : list node).

Definition set_pb (m : gmap ptr pbuf) h : heap A := Heap m (bl h) (al h).

Lemma store_at h q x y : pb h !! q = Some x ->
  store q y h = (Ret tt, set_pb (<[q := y]> (pb h)) h).
Proof. intros Hx. unfold store, bind. by rewrite (load_at h q x). Qed.

Lemma update_at h q x f : pb h !! q = Some x ->
  update q f h = (Ret tt, set_pb (<[q := f x]> (pb h)) h).
Proof. intros Hx. unfold update, bind. by rewrite (load_at h q x), (store_at h q x). Qed.

(** The nodes of the first chain once [t] is linked behind it. *)
Fixpoint appended (l : list node) (t : ptr) (t_tot : Z) : list node :=
  match l with
  | [] => []
  | Node q x bs :: l =>
      Node q (with_next (match l with [] => Some t | _ => next x end)
               (with_tot_len (tot_len x + t_tot) x)) bs :: appended l t t_tot
  end.

Lemma appended_bytes l t k : n_bytes <$> appended l t k = n_bytes <$> l.
Proof. induction l as [|[q x bs] l IH]; [done|]. cbn. by rewrite IH. Qed.

Lemma appended_content l t k : content (appended l t k) = content l.
Proof. unfold content. by rewrite appended_bytes. Qed.

Lemma appended_ptrs l t k : n_ptr <$> appended l t k = n_ptr <$> l.
Proof. induction l as [|[q x bs] l IH]; [done|]. cbn. by rewrite IH. Qed.

Lemma appended_blocks l t k : n_block <$> appended l t k = n_block <$> l.
Proof. induction l as [|[q x bs] l IH]; [done|]. cbn. by rewrite IH. Qed.

(** A packet only depends on its own pbufs and blocks. *)
Lemma packet_pb_frame l : forall p h m, packet h p l ->
  (forall q, q ∈ n_ptr <$> l -> m !! q = pb h !! q) -> packet (set_pb m h) p l.
Proof.
  induction l as [|[q x bs] l IH]; intros p h m Hp Hm; [done|].
  destruct Hp as (-> & Hx & Hb & Ht & Hp). split_and!; [done| |done|done|].
  - cbn. rewrite Hm; [done|]. left.
  - apply IH; [done|]. intros q' Hq'. apply Hm. by right.
Qed.

Lemma set_pb_id h : set_pb (pb h) h = h.
Proof. by destruct h. Qed.

Lemma set_pb_set_pb m m' h : set_pb m (set_pb m' h) = set_pb m h.
Proof. done. Qed.

(** The walk to the last pbuf, updating the total lengths on the way; the final
    store links [t], and the two packets are one. *)
Lemma cat_loop_ok l : forall n0 n h t lt,
  packet h (Some (n_ptr n0)) (n0 :: l) -> packet h (Some t) lt -> (length l < n)%nat ->
  n_ptr <$> n0 :: l ## n_ptr <$> lt ->
  let k := Z.of_nat (length (content lt)) in
  Z.of_nat (length (content (n0 :: l))) + k <= 65535 ->
  exists q x m,
    cat_loop n (n_ptr n0) k h = (Ret q, set_pb m h) /\ m !! q = Some x /\
    tot_len x = len x /\ tot_len x + k <= 65535 /\ 0 <= len x /\
    (forall q', q' ∉ n_ptr <$> n0 :: l -> m !! q' = pb h !! q') /\
    (q ∈ n_ptr <$> n0 :: l) /\
    packet (set_pb (<[q := with_next (Some t) (with_tot_len (tot_len x + k) x)]> m) h)
           (Some (n_ptr n0)) (appended (n0 :: l) t k ++ lt).
Proof.
  induction l as [|n1 l IH]; intros [q x bs] n h t lt Hp Hpt Hn Hd k Hk;
    (destruct n as [|n]; [lia|]); pose proof (packet_tot _ _ _ _ Hp) as Htot; cbn -[content] in Htot;
    destruct Hp as (_ & Hx & Hb & Ht & Hp); cbn [n_ptr] in *;
    pose proof (holds_length _ _ _ Hb) as Hlen.
  - cbn in Hp. exists q, x, (pb h). cbn [cat_loop]. unfold bind.
    rewrite (load_at h q x), Hp by done. change (content []) with (@nil Z) in Ht. cbn in Ht.
    rewrite content_cons, length_app in Hk. cbn [n_bytes] in Hk.
    change (content []) with (@nil Z) in Hk. cbn [length] in Hk.
    split_and!; [by rewrite set_pb_id|done|lia|lia|lia|done|left|].
    cbn -[content]. rewrite lookup_insert_eq.
    split_and!; [done|done|exact Hb|unfold k; lia|].
    apply packet_pb_frame; [done|]. intros q' Hq'. rewrite lookup_insert_ne; [done|].
    intros <-. eapply Hd; [left|exact Hq'].
  - cbn [length] in Hn. cbn [cat_loop]. unfold bind.
    pose proof (packet_head _ _ _ _ Hp) as Hnx.
    assert (Hnd : q ∉ n_ptr <$> n1 :: l).
    { assert (packet h (Some q) (Node q x bs :: n1 :: l)) as Hpp by by split_and!.
      apply packet_NoDup in Hpp. rewrite fmap_cons in Hpp. by apply NoDup_cons in Hpp as [? _]. }
    rewrite (load_at h q x), Hnx by done.
    rewrite content_cons, length_app in Hk, Htot. cbn [n_bytes] in Hk, Htot.
    rewrite (store_at h q x) by done.
    rewrite u16_small by lia. set (x' := with_tot_len (tot_len x + k) x).
    set (h1 := set_pb (<[q:=x']> (pb h)) h).
    destruct (IH n1 n h1 t lt) as (q2 & x2 & m & Hc & Hm & H1 & H2 & H3 & Hfr & Hin & Hpk).
    + rewrite Hnx in Hp. apply packet_pb_frame; [done|]. intros q' Hq'.
      rewrite lookup_insert_ne; [done|]. by intros <-.
    + apply packet_pb_frame; [done|]. intros q' Hq'. rewrite lookup_insert_ne; [done|].
      intros <-. eapply Hd; [left|exact Hq'].
    + lia.
    + intros q' H' H''. eapply Hd; [right; exact H'|exact H''].
    + fold k. lia.
    + fold k in Hc, H2, Hpk. exists q2, x2, m. rewrite Hc. unfold h1 in *. rewrite !set_pb_set_pb in *.
      split_and!; [done|done|done|done|done| |by right|].
      * intros q' Hq'. rewrite fmap_cons in Hq'. apply not_elem_of_cons in Hq' as [Hne Hq'].
        rewrite (Hfr q' Hq'). cbn. cbn in Hne. by rewrite lookup_insert_ne.
      * assert (q2 <> q) as Hne by (intros ->; done).
        cbn [appended app packet]. split_and!; [done| | | |].
        -- cbn. rewrite lookup_insert_ne by done. rewrite (Hfr q Hnd). cbn.
           rewrite lookup_insert_eq. unfold x'. destruct n1. by destruct x.
        -- exact Hb.
        -- rewrite content_app, length_app. change (Node (n_ptr n1) (n_buf n1) (n_bytes n1) :: l) with (n1 :: l).
           destruct n1. cbn -[content]. rewrite !content_cons, !length_app, appended_content in *.
           cbn in *. lia.
        -- destruct n1. cbn. rewrite Hnx. exact Hpk.
Qed.

Lemma cat_ok n0 l h t lt :
  packet h (Some (n_ptr n0)) (n0 :: l) -> packet h (Some t) lt ->
  n_ptr <$> n0 :: l ## n_ptr <$> lt ->
  Z.of_nat (length (content (n0 :: l))) + Z.of_nat (length (content lt)) <= 65535 ->
  exists m, pbuf_cat (Some (n_ptr n0)) (Some t) h = (Ret tt, set_pb m h) /\
    packet (set_pb m h) (Some (n_ptr n0))
           (appended (n0 :: l) t (Z.of_nat (length (content lt))) ++ lt) /\
    (forall q, q ∉ n_ptr <$> n0 :: l -> m !! q = pb h !! q).
Proof.
  intros Hp Hpt Hd Hk. destruct lt as [|nt lt]; [done|].
  pose proof (packet_head _ _ _ _ Hpt) as Ht. injection Ht as Ht.
  assert (Hy : pb h !! t = Some (n_buf nt)) by (rewrite Ht; eapply packet_lookup; [exact Hpt|left]).
  pose proof (packet_size _ _ _ Hp) as Hs. cbn [length] in Hs.
  destruct (cat_loop_ok l n0 (S (size (pb h))) h t (nt :: lt) Hp Hpt)
    as (q & x & m & Hc & Hm & H1 & H2 & H3 & Hfr & Hin & Hpk); [lia|done|done|].
  exists (<[q := with_next (Some t) (with_tot_len (tot_len x + Z.of_nat (length (content (nt :: lt)))) x)]> m).
  pose proof (packet_tot _ _ _ _ Hpt) as Htt.
  split_and!.
  - unfold pbuf_cat. rewrite (bind_ret (LWIP_ERROR _) _ h tt h) by done. unfold fuel, gets, bind. rewrite (load_at h t _ Hy), Htt, Hc.
    rewrite (load_at _ q x) by done. rewrite H1, Z.eqb_refl. cbn [assert_ ret].
    rewrite u16_small by lia. rewrite <- H1. by rewrite (store_at _ q x) by done.
  - exact Hpk.
  - intros q' Hq'. rewrite lookup_insert_ne; [by apply Hfr|]. by intros <-.
Qed.

(** The head of a packet with one reference more. *)
Definition bump (l : list node) : list node :=
  match l with
  | [] => []
  | Node q x bs :: l => Node q (with_ref (ref x + 1) x) bs :: l
  end.

Lemma bump_content l : content (bump l) = content l.
Proof. by destruct l as [|[]]. Qed.

Lemma ref_ok h q x : pb h !! q = Some x -> 0 <= ref x <= 65534 ->
  pbuf_ref (Some q) h = (Ret tt, set_pb (<[q := with_ref (ref x + 1) x]> (pb h)) h).
Proof.
  intros Hx Hr. unfold pbuf_ref, bind. rewrite (load_at h q x), u16_small by (done || lia).
  rewrite (store_at h q x) by done. by rewrite (proj2 (Z.ltb_lt _ _)) by lia.
Qed.

(** Changing the reference count of a node in the middle of a packet. *)
Lemma packet_bump l1 nt lt : forall p h, packet h p (l1 ++ nt :: lt) ->
  packet (set_pb (<[n_ptr nt := with_ref (ref (n_buf nt) + 1) (n_buf nt)]> (pb h)) h) p
         (l1 ++ bump (nt :: lt)).
Proof.
  induction l1 as [|[q x bs] l1 IH]; intros p h Hp.
  - destruct nt as [q x bs]. pose proof (packet_NoDup _ _ _ Hp) as Hnd.
    cbn [app] in Hp, Hnd. rewrite fmap_cons in Hnd. apply NoDup_cons in Hnd as [Hnd _].
    destruct Hp as (-> & Hx & Hb & Ht & Hp). cbn -[content] in *. rewrite lookup_insert_eq.
    split_and!; [done|done|done|done|]. apply packet_pb_frame; [done|].
    intros q' Hq'. rewrite lookup_insert_ne; [done|]. by intros <-.
  - pose proof (packet_NoDup _ _ _ Hp) as Hnd. cbn [app] in Hnd. rewrite fmap_cons in Hnd.
    apply NoDup_cons in Hnd as [Hnd _]. destruct Hp as (-> & Hx & Hb & Ht & Hp).
    cbn [app packet]. split_and!; [done| |done| |by apply IH].
    + cbn. rewrite lookup_insert_ne; [done|]. intros Heq. apply Hnd. cbn [n_ptr].
      rewrite fmap_app, fmap_cons, Heq. apply elem_of_app. right. left.
    + rewrite Ht, !content_app, bump_content. done.
Qed.

(** [pbuf_dechain] of a pbuf whose tail has another owner. *)
Lemma dechain_shared h a xa b xb :
  pb h !! a = Some xa -> next xa = Some b -> pb h !! b = Some xb -> a <> b ->
  tot_len xb = tot_len xa - len xa -> 0 <= tot_len xb <= 65535 -> known_type xb ->
  1 < ref xb <= 65535 ->
  pbuf_dechain custom a h =
    (Ret (Some b), set_pb (<[b := with_ref (ref xb - 1) xb]>
                            (<[a := with_next None (with_tot_len (len xa) xa)]> (pb h))) h).
Proof.
  intros Ha Hn Hb Hab Ht Hr Hk Hrf. unfold pbuf_dechain, bind.
  rewrite (load_at h a xa), Hn by done. rewrite (load_at h b xb) by done.
  rewrite Ht, Z.eqb_refl. cbn [assert_ ret].
  rewrite (store_at h b xb), u16_small by (done || lia).
  assert (Heq : with_tot_len (tot_len xa - len xa) xb = xb) by (rewrite <- Ht; by destruct xb).
  rewrite Heq, insert_id, set_pb_id by done.
  rewrite (update_at h a xa) by done.
  rewrite (update_at _ a (with_next None xa)) by (cbn; apply lookup_insert_eq).
  set (h2 := set_pb _ (set_pb _ h)).
  assert (Hb2 : pb h2 !! b = Some xb) by (cbn; by rewrite !lookup_insert_ne).
  unfold pbuf_free, deref, fuel, gets, bind. cbn [ret]. rewrite (load_at h2 b xb) by done.
  rewrite known_type_true by done. cbn [assert_ ret free_loop].
  unfold bind. rewrite (load_at h2 b xb), (proj2 (Z.ltb_lt _ _)) by (done || lia). cbn [assert_ ret].
  rewrite (store_at h2 b xb), u16_small, (proj2 (Z.eqb_neq _ _)) by (done || lia). cbn [ret].
  rewrite (load_at _ a (with_tot_len (len xa) (with_next None xa))).
  2:{ cbn. rewrite lookup_insert_ne by done. by rewrite lookup_insert_eq. }
  cbn. rewrite Z.eqb_refl. unfold h2, set_pb, ret. cbn. do 2 f_equal. by rewrite insert_insert_eq.
Qed.

(** Chaining then dechaining gives back the tail and the store. *)
Lemma chain_dechain h a xa b xb :
  pb h !! a = Some xa -> next xa = None -> tot_len xa = len xa -> pb h !! b = Some xb ->
  a <> b -> known_type xb -> 1 <= ref xb <= 65534 -> 0 <= len xa -> 0 <= tot_len xb ->
  len xa + tot_len xb <= 65535 ->
  exists h', pbuf_chain (Some a) (Some b) h = (Ret tt, h') /\
    pbuf_dechain custom a h' = (Ret (Some b), h).
Proof.
  intros Ha Hn Hta Hb Hab Hk Hr Hl Ht Hs.
  set (xa' := with_next (Some b) (with_tot_len (tot_len xa + tot_len xb) xa)).
  assert (Hcat : pbuf_cat (Some a) (Some b) h = (Ret tt, set_pb (<[a := xa']> (pb h)) h)).
  { unfold pbuf_cat. rewrite (bind_ret (LWIP_ERROR _) _ h tt h) by done. unfold fuel, gets, bind. rewrite (load_at h b xb) by done. cbn [cat_loop].
    unfold bind. rewrite (load_at h a xa), Hn by done. cbn [ret]. rewrite (load_at h a xa) by done.
    rewrite Hta, Z.eqb_refl. cbn [assert_ ret]. rewrite u16_small by lia.
    rewrite (store_at h a xa) by done. by rewrite <- Hta. }
  eexists. unfold pbuf_chain, bind. rewrite Hcat. split.
  - apply (ref_ok _ b xb); [cbn; by rewrite lookup_insert_ne|lia].
  - rewrite (dechain_shared _ a xa' b (with_ref (ref xb + 1) xb)); cbn.
    + unfold set_pb, ret. cbn. do 2 f_equal. f_equal.
      destruct h as [m bb aa]. cbn in *. f_equal.
      apply map_eq. intros q. destruct (decide (q = b)) as [->|]; [|destruct (decide (q = a)) as [->|]].
      * rewrite lookup_insert_eq, Hb. f_equal. destruct xb. unfold with_ref; cbn. f_equal. lia.
      * rewrite lookup_insert_ne, lookup_insert_eq, Ha by done. f_equal.
        destruct xa. cbn in *. by subst.
      * by rewrite !lookup_insert_ne by done.
    + rewrite lookup_insert_ne by done. by rewrite lookup_insert_eq.
    + done.
    + by rewrite lookup_insert_eq.
    + done.
    + lia.
    + lia.
    + exact Hk.
    + lia.
Qed.
End Cat.
