(* ===== verification/PbufSize.v ===== *)
(** * Headers and sizes: [pbuf_header], [pbuf_realloc] *)
From S2P Require Export PbufChain.

Section Header.
Context {A : Type} `{Allocator A}.
Implicit Types (h : heap A) (q : ptr) (x : pbuf) (l : list node).

(** [x] with its payload moved [k] bytes on. *)
Definition moved (k : Z) x : pbuf :=
  with_tot_len (tot_len x - k) (with_len (len x - k)
    (with_payload ((fun bo : ptr * Z => (bo.1, bo.2 + k)) <$> payload x) x)).

Lemma moved_back k x : moved (- k) (moved k x) = x.
Proof.
  destruct x as [nx [[b o]|] t l ty f r]; unfold moved, with_tot_len, with_len, with_payload; cbn;
    f_equal; try lia. do 2 f_equal. lia.
Qed.

Lemma holds_moved b x bs k : holds b x bs -> 0 <= k <= len x ->
  holds b (moved k x) (drop (Z.to_nat k) bs).
Proof.
  intros (b' & o & a & Hpl & Ha & Ho & Hl & Hr & ->) Hk.
  exists b', (o + k), a. cbn. rewrite Hpl. cbn. split_and!; [done|done|lia|lia|lia|].
  rewrite skipn_firstn_comm, drop_drop. f_equal; [lia|]. f_equal. lia.
Qed.

(** One step of the payload pointer, either way. *)
Lemma header_ok h q x k force b o :
  pb h !! q = Some x -> payload x = Some (b, o) -> k <> 0 -> - 32768 <= k <= 32767 ->
  (type x = PBUF_RAM \/ type x = PBUF_POOL) -> 0 <= len x <= tot_len x ->
  - k <= len x -> tot_len x + k <= 65535 ->
  pbuf_header_impl q k force h =
    if o - k <? 0 then (Ret 1, h)
    else (Ret 0, set_pb (<[q := moved (- k) x]> (pb h)) h).
Proof.
  intros Hx Hpl Hk Hr Ht Hl Hk1 Hk2. unfold pbuf_header_impl, func.
  rewrite (proj2 (Z.eqb_neq _ _)) by done. unfold bind at 1. rewrite (load_at h q x) by done.
  assert (Hg : negb (k <? 0) || ((if k <? 0 then u16 (- k) else u16 k) <=? len x) = true).
  { destruct (Z.ltb_spec k 0); [|done]. rewrite u16_small by lia. cbn. lia. }
  unfold bind. rewrite (LWIP_ERROR_true _ _ Hg). cbn [exit_if ret].
  assert ((type x =? PBUF_RAM) || (type x =? PBUF_POOL) = true) as -> by (destruct Ht as [-> | ->]; done).
  rewrite Hpl. destruct (o - k <? 0); [done|]. cbn [exit_if ret].
  rewrite (store_at h q x) by done. rewrite !u16_small by lia. cbn [ret].
  unfold moved. rewrite Hpl. cbn. by rewrite !Z.sub_opp_r, Z.add_opp_r.
Qed.
End Header.

(** ** [pbuf_realloc] *)
Section Realloc.
Context {A : Type} `{Allocator A}.
Context (custom : ptr -> heap A -> heap A).
Implicit Types (h : heap A) (q : ptr) (x : pbuf) (l : list node).

(** The first [n] bytes of a packet, as its nodes. *)
Fixpoint shrink l (n : Z) : list node :=
  match l with
  | [] => []
  | Node q x bs :: l =>
      if n <=? len x
      then [Node q (with_next None (with_tot_len n (with_len n x))) (take (Z.to_nat n) bs)]
      else Node q (with_tot_len n x) bs :: shrink l (n - len x)
  end.

Lemma shrink_cons q x bs l n : shrink (Node q x bs :: l) n =
  if n <=? len x
  then [Node q (with_next None (with_tot_len n (with_len n x))) (take (Z.to_nat n) bs)]
  else Node q (with_tot_len n x) bs :: shrink l (n - len x).
Proof. done. Qed.

Lemma shrink_content l : forall h p n, packet h p l -> 0 <= n ->
  n <= Z.of_nat (length (content l)) -> content (shrink l n) = take (Z.to_nat n) (content l).
Proof.
  induction l as [|[q x bs] l IH]; intros h p n Hp Hn Hle.
  - unfold content. cbn. by rewrite take_nil.
  - destruct Hp as (_ & _ & Hb & _ & Hp). apply holds_length in Hb.
    rewrite content_cons, length_app in Hle. cbn [n_bytes] in Hle. cbn [shrink].
    destruct (Z.leb_spec n (len x)); rewrite !content_cons; cbn [n_bytes].
    + change (content []) with (@nil Z). rewrite app_nil_r. by rewrite take_app_le by lia.
    + rewrite (IH h (next x)) by (done || lia). rewrite take_app_ge by lia.
      do 2 f_equal. lia.
Qed.

(** A packet with a single owner: every pbuf has one reference and no custom
    free function; pool and RAM pbufs carry their payload, and no payload is
    in the memory of another pbuf of the packet. *)
Definition node_ok (ptrs : list ptr) (n : node) : Prop :=
  known_type (n_buf n) /\ ref (n_buf n) = 1 /\ PBUF_FLAG_custom (n_buf n) = false /\
  (forall b, n_block n = Some b -> b ∈ ptrs -> b = n_ptr n) /\
  (type (n_buf n) = PBUF_RAM -> n_block n = Some (n_ptr n) /\
     forall b o, payload (n_buf n) = Some (b, o) -> SIZEOF_STRUCT_PBUF + o + len (n_buf n) <= 65535).

Definition owned l : Prop := Forall (node_ok (n_ptr <$> l)) l.

Lemma owned_tail n l : owned (n :: l) -> owned l.
Proof.
  intros [_ Hl]%Forall_cons. eapply Forall_impl; [exact Hl|].
  intros m (H1 & H2 & H3 & H4 & H5). split_and!; try done. intros b Hb Hin. apply H4; [done|by right].
Qed.

Lemma owned_sole l : owned l -> sole (links l).
Proof.
  intros Hl. unfold sole, links. rewrite Forall_fmap. eapply Forall_impl; [exact Hl|].
  intros n (_ & H1 & H2 & _). done.
Qed.

(** What happens after the loop over the pbufs that stay. *)
Definition realloc_end (q : ptr) (rem_len : Z) : cmd (heap A) unit :=
  y <- load q ;;
  (if (type y =? PBUF_RAM) && negb (rem_len =? len y) && negb (PBUF_FLAG_custom y) then
     match payload y with
     | Some (b, o) => mem_trim q (u16 (u16 (SIZEOF_STRUCT_PBUF + o) + rem_len))
     | None => fault
     end
   else ret tt) ;;;
  update q (fun y => with_tot_len rem_len (with_len rem_len y)) ;;;
  (match next y with
   | Some t => pbuf_free custom (Some t) ;;; ret tt
   | None => ret tt
   end) ;;;
  update q (with_next None).

(** The pbufs [d] are no longer there. *)
Definition gone (d : list ptr) h : Prop := forall p, p ∈ d -> pb h !! p = None /\ bl h !! p = None.

(** [h'] is [h] outside the memory of [l]. *)
Definition only_in l h h' : Prop :=
  (forall q, q ∉ n_ptr <$> l -> pb h' !! q = pb h !! q /\ bl h' !! q = bl h !! q).

Lemma realloc_trim_ok h q x bs rem : pb h !! q = Some x -> holds (bl h) x bs ->
  (type x = PBUF_RAM -> n_block (Node q x bs) = Some q /\
     forall b o, payload x = Some (b, o) -> SIZEOF_STRUCT_PBUF + o + len x <= 65535) ->
  0 <= rem <= len x ->
  exists h1, (if (type x =? PBUF_RAM) && negb (rem =? len x) && negb (PBUF_FLAG_custom x) then
     match payload x with
     | Some (b, o) => mem_trim q (u16 (u16 (SIZEOF_STRUCT_PBUF + o) + rem))
     | None => fault
     end
   else ret tt) h = (Ret tt, h1) /\ pb h1 = pb h /\ live (al h1) = live (al h) /\
   (forall q', q' <> q -> bl h1 !! q' = bl h !! q') /\
   holds (bl h1) (with_len rem x) (take (Z.to_nat rem) bs) /\
   (type x <> PBUF_RAM -> bl h1 = bl h).
Proof.
  intros Hx (b & o & a & Hpl & Ha & Ho & Hl & Hr & ->) Ht Hrem. rewrite take_take.
  replace (Z.to_nat rem `min` Z.to_nat (len x))%nat with (Z.to_nat rem) by lia.
  destruct (_ && _ && _) eqn:E.
  - rewrite Hpl. eexists. split; [reflexivity|]. cbn.
    apply andb_true_iff in E as [[Hty _]%andb_true_iff _].
    destruct (Ht (proj1 (Z.eqb_eq _ _) Hty)) as [Hb Hsz]. specialize (Hsz b o Hpl).
    unfold n_block in Hb. cbn in Hb. rewrite Hpl in Hb. injection Hb as ->.
    change SIZEOF_STRUCT_PBUF with 16 in *.
    split_and!; [done|apply trim_live| | |].
    + intros q' Hq'. by rewrite lookup_alter_ne.
    + exists q, o, (take (Z.to_nat (o + rem)) a). cbn. rewrite lookup_alter_eq, Ha. cbn.
      rewrite (u16_small (16 + o)), (u16_small (16 + o + rem)) by lia. rewrite length_take.
      replace (16 + o + rem - 16) with (o + rem) by lia.
      split_and!; [done|done|done|lia|lia|].
      rewrite skipn_firstn_comm, take_take. f_equal. lia.
    + intros Hno. apply Z.eqb_eq in Hty. done.
  - exists h. split_and!; try done. exists b, o, a. cbn. split_and!; (done || lia).
Qed.

Lemma sole_tail_free l h q : packet h (Some q) l -> owned l ->
  pbuf_free custom (Some q) h = (Ret (u8 (Z.of_nat (length l))), release_all (links l) h).
Proof.
  intros Hp Ho. destruct l as [|n l]; [done|].
  pose proof (packet_head _ _ _ _ Hp) as Hq. injection Hq as ->.
  pose proof (owned_sole _ Ho) as Hs. apply Forall_cons in Ho as [(Hk & _) _].
  rewrite (free_ok custom h _ (n_buf n) (links (n :: l)) []); [| |by eapply packet_lookup; [done|left]|done|done|done].
  - unfold links. rewrite length_fmap, count_u8. done.
  - rewrite app_nil_r. by apply packet_chain.
Qed.

Lemma realloc_end_ok q x bs l h rem : packet h (Some q) (Node q x bs :: l) ->
  owned (Node q x bs :: l) -> 0 <= rem <= len x ->
  exists h', realloc_end q rem h = (Ret tt, h') /\
    packet h' (Some q) [Node q (with_next None (with_tot_len rem (with_len rem x)))
                             (take (Z.to_nat rem) bs)] /\
    only_in (Node q x bs :: l) h h' /\
    live (al h') = live (al h) ∖ list_to_set (n_ptr <$> l) /\
    gone (n_ptr <$> l) h' /\ (type x <> PBUF_RAM -> bl h' !! q = bl h !! q).
Proof.
  intros Hp Ho Hrem. pose proof (packet_NoDup _ _ _ Hp) as Hnd. rewrite fmap_cons in Hnd.
  apply NoDup_cons in Hnd as [Hnd _]. cbn [n_ptr] in Hnd.
  destruct Hp as (_ & Hx & Hb & Ht & Hp). pose proof (owned_tail _ _ Ho) as Ho'.
  apply Forall_cons in Ho as [(Hk & Hr & Hc & Hbq & Hram) Hall]. cbn [n_ptr n_buf] in *.
  destruct (realloc_trim_ok h q x bs rem Hx Hb Hram Hrem) as (h1 & Htr & Hpb & Hlv & Hbl & Hb1 & Hkeep).
  set (y := with_tot_len rem (with_len rem x)).
  set (h2 := set_pb (<[q := y]> (pb h1)) h1).
  assert (Hp2 : packet h2 (next x) l).
  { apply (packet_frame l _ (set_pb (<[q := y]> (pb h)) h)).
    - apply packet_pb_frame; [done|]. intros q' Hq'. rewrite lookup_insert_ne; [done|]. by intros <-.
    - cbn. by rewrite Hpb.
    - intros b Hin. cbn. apply Hbl. intros ->.
      apply list_elem_of_fmap in Hin as (m & Hm & Hin). apply Hnd.
      destruct (proj1 (Forall_forall _ _) Hall _ Hin) as (_ & _ & _ & Hown & _).
      rewrite (Hown q) by (done || left). by apply list_elem_of_fmap_2. }
  set (h3 := release_all (links l) h2).
  assert (Hq3 : pb h3 !! q = Some y).
  { unfold h3. rewrite release_all_lookup by by rewrite links_ptrs. cbn. apply lookup_insert_eq. }
  exists (set_pb (<[q := with_next None y]> (pb h3)) h3). split_and!.
  - unfold realloc_end, bind. rewrite (load_at h q x) by done. rewrite Htr.
    rewrite (update_at h1 q x) by by rewrite Hpb. fold y h2.
    rewrite <- (update_at h3 q y (with_next None) Hq3).
    destruct l as [|n l]; [cbn in Hp; by rewrite Hp|].
    pose proof (packet_head _ _ _ _ Hp) as Hn. rewrite Hn.
    rewrite (sole_tail_free (n :: l)); [done|by rewrite <- Hn|done].
  - cbn [packet]. split_and!; [done|cbn; by rewrite lookup_insert_eq| |cbn; lia|done].
    destruct Hb1 as (b & o & a & Hpl & Ha & Hb1). exists b, o, a. cbn. split; [done|]. split; [|done].
    unfold h3. rewrite release_all_block; [done|]. rewrite links_ptrs. intros Hin.
    apply Hnd. rewrite <- (Hbq b); [done| |by right]. unfold n_block. cbn in *. by rewrite Hpl.
  - intros q' Hq'. rewrite fmap_cons in Hq'. apply not_elem_of_cons in Hq' as [Hne Hq']. cbn in Hne.
    cbn. rewrite lookup_insert_ne by done. unfold h3.
    rewrite release_all_lookup, release_all_block by by rewrite links_ptrs. cbn.
    rewrite lookup_insert_ne, Hpb by done. split; [done|by apply Hbl].
  - cbn. unfold h3. rewrite release_all_live, links_ptrs. cbn. by rewrite Hlv.
  - intros q' Hq'. assert (q <> q') by (by intros <-). cbn. rewrite lookup_insert_ne by done. unfold h3.
    apply release_all_gone. by rewrite links_ptrs.
  - intros Hty. cbn. unfold h3. rewrite release_all_block by by rewrite links_ptrs. cbn. by rewrite Hkeep.
Qed.

(** The loop over the pbufs that stay, then the end. *)
Lemma realloc_loop_ok l : forall n0 n h rem grow, packet h (Some (n_ptr n0)) (n0 :: l) ->
  owned (n0 :: l) -> (length l < n)%nat -> 0 <= rem -> grow < 0 ->
  rem = tot_len (n_buf n0) + grow -> tot_len (n_buf n0) <= 65535 ->
  exists h', (qr <- realloc_skip n (n_ptr n0) rem grow ;;
              let '(q, r) := (qr : ptr * Z) in realloc_end q r) h = (Ret tt, h') /\
    packet h' (Some (n_ptr n0)) (shrink (n0 :: l) rem) /\
    only_in (n0 :: l) h h' /\
    live (al h') = live (al h) ∖ list_to_set (drop (length (shrink (n0 :: l) rem)) (n_ptr <$> n0 :: l)) /\
    gone (drop (length (shrink (n0 :: l) rem)) (n_ptr <$> n0 :: l)) h' /\
    (type (n_buf n0) <> PBUF_RAM -> bl h' !! n_ptr n0 = bl h !! n_ptr n0).
Proof.
  induction l as [|n1 l IH]; intros [q x bs] n h rem grow Hp Ho Hn Hrem Hg Hinv Htl;
    (destruct n as [|n]; [lia|]); pose proof (packet_tot _ _ _ _ Hp) as Htot;
    pose proof (packet_head _ _ _ _ Hp) as _; cbn [n_ptr n_buf] in *;
    pose proof Hp as (_ & Hx & Hb & Ht & Hpt); pose proof (holds_length _ _ _ Hb) as Hlen;
    unfold bind; cbn [realloc_skip]; rewrite shrink_cons; unfold bind;
    rewrite (load_at h q x) by done;
    destruct (Z.leb_spec rem (len x)).
  all: try (rewrite (proj2 (Z.ltb_ge (len x) rem)) by lia; cbn [ret];
    destruct (realloc_end_ok q x bs _ h rem Hp Ho ltac:(lia)) as (h' & Hr & Hpk & Hon & Hlv);
    exists h'; split_and!; [done|done|done|apply Hlv..]).
  - exfalso. change (content []) with (@nil Z) in Ht. cbn in Ht. lia.
  - rewrite (proj2 (Z.ltb_lt (len x) rem)) by lia.
    rewrite (proj2 (Z.ltb_lt grow 0xffff)) by lia. cbn [assert_ ret].
    rewrite (store_at h q x) by done.
    assert (u16 (tot_len x + u16 grow) = rem) as ->.
    { unfold u16. rewrite Zplus_mod_idemp_r, <- Hinv. apply Z.mod_small. lia. }
    rewrite (u16_small (rem - len x)) by lia.
    pose proof (packet_head _ _ _ _ Hpt) as Hnx. rewrite Hnx. cbn [deref ret].
    set (x' := with_tot_len rem x). set (h1 := set_pb (<[q := x']> (pb h)) h).
    pose proof (packet_NoDup _ _ _ Hp) as Hnd. rewrite fmap_cons in Hnd.
    apply NoDup_cons in Hnd as [Hnd _]. cbn [n_ptr] in Hnd.
    assert (Hp1 : packet h1 (Some (n_ptr n1)) (n1 :: l)).
    { rewrite <- Hnx. apply packet_pb_frame; [done|]. intros q' Hq'.
      rewrite lookup_insert_ne; [done|]. by intros <-. }
    pose proof (packet_tot _ _ _ _ Hp1) as Htot1. pose proof (owned_tail _ _ Ho) as Ho1.
    destruct (IH n1 n h1 (rem - len x) grow Hp1 Ho1) as (h' & Hr & Hpk & Hon & Hlv & Hgone & _);
      [cbn in Hn; lia|lia|lia|lia|lia|].
    exists h'. unfold bind in Hr. split_and!; [exact Hr| | | | |].
    + cbn [packet]. destruct (Hon q Hnd) as [Hq1 _]. split_and!; [done| | | |].
      * rewrite Hq1. cbn. apply lookup_insert_eq.
      * destruct Hb as (b & o & a & Hpl & Ha & Hb). exists b, o, a. split; [done|].
        destruct (Hon b) as [_ ->]; [|done]. intros Hin.
        apply Forall_cons in Ho as [(_ & _ & _ & Hbq & _) _]. apply Hnd.
        cbn [n_ptr] in Hbq. rewrite <- (Hbq b); [done|unfold n_block; cbn; by rewrite Hpl|by right].
      * rewrite (shrink_content _ h1 (Some (n_ptr n1))) by (done || lia).
        rewrite length_take. unfold x'. cbn [tot_len len with_tot_len]. lia.
      * cbn. by rewrite Hnx.
    + intros q' Hq'. rewrite fmap_cons in Hq'. apply not_elem_of_cons in Hq' as [Hne Hq']. cbn in Hne.
      destruct (Hon q' Hq') as [-> ->]. cbn. by rewrite lookup_insert_ne.
    + rewrite Hlv. done.
    + exact Hgone.
    + intros _. by destruct (Hon q Hnd) as [_ ->].
Qed.

Lemma realloc_ok n0 l h new_len : packet h (Some (n_ptr n0)) (n0 :: l) -> owned (n0 :: l) ->
  0 <= new_len < tot_len (n_buf n0) -> tot_len (n_buf n0) <= 65535 ->
  exists h', pbuf_realloc custom (n_ptr n0) new_len h = (Ret tt, h') /\
    packet h' (Some (n_ptr n0)) (shrink (n0 :: l) new_len) /\
    only_in (n0 :: l) h h' /\
    live (al h') = live (al h) ∖ list_to_set (drop (length (shrink (n0 :: l) new_len)) (n_ptr <$> n0 :: l)) /\
    gone (drop (length (shrink (n0 :: l) new_len)) (n_ptr <$> n0 :: l)) h' /\
    (type (n_buf n0) <> PBUF_RAM -> bl h' !! n_ptr n0 = bl h !! n_ptr n0).
Proof.
  intros Hp Ho Hn Ht. pose proof (packet_size _ _ _ Hp) as Hs. cbn in Hs.
  assert (Hx : pb h !! n_ptr n0 = Some (n_buf n0)) by (eapply packet_lookup; [done|left]).
  destruct (realloc_loop_ok l n0 (S (size (pb h))) h new_len (new_len - tot_len (n_buf n0)) Hp Ho)
    as (h' & Hr & Hrest); [lia..|].
  exists h'. split; [|exact Hrest].
  apply Forall_cons in Ho as [(Hk & _) _].
  assert (Hty : (type (n_buf n0) =? PBUF_POOL) || (type (n_buf n0) =? PBUF_ROM)
                || (type (n_buf n0) =? PBUF_RAM) || (type (n_buf n0) =? PBUF_REF) = true)
    by by destruct Hk as [-> | [-> | [-> | ->]]].
  unfold pbuf_realloc, bind at 1. rewrite (load_at _ _ _ Hx). unfold bind at 1. rewrite Hty.
  cbn [assert_ ret]. rewrite (proj2 (Z.leb_gt _ _)) by lia. exact Hr.
Qed.
End Realloc.
