(* ===== verification/PbufAlloc.v ===== *)
(** * Allocation of pbufs: [pbuf_alloc] *)
From S2P Require Export PbufSize.

#[local] Set Warnings "-clear-no-such-hyp".

Section Alloc.
Context {A : Type} `{Allocator A}.
Context (custom : ptr -> heap A -> heap A).
Implicit Types (h : heap A) (p : option ptr) (q r : ptr) (x : pbuf) (l : list node)
  (c : list (ptr * pbuf)).

(** Everything in the store is memory in use. *)
Definition alloc_inv h : Prop := dom (pb h) ⊆ live (al h) /\ dom (bl h) ⊆ live (al h).

Lemma alloc_inv_fresh h q : alloc_inv h -> q ∉ live (al h) ->
  pb h !! q = None /\ bl h !! q = None.
Proof.
  intros [H1 H2] Hq. split; apply not_elem_of_dom; intros Hin; apply Hq; [by apply H1|by apply H2].
Qed.

Lemma malloc_ok k n h : alloc_inv h ->
  (exists h', malloc k n h = (Ret None, h') /\ pb h' = pb h /\ bl h' = bl h /\
     live (al h') = live (al h)) \/
  (exists q h', malloc k n h = (Ret (Some q), h') /\ (q ∉ live (al h)) /\
     live (al h') = {[q]} ∪ live (al h) /\
     pb h' = <[q := stale_pbuf q]> (pb h) /\
     bl h' = <[q := stale_bytes q (n - SIZEOF_STRUCT_PBUF)]> (bl h)).
Proof.
  intros Hi. unfold malloc. pose proof (get_live k n (al h)) as Hg.
  destruct (al_get k n (al h)) as [[q|] a]; [right|left].
  - destruct Hg as [Hq Hl]. exists q. eexists. by split_and!.
  - eexists. by split_and!.
Qed.

(** Linking a new pbuf behind the last of a chain. *)
Lemma chain_snoc m r xr q xq : forall c p, chain m p (c ++ [(r, xr)]) ->
  m !! q = None -> next xq = None ->
  chain (<[q := xq]> (<[r := with_next (Some q) xr]> m)) p
        ((c ++ [(r, with_next (Some q) xr)]) ++ [(q, xq)]).
Proof.
  induction c as [|[q1 x1] c IH]; intros p Hc Hq Hn.
  - destruct Hc as (-> & Hx & _). assert (r <> q) by congruence. cbn.
    rewrite lookup_insert_ne, !lookup_insert_eq by done. by split_and!.
  - pose proof (chain_NoDup _ _ _ Hc) as Hnd. destruct Hc as (-> & Hx & Hc).
    cbn in Hnd. apply NoDup_cons in Hnd as [Hnd _].
    assert (q1 <> r). { intros ->. apply Hnd. rewrite fmap_app. apply elem_of_app. right. left. }
    assert (q1 <> q) by congruence. cbn. rewrite !lookup_insert_ne by done.
    split_and!; [done|done|by apply IH].
Qed.

(** A pool pbuf as [pbuf_alloc] sets it up. *)
Definition pool_node (n : node) : Prop :=
  type (n_buf n) = PBUF_POOL /\ flags (n_buf n) = 0 /\ ref (n_buf n) = 1 /\
  n_block n = Some (n_ptr n).

(** No empty pbufs. *)
Definition filled l : Prop := Forall (fun n => 0 < len (n_buf n)) l.

(** What [alloc_tail] has done to the store: nothing is left of a failed
    allocation; a successful one added the pbufs of [l] behind [r]. *)
Definition tail_done h c r xr (rem : Z) (o : option ptr) (hd : ptr) h' : Prop :=
  match o with
  | None =>
      (forall q, pb h' !! q = if decide (q ∈ c.*1) then None else pb h !! q) /\
      (forall q, bl h' !! q = if decide (q ∈ c.*1) then None else bl h !! q) /\
      live (al h') = live (al h) ∖ list_to_set c.*1
  | Some p' =>
      p' = hd /\ exists nx l,
      pb h' !! r = Some (with_next nx xr) /\ packet h' nx l /\
      Z.of_nat (length (content l)) = rem /\ Forall pool_node l /\ filled l /\
      (forall q, q ∉ n_ptr <$> l -> q <> r -> pb h' !! q = pb h !! q) /\
      (forall q, q ∉ n_ptr <$> l -> bl h' !! q = bl h !! q) /\
      live (al h') = list_to_set (n_ptr <$> l) ∪ live (al h) /\
      (forall q, q ∈ n_ptr <$> l -> q ∉ live (al h))
  end.

(** The pbuf [alloc_tail] links: zero length, or a full or partial pool buffer. *)
Definition tail_pbuf q rem : pbuf :=
  Pbuf None (Some (q, 0)) (u16 rem) (Z.min (u16 rem) PBUF_POOL_BUFSIZE_ALIGNED) PBUF_POOL 0 1.

(** One round: a new pbuf [q] linked behind [r]. *)
Lemma tail_round n hd r xr rem h q h1 : pb h !! r = Some xr -> 0 < rem < 0xffff ->
  malloc MEMP_PBUF_POOL (SIZEOF_STRUCT_PBUF + PBUF_POOL_BUFSIZE_ALIGNED) h = (Ret (Some q), h1) ->
  pb h !! q = None -> pb h1 = <[q := stale_pbuf q]> (pb h) ->
  alloc_tail custom (S n) hd r rem h =
    alloc_tail custom n hd q (rem - len (tail_pbuf q rem))
      (set_pb (<[q := tail_pbuf q rem]> (<[r := with_next (Some q) xr]> (pb h))) h1).
Proof.
  intros Hr Hrem Hm Hq Hpb. assert (r <> q) by congruence.
  cbn [alloc_tail]. rewrite (proj2 (Z.ltb_lt 0 rem)) by lia.
  unfold bind at 1. rewrite Hm. unfold bind at 1.
  rewrite (update_at h1 q (stale_pbuf q)) by (rewrite Hpb; apply lookup_insert_eq).
  unfold bind at 1. rewrite (update_at _ r xr) by
    (cbn; rewrite Hpb, !lookup_insert_ne by done; done).
  unfold bind at 1. rewrite (proj2 (Z.ltb_lt rem 0xffff)) by lia. cbn [assert_ ret].
  cbv zeta. unfold bind at 1. erewrite (update_at _ q) by
    (cbn; rewrite lookup_insert_ne, lookup_insert_eq by done; reflexivity).
  cbn [tail_pbuf len]. f_equal. rewrite !set_pb_set_pb. cbn. f_equal. rewrite Hpb.
  apply map_eq. intros q'. destruct (decide (q' = q)) as [->|]; [|destruct (decide (q' = r)) as [->|]].
  - by rewrite !lookup_insert_eq.
  - rewrite !(lookup_insert_ne _ q) by done. by rewrite !lookup_insert_eq.
  - by rewrite !lookup_insert_ne by done.
Qed.

Lemma BUFSIZE : PBUF_POOL_BUFSIZE_ALIGNED = 1516.
Proof. done. Qed.

(** Releasing a whole single-owner chain. *)
Lemma free_sole h c q x : chain (pb h) (Some q) c -> pb h !! q = Some x -> known_type x -> sole c ->
  exists k, pbuf_free custom (Some q) h = (Ret k, release_all c h).
Proof.
  intros Hc Hx Hk Hs. eexists. rewrite <- (app_nil_r c) in Hc.
  by rewrite (free_ok custom h q x c []).
Qed.

Lemma release_all_delete c h q :
  pb (release_all c h) !! q = (if decide (q ∈ c.*1) then None else pb h !! q) /\
  bl (release_all c h) !! q = (if decide (q ∈ c.*1) then None else bl h !! q).
Proof.
  case_decide; [by apply release_all_gone|].
  by rewrite release_all_lookup, release_all_block.
Qed.

(** From the store after one round to the store before it. *)
Lemma tail_done_step h h2 c r xr rem q o hd h' :
  alloc_inv h -> pb h !! r = Some xr -> (q ∉ live (al h)) ->
  pb h2 = <[q := tail_pbuf q rem]> (<[r := with_next (Some q) xr]> (pb h)) ->
  bl h2 = <[q := stale_bytes q PBUF_POOL_BUFSIZE_ALIGNED]> (bl h) ->
  live (al h2) = {[q]} ∪ live (al h) -> 0 < rem < 0xffff ->
  tail_done h2 ((c ++ [(r, with_next (Some q) xr)]) ++ [(q, tail_pbuf q rem)]) q (tail_pbuf q rem)
            (rem - len (tail_pbuf q rem)) o hd h' ->
  tail_done h (c ++ [(r, xr)]) r xr rem o hd h'.
Proof.
  intros Hi Hr Hq Hpb Hbl Hlv Hrem Hd. destruct (alloc_inv_fresh h q Hi Hq) as [Hq1 Hq2].
  assert (Hrq : r <> q) by congruence.
  destruct o as [p'|]; cbn [tail_done] in *.
  - destruct Hd as (-> & nx & l & Hqx & Hp & Hlen & Hgood & Hfill & Hpf & Hbf & Hlv' & Hfresh).
    split; [done|].
    assert (Hql : q ∉ n_ptr <$> l) by (intros Hin; apply (Hfresh q Hin); rewrite Hlv; set_solver).
    assert (Hrl : r ∉ n_ptr <$> l).
    { intros Hin. apply (Hfresh r Hin). rewrite Hlv. destruct Hi as [Hi _].
      apply elem_of_union_r, Hi, elem_of_dom. eauto. }
    set (xq := tail_pbuf q rem) in *.
    assert (Hlq : len xq = Z.min rem 1516) by (cbn; rewrite u16_small by lia; done).
    set (bs := take (Z.to_nat (len xq)) (stale_bytes q PBUF_POOL_BUFSIZE_ALIGNED)).
    pose proof (stale_length q PBUF_POOL_BUFSIZE_ALIGNED) as Hst. rewrite BUFSIZE in Hst.
    assert (Hbs : Z.of_nat (length bs) = len xq)
      by (unfold bs; rewrite length_take, BUFSIZE; lia).
    exists (Some q), (Node q (with_next nx xq) bs :: l). split_and!.
    + rewrite Hpf, Hpb by done. rewrite lookup_insert_ne by done. apply lookup_insert_eq.
    + split_and!; [done|done| | |exact Hp].
      * exists q, 0, (stale_bytes q PBUF_POOL_BUFSIZE_ALIGNED). cbn -[PBUF_POOL_BUFSIZE_ALIGNED].
        rewrite Hbf, Hbl by done. rewrite lookup_insert_eq. fold xq in Hlq.
        change (Z.min (u16 rem) PBUF_POOL_BUFSIZE_ALIGNED) with (len xq). rewrite BUFSIZE in *.
        split_and!; [done|done|done|lia|lia|done].
      * cbn [tot_len len with_next]. change (tot_len xq) with (u16 rem). rewrite u16_small by lia. lia.
    + rewrite content_cons, length_app. cbn [n_bytes]. lia.
    + constructor; [by split_and!|done].
    + constructor; [|done]. cbn [n_buf]. change (len (with_next nx xq)) with (len xq). lia.
    + intros q' Hq' Hne. rewrite fmap_cons in Hq'. apply not_elem_of_cons in Hq' as [Hne2 Hq'].
      cbn in Hne2. rewrite Hpf, Hpb by done. by rewrite !lookup_insert_ne.
    + intros q' Hq'. rewrite fmap_cons in Hq'. apply not_elem_of_cons in Hq' as [Hne2 Hq'].
      cbn in Hne2. rewrite Hbf, Hbl by done. by rewrite lookup_insert_ne.
    + rewrite Hlv', Hlv. cbn. set_solver.
    + intros q' Hq'. rewrite fmap_cons in Hq'. apply elem_of_cons in Hq' as [->|Hq']; [done|].
      apply Hfresh in Hq'. rewrite Hlv in Hq'. set_solver.
  - destruct Hd as (Hp & Hb & Hl). rewrite !fmap_app in *. cbn in *.
    assert (Hmem : forall q', q' <> q ->
      q' ∈ (c.*1 ++ [r]) ++ [q] <-> q' ∈ c.*1 ++ [r]) by (intros q' Hne; set_solver).
    split_and!.
    + intros q'. rewrite Hp, Hpb. destruct (decide (q' = q)) as [->|Hne].
      * rewrite decide_True by set_solver. case_decide; [done|by rewrite Hq1].
      * rewrite lookup_insert_ne by done. rewrite (decide_ext _ _ _ _ (Hmem q' Hne)).
        case_decide as Hin; [done|]. rewrite lookup_insert_ne; [done|]. intros <-. set_solver.
    + intros q'. rewrite Hb, Hbl. destruct (decide (q' = q)) as [->|Hne].
      * rewrite decide_True by set_solver. case_decide; [done|by rewrite Hq2].
      * rewrite lookup_insert_ne by done. by rewrite (decide_ext _ _ _ _ (Hmem q' Hne)).
    + rewrite Hl, Hlv, !list_to_set_app_L. cbn. set_solver.
Qed.

Lemma alloc_tail_ok n : forall hd r xr c rem h,
  chain (pb h) (Some hd) (c ++ [(r, xr)]) -> sole (c ++ [(r, xr)]) ->
  (exists x, pb h !! hd = Some x /\ known_type x) -> alloc_inv h ->
  0 <= rem < 0xffff -> (Z.to_nat rem <= n)%nat ->
  exists o h', alloc_tail custom n hd r rem h = (Ret o, h') /\
    tail_done h (c ++ [(r, xr)]) r xr rem o hd h'.
Proof.
  induction n as [|n IH]; intros hd r xr c rem h Hc Hs Hhd Hi Hrem Hn.
  all: assert (Hr : pb h !! r = Some xr)
    by (eapply chain_lookup; [exact Hc|apply elem_of_app; right; left]).
  all: assert (Hnx : next xr = None) by (apply chain_suffix in Hc as [p' (_ & _ & Hc)]; exact Hc).
  all: destruct (Z.eq_dec rem 0) as [->|Hne].
  1,3: exists (Some hd), h; split; [done|]; split; [done|]; exists None, [];
    split_and!; try done; [rewrite Hr; destruct xr; cbn in *; by subst|constructor|set_solver|set_solver].
  { lia. }
  destruct (malloc_ok MEMP_PBUF_POOL (SIZEOF_STRUCT_PBUF + PBUF_POOL_BUFSIZE_ALIGNED) h Hi)
    as [(h1 & Hm & Hpb & Hbl & Hlv)|(q & h1 & Hm & Hq & Hlv & Hpb & Hbl)].
  - destruct Hhd as (x & Hx & Hk). cbn [alloc_tail].
    rewrite (proj2 (Z.ltb_lt 0 rem)) by lia. unfold bind at 1. rewrite Hm. unfold bind.
    destruct (free_sole h1 (c ++ [(r, xr)]) hd x) as [k Hf]; [by rewrite Hpb|by rewrite Hpb|done|done|].
    rewrite Hf. exists None, (release_all (c ++ [(r, xr)]) h1). split; [done|].
    split_and!.
    + intros q. rewrite (proj1 (release_all_delete _ h1 q)). by rewrite Hpb.
    + intros q. rewrite (proj2 (release_all_delete _ h1 q)). by rewrite Hbl.
    + by rewrite release_all_live, Hlv.
  - destruct (alloc_inv_fresh h q Hi Hq) as [Hq1 Hq2].
    rewrite (tail_round n hd r xr rem h q h1 Hr) by (done || lia).
    set (xq := tail_pbuf q rem). set (h2 := set_pb _ h1).
    assert (Hlq : len xq = Z.min rem 1516) by (cbn; rewrite u16_small by lia; done).
    assert (Hrq : r <> q) by congruence.
    destruct (IH hd q xq (c ++ [(r, with_next (Some q) xr)]) (rem - len xq) h2)
      as (o & h' & Ht & Hd).
    + by apply chain_snoc.
    + apply Forall_app in Hs as [Hs1 Hs2]. apply Forall_cons in Hs2 as [Hs2 _].
      apply Forall_app; split; [apply Forall_app; split; [done|]|]; (constructor; [done|constructor]).
    + destruct Hhd as (x & Hx & Hk). cbn.
      destruct (decide (hd = q)) as [->|]; [congruence|]. rewrite lookup_insert_ne by done.
      destruct (decide (hd = r)) as [->|]; [|rewrite lookup_insert_ne by done; eauto].
      rewrite lookup_insert_eq. eexists. split; [done|]. replace xr with x by congruence. exact Hk.
    + split; cbn; [|rewrite Hbl]; rewrite ?dom_insert, Hlv; destruct Hi as [Hi1 Hi2]; [|set_solver].
      assert (r ∈ live (al h)) by (apply Hi1, elem_of_dom; eauto). set_solver.
    + lia.
    + lia.
    + exists o, h'. split; [exact Ht|].
      apply (tail_done_step h h2 c r xr rem q o hd h'); (done || lia).
Qed.

(** What a successful allocation adds to the store: the packet [l]. *)
Definition allocated h l h' : Prop :=
  (forall q, q ∉ n_ptr <$> l -> pb h' !! q = pb h !! q /\ bl h' !! q = bl h !! q) /\
  live (al h') = list_to_set (n_ptr <$> l) ∪ live (al h) /\
  (forall q, q ∈ n_ptr <$> l -> q ∉ live (al h)).

(** A failed one leaves the store as it was. *)
Definition unchanged h h' : Prop :=
  pb h' = pb h /\ bl h' = bl h /\ live (al h') = live (al h).

Lemma offset_range layer off : header_offset layer = Some off ->
  0 <= LWIP_MEM_ALIGN_SIZE off <= 56 /\ 0 <= off <= 54 /\
  LWIP_MEM_ALIGN_SIZE (SIZEOF_STRUCT_PBUF + off) = SIZEOF_STRUCT_PBUF + LWIP_MEM_ALIGN_SIZE off.
Proof.
  unfold header_offset. repeat case_match; intros [= <-]; split_and!; try (vm_compute; congruence).
Qed.

(** The head of a pool chain before its flags are set. *)
Definition pool_head q aoff length_ : pbuf :=
  Pbuf None (Some (q, aoff)) length_ (Z.min length_ (PBUF_POOL_BUFSIZE_ALIGNED - aoff)) PBUF_POOL
    (flags (stale_pbuf q)) 1.

Lemma alloc_pool_run layer off length_ h q h1 : header_offset layer = Some off ->
  malloc MEMP_PBUF_POOL (SIZEOF_STRUCT_PBUF + PBUF_POOL_BUFSIZE_ALIGNED) h = (Ret (Some q), h1) ->
  pb h1 = <[q := stale_pbuf q]> (pb h) -> 0 <= length_ ->
  let aoff := LWIP_MEM_ALIGN_SIZE off in
  let x0 := pool_head q aoff length_ in
  pbuf_alloc custom layer length_ PBUF_POOL h =
    (p <- alloc_tail custom (Z.to_nat length_) q q (length_ - len x0) ;;
     match p with
     | None => ret None
     | Some p => update p (fun x => with_flags 0 (with_ref 1 x)) ;;; ret (Some p)
     end) (set_pb (<[q := x0]> (pb h)) h1).
Proof.
  intros Hoff Hm Hpb Hl aoff x0. destruct (offset_range _ _ Hoff) as (Ha & _ & _). fold aoff in Ha.
  unfold pbuf_alloc. rewrite Hoff. change (PBUF_POOL =? PBUF_POOL) with true. cbv iota.
  unfold bind at 1. unfold bind at 1. rewrite Hm. cbv zeta. fold aoff.
  change (Z.min length_ (PBUF_POOL_BUFSIZE_ALIGNED - aoff)) with (len x0).
  assert (Hlen : len x0 = Z.min length_ (1516 - aoff)) by done.
  unfold bind at 1. rewrite (update_at h1 q (stale_pbuf q)) by (rewrite Hpb; apply lookup_insert_eq).
  unfold bind at 1. erewrite (update_at _ q) by (cbn; apply lookup_insert_eq).
  rewrite BUFSIZE. unfold bind at 1. rewrite (proj2 (Z.leb_le _ _)) by lia. cbn [assert_ ret].
  unfold bind at 1. rewrite (proj2 (Z.ltb_lt _ _)) by lia. cbn [assert_ ret].
  unfold bind at 1. erewrite (update_at _ q) by (cbn; apply lookup_insert_eq).
  unfold bind at 1. rewrite !set_pb_set_pb. cbn [pb set_pb]. rewrite !insert_insert_eq, Hpb, insert_insert_eq.
  reflexivity.
Qed.

(** The payload of the first pbuf of [l] lies [off] bytes into a whole pool buffer, and
    takes what fits there. *)
Definition pool_block h q (off : Z) l : Prop := exists n l' a, l = n :: l' /\
  payload (n_buf n) = Some (q, off) /\ bl h !! q = Some a /\ Z.of_nat (length a) = PBUF_POOL_BUFSIZE_ALIGNED /\
  len (n_buf n) = Z.min (Z.of_nat (length (content l))) (PBUF_POOL_BUFSIZE_ALIGNED - off) /\ flags (n_buf n) = 0 /\
  filled l'.

Lemma alloc_pool_ok layer off length_ h :
  header_offset layer = Some off -> 0 <= length_ <= 65535 -> alloc_inv h ->
  (forall q, PBUF_FLAG_custom (stale_pbuf q) = false) ->
  exists o h', pbuf_alloc custom layer length_ PBUF_POOL h = (Ret o, h') /\
    match o with
    | None => unchanged h h'
    | Some q => exists l, packet h' (Some q) l /\ Z.of_nat (length (content l)) = length_ /\
                  Forall pool_node l /\ pool_block h' q (LWIP_MEM_ALIGN_SIZE off) l /\ allocated h l h'
    end.
Proof.
  intros Hoff Hl Hi Hst. destruct (offset_range _ _ Hoff) as (Ha & _ & _).
  destruct (malloc_ok MEMP_PBUF_POOL (SIZEOF_STRUCT_PBUF + PBUF_POOL_BUFSIZE_ALIGNED) h Hi)
    as [(h1 & Hm & Hpb & Hbl & Hlv)|(q & h1 & Hm & Hq & Hlv & Hpb & Hbl)].
  { exists None, h1. split; [|done]. unfold pbuf_alloc. rewrite Hoff.
    change (PBUF_POOL =? PBUF_POOL) with true. cbv iota. unfold bind. by rewrite Hm. }
  destruct (alloc_inv_fresh h q Hi Hq) as [Hq1 Hq2].
  set (aoff := LWIP_MEM_ALIGN_SIZE off) in *. set (x0 := pool_head q aoff length_).
  assert (Hlen : len x0 = Z.min length_ (1516 - aoff)) by done.
  rewrite (alloc_pool_run layer off length_ h q h1) by (done || lia). cbv zeta. fold aoff x0.
  set (h2 := set_pb _ h1).
  destruct (alloc_tail_ok (Z.to_nat length_) q q x0 [] (length_ - len x0) h2) as (o & h' & Ht & Hd).
  - cbn. by rewrite lookup_insert_eq.
  - constructor; [split; [done|exact (Hst q)]|constructor].
  - exists x0. cbn. rewrite lookup_insert_eq. split; [done|]. by right; right; right.
  - destruct Hi as [Hi1 Hi2]. split; cbn; [|rewrite Hbl]; rewrite ?dom_insert, Hlv; set_solver.
  - lia.
  - lia.
  - unfold bind. rewrite Ht. destruct o as [p'|]; cbn [tail_done] in Hd.
    + destruct Hd as (-> & nx & l & Hqx & Hp & Hcl & Hgood & Hfill & Hpf & Hbf & Hlv' & Hfresh).
      assert (Hql : q ∉ n_ptr <$> l) by (intros Hin; apply (Hfresh q Hin); cbn; rewrite Hlv; set_solver).
      rewrite (update_at h' q _ _ Hqx). exists (Some q). eexists. split; [reflexivity|].
      set (xf := with_flags 0 (with_ref 1 (with_next nx x0))).
      pose proof (stale_length q PBUF_POOL_BUFSIZE_ALIGNED) as Hsl. rewrite BUFSIZE in Hsl.
      set (bs := take (Z.to_nat (len x0)) (drop (Z.to_nat aoff) (stale_bytes q PBUF_POOL_BUFSIZE_ALIGNED))).
      assert (Hbs : Z.of_nat (length bs) = len x0)
        by (unfold bs; rewrite length_take, length_drop, BUFSIZE; lia).
      exists (Node q xf bs :: l). split_and!.
      * split_and!; [done|cbn; apply lookup_insert_eq| | |].
        -- exists q, aoff, (stale_bytes q PBUF_POOL_BUFSIZE_ALIGNED). cbn -[PBUF_POOL_BUFSIZE_ALIGNED].
           rewrite Hbf by done. cbn -[PBUF_POOL_BUFSIZE_ALIGNED]. rewrite Hbl, lookup_insert_eq.
           change (Z.min length_ (PBUF_POOL_BUFSIZE_ALIGNED - aoff)) with (len x0). rewrite BUFSIZE.
           split_and!; [done|done|lia|lia|lia|]. unfold bs. by rewrite BUFSIZE.
        -- change (tot_len xf) with length_. change (len xf) with (len x0). lia.
        -- change (next xf) with nx. apply packet_pb_frame; [done|]. intros q' Hq'.
           rewrite lookup_insert_ne; [done|]. by intros <-.
      * rewrite content_cons, length_app. cbn [n_bytes]. lia.
      * constructor; [by split_and!|done].
      * exists (Node q xf bs), l, (stale_bytes q PBUF_POOL_BUFSIZE_ALIGNED). split_and!; [done|done| | | | |done].
        -- cbn -[PBUF_POOL_BUFSIZE_ALIGNED]. rewrite Hbf by done. cbn -[PBUF_POOL_BUFSIZE_ALIGNED].
           by rewrite Hbl, lookup_insert_eq.
        -- rewrite BUFSIZE. lia.
        -- rewrite content_cons, length_app. cbn [n_bytes n_buf]. change (len xf) with (len x0). rewrite BUFSIZE. lia.
        -- done.
      * split_and!.
        -- intros q' Hq'. rewrite fmap_cons in Hq'. apply not_elem_of_cons in Hq' as [Hne Hq']. cbn in Hne.
           cbn. rewrite lookup_insert_ne, Hpf, Hbf by done. cbn.
           rewrite lookup_insert_ne, Hbl by done. by rewrite lookup_insert_ne.
        -- cbn. rewrite Hlv'. cbn. rewrite Hlv. set_solver.
        -- intros q' Hq'. rewrite fmap_cons in Hq'. apply elem_of_cons in Hq' as [->|Hq']; [done|].
           apply Hfresh in Hq'. cbn in Hq'. rewrite Hlv in Hq'. set_solver.
    + destruct Hd as (Hp & Hb & Hlv'). exists None, h'. split; [done|]. cbn in *.
      split_and!.
      * apply map_eq. intros q'. rewrite Hp. case_decide as Hin.
        -- apply list_elem_of_singleton in Hin as ->. by rewrite Hq1.
        -- rewrite lookup_insert_ne; [done|]. intros <-. apply Hin. left.
      * apply map_eq. intros q'. rewrite Hb. case_decide as Hin.
        -- apply list_elem_of_singleton in Hin as ->. by rewrite Hq2.
        -- rewrite Hbl, lookup_insert_ne; [done|]. intros <-. apply Hin. left.
      * rewrite Hlv', Hlv. set_solver.
Qed.

(** One RAM pbuf holds the whole packet, behind room for the headers. *)
Lemma alloc_ram_ok layer off length_ h :
  header_offset layer = Some off -> 0 <= length_ <= 65535 -> alloc_inv h ->
  exists o h', pbuf_alloc custom layer length_ PBUF_RAM h = (Ret o, h') /\
    match o with
    | None => unchanged h h'
    | Some q => exists x bs, packet h' (Some q) [Node q x bs] /\ len x = length_ /\
                  type x = PBUF_RAM /\ ref x = 1 /\ flags x = 0 /\
                  payload x = Some (q, LWIP_MEM_ALIGN_SIZE off) /\ allocated h [Node q x bs] h'
    end.
Proof.
  intros Hoff Hl Hi. destruct (offset_range _ _ Hoff) as (Ha & Ho & Hal).
  set (aoff := LWIP_MEM_ALIGN_SIZE off) in *.
  assert (Hsz : length_ <= LWIP_MEM_ALIGN_SIZE length_ <= length_ + 3).
  { pose proof (LWIP_MEM_ALIGN_SIZE_range length_ ltac:(lia)). lia. }
  assert (Hrun : pbuf_alloc custom layer length_ PBUF_RAM h =
    (let alloc_len := u16 (SIZEOF_STRUCT_PBUF + aoff + LWIP_MEM_ALIGN_SIZE length_) in
     p <- (if alloc_len <? LWIP_MEM_ALIGN_SIZE length_ then ret None else
     p <- malloc RAM alloc_len ;;
     match p with
     | None => ret None
     | Some p =>
         update p (fun x => with_type PBUF_RAM (with_next None (with_tot_len length_
          (with_len length_ (with_payload (Some (p, aoff)) x))))) ;;; ret (Some p)
     end) ;;
     match p with
     | None => ret None
     | Some p => update p (fun x => with_flags 0 (with_ref 1 x)) ;;; ret (Some p)
     end) h).
  { unfold pbuf_alloc. rewrite Hoff. change (PBUF_RAM =? PBUF_POOL) with false.
    change (PBUF_RAM =? PBUF_RAM) with true. cbv iota zeta. fold aoff. by rewrite Hal. }
  rewrite Hrun. clear Hrun. cbv zeta. set (al_len := u16 _).
  destruct (Z.ltb_spec al_len (LWIP_MEM_ALIGN_SIZE length_)) as [Hov|Hov];
    [exists None, h; by split|].
  unfold bind at 1. unfold bind at 1.
  destruct (malloc_ok RAM al_len h Hi)
    as [(h1 & Hm & Hpb & Hbl & Hlv)|(q & h1 & Hm & Hq & Hlv & Hpb & Hbl)]; rewrite Hm.
  { exists None, h1. by split. }
  assert (Hal_len : al_len = SIZEOF_STRUCT_PBUF + aoff + LWIP_MEM_ALIGN_SIZE length_).
  { unfold al_len in *. change SIZEOF_STRUCT_PBUF with 16 in *.
    destruct (Z.lt_ge_cases (16 + aoff + LWIP_MEM_ALIGN_SIZE length_) 65536).
    - apply u16_small. lia.
    - exfalso. revert Hov. unfold u16. rewrite (Z.mod_eq _ (2 ^ 16)) by lia.
      assert ((16 + aoff + LWIP_MEM_ALIGN_SIZE length_) / 2 ^ 16 = 1) as ->; [|lia].
      symmetry. apply Z.div_unique with (r := 16 + aoff + LWIP_MEM_ALIGN_SIZE length_ - 2 ^ 16); lia. }
  unfold bind at 1. rewrite (update_at h1 q (stale_pbuf q)) by (rewrite Hpb; apply lookup_insert_eq).
  cbn [ret]. unfold bind at 1. erewrite (update_at _ q) by (cbn; apply lookup_insert_eq).
  rewrite set_pb_set_pb. cbn [pb set_pb]. rewrite Hpb, !insert_insert_eq.
  set (xf := with_flags 0 (with_ref 1 _)).
  exists (Some q). eexists. split; [reflexivity|].
  set (a := stale_bytes q (al_len - SIZEOF_STRUCT_PBUF)) in *.
  assert (Hla : Z.of_nat (length a) = aoff + LWIP_MEM_ALIGN_SIZE length_).
  { unfold a. rewrite stale_length, Hal_len. lia. }
  exists xf, (take (Z.to_nat length_) (drop (Z.to_nat aoff) a)).
  split_and!; try done.
  - split_and!; [done|cbn; apply lookup_insert_eq| | |done].
    + exists q, aoff, a. cbn [bl set_pb]. rewrite Hbl, lookup_insert_eq.
      change (len xf) with length_. split_and!; (done || lia).
    + change (content []) with (@nil Z). cbn. lia.
  - split_and!.
    + intros q' Hq'. cbn in Hq'. assert (q' <> q) as Hne by (intros ->; apply Hq'; left).
      cbn [pb bl set_pb]. rewrite Hbl. by rewrite !lookup_insert_ne.
    + cbn. rewrite Hlv. set_solver.
    + intros q' Hq'. cbn in Hq'. by apply list_elem_of_singleton in Hq' as ->.
Qed.
End Alloc.
