(* ===== verification/PbufThms.v ===== *)
(** * The theorems on packet buffers, and their concrete runs *)
From S2P Require Export PbufAlloc.

Section Theorems.
Context {A : Type} `{Allocator A}.
Context (custom : ptr -> heap A -> heap A).
Implicit Types (h : heap A) (p : option ptr) (q : ptr) (x : pbuf) (l : list node).

(** C7: [pbuf_copy_partial] copies exactly the bytes [offset .. offset+len) the
    packet has, across any number of pbufs, to the front of the caller's buffer,
    returns their number, and does not change the packet. *)
Theorem pbuf_copy_partial_correct q n l h dst len_ offset :
  packet h (Some q) (n :: l) -> 0 <= len_ <= 65535 -> 0 <= offset <= 65535 ->
  Z.of_nat (length (content (n :: l))) <= 65535 -> len_ <= Z.of_nat (length dst) ->
  let bs := slice offset len_ (content (n :: l)) in
  pbuf_copy_partial (Some q) dst len_ offset h =
    (Ret (Z.of_nat (length bs), bs ++ drop (length bs) dst), h).
Proof.
  intros Hp Hl Ho Hc Hd bs. pose proof (slice_length offset len_ (content (n :: l))).
  by apply copy_partial_ok; try lia.
Qed.

(** C27: Data longer than the packet stop the system in the check of [pbuf_take], before anything
    is written;
    otherwise the packet carries the data, then its old bytes, with the same
    pbufs in the same chain, and no other memory is touched. *)
Theorem pbuf_take_correct q n l h d m :
  packet h (Some q) (n :: l) -> separate (n :: l) -> 0 <= m <= Z.of_nat (length d) ->
  Z.of_nat (length (content (n :: l))) <= 65535 ->
  if Z.of_nat (length (content (n :: l))) <? m
  then pbuf_take (Some q) d m h = (Fault, h)
  else exists h' l', pbuf_take (Some q) d m h = (Ret ERR_OK, h') /\
         packet h' (Some q) l' /\ n_buf <$> l' = n_buf <$> n :: l /\
         content l' = take (Z.to_nat m) d ++ drop (Z.to_nat m) (content (n :: l)) /\
         writes_only (n :: l) h h'.
Proof.
  intros Hp Hs Hm Hc. pose proof (take_ok q n l h d m Hp Hs Hm Hc) as Ht.
  destruct (Z.ltb_spec (Z.of_nat (length (content (n :: l)))) m); [done|].
  destruct Ht as (h' & Ht & Hp' & Hw). exists h', (refill (n :: l) (slice 0 m d)).
  assert (Hsl : slice 0 m d = take (Z.to_nat m) d) by (unfold slice; by rewrite drop_0).
  assert (Hln : length (slice 0 m d) = Z.to_nat m) by (rewrite Hsl, length_take; lia).
  split_and!; [done|done|apply refill_bufs| |done].
  rewrite refill_content by lia. by rewrite Hln, Hsl.
Qed.

(** what [pbuf_take] puts into a packet, [pbuf_copy_partial] gets out of it. *)
Theorem pbuf_take_copy_roundtrip q n l h d dst :
  packet h (Some q) (n :: l) -> separate (n :: l) ->
  Z.of_nat (length d) <= Z.of_nat (length (content (n :: l))) <= 65535 ->
  (length d <= length dst)%nat ->
  let m := Z.of_nat (length d) in
  exists h', pbuf_take (Some q) d m h = (Ret ERR_OK, h') /\
    pbuf_copy_partial (Some q) dst m 0 h' = (Ret (m, d ++ drop (length d) dst), h').
Proof.
  intros Hp Hs Hd Hdst m. pose proof (take_ok q n l h d m Hp Hs ltac:(lia) ltac:(lia)) as Ht.
  rewrite (proj2 (Z.ltb_ge _ _)) in Ht by lia. destruct Ht as (h' & Ht & Hp' & _).
  exists h'. split; [done|]. destruct (refill (n :: l) (slice 0 m d)) as [|n' l'] eqn:Hr; [by destruct n|].
  assert (Hsl : slice 0 m d = d) by (unfold slice, m; rewrite Nat2Z.id; apply firstn_all).
  assert (Hcl : content (n' :: l') = d ++ drop (length d) (content (n :: l)))
    by (rewrite <- Hr, Hsl; apply refill_content; lia).
  assert (Hsc : slice 0 m (content (n' :: l')) = d).
  { rewrite Hcl. unfold slice, m. rewrite Nat2Z.id. cbn. apply take_app_length. }
  rewrite (copy_partial_ok q n' l') by
    (done || lia || (rewrite Hcl, length_app, length_drop; lia) || (rewrite Hsc; lia)).
  by rewrite Hsc.
Qed.

(** [pbuf_put_at] changes the one byte at its offset, whichever pbuf holds it,
    [pbuf_get_at] then reads it back, and past the end both do nothing (0). *)
Theorem pbuf_put_get l p h off v :
  packet h p l -> separate l -> bytes (content l) -> 0 <= off <= 65535 -> 0 <= v < 256 ->
  exists h' l', pbuf_put_at p off v h = (Ret tt, h') /\ packet h' p l' /\
    content l' = <[Z.to_nat off := v]> (content l) /\
    forall i, 0 <= i <= 65535 -> pbuf_get_at p i h' =
      (Ret (if (i =? off) && (i <? Z.of_nat (length (content l))) then v
            else default 0 (content l !! Z.to_nat i)), h').
Proof.
  intros Hp Hs Hb Ho Hv. destruct (put_at_ok p l h off v Hp Hs Ho) as (h' & l' & Hput & Hp' & Hc & _).
  exists h', l'. split_and!; [done|done|done|]. intros i Hi.
  rewrite (get_at_ok h' p l') by (done || (rewrite Hc; by apply Forall_insert)).
  do 2 f_equal. rewrite Hc. destruct (Z.eqb_spec i off) as [->|Hne]; cbn [andb].
  - destruct (Z.ltb_spec off (Z.of_nat (length (content l)))).
    + by rewrite list_lookup_insert_eq by lia.
    + rewrite list_insert_ge by lia. done.
  - by rewrite list_lookup_insert_ne by lia.
Qed.

(** [pbuf_memfind] returns the first position from the start offset on where
    the pattern occurs, across pbuf boundaries, or 0xFFFF when there is none; it
    always ends. *)
Theorem pbuf_memfind_correct q n l h mem start :
  packet h (Some q) (n :: l) -> bytes (content (n :: l)) ->
  Z.of_nat (length (content (n :: l))) <= 65534 -> 0 <= start <= 65535 ->
  Z.of_nat (length mem) + start <= Z.of_nat (length (content (n :: l))) ->
  exists r, pbuf_memfind q mem (Z.of_nat (length mem)) start h = (Ret r, h) /\
    (first_at (content (n :: l)) mem start r \/
     r = 0xFFFF /\ forall j, start <= j <= Z.of_nat (length (content (n :: l))) - Z.of_nat (length mem) ->
       slice j (Z.of_nat (length mem)) (content (n :: l)) <> mem).
Proof.
  intros Hp Hb Hc Hs Hm. pose proof (packet_tot _ _ _ _ Hp) as Ht.
  pose proof (packet_head _ _ _ _ Hp) as Hq. injection Hq as ->.
  assert (Hx : pb h !! n_ptr n = Some (n_buf n)) by (eapply packet_lookup; [exact Hp|left]).
  unfold pbuf_memfind, bind. rewrite (load_at _ _ _ Hx), Ht. rewrite u16_small by lia.
  rewrite (proj2 (Z.leb_le _ _)) by lia.
  apply (memfind_loop_ok h (n_ptr n) n l mem (Z.to_nat 65536) start Hp Hb); lia.
Qed.

(** C21: [pbuf_free] releases exactly the pbufs at the head of the chain that
    have a single reference, drops one reference of the next one, leaves all
    else alone, and returns how many it released (as a byte). *)
Theorem pbuf_free_correct h q x c1 c2 :
  chain (pb h) (Some q) (c1 ++ c2) -> pb h !! q = Some x -> known_type x ->
  sole c1 -> shared c2 ->
  exists h', pbuf_free custom (Some q) h = (Ret (u8 (Z.of_nat (length c1))), h') /\
    (forall q', q' ∈ c1.*1 -> pb h' !! q' = None /\ bl h' !! q' = None /\ q' ∉ live (al h')) /\
    (forall q', q' ∉ c1.*1 -> q' ∉ (take 1 c2).*1 ->
       pb h' !! q' = pb h !! q' /\ bl h' !! q' = bl h !! q') /\
    (forall q2 x2 c, c2 = (q2, x2) :: c -> pb h' !! q2 = Some (with_ref (ref x2 - 1) x2)) /\
    live (al h') = live (al h) ∖ list_to_set c1.*1.
Proof.
  intros Hc Hx Hk H1 H2. rewrite (free_ok custom h q x c1 c2) by done. rewrite count_u8.
  eexists. split; [reflexivity|].
  pose proof (chain_NoDup _ _ _ Hc) as Hnd. rewrite fmap_app in Hnd.
  apply NoDup_app in Hnd as (_ & Hdis & _).
  assert (Hal : live (al (unref c2 (release_all c1 h))) = live (al h) ∖ list_to_set c1.*1)
    by (destruct c2 as [|[]]; cbn; apply release_all_live).
  split_and!.
  - intros q' Hq'. destruct (release_all_gone c1 h q' Hq') as [G1 G2]. rewrite Hal.
    split_and!; [|by destruct c2 as [|[]]|].
    + destruct c2 as [|[q2 x2] c2]; [done|]. cbn. rewrite lookup_insert_ne; [done|].
      intros ->. apply (Hdis q' Hq'). left.
    + intros [_ Hn]%elem_of_difference. apply Hn. by apply elem_of_list_to_set.
  - intros q' Hq1 Hq2. destruct c2 as [|[q2 x2] c2]; cbn in *.
    + by rewrite release_all_lookup, release_all_block.
    + rewrite lookup_insert_ne by (intros ->; apply Hq2; left).
      by rewrite release_all_lookup, release_all_block.
  - intros q2 x2 c ->. cbn. by rewrite lookup_insert_eq.
  - exact Hal.
Qed.

(** [pbuf_cat] makes one packet of two: its bytes are those of the first
    then those of the second, its lengths are consistent, and no reference count
    or other pbuf changes. *)
Theorem pbuf_cat_correct n0 l h t lt :
  packet h (Some (n_ptr n0)) (n0 :: l) -> packet h (Some t) lt ->
  n_ptr <$> n0 :: l ## n_ptr <$> lt ->
  Z.of_nat (length (content (n0 :: l))) + Z.of_nat (length (content lt)) <= 65535 ->
  exists m l', pbuf_cat (Some (n_ptr n0)) (Some t) h = (Ret tt, Heap m (bl h) (al h)) /\
    packet (Heap m (bl h) (al h)) (Some (n_ptr n0)) (l' ++ lt) /\
    content (l' ++ lt) = content (n0 :: l) ++ content lt /\ n_ptr <$> l' = n_ptr <$> n0 :: l /\
    (forall q, q ∉ n_ptr <$> n0 :: l -> m !! q = pb h !! q).
Proof.
  intros Hp Ht Hd Hl. destruct (cat_ok n0 l h t lt Hp Ht Hd Hl) as (m & Hc & Hpk & Hf).
  exists m, (appended (n0 :: l) t (Z.of_nat (length (content lt)))).
  split_and!; [done|done| |apply appended_ptrs|done].
  by rewrite content_app, appended_content.
Qed.

(** [pbuf_dechain] undoes [pbuf_chain]: it returns the tail, and every pbuf
    (total lengths, links and reference counts) is as before. *)
Theorem pbuf_chain_dechain_roundtrip h a xa b xb :
  pb h !! a = Some xa -> next xa = None -> tot_len xa = len xa -> pb h !! b = Some xb ->
  a <> b -> known_type xb -> 1 <= ref xb <= 65534 -> 0 <= len xa -> 0 <= tot_len xb ->
  len xa + tot_len xb <= 65535 ->
  exists h', pbuf_chain (Some a) (Some b) h = (Ret tt, h') /\
    pbuf_dechain custom a h' = (Ret (Some b), h).
Proof. apply chain_dechain. Qed.


(** a PBUF_RAM allocation gives one pbuf whose payload lies behind room for
    the protocol headers of its layer and holds the requested bytes; the 16-bit
    allocation size never wraps around silently: an oversized request fails. *)
Theorem pbuf_alloc_ram_correct layer off length_ h :
  header_offset layer = Some off -> 0 <= length_ <= 65535 -> alloc_inv h ->
  exists o h', pbuf_alloc custom layer length_ PBUF_RAM h = (Ret o, h') /\
    match o with
    | None => unchanged h h'
    | Some q => exists x bs, packet h' (Some q) [Node q x bs] /\ len x = length_ /\
                  type x = PBUF_RAM /\ ref x = 1 /\ flags x = 0 /\
                  payload x = Some (q, LWIP_MEM_ALIGN_SIZE off) /\ allocated h [Node q x bs] h'
    end.
Proof. apply alloc_ram_ok. Qed.

(** C29: [pbuf_realloc] to a shorter length leaves a well-formed packet with
    exactly the first bytes, and releases the pbufs no longer needed, nothing
    else. *)
Theorem pbuf_realloc_correct n0 l h new_len :
  packet h (Some (n_ptr n0)) (n0 :: l) -> owned (n0 :: l) ->
  0 <= new_len < tot_len (n_buf n0) -> tot_len (n_buf n0) <= 65535 ->
  exists h' l', pbuf_realloc custom (n_ptr n0) new_len h = (Ret tt, h') /\
    packet h' (Some (n_ptr n0)) l' /\
    content l' = take (Z.to_nat new_len) (content (n0 :: l)) /\
    only_in (n0 :: l) h h' /\
    live (al h') = live (al h) ∖ list_to_set (drop (length l') (n_ptr <$> n0 :: l)).
Proof.
  intros Hp Ho Hn Ht. destruct (realloc_ok custom n0 l h new_len Hp Ho Hn Ht) as (h' & Hr & Hpk & Hrest).
  exists h', (shrink (n0 :: l) new_len). split_and!; [done|done| |apply Hrest|apply Hrest].
  apply (shrink_content _ h (Some (n_ptr n0))); [done|lia|].
  rewrite <- (packet_tot _ _ _ _ Hp). lia.
Qed.

(** hiding a header of [k] bytes drops them from the front of the packet;
    revealing it again restores pbuf and store; revealing more than the room in
    front of the payload fails and changes nothing. *)
Theorem pbuf_header_roundtrip q x bs l h k b o :
  packet h (Some q) (Node q x bs :: l) -> payload x = Some (b, o) -> 0 < k <= 32767 -> k <= len x ->
  (type x = PBUF_RAM \/ type x = PBUF_POOL) -> tot_len x <= 65535 ->
  exists h' x', pbuf_header q (- k) h = (Ret 0, h') /\
    packet h' (Some q) (Node q x' (drop (Z.to_nat k) bs) :: l) /\
    pbuf_header q k h' = (Ret 0, h) /\
    forall j, o < j <= 32767 -> tot_len x + j <= 65535 -> pbuf_header q j h = (Ret 1, h).
Proof.
  intros Hp Hpl Hk Hkl Ht Htl. pose proof (packet_NoDup _ _ _ Hp) as Hnd. rewrite fmap_cons in Hnd.
  apply NoDup_cons in Hnd as [Hnd _]. cbn [n_ptr] in Hnd.
  destruct Hp as (_ & Hx & Hb & Htt & Hp).
  assert (Ho : 0 <= o) by (destruct Hb as (b' & o' & a & Hpl' & _ & Ho & _); congruence).
  set (x' := moved k x). set (h' := set_pb (<[q := x']> (pb h)) h).
  exists h', x'. split_and!.
  - unfold pbuf_header. rewrite (header_ok h q x (- k) 0 b o) by (done || lia).
    rewrite (proj2 (Z.ltb_ge _ _)) by lia. by rewrite Z.opp_involutive.
  - split_and!; [done|cbn; apply lookup_insert_eq|apply holds_moved; (done || lia)| |].
    + unfold x', moved. cbn [tot_len len with_tot_len with_len with_payload]. lia.
    + change (next x') with (next x). apply packet_pb_frame; [done|]. intros q' Hq'.
      rewrite lookup_insert_ne; [done|]. by intros <-.
  - unfold pbuf_header. rewrite (header_ok h' q x' k 0 b (o + k)).
    + rewrite (proj2 (Z.ltb_ge _ _)) by lia. unfold x'. rewrite moved_back.
      unfold h'. cbn [pb set_pb]. rewrite set_pb_set_pb, insert_insert_eq, insert_id by done.
      by rewrite set_pb_id.
    + cbn. apply lookup_insert_eq.
    + unfold x', moved. cbn. by rewrite Hpl.
    + lia.
    + lia.
    + exact Ht.
    + unfold x', moved. cbn [tot_len len with_tot_len with_len with_payload]. lia.
    + unfold x', moved. cbn [tot_len len with_tot_len with_len with_payload]. lia.
    + unfold x', moved. cbn [tot_len len with_tot_len with_len with_payload]. lia.
  - intros j Hj Hj2. unfold pbuf_header. rewrite (header_ok h q x j 0 b o) by (done || lia).
    by rewrite (proj2 (Z.ltb_lt _ _)) by lia.
Qed.
End Theorems.
