(* ===== verification/PbufRuns.v ===== *)
(** * Concrete runs of the theorems on packet buffers

    A small allocator that meets the interface, a store with a packet of two pool
    pbufs (bytes 10 20 30 | 40 50) and a RAM pbuf apart (60 70). *)
From S2P Require Export PbufThms.

(** ** A concrete allocator: the number of buffers left, and the pointers in use *)
Record pool := Pool { left_ : nat; used : gset ptr }.

#[export] Instance pool_alloc : Allocator pool.
Proof.
  refine {|
    al_get k n a := match left_ a with
                    | O => (None, a)
                    | S m => let p := fresh (used a) in (Some p, Pool m ({[p]} ∪ used a))
                    end;
    al_put k p a := Pool (S (left_ a)) (used a ∖ {[p]});
    al_trim p n a := a;
    live := used;
    stale_pbuf p := Pbuf None None 0 0 0 0 0;
    stale_bytes p n := replicate (Z.to_nat n) 0xA5
  |}.
  - intros p n. apply length_replicate.
  - intros k n [[|m] u]; cbn; [done|]. split; [apply is_fresh|done].
  - done.
  - done.
Defined.

Definition no_custom : ptr -> heap pool -> heap pool := fun _ h => h.

Definition buf1 := Pbuf (Some 2%positive) (Some (1%positive, 1)) 5 3 PBUF_POOL 0 1.
Definition buf2 := Pbuf None (Some (2%positive, 1)) 2 2 PBUF_POOL 0 1.
Definition buf3 := Pbuf None (Some (3%positive, 0)) 2 2 PBUF_RAM 0 1.
Definition demo : heap pool := Heap
  (list_to_map [(1%positive, buf1); (2%positive, buf2); (3%positive, buf3)])
  (list_to_map [(1%positive, [0; 10; 20; 30]); (2%positive, [0; 40; 50]); (3%positive, [60; 70])])
  (Pool 2 (list_to_set [1%positive; 2%positive; 3%positive])).
Definition node1 := Node 1 buf1 [10; 20; 30].
Definition node2 := Node 2 buf2 [40; 50].
Definition node3 := Node 3 buf3 [60; 70].

Ltac holds_tac :=
  do 3 eexists; split_and!; [reflexivity|reflexivity|vm_compute; congruence..].

Ltac packet_tac :=
  repeat (split_and!; [reflexivity|reflexivity|holds_tac|reflexivity|]); reflexivity.

Lemma demo_packet12 : packet demo (Some 1%positive) [node1; node2].
Proof. packet_tac. Qed.

Lemma demo_packet3 : packet demo (Some 3%positive) [node3].
Proof. packet_tac. Qed.

Lemma demo_separate : separate [node1; node2].
Proof. unfold separate. apply (bool_decide_unpack _). vm_compute. exact I. Qed.

Lemma demo_bytes : bytes (content [node1; node2]).
Proof. repeat constructor; vm_compute; congruence. Qed.

Lemma demo_owned : owned [node1; node2].
Proof.
  repeat constructor; try reflexivity; try (by right; right; right); try done;
    intros b [= <-] _; reflexivity.
Qed.

Lemma demo_inv : alloc_inv demo.
Proof.
  split; intros q Hq%elem_of_dom; destruct Hq as [x Hx]; apply elem_of_list_to_map_2 in Hx;
    apply elem_of_list_to_set; repeat (apply elem_of_cons in Hx as [[= -> _]|Hx]; [set_solver|]);
    by apply elem_of_nil in Hx.
Qed.

(** [0 <= a <= b] on constants. *)
Ltac range_tac := vm_compute; repeat split; congruence.

Lemma pbuf_copy_partial_correct_witness :
  pbuf_copy_partial (Some 1%positive) [1; 2; 3; 4; 5] 3 1 demo = (Ret (3, [20; 30; 40; 4; 5]), demo).
Proof.
  apply (pbuf_copy_partial_correct 1 node1 [node2] demo [1; 2; 3; 4; 5] 3 1 demo_packet12); range_tac.
Defined.

Lemma pbuf_take_correct_witness : exists h' l',
  pbuf_take (Some 1%positive) [1; 2; 3; 4] 4 demo = (Ret ERR_OK, h') /\
  packet h' (Some 1%positive) l' /\ n_buf <$> l' = [buf1; buf2] /\
  content l' = [1; 2; 3; 4; 50] /\ writes_only [node1; node2] demo h'.
Proof.
  apply (pbuf_take_correct 1 node1 [node2] demo [1; 2; 3; 4] 4 demo_packet12 demo_separate); range_tac.
Defined.

Lemma pbuf_take_copy_roundtrip_witness : exists h',
  pbuf_take (Some 1%positive) [1; 2; 3; 4] 4 demo = (Ret ERR_OK, h') /\
  pbuf_copy_partial (Some 1%positive) [9; 9; 9; 9; 9] 4 0 h' = (Ret (4, [1; 2; 3; 4; 9]), h').
Proof.
  apply (pbuf_take_copy_roundtrip 1 node1 [node2] demo [1; 2; 3; 4] [9; 9; 9; 9; 9]
           demo_packet12 demo_separate); [range_tac|cbn; lia].
Defined.

Lemma pbuf_put_get_witness : exists h' l',
  pbuf_put_at (Some 1%positive) 3 7 demo = (Ret tt, h') /\ packet h' (Some 1%positive) l' /\
  content l' = [10; 20; 30; 7; 50] /\
  forall i, 0 <= i <= 65535 -> pbuf_get_at (Some 1%positive) i h' =
    (Ret (if (i =? 3) && (i <? 5) then 7 else default 0 ([10; 20; 30; 40; 50] !! Z.to_nat i)), h').
Proof.
  apply (pbuf_put_get [node1; node2] (Some 1%positive) demo 3 7 demo_packet12 demo_separate demo_bytes);
    range_tac.
Defined.

Lemma pbuf_memfind_correct_witness : exists r,
  pbuf_memfind 1 [30; 40] 2 0 demo = (Ret r, demo) /\
  (first_at [10; 20; 30; 40; 50] [30; 40] 0 r \/
   r = 0xFFFF /\ forall j, 0 <= j <= 3 -> slice j 2 [10; 20; 30; 40; 50] <> [30; 40]).
Proof.
  apply (pbuf_memfind_correct 1 node1 [node2] demo [30; 40] 0 demo_packet12 demo_bytes); range_tac.
Defined.

Lemma pbuf_free_correct_witness : exists h',
  pbuf_free no_custom (Some 1%positive) demo = (Ret 2, h') /\
  (forall q', q' ∈ [1%positive; 2%positive] ->
     pb h' !! q' = None /\ bl h' !! q' = None /\ q' ∉ live (al h')) /\
  (forall q', q' ∉ [1%positive; 2%positive] -> q' ∉ (@nil ptr) ->
     pb h' !! q' = pb demo !! q' /\ bl h' !! q' = bl demo !! q') /\
  (forall q2 x2 (c : list (ptr * pbuf)), [] = (q2, x2) :: c ->
     pb h' !! q2 = Some (with_ref (ref x2 - 1) x2)) /\
  live (al h') = live (al demo) ∖ list_to_set [1%positive; 2%positive].
Proof.
  apply (pbuf_free_correct no_custom demo 1 buf1 [(1%positive, buf1); (2%positive, buf2)] []).
  - by split_and!.
  - reflexivity.
  - by right; right; right.
  - by repeat constructor.
  - exact I.
Defined.

Lemma pbuf_cat_correct_witness : exists m l',
  pbuf_cat (Some 1%positive) (Some 3%positive) demo = (Ret tt, Heap m (bl demo) (al demo)) /\
  packet (Heap m (bl demo) (al demo)) (Some 1%positive) (l' ++ [node3]) /\
  content (l' ++ [node3]) = [10; 20; 30; 40; 50; 60; 70] /\
  n_ptr <$> l' = [1%positive; 2%positive] /\
  (forall q, q ∉ [1%positive; 2%positive] -> m !! q = pb demo !! q).
Proof.
  apply (pbuf_cat_correct node1 [node2] demo 3 [node3] demo_packet12 demo_packet3).
  - intros q H1 H2. apply list_elem_of_singleton in H2 as ->.
    revert H1. apply (bool_decide_unpack _). exact I.
  - range_tac.
Defined.

Lemma pbuf_chain_dechain_roundtrip_witness : exists h',
  pbuf_chain (Some 3%positive) (Some 1%positive) demo = (Ret tt, h') /\
  pbuf_dechain no_custom 3 h' = (Ret (Some 1%positive), demo).
Proof.
  apply (pbuf_chain_dechain_roundtrip no_custom demo 3 buf3 1 buf1);
    try reflexivity; try (by right; right; right); try range_tac; done.
Defined.


Lemma pbuf_alloc_ram_correct_witness : exists o h',
  pbuf_alloc no_custom PBUF_TRANSPORT 100 PBUF_RAM demo = (Ret o, h') /\
  match o with
  | None => unchanged demo h'
  | Some q => exists x bs, packet h' (Some q) [Node q x bs] /\ len x = 100 /\
                type x = PBUF_RAM /\ ref x = 1 /\ flags x = 0 /\
                payload x = Some (q, 56) /\ allocated demo [Node q x bs] h'
  end.
Proof.
  apply (pbuf_alloc_ram_correct no_custom PBUF_TRANSPORT 54 100 demo);
    [reflexivity|range_tac|exact demo_inv].
Defined.

Lemma pbuf_realloc_correct_witness : exists h' l',
  pbuf_realloc no_custom 1 2 demo = (Ret tt, h') /\ packet h' (Some 1%positive) l' /\
  content l' = [10; 20] /\ only_in [node1; node2] demo h' /\
  live (al h') = live (al demo) ∖ list_to_set (drop (length l') [1%positive; 2%positive]).
Proof.
  apply (pbuf_realloc_correct no_custom node1 [node2] demo 2 demo_packet12 demo_owned); range_tac.
Defined.

Lemma pbuf_header_roundtrip_witness : exists h' x',
  pbuf_header 1 (- 2) demo = (Ret 0, h') /\
  packet h' (Some 1%positive) [Node 1 x' [30]; node2] /\
  pbuf_header 1 2 h' = (Ret 0, demo) /\
  forall j, 1 < j <= 32767 -> 5 + j <= 65535 -> pbuf_header 1 j demo = (Ret 1, demo).
Proof.
  apply (pbuf_header_roundtrip 1 buf1 [10; 20; 30] [node2] demo 2 1 1 demo_packet12);
    try reflexivity; try range_tac. by right.
Defined.
