(* ===== verification/Chksum.v ===== *)
(** * The Internet checksum: [lwip/src/core/inet_chksum.c]

    The three [lwip_standard_chksum] routines (the build uses version 2) on the
    bytes at an address, and the checksums over pbuf chains built on them. *)
From S2P Require Export PbufRead.

(** ** [inet_chksum.h] *)
Definition SWAP_BYTES_IN_WORD (w : Z) : Z :=
  Z.lor (Z.shiftl (Z.land w 0xff) 8) (Z.shiftr (Z.land w 0xff00) 8).
Definition FOLD_U32T (u : Z) : Z := Z.shiftr u 16 + Z.land u 0x0000ffff.

(** A 16-bit and a 32-bit load on the little-endian target. *)
Definition ldrh (b0 b1 : Z) : Z := b0 + 256 * b1.
Definition ldr (b0 b1 b2 b3 : Z) : Z := ldrh b0 b1 + 65536 * ldrh b2 b3.

(** The tail of versions 2 and 3: the end bytes, two folds, the swap. *)
Definition chksum_end (odd : bool) (sum t : Z) : Z :=
  let sum := u32 (sum + t) in
  let sum := u32 (FOLD_U32T sum) in
  let sum := u32 (FOLD_U32T sum) in
  let sum := if odd then SWAP_BYTES_IN_WORD sum else sum in
  u16 sum.

(** [while (len > 1) { sum += *ps++; len -= 2; }]: the sum and what is left *)
Fixpoint sum_u16 (sum : Z) (bs : list Z) : Z * list Z :=
  match bs with
  | b0 :: b1 :: bs => sum_u16 (u32 (sum + ldrh b0 b1)) bs
  | _ => (sum, bs)
  end.

(** [((u8_t * )&t)[0] = b] and [((u8_t * )&t)[1] = b] *)
Definition set_byte0 (t b : Z) : Z := Z.land t 0xff00 + b.
Definition set_byte1 (t b : Z) : Z := Z.land t 0x00ff + 256 * b.

(** ** [lwip_standard_chksum], version 1 *)
Fixpoint sum_octets (acc : Z) (bs : list Z) : Z :=
  match bs with
  | b0 :: b1 :: bs =>
      let src := u16 (Z.shiftl b0 8) in
      let src := Z.lor src b1 in
      sum_octets (u32 (acc + src)) bs
  | [b0] => u32 (acc + u16 (Z.shiftl b0 8))
  | [] => acc
  end.

Definition lwip_standard_chksum_1 (bs : list Z) : Z :=
  let acc := sum_octets 0 bs in
  let acc := u32 (Z.shiftr acc 16 + Z.land acc 0x0000ffff) in
  let acc := if truthy (Z.land acc 0xffff0000)
             then u32 (Z.shiftr acc 16 + Z.land acc 0x0000ffff) else acc in
  lwip_htons (u16 acc).

(** ** Version 2: [dataptr] is the address of the bytes [bs] *)
Definition lwip_standard_chksum (dataptr : Z) (bs : list Z) : Z :=
  let odd := truthy (Z.land dataptr 1) in
  let '(t, bs) := match bs with
                  | b :: bs' => if odd then (set_byte1 0 b, bs') else (0, bs)
                  | [] => (0, [])
                  end in
  let '(sum, bs) := sum_u16 0 bs in
  let t := match bs with b :: _ => set_byte0 t b | [] => t end in
  chksum_end odd sum t.

(** ** Version 3: eight bytes at a time, adding the carries back *)
Definition add_carry (sum x : Z) : Z :=
  let tmp := u32 (sum + x) in
  if tmp <? sum then u32 (tmp + 1) else tmp.

Fixpoint sum_pingpong (sum : Z) (bs : list Z) : Z * list Z :=
  match bs with
  | b0 :: b1 :: b2 :: b3 :: b4 :: b5 :: b6 :: b7 :: bs =>
      sum_pingpong (add_carry (add_carry sum (ldr b0 b1 b2 b3)) (ldr b4 b5 b6 b7)) bs
  | _ => (sum, bs)
  end.

Definition lwip_standard_chksum_3 (dataptr : Z) (bs : list Z) : Z :=
  let odd := truthy (Z.land dataptr 1) in
  let '(t, ps, bs) := match bs with
                      | b :: bs' => if odd then (set_byte1 0 b, dataptr + 1, bs')
                                    else (0, dataptr, bs)
                      | [] => (0, dataptr, [])
                      end in
  let '(sum, bs) := match bs with
                    | b0 :: b1 :: bs' =>
                        if truthy (Z.land ps 3) then (u32 (0 + ldrh b0 b1), bs') else (0, bs)
                    | _ => (0, bs)
                    end in
  let '(sum, bs) := sum_pingpong sum bs in
  let sum := u32 (FOLD_U32T sum) in
  let '(sum, bs) := sum_u16 sum bs in
  let t := match bs with b :: _ => set_byte0 t b | [] => t end in
  chksum_end odd sum t.

(** ** [inet_chksum] *)
Definition inet_chksum (dataptr : Z) (bs : list Z) : Z :=
  u16 (Z.lnot (lwip_standard_chksum dataptr bs)).

Section Chain.
Context {A : Type} `{Allocator A}.
(** where a memory block lies: only the address parity of the payloads matters *)
Context (block_addr : ptr -> Z).
#[local] Abbreviation M := (cmd (heap A)).

(** [LWIP_CHKSUM(payload, len)] *)
Definition payload_addr (pl : option (ptr * Z)) : Z :=
  match pl with Some (b, o) => block_addr b + o | None => 0 end.
Definition LWIP_CHKSUM (pl : option (ptr * Z)) (n : Z) : M Z :=
  bs <- read_mem pl 0 n ;; ret (lwip_standard_chksum (payload_addr pl) bs).

(** The end of a loop body: fold, and swap after an odd number of bytes. *)
Definition fold_swap (x : pbuf) (acc swapped : Z) : Z * Z :=
  let acc := u32 (FOLD_U32T acc) in
  if negb (Z.rem (len x) 2 =? 0)
  then (SWAP_BYTES_IN_WORD acc, u8 (1 - swapped))
  else (acc, swapped).

Fixpoint chksum_loop (n : nat) (q : option ptr) (acc swapped : Z) : M (Z * Z) :=
  match q with
  | None => ret (acc, swapped)
  | Some q =>
    match n with
    | O => diverge
    | S n =>
        x <- load q ;;
        c <- LWIP_CHKSUM (payload x) (len x) ;;
        let r := fold_swap x (u32 (acc + c)) swapped in
        chksum_loop n (next x) r.1 r.2
    end
  end.

Fixpoint chksum_partial_loop (n : nat) (q : option ptr) (chksum_len acc swapped : Z) : M (Z * Z) :=
  match q with
  | None => ret (acc, swapped)
  | Some q =>
    if 0 <? chksum_len then
      match n with
      | O => diverge
      | S n =>
          x <- load q ;;
          let chklen := if chksum_len <? len x then chksum_len else len x in
          c <- LWIP_CHKSUM (payload x) chklen ;;
          let chksum_len := u16 (chksum_len - chklen) in
          assert_ (chksum_len <? 0x7fff) ;;;
          let r := fold_swap x (u32 (acc + c)) swapped in
          chksum_partial_loop n (next x) chksum_len r.1 r.2
      end
    else ret (acc, swapped)
  end.

(** What follows the loop in the pseudo-header checksums. *)
Definition pseudo_end (proto proto_len acc swapped : Z) : Z :=
  let acc := if truthy swapped then SWAP_BYTES_IN_WORD acc else acc in
  let acc := u32 (acc + lwip_htons (u16 proto)) in
  let acc := u32 (acc + lwip_htons proto_len) in
  let acc := u32 (FOLD_U32T acc) in
  let acc := u32 (FOLD_U32T acc) in
  u16 (Z.lnot (Z.land acc 0xffff)).

Definition inet_cksum_pseudo_base (p : option ptr) (proto proto_len acc : Z) : M Z :=
  n <- fuel ;;
  r <- chksum_loop n p acc 0 ;;
  ret (pseudo_end proto proto_len r.1 r.2).

Definition inet_cksum_pseudo_partial_base (p : option ptr) (proto proto_len chksum_len acc : Z) : M Z :=
  n <- fuel ;;
  r <- chksum_partial_loop n p chksum_len acc 0 ;;
  ret (pseudo_end proto proto_len r.1 r.2).

(** The sum of the two addresses, held in network byte order. *)
Definition addresses_acc (src dest : Z) : Z :=
  let acc := Z.land src 0xffff in
  let acc := u32 (acc + Z.land (Z.shiftr src 16) 0xffff) in
  let acc := u32 (acc + Z.land dest 0xffff) in
  let acc := u32 (acc + Z.land (Z.shiftr dest 16) 0xffff) in
  let acc := u32 (FOLD_U32T acc) in
  u32 (FOLD_U32T acc).

Definition inet_chksum_pseudo (p : option ptr) (proto proto_len src dest : Z) : M Z :=
  inet_cksum_pseudo_base p proto proto_len (addresses_acc src dest).

Definition inet_chksum_pseudo_partial (p : option ptr) (proto proto_len chksum_len src dest : Z) : M Z :=
  inet_cksum_pseudo_partial_base p proto proto_len chksum_len (addresses_acc src dest).

(** With IPv4 only, the [ip_] functions are these. *)
Definition ip_chksum_pseudo (p : option ptr) (proto proto_len src dest : Z) : M Z :=
  inet_chksum_pseudo p proto proto_len src dest.
Definition ip_chksum_pseudo_partial (p : option ptr) (proto proto_len chksum_len src dest : Z) : M Z :=
  inet_chksum_pseudo_partial p proto proto_len chksum_len src dest.

Definition inet_chksum_pbuf (p : option ptr) : M Z :=
  n <- fuel ;;
  r <- chksum_loop n p 0 0 ;;
  let acc := if truthy r.2 then SWAP_BYTES_IN_WORD r.1 else r.1 in
  ret (u16 (Z.lnot (Z.land acc 0xffff))).
End Chain.
