(* ===== verification/ChksumFacts.v ===== *)
(** * The one's complement sum, and that each checksum routine computes it

    [eqv x y]: [x] and [y] are the same one's complement sum (equal modulo 65535,
    and zero together).  Byte strings are summed as little-endian numbers, since
    [256 ^ 2] is [1] modulo 65535. *)
From S2P Require Export Chksum.

#[local] Set Warnings "-clear-no-such-hyp".

(** ** The specification of RFC 1071: words in network order, carries folded in *)
Fixpoint be_sum (bs : list Z) : Z :=
  match bs with
  | b0 :: b1 :: bs => 256 * b0 + b1 + be_sum bs
  | [b0] => 256 * b0
  | [] => 0
  end.

Definition ones_complement (s : Z) : Z := if s =? 0 then 0 else (s - 1) mod 65535 + 1.

(** The sum of a byte string, as a 16-bit value in network order. *)
Definition rfc1071 (bs : list Z) : Z := ones_complement (be_sum bs).

(** ** The same sum *)
Definition eqv (x y : Z) : Prop :=
  0 <= x /\ 0 <= y /\ (x = 0 <-> y = 0) /\ exists k, x = y + 65535 * k.

Lemma eqv_refl x : 0 <= x -> eqv x x.
Proof. intros Hx. split_and!; [done..|exists 0; lia]. Qed.

Lemma eqv_intro k x y : 0 < x -> 0 < y -> x = y + 65535 * k -> eqv x y.
Proof. intros. split_and!; [lia..|by exists k]. Qed.

#[export] Instance eqv_sym : Symmetric eqv.
Proof. intros x y (? & ? & ? & k & ?). split_and!; [done|done|naive_solver|exists (- k); lia]. Qed.

#[export] Instance eqv_trans : Transitive eqv.
Proof.
  intros x y z (? & ? & ? & k & ?) (? & ? & ? & j & ?).
  split_and!; [done|done|naive_solver|exists (k + j); lia].
Qed.

#[export] Instance eqv_add : Proper (eqv ==> eqv ==> eqv) Z.add.
Proof.
  intros x y (? & ? & ? & k & ?) x' y' (? & ? & ? & j & ?).
  split_and!; [lia..|exists (k + j); lia].
Qed.

Lemma eqv_mul c x y : 0 < c -> eqv x y -> eqv (c * x) (c * y).
Proof. intros Hc (? & ? & ? & k & ?). split_and!; [nia..|exists (c * k); nia]. Qed.

Lemma eqv_nonneg_l x y : eqv x y -> 0 <= x.
Proof. by intros (? & _). Qed.

Lemma eqv_65536 x : 0 <= x -> eqv (65536 * x) x.
Proof. intros Hx. split_and!; [lia..|exists x; lia]. Qed.

(** The only 16-bit value with a given sum. *)
Lemma eqv_ones_complement x y : eqv x y -> x <= 65535 -> x = ones_complement y.
Proof.
  intros (Hx & Hy & H0 & k & Hk) Hle. unfold ones_complement.
  destruct (Z.eqb_spec y 0); [lia|].
  assert (x <> 0) by lia. Z.to_euclidean_division_equations; lia.
Qed.

Lemma ones_complement_eqv x : 0 <= x -> eqv (ones_complement x) x.
Proof.
  intros Hx. unfold ones_complement. destruct (Z.eqb_spec x 0) as [->|]; [by apply eqv_refl|].
  apply (eqv_intro (- ((x - 1) / 65535))); Z.to_euclidean_division_equations; lia.
Qed.

Lemma ones_complement_range x : 0 <= x -> 0 <= ones_complement x <= 65535.
Proof.
  intros Hx. unfold ones_complement. destruct (Z.eqb_spec x 0); [lia|].
  Z.to_euclidean_division_equations; lia.
Qed.

(** ** The folds and swaps of the code *)
Lemma FOLD_U32T_arith u : FOLD_U32T u = u / 65536 + u mod 65536.
Proof. unfold FOLD_U32T. rewrite land_ffff, Z.shiftr_div_pow2 by lia. done. Qed.

Lemma FOLD_eqv u x : 0 <= u < 2 ^ 32 -> eqv u x -> eqv (u32 (FOLD_U32T u)) x.
Proof.
  intros Hu. apply transitivity. rewrite FOLD_U32T_arith.
  rewrite u32_small by (Z.to_euclidean_division_equations; lia).
  destruct (decide (u = 0)) as [->|]; [by apply eqv_refl|].
  apply (eqv_intro (- (u / 65536))); Z.to_euclidean_division_equations; lia.
Qed.

Lemma FOLD_range u : 0 <= u < 2 ^ 32 -> 0 <= u32 (FOLD_U32T u) <= 131070.
Proof.
  intros Hu. rewrite FOLD_U32T_arith.
  rewrite u32_small; Z.to_euclidean_division_equations; lia.
Qed.

Lemma FOLD_range2 u : 0 <= u <= 131070 -> 0 <= u32 (FOLD_U32T u) <= 65535.
Proof.
  intros Hu. rewrite FOLD_U32T_arith.
  rewrite u32_small; Z.to_euclidean_division_equations; lia.
Qed.

Lemma SWAP_range x : 0 <= SWAP_BYTES_IN_WORD x <= 65535.
Proof. pose proof (PP_HTONS_range x). unfold SWAP_BYTES_IN_WORD. unfold PP_HTONS in *. lia. Qed.

Lemma SWAP_eqv u x : 0 <= u <= 65535 -> eqv u x -> eqv (SWAP_BYTES_IN_WORD u) (256 * x).
Proof.
  intros Hu Hx. transitivity (256 * u); [|by apply eqv_mul].
  change (SWAP_BYTES_IN_WORD u) with (PP_HTONS u). rewrite PP_HTONS_arith.
  destruct (decide (u = 0)) as [->|]; [by apply eqv_refl|].
  apply (eqv_intro (- (u / 256))); Z.to_euclidean_division_equations; lia.
Qed.

Lemma htons_eqv u x : 0 <= u <= 65535 -> eqv u x -> eqv (lwip_htons u) (256 * x).
Proof.
  intros Hu. unfold lwip_htons. rewrite u16_small by apply PP_HTONS_range.
  apply (SWAP_eqv u x Hu).
Qed.

(** ** Byte strings as little-endian numbers *)
Fixpoint le_val (bs : list Z) : Z :=
  match bs with [] => 0 | b :: bs => b + 256 * le_val bs end.

Lemma le_val_nonneg bs : bytes bs -> 0 <= le_val bs.
Proof. induction 1; cbn [le_val]; lia. Qed.

Lemma le_val_app_eqv a b : bytes a -> bytes b ->
  eqv (le_val (a ++ b)) (le_val a + (if Z.even (Z.of_nat (length a)) then 1 else 256) * le_val b).
Proof.
  intros Ha Hb. pose proof (le_val_nonneg b Hb) as Hv.
  induction Ha as [|x a Hx Ha IH]; [by change (eqv (le_val b) (1 * le_val b)); rewrite Z.mul_1_l; apply eqv_refl|].
  pose proof (le_val_nonneg a Ha) as Hva.
  cbn [app le_val length]. rewrite Nat2Z.inj_succ, Z.even_succ, <- Z.negb_even.
  transitivity (x + 256 * (le_val a + (if Z.even (Z.of_nat (length a)) then 1 else 256) * le_val b)).
  { apply eqv_add; [apply eqv_refl; lia|]. by apply eqv_mul. }
  destruct (Z.even (Z.of_nat (length a))); cbn [negb].
  - replace (x + 256 * (le_val a + 1 * le_val b)) with (x + 256 * le_val a + 256 * le_val b) by lia.
    apply eqv_refl. lia.
  - replace (x + 256 * (le_val a + 256 * le_val b))
      with (x + 256 * le_val a + 65536 * le_val b) by lia.
    apply eqv_add; [apply eqv_refl; lia|]. rewrite Z.mul_1_l. by apply eqv_65536.
Qed.

(** Two bytes at a time, in the ways the loops take them. *)
Lemma pair_induction (P : list Z -> Prop) :
  P [] -> (forall b, P [b]) -> (forall b0 b1 bs, P bs -> P (b0 :: b1 :: bs)) -> forall bs, P bs.
Proof.
  intros H0 H1 H2. fix IH 1. intros [|b0 [|b1 bs]]; [done|apply H1|apply H2, IH].
Qed.

Lemma le_val_pair b0 b1 bs : bytes (b0 :: b1 :: bs) ->
  eqv (le_val (b0 :: b1 :: bs)) (b0 + 256 * b1 + le_val bs).
Proof.
  intros Hb. inversion_clear Hb as [|?? H0 Hb']. inversion_clear Hb' as [|?? H1 Hb].
  pose proof (le_val_nonneg bs Hb). cbn [le_val].
  replace (b0 + 256 * (b1 + 256 * le_val bs)) with (b0 + 256 * b1 + 65536 * le_val bs) by lia.
  apply eqv_add; [apply eqv_refl; lia|by apply eqv_65536].
Qed.

Lemma be_sum_eqv bs : bytes bs -> eqv (be_sum bs) (256 * le_val bs).
Proof.
  induction bs as [|b|b0 b1 bs IH] using pair_induction; intros Hb.
  - by apply eqv_refl.
  - inversion_clear Hb. cbn [be_sum le_val]. rewrite Z.mul_0_r, Z.add_0_r. apply eqv_refl. lia.
  - pose proof (le_val_pair _ _ _ Hb) as Hp.
    inversion Hb as [|?? H0 Hb']; subst. inversion Hb' as [|?? H1 Hb'']; subst.
    pose proof (le_val_nonneg bs Hb''). cbn [be_sum].
    transitivity (256 * (b0 + 256 * b1 + le_val bs)); [|by symmetry; apply eqv_mul].
    replace (256 * (b0 + 256 * b1 + le_val bs)) with (256 * b0 + 65536 * b1 + 256 * le_val bs) by lia.
    apply eqv_add; [|by apply IH].
    apply eqv_add; [apply eqv_refl; lia|]. symmetry. apply eqv_65536. lia.
Qed.

(** The sum in network order, stored by the little-endian target: what every
    routine returns. *)
Lemma rfc1071_eqv bs : bytes bs -> eqv (rfc1071 bs) (256 * le_val bs).
Proof.
  intros Hb. pose proof (be_sum_eqv bs Hb) as He. transitivity (be_sum bs); [|done].
  apply ones_complement_eqv. by eapply eqv_nonneg_l.
Qed.

Lemma rfc1071_range bs : bytes bs -> 0 <= rfc1071 bs <= 65535.
Proof. intros Hb. eapply ones_complement_range, eqv_nonneg_l, (be_sum_eqv bs Hb). Qed.

Lemma htons_rfc1071 bs : bytes bs -> lwip_htons (rfc1071 bs) = ones_complement (le_val bs).
Proof.
  intros Hb. pose proof (le_val_nonneg bs Hb). pose proof (rfc1071_range bs Hb).
  apply eqv_ones_complement; [|pose proof (u16_range (PP_HTONS (rfc1071 bs))); unfold lwip_htons; lia].
  transitivity (256 * (256 * le_val bs)); [by apply htons_eqv; [|apply rfc1071_eqv]|].
  replace (256 * (256 * le_val bs)) with (65536 * le_val bs) by lia. by apply eqv_65536.
Qed.

Lemma eqv_rfc1071 x bs : bytes bs -> 0 <= x <= 65535 -> eqv x (le_val bs) ->
  x = lwip_htons (rfc1071 bs).
Proof. intros Hb Hx He. rewrite htons_rfc1071 by done. by apply eqv_ones_complement; [|lia]. Qed.
