(* ===== verification/ChksumRoutines.v ===== *)
(** * The checksum routines compute the sum of their bytes, over pbuf chains too *)
From S2P Require Export ChksumFacts PbufWrite.

#[local] Set Warnings "-clear-no-such-hyp".

Lemma chksum_end_ok (odd : bool) sum t x :
  0 <= sum -> 0 <= t -> sum + t < 2 ^ 32 -> eqv (sum + t) x ->
  chksum_end odd sum t = ones_complement (if odd then 256 * x else x).
Proof.
  intros Hs Ht Hlt Hx. unfold chksum_end. rewrite (u32_small (sum + t)) by lia.
  pose proof (FOLD_range (sum + t) ltac:(lia)) as H1.
  pose proof (FOLD_eqv (sum + t) x ltac:(lia) Hx) as E1.
  pose proof (FOLD_range2 _ H1) as H2.
  pose proof (FOLD_eqv (u32 (FOLD_U32T (sum + t))) x ltac:(lia) E1) as E2.
  destruct odd.
  - pose proof (SWAP_range (u32 (FOLD_U32T (u32 (FOLD_U32T (sum + t)))))).
    rewrite u16_small by lia. apply eqv_ones_complement; [by apply SWAP_eqv|lia].
  - rewrite u16_small by lia. apply eqv_ones_complement; [done|lia].
Qed.

Lemma set_byte0_ok t b : 0 <= t < 256 -> 0 <= b < 256 -> set_byte0 (256 * t) b = 256 * t + b.
Proof.
  intros Ht Hb. unfold set_byte0. f_equal.
  change 0xff00 with (Z.ldiff (Z.ones 16) (Z.ones 8)).
  apply Z.bits_inj'. intros i Hi. rewrite Z.land_spec, Z.ldiff_spec.
  replace (256 * t) with (t * 2 ^ 8) by lia.
  destruct (Z.lt_ge_cases i 8); [rewrite Z.mul_pow2_bits_low by lia; done|].
  rewrite (Z.ones_spec_high 8) by lia. destruct (Z.lt_ge_cases i 16).
  - rewrite Z.ones_spec_low by lia. by rewrite andb_true_r.
  - rewrite Z.mul_pow2_bits by lia. rewrite <- (Z.mod_small t (2 ^ 8)) by lia.
    by rewrite Z.mod_pow2_bits_high by lia.
Qed.

Lemma set_byte0_0 b : 0 <= b < 256 -> set_byte0 0 b = b.
Proof. intros Hb. by apply (set_byte0_ok 0). Qed.

Lemma set_byte1_0 b : set_byte1 0 b = 256 * b.
Proof. done. Qed.

(** The loop by 16-bit words leaves at most one byte. *)
Lemma sum_u16_ok bs : forall sum, bytes bs -> 0 <= sum ->
  sum + 65535 * (Z.of_nat (length bs) / 2) < 2 ^ 32 ->
  exists s r, sum_u16 sum bs = (s, r) /\ 0 <= s <= sum + 65535 * (Z.of_nat (length bs) / 2) /\
    bytes r /\ (length r <= 1)%nat /\ Nat.even (length r) = Nat.even (length bs) /\
    eqv (s + le_val r) (sum + le_val bs).
Proof.
  induction bs as [|b|b0 b1 bs IH] using pair_induction; intros sum Hb Hs Hlt.
  - exists sum, []. split_and!; [done|lia|change (Z.of_nat (length []) / 2) with 0; lia|done|cbn; lia|done|apply eqv_refl; cbn; lia].
  - exists sum, [b]. pose proof (le_val_nonneg _ Hb).
    split_and!; [done|lia|change (Z.of_nat (length [b]) / 2) with 0; lia|done|cbn; lia|done|apply eqv_refl; lia].
  - pose proof (le_val_pair _ _ _ Hb) as Hp.
    inversion Hb as [|?? H0 Hb']; subst. inversion Hb' as [|?? H1 Hb'']; subst.
    cbn [length] in Hlt |- *.
    assert (Hl : Z.of_nat (S (S (length bs))) / 2 = Z.of_nat (length bs) / 2 + 1)
      by (rewrite !Nat2Z.inj_succ; Z.to_euclidean_division_equations; lia).
    assert (0 <= Z.of_nat (length bs) / 2) by (apply Z.div_pos; lia).
    unfold ldrh in *. destruct (IH (sum + (b0 + 256 * b1)) Hb'') as (s & r & Hr & Hsr & Hbr & Hlr & Hev & He); [lia..|].
    exists s, r. cbn [sum_u16]. unfold ldrh. rewrite u32_small by lia.
    split_and!; [done|lia|lia|done|done|done|]. rewrite He.
    replace (sum + (b0 + 256 * b1) + le_val bs) with (sum + (b0 + 256 * b1 + le_val bs)) by lia.
    apply eqv_add; [by apply eqv_refl|by symmetry].
Qed.

(** The last byte, if any, joins the end bytes. *)
Lemma end_byte_ok t r : 0 <= t < 256 -> bytes r -> (length r <= 1)%nat ->
  match r with b :: _ => set_byte0 (256 * t) b | [] => 256 * t end = 256 * t + le_val r.
Proof.
  intros Ht Hr Hl. destruct r as [|b [|]]; cbn [length le_val] in *; [lia| |lia].
  inversion_clear Hr. rewrite set_byte0_ok by done. lia.
Qed.

(** Reading an odd first byte into the high half, and swapping at the end. *)
Lemma odd_start_eqv b bs : 0 <= b < 256 -> bytes bs ->
  eqv (256 * (256 * b + le_val bs)) (le_val (b :: bs)).
Proof.
  intros Hb Hbs. pose proof (le_val_nonneg bs Hbs). cbn [le_val].
  replace (256 * (256 * b + le_val bs)) with (65536 * b + 256 * le_val bs) by lia.
  apply eqv_add; [apply eqv_65536; lia|apply eqv_refl; lia].
Qed.

Lemma ones_complement_cong x y : eqv x y -> ones_complement x = ones_complement y.
Proof.
  intros He. pose proof (eqv_nonneg_l _ _ He).
  apply eqv_ones_complement; [|by apply ones_complement_range].
  rewrite <- He. by apply ones_complement_eqv.
Qed.

Lemma bytes_inv b bs : bytes (b :: bs) -> 0 <= b < 256 /\ bytes bs.
Proof. intros Hb. by inversion Hb. Qed.

(** ** Version 1 *)
Lemma sum_octets_ok bs : forall acc, bytes bs -> 0 <= acc ->
  acc + 65535 * ((Z.of_nat (length bs) + 1) / 2) < 2 ^ 32 ->
  sum_octets acc bs = acc + be_sum bs /\
  be_sum bs <= 65535 * ((Z.of_nat (length bs) + 1) / 2).
Proof.
  induction bs as [|b|b0 b1 bs IH] using pair_induction; intros acc Hb Ha Hlt.
  - cbn. split; [lia|]. done.
  - apply bytes_inv in Hb as [Hb _]. cbn [sum_octets be_sum length] in *.
    change ((Z.of_nat 1 + 1) / 2) with 1 in *.
    rewrite Z.shiftl_mul_pow2 by lia. rewrite u16_small by lia. rewrite u32_small by lia. lia.
  - apply bytes_inv in Hb as [H0 [H1 Hb]%bytes_inv]. cbn [sum_octets be_sum length] in *.
    assert (Hl : (Z.of_nat (S (S (length bs))) + 1) / 2 = (Z.of_nat (length bs) + 1) / 2 + 1)
      by (rewrite !Nat2Z.inj_succ; Z.to_euclidean_division_equations; lia).
    assert (0 <= (Z.of_nat (length bs) + 1) / 2) by (apply Z.div_pos; lia).
    rewrite u16_small by (rewrite Z.shiftl_mul_pow2; lia).
    rewrite lor_shiftl_add by lia. change (2 ^ 8) with 256.
    rewrite u32_small by lia.
    destruct (IH (acc + (b0 * 256 + b1)) Hb) as [-> ?]; lia.
Qed.

Lemma be_sum_nonneg bs : bytes bs -> 0 <= be_sum bs.
Proof. intros Hb. by eapply eqv_nonneg_l, be_sum_eqv. Qed.

Lemma chksum_1_ok bs : bytes bs -> Z.of_nat (length bs) <= 0x20000 ->
  lwip_standard_chksum_1 bs = lwip_htons (rfc1071 bs).
Proof.
  intros Hb Hl. unfold lwip_standard_chksum_1.
  assert (Hdiv : (Z.of_nat (length bs) + 1) / 2 <= 65536)
    by (Z.to_euclidean_division_equations; lia).
  destruct (sum_octets_ok bs 0 Hb) as [-> Hle]; [lia..|]. rewrite Z.add_0_l.
  pose proof (be_sum_nonneg bs Hb). set (s := be_sum bs) in *.
  fold (FOLD_U32T s). pose proof (FOLD_range s ltac:(lia)) as H1.
  pose proof (FOLD_eqv s s ltac:(lia) (eqv_refl s ltac:(lia))) as E1.
  set (f := u32 (FOLD_U32T s)) in *. fold (FOLD_U32T f).
  assert (Hhi : truthy (Z.land f 0xffff0000) = negb (f / 65536 =? 0)).
  { unfold truthy. f_equal. change 0xffff0000 with (Z.shiftl (Z.ones 16) 16).
    assert (Z.land f (Z.shiftl (Z.ones 16) 16) = Z.shiftl (f / 65536) 16) as ->.
    { apply Z.bits_inj'. intros i Hi. change 65536 with (2 ^ 16).
      rewrite <- (Z.shiftr_div_pow2 f 16) by lia.
      rewrite Z.land_spec. destruct (Z.lt_ge_cases i 16).
      - rewrite !Z.shiftl_spec_low by lia. apply andb_false_r.
      - rewrite !Z.shiftl_spec by lia. rewrite Z.shiftr_spec by lia.
        replace (i - 16 + 16) with i by lia. destruct (Z.lt_ge_cases (i - 16) 16).
        + by rewrite Z.ones_spec_low, andb_true_r by lia.
        + rewrite Z.ones_spec_high, andb_false_r by lia. symmetry.
          rewrite <- (Z.mod_small f (2 ^ 32)) by lia. apply Z.mod_pow2_bits_high. lia. }
    rewrite Z.shiftl_mul_pow2 by lia. destruct (Z.eqb_spec (f / 65536 * 2 ^ 16) 0), (Z.eqb_spec (f / 65536) 0); lia. }
  rewrite Hhi. unfold rfc1071. fold s. f_equal.
  destruct (Z.eqb_spec (f / 65536) 0); cbn [negb].
  - rewrite u16_small by (Z.to_euclidean_division_equations; lia).
    apply eqv_ones_complement; [done|]. Z.to_euclidean_division_equations; lia.
  - pose proof (FOLD_range2 f H1). rewrite u16_small by lia.
    apply eqv_ones_complement; [|lia]. by apply FOLD_eqv; [lia|].
Qed.

(** ** Versions 2 and 3 *)
Lemma sum_tail_ok (odd : bool) t sum body : 0 <= t < 256 -> bytes body -> 0 <= sum ->
  sum + 65535 * (Z.of_nat (length body) / 2) + 65535 < 2 ^ 32 ->
  (let '(s, r) := sum_u16 sum body in
   chksum_end odd s (match r with b :: _ => set_byte0 (256 * t) b | [] => 256 * t end)) =
  ones_complement (if odd then 256 * (256 * t + (sum + le_val body)) else 256 * t + (sum + le_val body)).
Proof.
  intros Ht Hb Hs Hlt.
  destruct (sum_u16_ok body sum Hb Hs ltac:(lia)) as (s & r & -> & Hsr & Hbr & Hlr & _ & He).
  rewrite end_byte_ok by done. pose proof (le_val_nonneg r Hbr).
  assert (le_val r <= 255).
  { destruct r as [|b [|]]; cbn [le_val length] in *; [lia| |lia]. apply bytes_inv in Hbr as [? _]. lia. }
  apply chksum_end_ok; [lia|lia|lia|].
  replace (s + (256 * t + le_val r)) with (256 * t + (s + le_val r)) by lia.
  apply eqv_add; [apply eqv_refl; lia|done].
Qed.

Lemma odd_sum_eqv t x y : 0 <= t -> eqv x y -> eqv (256 * (256 * t + x)) (256 * (256 * t + y)).
Proof. intros Ht Hx. apply eqv_mul; [lia|]. apply eqv_add; [apply eqv_refl; lia|done]. Qed.

Lemma chksum_2_ok addr bs : bytes bs -> Z.of_nat (length bs) <= 0x20000 ->
  lwip_standard_chksum addr bs = lwip_htons (rfc1071 bs).
Proof.
  intros Hb Hl. rewrite htons_rfc1071 by done. unfold lwip_standard_chksum.
  assert (Hdiv : forall n, n <= 0x20000 -> n / 2 <= 65536)
    by (intros; Z.to_euclidean_division_equations; lia).
  pose proof (Hdiv _ Hl). pose proof (le_val_nonneg bs Hb).
  destruct bs as [|b bs]; [by destruct (truthy (Z.land addr 1))|].
  destruct (truthy (Z.land addr 1)).
  - apply bytes_inv in Hb as [Hb0 Hb]. cbn [length] in Hl.
    pose proof (Hdiv (Z.of_nat (length bs)) ltac:(lia)).
    rewrite set_byte1_0. rewrite (sum_tail_ok true b 0 bs) by (done || lia).
    rewrite Z.add_0_l. apply ones_complement_cong. by apply odd_start_eqv.
  - refine (eq_trans (sum_tail_ok false 0 0 (b :: bs) _ _ _ _) _); (done || lia).
Qed.

Lemma add_carry_ok sum x : 0 <= sum < 2 ^ 32 -> 0 <= x < 2 ^ 32 ->
  0 <= add_carry sum x < 2 ^ 32 /\ eqv (add_carry sum x) (sum + x).
Proof.
  intros Hs Hx. unfold add_carry.
  destruct (Z.lt_ge_cases (sum + x) (2 ^ 32)) as [Hlt|Hge].
  - rewrite u32_small by lia. rewrite (proj2 (Z.ltb_ge _ _)) by lia.
    split; [lia|apply eqv_refl; lia].
  - assert (u32 (sum + x) = sum + x - 2 ^ 32) as ->.
    { unfold u32. symmetry. apply (Z.mod_unique_pos _ _ 1); lia. }
    rewrite (proj2 (Z.ltb_lt _ _)) by lia. rewrite u32_small by lia.
    split; [lia|]. apply (eqv_intro (- 65537)); lia.
Qed.

Lemma ldr_range b0 b1 b2 b3 bs : bytes (b0 :: b1 :: b2 :: b3 :: bs) ->
  0 <= ldr b0 b1 b2 b3 < 2 ^ 32 /\ bytes bs.
Proof.
  intros (? & (? & (? & (? & ?)%bytes_inv)%bytes_inv)%bytes_inv)%bytes_inv.
  unfold ldr, ldrh. split; [lia|done].
Qed.

Lemma le_val_quad b0 b1 b2 b3 bs : bytes (b0 :: b1 :: b2 :: b3 :: bs) ->
  eqv (le_val (b0 :: b1 :: b2 :: b3 :: bs)) (ldr b0 b1 b2 b3 + le_val bs).
Proof.
  intros Hb. destruct (ldr_range _ _ _ _ _ Hb) as [? Hbs]. pose proof (le_val_nonneg bs Hbs).
  assert (le_val (b0 :: b1 :: b2 :: b3 :: bs) = ldr b0 b1 b2 b3 + 65536 * (65536 * le_val bs)) as ->
    by (cbn [le_val]; unfold ldr, ldrh; lia).
  apply eqv_add; [apply eqv_refl; lia|].
  transitivity (65536 * le_val bs); apply eqv_65536; lia.
Qed.

Lemma sum_pingpong_ok bs : forall sum, bytes bs -> 0 <= sum < 2 ^ 32 ->
  exists s r, sum_pingpong sum bs = (s, r) /\ 0 <= s < 2 ^ 32 /\ bytes r /\ (length r < 8)%nat /\
    eqv (s + le_val r) (sum + le_val bs).
Proof.
  induction bs as [bs IH] using (induction_ltof1 _ (@length Z)). intros sum Hb Hs.
  pose proof (le_val_nonneg bs Hb) as Hv.
  destruct bs as [|b0 [|b1 [|b2 [|b3 [|b4 [|b5 [|b6 [|b7 bs]]]]]]]].
  1-8: exists sum; eexists; split_and!;
    [reflexivity|lia|lia|exact Hb|cbn [length]; lia|apply eqv_refl; lia].
  pose proof (le_val_quad _ _ _ _ _ Hb) as E1. destruct (ldr_range _ _ _ _ _ Hb) as [R1 Hb1].
  pose proof (le_val_quad _ _ _ _ _ Hb1) as E2. destruct (ldr_range _ _ _ _ _ Hb1) as [R2 Hb2].
  cbn [sum_pingpong]. set (x := ldr b0 b1 b2 b3) in *. set (y := ldr b4 b5 b6 b7) in *.
  destruct (add_carry_ok sum x Hs R1) as [S1 A1].
  destruct (add_carry_ok (add_carry sum x) y S1 R2) as [S2 A2].
  destruct (IH bs ltac:(unfold ltof; cbn [length]; lia) (add_carry (add_carry sum x) y) Hb2 S2)
    as (s & r & Hr & Hsr & Hbr & Hlr & He).
  pose proof (le_val_nonneg bs Hb2).
  exists s, r. split_and!; [exact Hr|lia|lia|done|done|]. rewrite He.
  transitivity (sum + x + y + le_val bs).
  { apply eqv_add; [|by apply eqv_refl]. rewrite A2. apply eqv_add; [done|apply eqv_refl; lia]. }
  replace (sum + x + y + le_val bs) with (sum + (x + (y + le_val bs))) by lia.
  apply eqv_add; [apply eqv_refl; lia|]. rewrite E1.
  apply eqv_add; [apply eqv_refl; lia|by symmetry].
Qed.

(** From the eight-byte loop on. *)
Lemma pingpong_tail_ok (odd : bool) t sum body : 0 <= t < 256 -> bytes body -> 0 <= sum <= 65535 ->
  (let '(s, bs) := sum_pingpong sum body in
   let s := u32 (FOLD_U32T s) in
   let '(s, r) := sum_u16 s bs in
   chksum_end odd s (match r with b :: _ => set_byte0 (256 * t) b | [] => 256 * t end)) =
  ones_complement (if odd then 256 * (256 * t + (sum + le_val body)) else 256 * t + (sum + le_val body)).
Proof.
  intros Ht Hb Hs.
  destruct (sum_pingpong_ok body sum Hb ltac:(lia)) as (s & r & -> & Hsr & Hbr & Hlr & He).
  pose proof (FOLD_range s Hsr) as Hf. pose proof (le_val_nonneg r Hbr).
  pose proof (FOLD_eqv s s Hsr (eqv_refl s ltac:(lia))) as Ef. cbv zeta.
  assert (Z.of_nat (length r) / 2 <= 3) by (Z.to_euclidean_division_equations; lia).
  rewrite sum_tail_ok by (done || lia).
  assert (Hx : eqv (u32 (FOLD_U32T s) + le_val r) (sum + le_val body)).
  { rewrite <- He. apply eqv_add; [done|by apply eqv_refl]. }
  apply ones_complement_cong. destruct odd; [apply odd_sum_eqv; [lia|done]|].
  apply eqv_add; [apply eqv_refl; lia|done].
Qed.

Lemma chksum_3_ok addr bs : bytes bs ->
  lwip_standard_chksum_3 addr bs = lwip_htons (rfc1071 bs).
Proof.
  intros Hb. rewrite htons_rfc1071 by done. unfold lwip_standard_chksum_3.
  assert (Halign : forall (odd : bool) t ps body, 0 <= t < 256 -> bytes body ->
    (let '(sum, bs) := match body with
       | b0 :: b1 :: bs' => if truthy (Z.land ps 3) then (u32 (0 + ldrh b0 b1), bs') else (0, body)
       | _ => (0, body)
       end in
     let '(sum, bs) := sum_pingpong sum bs in
     let sum := u32 (FOLD_U32T sum) in
     let '(sum, bs) := sum_u16 sum bs in
     chksum_end odd sum (match bs with b :: _ => set_byte0 (256 * t) b | [] => 256 * t end)) =
    ones_complement (if odd then 256 * (256 * t + le_val body) else 256 * t + le_val body)).
  { intros odd t ps body Ht Hbo. destruct body as [|b0 [|b1 body]].
    1-2: by rewrite pingpong_tail_ok.
    destruct (truthy (Z.land ps 3)); [|by rewrite pingpong_tail_ok].
    pose proof (le_val_pair _ _ _ Hbo) as Hp. apply bytes_inv in Hbo as [Hb0 [Hb1 Hbo]%bytes_inv].
    unfold ldrh. rewrite u32_small by lia. rewrite pingpong_tail_ok by (done || lia).
    rewrite Z.add_0_l. symmetry in Hp. apply ones_complement_cong.
    destruct odd; [apply odd_sum_eqv; [lia|done]|]. apply eqv_add; [apply eqv_refl; lia|done]. }
  destruct bs as [|b bs]; [by destruct (truthy (Z.land addr 1))|].
  destruct (truthy (Z.land addr 1)).
  - apply bytes_inv in Hb as [Hb0 Hb]. rewrite set_byte1_0. rewrite (Halign true b) by done.
    apply ones_complement_cong. by apply odd_start_eqv.
  - by refine (eq_trans (Halign false 0 addr (b :: bs) _ Hb) _).
Qed.

(** The weight of a byte position: its parity decides the half of the word. *)
Definition weight (even : bool) : Z := if even then 1 else 256.
Definition swap_weight (swapped : Z) : Z := weight (swapped =? 0).

Lemma weight_pos e : 1 <= weight e <= 256.
Proof. by destruct e. Qed.

Lemma weight_twice e y : 0 <= y -> eqv (weight e * (weight e * y)) y.
Proof.
  intros Hy. destruct e; unfold weight.
  - rewrite !Z.mul_1_l. by apply eqv_refl.
  - replace (256 * (256 * y)) with (65536 * y) by lia. by apply eqv_65536.
Qed.

Lemma weight_xor e1 e2 y : 0 <= y ->
  eqv (weight (eqb e1 e2) * y) (weight e1 * (weight e2 * y)).
Proof.
  intros Hy. destruct e1, e2; unfold weight; cbn [eqb]; rewrite ?Z.mul_1_l; try (apply eqv_refl; lia).
  replace (256 * (256 * y)) with (65536 * y) by lia. symmetry. by apply eqv_65536.
Qed.

Lemma rem_even k : 0 <= k -> (Z.rem k 2 =? 0) = Z.even k.
Proof.
  intros Hk. rewrite Z.rem_mod_nonneg by lia. by rewrite Zeven_mod.
Qed.

Lemma ones_complement_bound bs : bytes bs -> 0 <= ones_complement (le_val bs) <= 65535.
Proof. intros Hb. by apply ones_complement_range, le_val_nonneg. Qed.

(** One loop body: [bs] bytes of [x] are added to the sum [X] of the bytes before. *)
Lemma fold_swap_ok x acc s X bs : 0 <= len x -> 0 <= acc <= 65535 -> s = 0 \/ s = 1 -> 0 <= X ->
  bytes bs -> eqv acc (swap_weight s * X) ->
  let r := fold_swap x (u32 (acc + ones_complement (le_val bs))) s in
  0 <= r.1 <= 65535 /\ (r.2 = 0 \/ r.2 = 1) /\ (r.2 =? 0) = eqb (s =? 0) (Z.even (len x)) /\
  eqv r.1 (swap_weight r.2 * (X + swap_weight s * le_val bs)).
Proof.
  intros Hl Ha Hs HX Hb He. pose proof (ones_complement_bound bs Hb) as Hc.
  pose proof (le_val_nonneg bs Hb) as Hv. pose proof (weight_pos (s =? 0)) as Hw.
  set (c := ones_complement (le_val bs)) in *.
  assert (Hsum : eqv (acc + c) (swap_weight s * (X + swap_weight s * le_val bs))).
  { rewrite Z.mul_add_distr_l. apply eqv_add; [done|].
    transitivity (le_val bs); [by apply ones_complement_eqv|].
    symmetry. by apply weight_twice. }
  assert (0 <= swap_weight s * le_val bs) by (unfold swap_weight; nia).
  unfold fold_swap. rewrite (u32_small (acc + c)) by lia. rewrite rem_even by done.
  pose proof (FOLD_range2 (acc + c) ltac:(lia)) as Hr.
  pose proof (FOLD_eqv (acc + c) _ ltac:(lia) Hsum) as Hf.
  destruct (Z.even (len x)); cbn [negb fst snd].
  - split_and!; [lia|lia|lia|by destruct (s =? 0)|done].
  - pose proof (SWAP_range (u32 (FOLD_U32T (acc + c)))).
    split_and!; [lia|lia|by destruct Hs as [->| ->]; [right|left]|by destruct Hs as [->| ->]|].
    transitivity (256 * (swap_weight s * (X + swap_weight s * le_val bs))); [by apply SWAP_eqv|].
    symmetry. replace (swap_weight (u8 (1 - s))) with (weight (eqb false (s =? 0)))
      by (destruct Hs as [->| ->]; done).
    apply (weight_xor false). unfold swap_weight in *. lia.
Qed.

Section Chain.
Context {A : Type} `{Allocator A}.
Context (block_addr : ptr -> Z).
Implicit Types (h : heap A) (p : option ptr) (q : ptr) (l : list node) (bs : list Z).

Lemma LWIP_CHKSUM_ok h x bs n : holds (bl h) x bs -> bytes bs -> 0 <= n <= len x -> len x <= 65535 ->
  LWIP_CHKSUM block_addr (payload x) n h = (Ret (ones_complement (le_val (take (Z.to_nat n) bs))), h).
Proof.
  intros Hx Hb Hn Hl. pose proof (holds_length _ _ _ Hx). unfold LWIP_CHKSUM, bind.
  rewrite (read_mem_at h x bs) by (done || lia). rewrite drop_0. unfold ret. do 2 f_equal.
  assert (Hbt : bytes (take (Z.to_nat n) bs)) by (by apply Forall_take).
  rewrite chksum_2_ok by (done || (rewrite length_take; lia)). by apply htons_rfc1071.
Qed.

(** What a loop leaves for the bytes [bs], started on the sum [X]. *)
Definition summed (X s : Z) bs (r : Z * Z) : Prop :=
  0 <= r.1 <= 65535 /\ (r.2 = 0 \/ r.2 = 1) /\
  eqv r.1 (swap_weight r.2 * (X + swap_weight s * le_val bs)).

Lemma summed_nil X s acc : 0 <= acc <= 65535 -> s = 0 \/ s = 1 -> 0 <= X ->
  eqv acc (swap_weight s * X) -> summed X s [] (acc, s).
Proof. intros. unfold summed. cbn [fst snd le_val]. rewrite Z.mul_0_r, Z.add_0_r. done. Qed.

Lemma summed_app X s bs cs k s' r : 0 <= X -> bytes bs -> bytes cs ->
  (s' =? 0) = eqb (s =? 0) (Z.even (Z.of_nat (length bs))) -> k = X + swap_weight s * le_val bs ->
  summed k s' cs r -> summed X s (bs ++ cs) r.
Proof.
  intros HX Hb Hc Hs -> (Hr1 & Hr2 & He). split_and!; [lia|lia|done|].
  pose proof (le_val_nonneg _ Hb). pose proof (le_val_nonneg _ Hc).
  pose proof (weight_pos (s =? 0)). pose proof (weight_pos (s' =? 0)). pose proof (weight_pos (r.2 =? 0)).
  rewrite He. unfold swap_weight in *. apply eqv_mul; [lia|].
  rewrite <- Z.add_assoc. apply eqv_add; [by apply eqv_refl|].
  transitivity (weight (s =? 0) * (le_val bs + weight (Z.even (Z.of_nat (length bs))) * le_val cs)).
  - rewrite Z.mul_add_distr_l. apply eqv_add; [apply eqv_refl; nia|].
    rewrite Hs. by apply weight_xor.
  - apply eqv_mul; [lia|]. symmetry. by apply le_val_app_eqv.
Qed.

Lemma chksum_loop_ok l : forall n p h X acc s, packet h p l -> bytes (content l) ->
  (length l <= n)%nat -> Z.of_nat (length (content l)) <= 65535 ->
  0 <= acc <= 65535 -> s = 0 \/ s = 1 -> 0 <= X -> eqv acc (swap_weight s * X) ->
  exists r, chksum_loop block_addr n p acc s h = (Ret r, h) /\ summed X s (content l) r.
Proof.
  induction l as [|[q x bs] l IH]; intros n p h X acc s Hp Hb Hn Hc Ha Hs HX He.
  - cbn in Hp. subst p. exists (acc, s). split; [by destruct n|by apply summed_nil].
  - destruct Hp as (-> & Hx & Hh & Ht & Hp). pose proof (holds_length _ _ _ Hh) as Hlen.
    rewrite content_cons, length_app in *. cbn [n_bytes] in *. apply Forall_app in Hb as [Hb Hbl].
    destruct n as [|n]; [cbn in Hn; lia|]. cbn [length] in Hn. cbn [chksum_loop].
    unfold bind at 1. rewrite (load_at h q x) by done. unfold bind at 1.
    rewrite (LWIP_CHKSUM_ok h x bs) by (done || lia). rewrite take_ge by lia.
    destruct (fold_swap_ok x acc s X bs ltac:(lia) Ha Hs HX Hb He) as (Hr1 & Hr2 & Hr3 & Hr4).
    pose proof (le_val_nonneg _ Hb). pose proof (weight_pos (s =? 0)).
    set (r := fold_swap x (u32 (acc + ones_complement (le_val bs))) s) in *. cbv zeta.
    destruct (IH n (next x) h (X + swap_weight s * le_val bs) r.1 r.2 Hp Hbl)
      as (r' & Hr' & Hs'); [lia|lia|lia|lia|unfold swap_weight; nia|done|].
    exists r'. split; [done|]. eapply summed_app; [done|done|done| |done|exact Hs'].
    by rewrite Hlen.
Qed.

Lemma chksum_partial_loop_ok l : forall n p h X acc s m, packet h p l -> bytes (content l) ->
  (length l <= n)%nat -> Z.of_nat (length (content l)) <= 65535 ->
  0 <= acc <= 65535 -> s = 0 \/ s = 1 -> 0 <= X -> eqv acc (swap_weight s * X) ->
  0 <= m < 0x7fff ->
  exists r, chksum_partial_loop block_addr n p m acc s h = (Ret r, h) /\
    summed X s (take (Z.to_nat m) (content l)) r.
Proof.
  induction l as [|[q x bs] l IH]; intros n p h X acc s m Hp Hb Hn Hc Ha Hs HX He Hm.
  - cbn in Hp. subst p. exists (acc, s). change (content []) with (@nil Z). rewrite take_nil.
    split; [by destruct n|by apply summed_nil].
  - destruct Hp as (-> & Hx & Hh & Ht & Hp). pose proof (holds_length _ _ _ Hh) as Hlen.
    rewrite content_cons, length_app in *. cbn [n_bytes] in *. apply Forall_app in Hb as [Hb Hbl].
    destruct n as [|n]; [cbn in Hn; lia|]. cbn [length] in Hn. cbn [chksum_partial_loop].
    destruct (Z.ltb_spec 0 m) as [Hm0|Hm0].
    2:{ assert (m = 0) as -> by lia. exists (acc, s). split; [done|by apply summed_nil]. }
    unfold bind at 1. rewrite (load_at h q x) by done. cbv zeta.
    replace (if m <? len x then m else len x) with (Z.min m (len x)) by (destruct (Z.ltb_spec m (len x)); lia).
    set (k := Z.min m (len x)). unfold bind at 1.
    rewrite (LWIP_CHKSUM_ok h x bs) by (done || lia).
    rewrite (u16_small (m - k)) by lia. unfold bind at 1. rewrite (proj2 (Z.ltb_lt (m - k) _)) by lia.
    cbn [assert_ ret].
    assert (Hbk : bytes (take (Z.to_nat k) bs)) by (by apply Forall_take).
    destruct (fold_swap_ok x acc s X _ ltac:(lia) Ha Hs HX Hbk He) as (Hr1 & Hr2 & Hr3 & Hr4).
    pose proof (le_val_nonneg _ Hbk). pose proof (weight_pos (s =? 0)).
    set (r := fold_swap x (u32 (acc + ones_complement (le_val (take (Z.to_nat k) bs)))) s) in *.
    destruct (IH n (next x) h (X + swap_weight s * le_val (take (Z.to_nat k) bs)) r.1 r.2 (m - k) Hp Hbl)
      as (r' & Hr' & Hs'); [lia|lia|lia|lia|unfold swap_weight; nia|done|lia|].
    exists r'. split; [done|].
    destruct (Z.le_gt_cases m (len x)) as [Hle|Hgt].
    + replace (m - k) with 0 in Hs' by lia. rewrite take_0 in Hs'.
      rewrite take_app_le by lia. replace (Z.to_nat k) with (Z.to_nat m) in Hs' by lia.
      destruct Hs' as (? & ? & Hs'). split_and!; [lia|lia|done|].
      cbn [le_val] in Hs'. by rewrite Z.mul_0_r, Z.add_0_r in Hs'.
    + rewrite (take_ge bs) in Hs' by lia.
      rewrite firstn_app, take_ge by lia.
      replace (Z.to_nat m - length bs)%nat with (Z.to_nat (m - k)) by lia.
      eapply summed_app; [done|done|by apply Forall_take| |done|exact Hs']. by rewrite Hlen.
Qed.
End Chain.
