(* ===== verification/ChksumThms.v ===== *)
(** * The theorems on the Internet checksum *)
From S2P Require Export ChksumRoutines.

#[local] Set Warnings "-clear-no-such-hyp".

Lemma inverse_ok acc : 0 <= acc <= 65535 -> u16 (Z.lnot (Z.land acc 0xffff)) = 65535 - acc.
Proof.
  intros Ha. rewrite land_ffff, Z.mod_small by lia. unfold Z.lnot, u16.
  symmetry. apply (Z.mod_unique_pos _ _ (-1)); lia.
Qed.

Lemma lnot_ok s : 0 <= s <= 65535 -> u16 (Z.lnot s) = 65535 - s.
Proof. intros Hs. unfold Z.lnot, u16. symmetry. apply (Z.mod_unique_pos _ _ (-1)); lia. Qed.

(** ** The pseudo header of TCP and UDP, as bytes on the wire *)

(** An address held in network byte order is the little-endian number of its bytes. *)
Definition wire32 (x : Z) : list Z :=
  [x mod 256; x / 256 mod 256; x / 65536 mod 256; x / 16777216].
Definition wire16 (x : Z) : list Z := [x / 256; x mod 256].
Definition pseudo_header (proto proto_len src dest : Z) : list Z :=
  wire32 src ++ wire32 dest ++ [0; proto] ++ wire16 proto_len.

Lemma pseudo_header_bytes proto proto_len src dest :
  0 <= src < 2 ^ 32 -> 0 <= dest < 2 ^ 32 -> 0 <= proto < 256 -> 0 <= proto_len < 65536 ->
  bytes (pseudo_header proto proto_len src dest).
Proof.
  intros. unfold pseudo_header, wire32, wire16. cbn [app].
  repeat (apply Forall_cons; split); [Z.to_euclidean_division_equations; lia..|constructor].
Qed.

Lemma wire32_eqv src : 0 <= src < 2 ^ 32 ->
  eqv (Z.land src 0xffff + Z.land (Z.shiftr src 16) 0xffff) (le_val (wire32 src)).
Proof.
  intros Hs. rewrite !land_ffff, Z.shiftr_div_pow2 by lia. change (2 ^ 16) with 65536.
  cbn [wire32 le_val].
  assert (src mod 256 + 256 * (src / 256 mod 256 + 256 * (src / 65536 mod 256 + 256 * (src / 16777216 + 256 * 0)))
          = src mod 65536 + 65536 * ((src / 65536) mod 65536)) as ->
    by (Z.to_euclidean_division_equations; lia).
  apply eqv_add; [apply eqv_refl; Z.to_euclidean_division_equations; lia|].
  symmetry. apply eqv_65536. Z.to_euclidean_division_equations; lia.
Qed.

Lemma addresses_acc_ok src dest : 0 <= src < 2 ^ 32 -> 0 <= dest < 2 ^ 32 ->
  0 <= addresses_acc src dest <= 65535 /\
  eqv (addresses_acc src dest) (le_val (wire32 src) + le_val (wire32 dest)).
Proof.
  intros Hs Hd. pose proof (wire32_eqv src Hs) as Es. pose proof (wire32_eqv dest Hd) as Ed.
  unfold addresses_acc.
  assert (Hr : forall x, 0 <= Z.land x 0xffff < 65536)
    by (intros; rewrite land_ffff; apply Z.mod_pos_bound; lia).
  pose proof (Hr src). pose proof (Hr dest). pose proof (Hr (Z.shiftr src 16)).
  pose proof (Hr (Z.shiftr dest 16)). clear Hr. cbv zeta.
  rewrite (u32_small (_ + Z.land (Z.shiftr src 16) _)) by lia.
  rewrite (u32_small (_ + Z.land dest _)) by lia.
  rewrite (u32_small (_ + Z.land (Z.shiftr dest 16) _)) by lia.
  set (a := Z.land src 0xffff + _ + _ + _).
  assert (Ea : eqv a (le_val (wire32 src) + le_val (wire32 dest)))
    by (unfold a; rewrite <- Z.add_assoc; by apply eqv_add).
  pose proof (FOLD_range a ltac:(lia)) as F1. pose proof (FOLD_eqv a _ ltac:(lia) Ea) as E1.
  split; [by apply FOLD_range2|]. apply FOLD_eqv; [lia|done].
Qed.

Lemma le_val_app_even a b : bytes a -> bytes b -> Z.even (Z.of_nat (length a)) = true ->
  eqv (le_val (a ++ b)) (le_val a + le_val b).
Proof.
  intros Ha Hb He. pose proof (le_val_app_eqv a b Ha Hb) as Hab. rewrite He in Hab.
  by rewrite Z.mul_1_l in Hab.
Qed.

Lemma htons_wire16 x : 0 <= x < 65536 -> lwip_htons x = le_val (wire16 x).
Proof.
  intros Hx. rewrite lwip_htons_arith. cbn [wire16 le_val].
  rewrite (Z.mod_small (x / 256)) by (Z.to_euclidean_division_equations; lia). lia.
Qed.

Lemma pseudo_header_eqv proto proto_len src dest :
  0 <= src < 2 ^ 32 -> 0 <= dest < 2 ^ 32 -> 0 <= proto < 256 -> 0 <= proto_len < 65536 ->
  eqv (le_val (pseudo_header proto proto_len src dest))
      (addresses_acc src dest + (lwip_htons proto + lwip_htons proto_len)).
Proof.
  intros Hs Hd Hp Hl. destruct (addresses_acc_ok src dest Hs Hd) as [_ Ea].
  pose proof (pseudo_header_bytes proto proto_len src dest Hs Hd Hp Hl) as Hph.
  unfold pseudo_header in *. apply Forall_app in Hph as [B1 [B2 [B3 B4]%Forall_app]%Forall_app].
  assert (B34 : bytes ([0; proto] ++ wire16 proto_len)) by (by apply Forall_app).
  assert (B234 : bytes (wire32 dest ++ [0; proto] ++ wire16 proto_len)) by (by apply Forall_app).
  rewrite (le_val_app_even _ _ B1 B234) by done.
  transitivity (le_val (wire32 src) + le_val (wire32 dest) + (lwip_htons proto + lwip_htons proto_len)).
  2:{ apply eqv_add; [by symmetry|]. apply eqv_refl. unfold lwip_htons.
      pose proof (u16_range (PP_HTONS proto)). pose proof (u16_range (PP_HTONS proto_len)). lia. }
  rewrite <- Z.add_assoc. apply eqv_add; [by apply eqv_refl, le_val_nonneg|].
  rewrite (le_val_app_even _ _ B2 B34) by done.
  apply eqv_add; [by apply eqv_refl, le_val_nonneg|].
  rewrite (le_val_app_even _ _ B3 B4) by done. rewrite <- (htons_wire16 proto_len) by done.
  apply eqv_add; [|apply eqv_refl; unfold lwip_htons; pose proof (u16_range (PP_HTONS proto_len)); lia].
  rewrite htons_wire16 by lia. unfold wire16.
  replace (proto / 256) with 0 by (Z.to_euclidean_division_equations; lia).
  rewrite (Z.mod_small proto) by lia. by apply eqv_refl, le_val_nonneg.
Qed.

(** The swap after the loop. *)
Lemma unswap_ok X r bs : 0 <= X -> bytes bs -> summed X 0 bs r ->
  let acc := if truthy r.2 then SWAP_BYTES_IN_WORD r.1 else r.1 in
  0 <= acc <= 65535 /\ eqv acc (X + le_val bs).
Proof.
  intros HX Hb (Hr1 & Hr2 & He) acc. pose proof (le_val_nonneg bs Hb) as Hv.
  change (swap_weight 0) with 1 in He. rewrite Z.mul_1_l in He. unfold acc.
  destruct Hr2 as [Hr2|Hr2]; rewrite Hr2 in *; cbn [truthy Z.eqb negb].
  - change (swap_weight 0) with 1 in He. by rewrite Z.mul_1_l in He.
  - pose proof (SWAP_range r.1). split; [done|].
    transitivity (256 * (256 * (X + le_val bs))); [by apply SWAP_eqv|].
    apply (weight_twice false). lia.
Qed.

(** What follows the loops. *)
Lemma pseudo_end_ok proto proto_len src dest bs r :
  0 <= src < 2 ^ 32 -> 0 <= dest < 2 ^ 32 -> 0 <= proto < 256 -> 0 <= proto_len < 65536 ->
  bytes bs -> summed (addresses_acc src dest) 0 bs r ->
  pseudo_end proto proto_len r.1 r.2 =
    65535 - lwip_htons (rfc1071 (pseudo_header proto proto_len src dest ++ bs)).
Proof.
  intros Hs Hd Hp Hl Hb Hr. destruct (addresses_acc_ok src dest Hs Hd) as [Ha _].
  pose proof (pseudo_header_bytes proto proto_len src dest Hs Hd Hp Hl) as Hph.
  pose proof (le_val_nonneg bs Hb) as Hv.
  destruct (unswap_ok (addresses_acc src dest) r bs ltac:(lia) Hb Hr) as [Hacc Eacc]. unfold pseudo_end.
  set (acc := if truthy r.2 then SWAP_BYTES_IN_WORD r.1 else r.1) in *.
  assert (P : forall x, 0 <= lwip_htons x < 65536) by (intros; apply u16_range).
  pose proof (P proto) as P1. pose proof (P proto_len) as P2.
  rewrite (u16_small proto) by lia. rewrite (u32_small (acc + _)) by lia.
  rewrite (u32_small (acc + _ + _)) by lia. set (t := acc + _ + _).
  assert (Et : eqv t (le_val (pseudo_header proto proto_len src dest ++ bs))).
  { rewrite (le_val_app_even _ _ Hph Hb) by done. unfold t.
    transitivity (addresses_acc src dest + (lwip_htons proto + lwip_htons proto_len) + le_val bs).
    2:{ apply eqv_add; [symmetry; by apply pseudo_header_eqv|by apply eqv_refl]. }
    replace (addresses_acc src dest + (lwip_htons proto + lwip_htons proto_len) + le_val bs)
      with (addresses_acc src dest + le_val bs + lwip_htons proto + lwip_htons proto_len) by lia.
    repeat apply eqv_add; [done|apply eqv_refl; lia..]. }
  pose proof (FOLD_range t ltac:(lia)) as F1. pose proof (FOLD_eqv t _ ltac:(lia) Et) as E1.
  pose proof (FOLD_range2 _ F1) as F2.
  pose proof (FOLD_eqv (u32 (FOLD_U32T t)) _ ltac:(lia) E1) as E2.
  rewrite inverse_ok by lia. f_equal. apply eqv_rfc1071; [by apply Forall_app|lia|done].
Qed.

(** ** When a checksum comes out as zero *)
Lemma Ret_inj {S T : Type} (a b : T) (s s' : S) : (Ret a, s) = (Ret b, s') -> a = b.
Proof. by intros [=]. Qed.

Lemma rfc1071_zero bs : bytes bs ->
  65535 - lwip_htons (rfc1071 bs) = 0 <-> 0 < le_val bs /\ (65535 | le_val bs).
Proof.
  intros Hb. rewrite htons_rfc1071 by done. pose proof (le_val_nonneg bs Hb).
  unfold ones_complement. destruct (Z.eqb_spec (le_val bs) 0); [split; lia|].
  rewrite <- Z.mod_divide by lia. Z.to_euclidean_division_equations; lia.
Qed.

Lemma le_val_insert bs : forall i v old, bs !! i = Some old ->
  le_val (<[i := v]> bs) = le_val bs + 256 ^ Z.of_nat i * (v - old).
Proof.
  induction bs as [|b bs IH]; intros [|i] v old Hi; try done.
  - injection Hi as ->. change (<[0%nat := v]> (old :: bs)) with (v :: bs). cbn [le_val]. change (256 ^ Z.of_nat 0) with 1. lia.
  - change (<[S i := v]> (b :: bs)) with (b :: <[i := v]> bs). cbn [le_val].
    rewrite (IH i v old) by exact Hi.
    rewrite Nat2Z.inj_succ, Z.pow_succ_r by lia. lia.
Qed.

Lemma divide_256_pow (i : nat) d : (65535 | 256 ^ Z.of_nat i * d) -> (65535 | d).
Proof.
  induction i as [|i IH]; [by rewrite Z.mul_1_l|].
  rewrite Nat2Z.inj_succ, Z.pow_succ_r by lia. intros [k Hk]. apply IH.
  exists (256 * k - 256 ^ Z.of_nat i * d). lia.
Qed.

(** Filling a zero word at an even offset with the complement of the sum. *)
Lemma fill_word a b : bytes a -> bytes b -> Z.even (Z.of_nat (length a)) = true ->
  let c := 65535 - lwip_htons (rfc1071 (a ++ [0; 0] ++ b)) in
  bytes (a ++ [c mod 256; c / 256] ++ b) /\
  65535 - lwip_htons (rfc1071 (a ++ [c mod 256; c / 256] ++ b)) = 0.
Proof.
  intros Ha Hb He. pose proof (le_val_nonneg a Ha). pose proof (le_val_nonneg b Hb).
  assert (Hw : forall w, bytes w -> length w = 2%nat ->
    bytes (a ++ w ++ b) /\ eqv (le_val (a ++ w ++ b)) (le_val a + (le_val w + le_val b))).
  { intros w Hw Hl. assert (Hwb : bytes (w ++ b)) by (by apply Forall_app).
    split; [by apply Forall_app|]. rewrite (le_val_app_even a (w ++ b)) by done.
    apply eqv_add; [by apply eqv_refl|]. apply le_val_app_even; [done|done|by rewrite Hl]. }
  destruct (Hw [0; 0]) as [B0 E0]; [repeat constructor; lia|done|].
  intros c. pose proof (ones_complement_bound _ B0) as Hoc.
  unfold c. rewrite htons_rfc1071 by done. set (o := ones_complement (le_val (a ++ [0; 0] ++ b))) in *.
  assert (Eo : eqv o (le_val a + le_val b)) by (unfold o; rewrite <- E0; apply ones_complement_eqv; by eapply eqv_nonneg_l).
  destruct (Hw [(65535 - o) mod 256; (65535 - o) / 256]) as [B1 E1]; [|done|].
  { repeat constructor; Z.to_euclidean_division_equations; lia. }
  split; [done|]. rewrite htons_rfc1071 by done.
  rewrite <- (eqv_ones_complement 65535 (le_val (a ++ [(65535 - o) mod 256; (65535 - o) / 256] ++ b))); [lia| |lia].
  rewrite E1. cbn [le_val].
  transitivity (o + (65535 - o)); [replace (o + (65535 - o)) with 65535 by lia; by apply eqv_refl|].
  replace (le_val a + ((65535 - o) mod 256 + 256 * ((65535 - o) / 256 + 256 * 0) + le_val b))
    with (le_val a + le_val b + (65535 - o)) by (Z.to_euclidean_division_equations; lia).
  apply eqv_add; [done|apply eqv_refl; lia].
Qed.

Section Theorems.
Context {A : Type} `{Allocator A}.
Context (block_addr : ptr -> Z).
Implicit Types (h : heap A) (p : option ptr) (l : list node) (bs : list Z).

Lemma chksum_pbuf_ok l p h : packet h p l -> bytes (content l) ->
  Z.of_nat (length (content l)) <= 65535 ->
  inet_chksum_pbuf block_addr p h = (Ret (65535 - lwip_htons (rfc1071 (content l))), h).
Proof.
  intros Hp Hb Hc. pose proof (packet_size _ _ _ Hp).
  destruct (chksum_loop_ok block_addr l (S (size (pb h))) p h 0 0 0 Hp Hb)
    as (r & Hr & Hs); [lia|lia|lia|lia|lia|by apply eqv_refl|].
  unfold inet_chksum_pbuf, fuel, gets, bind. rewrite Hr.
  destruct (unswap_ok 0 r (content l) ltac:(lia) Hb Hs) as [Ha Ea]. cbv zeta in *. unfold ret.
  rewrite inverse_ok by done. do 3 f_equal. by apply eqv_rfc1071.
Qed.

Lemma chksum_pseudo_ok l p h proto proto_len src dest : packet h p l -> bytes (content l) ->
  Z.of_nat (length (content l)) <= 65535 ->
  0 <= src < 2 ^ 32 -> 0 <= dest < 2 ^ 32 -> 0 <= proto < 256 -> 0 <= proto_len < 65536 ->
  inet_chksum_pseudo block_addr p proto proto_len src dest h =
    (Ret (65535 - lwip_htons (rfc1071 (pseudo_header proto proto_len src dest ++ content l))), h).
Proof.
  intros Hp Hb Hc Hs Hd Hpr Hl. destruct (addresses_acc_ok src dest Hs Hd) as [Ha Ea].
  pose proof (packet_size _ _ _ Hp).
  destruct (chksum_loop_ok block_addr l (S (size (pb h))) p h (addresses_acc src dest)
    (addresses_acc src dest) 0 Hp Hb) as (r & Hr & Hsum);
    [lia|lia|lia|lia|lia|change (swap_weight 0) with 1; rewrite Z.mul_1_l; apply eqv_refl; lia|].
  unfold inet_chksum_pseudo, inet_cksum_pseudo_base, fuel, gets, bind. rewrite Hr. unfold ret.
  do 2 f_equal. by apply pseudo_end_ok.
Qed.

(** C12: the three checksum routines (by octets in network order, by aligned
    words, by eight bytes with carries added back) agree: on up to 0x20000
    bytes at any address, odd or even, each returns the RFC 1071 one's
    complement sum with its two bytes exchanged: the value whose bytes in memory are in
    network order.  (The comments say host order, and 64k for version 1; see the
    findings.) *)
Theorem chksum_versions_correct addr bs : bytes bs -> Z.of_nat (length bs) <= 0x20000 ->
  lwip_standard_chksum_1 bs = lwip_htons (rfc1071 bs) /\
  lwip_standard_chksum addr bs = lwip_htons (rfc1071 bs) /\
  lwip_standard_chksum_3 addr bs = lwip_htons (rfc1071 bs).
Proof.
  intros Hb Hl. split_and!; [by apply chksum_1_ok|by apply chksum_2_ok|by apply chksum_3_ok].
Qed.

(** C33: the checksum of a pbuf chain is that of the bytes it carries, however
    they are split into pbufs of odd or even length at odd or even addresses. *)
Theorem inet_chksum_pbuf_correct l p h addr : packet h p l -> bytes (content l) ->
  Z.of_nat (length (content l)) <= 65535 ->
  inet_chksum_pbuf block_addr p h = (Ret (inet_chksum addr (content l)), h).
Proof.
  intros Hp Hb Hc. rewrite (chksum_pbuf_ok l) by done. unfold inet_chksum.
  rewrite chksum_2_ok by (done || lia). rewrite lnot_ok; [done|].
  rewrite htons_rfc1071 by done. by apply ones_complement_bound.
Qed.

(** the TCP/UDP checksum is the complement of the one's complement sum of
    the pseudo header, as it would be on the wire, followed by the packet; the
    partial one covers the first [chksum_len] bytes of the packet. *)
Theorem inet_chksum_pseudo_correct l p h proto proto_len chksum_len src dest :
  packet h p l -> bytes (content l) -> Z.of_nat (length (content l)) <= 65535 ->
  0 <= src < 2 ^ 32 -> 0 <= dest < 2 ^ 32 -> 0 <= proto < 256 -> 0 <= proto_len < 65536 ->
  0 <= chksum_len < 0x7fff ->
  let header := pseudo_header proto proto_len src dest in
  ip_chksum_pseudo block_addr p proto proto_len src dest h =
    (Ret (65535 - lwip_htons (rfc1071 (header ++ content l))), h) /\
  ip_chksum_pseudo_partial block_addr p proto proto_len chksum_len src dest h =
    (Ret (65535 - lwip_htons (rfc1071 (header ++ take (Z.to_nat chksum_len) (content l)))), h).
Proof.
  intros Hp Hb Hc Hs Hd Hpr Hl Hm header. split; [by apply chksum_pseudo_ok|].
  destruct (addresses_acc_ok src dest Hs Hd) as [Ha Ea]. pose proof (packet_size _ _ _ Hp).
  destruct (chksum_partial_loop_ok block_addr l (S (size (pb h))) p h (addresses_acc src dest)
    (addresses_acc src dest) 0 chksum_len Hp Hb) as (r & Hr & Hsum);
    [lia|lia|lia|lia|lia|change (swap_weight 0) with 1; rewrite Z.mul_1_l; apply eqv_refl; lia|lia|].
  unfold ip_chksum_pseudo_partial, inet_chksum_pseudo_partial, inet_cksum_pseudo_partial_base,
    fuel, gets, bind. rewrite Hr. unfold ret. do 2 f_equal.
  by apply pseudo_end_ok; [..|apply Forall_take|].
Qed.

(** C34: the sender's rule and the receiver's check agree: when the checksum of a
    packet with a zero checksum field (at an even offset) is stored into that
    field, the receiver's checksum of the packet is 0, in whatever pbufs it
    arrives. *)
Theorem chksum_inserted_verifies l p h l' p' h' proto proto_len src dest a b c :
  packet h p l -> packet h' p' l' -> bytes (content l) ->
  Z.of_nat (length (content l)) <= 65535 -> Z.even (Z.of_nat (length a)) = true ->
  0 <= src < 2 ^ 32 -> 0 <= dest < 2 ^ 32 -> 0 <= proto < 256 -> 0 <= proto_len < 65536 ->
  content l = a ++ [0; 0] ++ b -> content l' = a ++ [c mod 256; c / 256] ++ b ->
  inet_chksum_pseudo block_addr p proto proto_len src dest h = (Ret c, h) ->
  inet_chksum_pseudo block_addr p' proto proto_len src dest h' = (Ret 0, h').
Proof.
  intros Hp Hp' Hb Hc He Hs Hd Hpr Hl Hcl Hcl' Hck.
  pose proof (pseudo_header_bytes proto proto_len src dest Hs Hd Hpr Hl) as Hph.
  rewrite (chksum_pseudo_ok l) in Hck by done. apply Ret_inj in Hck.
  rewrite Hcl in *. apply Forall_app in Hb as [Ba [_ Bb]%Forall_app].
  destruct (fill_word (pseudo_header proto proto_len src dest ++ a) b) as [Bw Hw];
    [by apply Forall_app|done|by rewrite length_app, Nat2Z.inj_add, Z.even_add, He|].
  rewrite <- !app_assoc, Hck in Hw. rewrite <- app_assoc in Bw. cbv zeta in Bw.
  rewrite <- (app_assoc _ a) in Bw. rewrite Hck in Bw. apply Forall_app in Bw as [_ Bw].
  rewrite (chksum_pseudo_ok l'); try done; rewrite Hcl'; [by rewrite Hw|done|].
  rewrite !length_app in *. cbn [length] in *. lia.
Qed.

(** a change of any single byte of a packet whose checksum verifies is
    detected: the checksum of the changed packet is not 0. *)
Theorem single_byte_error_detected l p h l' p' h' i v :
  packet h p l -> packet h' p' l' -> bytes (content l) -> 0 <= v < 256 ->
  Z.of_nat (length (content l)) <= 65535 -> content l' = <[i := v]> (content l) ->
  content l' <> content l ->
  inet_chksum_pbuf block_addr p h = (Ret 0, h) ->
  exists c, inet_chksum_pbuf block_addr p' h' = (Ret c, h') /\ c <> 0.
Proof.
  intros Hp Hp' Hb Hv Hc Hcl Hne Hck.
  assert (Hb' : bytes (content l')) by (rewrite Hcl; by apply Forall_insert).
  rewrite (chksum_pbuf_ok l) in Hck by done. apply Ret_inj in Hck.
  rewrite (chksum_pbuf_ok l') by (done || (rewrite Hcl, length_insert; lia)).
  eexists. split; [done|]. intros Hck'.
  apply (rfc1071_zero _ Hb) in Hck as [_ [j Hj]].
  apply (rfc1071_zero _ Hb') in Hck' as [_ [k Hk]].
  destruct (content l !! i) as [old|] eqn:Hi.
  - rewrite Hcl, (le_val_insert _ _ _ old Hi) in Hk.
    destruct (divide_256_pow i (v - old)) as [m Hm]; [exists (k - j); lia|].
    pose proof (Forall_lookup_1 _ _ _ _ Hb Hi) as Ho. cbn in Ho.
    apply Hne. rewrite Hcl. apply list_insert_id. rewrite Hi. f_equal. lia.
  - apply Hne. rewrite Hcl. apply list_insert_ge. by apply lookup_ge_None.
Qed.
End Theorems.
