(* ===== verification/ChksumRuns.v ===== *)
(** * Concrete runs of the checksum theorems

    A five-byte packet in two pbufs (three bytes, then two), at an odd address. *)
From S2P Require Export PbufRuns ChksumThms.

Definition odd_base (_ : ptr) : Z := 0x20000000.

Definition two (b0 b1 b2 b3 b4 : Z) : heap pool := Heap
  (list_to_map [(1%positive, buf1); (2%positive, buf2)])
  (list_to_map [(1%positive, [0; b0; b1; b2]); (2%positive, [0; b3; b4])])
  (Pool 2 (list_to_set [1%positive; 2%positive])).

Lemma two_packet b0 b1 b2 b3 b4 :
  packet (two b0 b1 b2 b3 b4) (Some 1%positive) [Node 1 buf1 [b0; b1; b2]; Node 2 buf2 [b3; b4]].
Proof. packet_tac. Qed.

Ltac bytes_tac := repeat constructor; vm_compute; congruence.

Lemma chksum_versions_correct_witness :
  lwip_standard_chksum_1 [1; 2; 3; 4; 5; 6; 7; 8; 9; 10; 11] = 0x1e24 /\
  lwip_standard_chksum 0x20000001 [1; 2; 3; 4; 5; 6; 7; 8; 9; 10; 11] = 0x1e24 /\
  lwip_standard_chksum_3 0x20000001 [1; 2; 3; 4; 5; 6; 7; 8; 9; 10; 11] = 0x1e24.
Proof.
  apply (chksum_versions_correct 0x20000001 [1; 2; 3; 4; 5; 6; 7; 8; 9; 10; 11]);
    [bytes_tac|range_tac].
Defined.

Lemma inet_chksum_pbuf_correct_witness :
  inet_chksum_pbuf odd_base (Some 1%positive) (two 10 20 30 40 50) =
    (Ret (inet_chksum 0x20000000 [10; 20; 30; 40; 50]), two 10 20 30 40 50).
Proof.
  apply (inet_chksum_pbuf_correct odd_base _ _ _ 0x20000000 (two_packet 10 20 30 40 50));
    [bytes_tac|range_tac].
Defined.

(** 192.168.0.102 to 192.168.0.101, UDP, in network order *)
Definition src_demo := 0x6600a8c0.
Definition dest_demo := 0x6500a8c0.

Lemma inet_chksum_pseudo_correct_witness :
  ip_chksum_pseudo odd_base (Some 1%positive) 17 5 src_demo dest_demo (two 10 20 30 40 50) =
    (Ret (65535 - lwip_htons (rfc1071 ([192; 168; 0; 102; 192; 168; 0; 101; 0; 17; 0; 5] ++ [10; 20; 30; 40; 50]))),
     two 10 20 30 40 50) /\
  ip_chksum_pseudo_partial odd_base (Some 1%positive) 17 5 4 src_demo dest_demo (two 10 20 30 40 50) =
    (Ret (65535 - lwip_htons (rfc1071 ([192; 168; 0; 102; 192; 168; 0; 101; 0; 17; 0; 5] ++ [10; 20; 30; 40]))),
     two 10 20 30 40 50).
Proof.
  apply (inet_chksum_pseudo_correct odd_base _ _ _ 17 5 4 src_demo dest_demo (two_packet 10 20 30 40 50));
    [bytes_tac|range_tac..].
Defined.

Lemma chksum_inserted_verifies_witness :
  exists c, inet_chksum_pseudo odd_base (Some 1%positive) 17 5 src_demo dest_demo (two 10 20 0 0 50) =
    (Ret c, two 10 20 0 0 50) /\
  inet_chksum_pseudo odd_base (Some 1%positive) 17 5 src_demo dest_demo (two 10 20 (c mod 256) (c / 256) 50) =
    (Ret 0, two 10 20 (c mod 256) (c / 256) 50).
Proof.
  eexists. split; [vm_compute; reflexivity|].
  eapply (chksum_inserted_verifies odd_base _ _ _ _ _ _ 17 5 src_demo dest_demo [10; 20] [50] _
    (two_packet 10 20 0 0 50) (two_packet 10 20 _ _ 50));
    [bytes_tac|range_tac|reflexivity|range_tac..|reflexivity|reflexivity|vm_compute; reflexivity].
Defined.

Lemma single_byte_error_detected_witness :
  exists c, inet_chksum_pbuf odd_base (Some 1%positive) (two 0xff 0xfe 0 1 7) = (Ret c, two 0xff 0xfe 0 1 7) /\
    c <> 0.
Proof.
  apply (single_byte_error_detected odd_base _ _ _ _ _ _ 4%nat 7
    (two_packet 0xff 0xfe 0 1 0) (two_packet 0xff 0xfe 0 1 7));
    [bytes_tac|range_tac|range_tac|reflexivity|by vm_compute|vm_compute; reflexivity].
Defined.
