(* ===== verification/Heap.v ===== *)
(** * The lwIP heap: [lwip/src/core/mem.c]

    The heap is one array [ram] with a [struct mem] header before each block.
    The state holds the headers by their index in [ram], the zeroed data bytes,
    and the pointer [lfree]; pointers into the heap are indices from [ram].
    [mem_size_t] is [u16_t], since [MEM_SIZE] is below 64000. *)
From stdpp Require Export gmap.
From S2P Require Export CInt.

Record mem := Mem {
  m_next : Z;    (* mem_size_t *)
  m_prev : Z;    (* mem_size_t *)
  m_used : Z     (* u8_t *)
}.

Definition MEM_SIZE := 22 * 1024.
Definition MIN_SIZE := 12.
Definition MIN_SIZE_ALIGNED := LWIP_MEM_ALIGN_SIZE MIN_SIZE.
Definition SIZEOF_STRUCT_MEM := LWIP_MEM_ALIGN_SIZE 6.
Definition MEM_SIZE_ALIGNED := LWIP_MEM_ALIGN_SIZE MEM_SIZE.

Record mem_heap := MemHeap {
  ram : gmap Z mem;
  bytes_at : gmap Z Z;
  lfree : Z
}.

(** the last entry, always unused: [ram_end] *)
Definition ram_end := MEM_SIZE_ALIGNED.

#[local] Abbreviation M := (cmd mem_heap).

Definition header (i : Z) : M mem := fun h =>
  match ram h !! i with Some m => (Ret m, h) | None => (Fault, h) end.
Definition set_header (i : Z) (m : mem) : M unit :=
  modify (fun h => MemHeap (<[i := m]> (ram h)) (bytes_at h) (lfree h)).
Definition set_lfree (i : Z) : M unit := modify (fun h => MemHeap (ram h) (bytes_at h) i).

Definition set_next (i v : Z) : M unit := m <- header i ;; set_header i (Mem v (m_prev m) (m_used m)).
Definition set_prev (i v : Z) : M unit := m <- header i ;; set_header i (Mem (m_next m) v (m_used m)).
Definition set_used (i v : Z) : M unit := m <- header i ;; set_header i (Mem (m_next m) (m_prev m) v).

(** Every block takes at least 20 bytes, so a walk over the heap ends. *)
Definition walk_fuel : nat := Z.to_nat (MEM_SIZE_ALIGNED / 20 + 2).

(** ** [mem_init] *)
Definition mem_init : M unit :=
  assert_ (Z.land SIZEOF_STRUCT_MEM (MEM_ALIGNMENT - 1) =? 0) ;;;
  set_header 0 (Mem MEM_SIZE_ALIGNED 0 0) ;;;
  set_header ram_end (Mem MEM_SIZE_ALIGNED MEM_SIZE_ALIGNED 1) ;;;
  set_lfree 0.

(** ** [plug_holes]: "plug hole forward", then "plug hole backward" *)
Definition plug_forward (mem : Z) : M unit :=
  m <- header mem ;;
  assert_ (m_next m <=? MEM_SIZE_ALIGNED) ;;;
  let nmem := m_next m in
  nm <- header nmem ;;
  if negb (mem =? nmem) && (m_used nm =? 0) && negb (nmem =? ram_end) then
    lf <- gets lfree ;;
    (if lf =? nmem then set_lfree mem else ret tt) ;;;
    set_next mem (m_next nm) ;;;
    set_prev (m_next nm) (u16 mem)
  else ret tt.

Definition plug_backward (mem : Z) : M unit :=
  m <- header mem ;;
  let pmem := m_prev m in
  pm <- header pmem ;;
  if negb (pmem =? mem) && (m_used pm =? 0) then
    lf <- gets lfree ;;
    (if lf =? mem then set_lfree pmem else ret tt) ;;;
    set_next pmem (m_next m) ;;;
    set_prev (m_next m) (u16 pmem)
  else ret tt.

Definition plug_holes (mem : Z) : M unit :=
  assert_ (0 <=? mem) ;;;
  assert_ (mem <? ram_end) ;;;
  m <- header mem ;;
  assert_ (m_used m =? 0) ;;;
  plug_forward mem ;;;
  plug_backward mem.

(** ** [mem_free] *)
Definition mem_free (rmem : option Z) : M unit :=
  match rmem with
  | None => ret tt
  | Some rmem =>
      assert_ (Z.land rmem (MEM_ALIGNMENT - 1) =? 0) ;;;
      assert_ ((0 <=? rmem) && (rmem <? ram_end)) ;;;
      if (rmem <? 0) || (ram_end <=? rmem) then ret tt
      else
        let mem := rmem - SIZEOF_STRUCT_MEM in
        m <- header mem ;;
        assert_ (truthy (m_used m)) ;;;
        set_used mem 0 ;;;
        lf <- gets lfree ;;
        (if mem <? lf then set_lfree mem else ret tt) ;;;
        plug_holes mem
  end.

(** [size = LWIP_MEM_ALIGN_SIZE(size); if (size < MIN_SIZE_ALIGNED) ..], in [mem_size_t] *)
Definition aligned_request (size : Z) : Z :=
  let size := u16 (LWIP_MEM_ALIGN_SIZE size) in
  if size <? MIN_SIZE_ALIGNED then MIN_SIZE_ALIGNED else size.

(** ** [mem_trim]; [cut_block] is its critical section *)
Definition cut_block (mem ptr size newsize : Z) : M unit :=
  m <- header mem ;;
  mem2 <- header (m_next m) ;;
  if m_used mem2 =? 0 then
    let next := m_next mem2 in
    let ptr2 := u16 (ptr + SIZEOF_STRUCT_MEM + newsize) in
    lf <- gets lfree ;;
    (if lf =? m_next m then set_lfree ptr2 else ret tt) ;;;
    set_header ptr2 (Mem next ptr 0) ;;;
    set_next mem ptr2 ;;;
    (if negb (next =? MEM_SIZE_ALIGNED) then set_prev next ptr2 else ret tt)
  else if newsize + SIZEOF_STRUCT_MEM + MIN_SIZE_ALIGNED <=? size then
    let ptr2 := u16 (ptr + SIZEOF_STRUCT_MEM + newsize) in
    lf <- gets lfree ;;
    (if ptr2 <? lf then set_lfree ptr2 else ret tt) ;;;
    set_header ptr2 (Mem (m_next m) ptr 0) ;;;
    set_next mem ptr2 ;;;
    (if negb (m_next m =? MEM_SIZE_ALIGNED) then set_prev (m_next m) ptr2 else ret tt)
  else ret tt.

Definition mem_trim (rmem newsize : Z) : M (option Z) :=
  let newsize := aligned_request newsize in
  if MEM_SIZE_ALIGNED <? newsize then ret None
  else
    assert_ ((0 <=? rmem) && (rmem <? ram_end)) ;;;
    if (rmem <? 0) || (ram_end <=? rmem) then ret (Some rmem)
    else
      let mem := rmem - SIZEOF_STRUCT_MEM in
      m <- header mem ;;
      let ptr := u16 mem in
      let size := u16 (m_next m - ptr - SIZEOF_STRUCT_MEM) in
      assert_ (newsize <=? size) ;;;
      if size <? newsize then ret None
      else if newsize =? size then ret (Some rmem)
      else cut_block mem ptr size newsize ;;; ret (Some rmem).

(** ** [mem_malloc] *)

(** [while (cur->used && cur != ram_end) cur = &ram[cur->next];] *)
Fixpoint next_free (n : nat) (cur : Z) : M Z :=
  m <- header cur ;;
  if truthy (m_used m) && negb (cur =? ram_end) then
    match n with
    | O => diverge
    | S n => next_free n (m_next m)
    end
  else ret cur.

(** The body of the search loop, once the block at [ptr] fits: the rest of a large
    block becomes a free block of its own, and [lfree] moves on from a taken block. *)
Definition split_block (ptr size : Z) : M unit :=
  m <- header ptr ;;
  if size + SIZEOF_STRUCT_MEM + MIN_SIZE_ALIGNED <=? u32 (m_next m - (ptr + SIZEOF_STRUCT_MEM)) then
    let ptr2 := u16 (ptr + SIZEOF_STRUCT_MEM + size) in
    set_header ptr2 (Mem (m_next m) ptr 0) ;;;
    set_next ptr ptr2 ;;;
    set_used ptr 1 ;;;
    (if negb (m_next m =? MEM_SIZE_ALIGNED) then set_prev (m_next m) ptr2 else ret tt)
  else set_used ptr 1.

Definition adjust_lfree (ptr : Z) : M unit :=
  lf <- gets lfree ;;
  if ptr =? lf then
    cur <- next_free walk_fuel lf ;;
    set_lfree cur ;;;
    m <- header cur ;;
    assert_ ((cur =? ram_end) || negb (truthy (m_used m)))
  else ret tt.

Definition take_block (ptr size : Z) : M (option Z) :=
  split_block ptr size ;;;
  adjust_lfree ptr ;;;
  assert_ (ptr + SIZEOF_STRUCT_MEM + size <=? ram_end) ;;;
  assert_ (Z.rem (ptr + SIZEOF_STRUCT_MEM) MEM_ALIGNMENT =? 0) ;;;
  assert_ (Z.land ptr (MEM_ALIGNMENT - 1) =? 0) ;;;
  ret (Some (ptr + SIZEOF_STRUCT_MEM)).

Fixpoint malloc_loop (n : nat) (ptr size : Z) : M (option Z) :=
  if ptr <? MEM_SIZE_ALIGNED - size then
    match n with
    | O => diverge
    | S n =>
        m <- header ptr ;;
        if negb (truthy (m_used m)) && (size <=? u32 (m_next m - (ptr + SIZEOF_STRUCT_MEM)))
        then take_block ptr size
        else malloc_loop n (m_next m) size
    end
  else ret None.

Definition mem_malloc (size : Z) : M (option Z) :=
  if size =? 0 then ret None
  else
    let size := aligned_request size in
    if MEM_SIZE_ALIGNED <? size then ret None
    else
      lf <- gets lfree ;;
      malloc_loop walk_fuel (u16 lf) size.

(** ** [mem_calloc]

    [memset(p, 0, n)]: what the bytes overwrite is no longer a header; the array
    [ram_heap] ends two headers after the heap. *)
Definition overwritten (p n : Z) (i : Z) : bool := (p <? i + SIZEOF_STRUCT_MEM) && (i <? p + n).

Definition memset0 (p n : Z) : M unit :=
  if p + n <=? MEM_SIZE_ALIGNED + 2 * SIZEOF_STRUCT_MEM then
    modify (fun h => MemHeap (filter (fun im => overwritten p n im.1 = false) (ram h))
                       (list_to_map ((fun k => (p + Z.of_nat k, 0)) <$> seq 0 (Z.to_nat n)) ∪ bytes_at h)
                       (lfree h))
  else fault.

Definition mem_calloc (count size : Z) : M (option Z) :=
  p <- mem_malloc (u16 (count * size)) ;;
  match p with
  | Some q => memset0 q (count * size) ;;; ret p
  | None => ret None
  end.
