(* ===== verification/HeapFacts.v ===== *)
(** * The heap as a list of blocks

    [heap_ok h l]: the headers of [h] are a doubly linked list of the blocks [l],
    which tile the heap without two free neighbours, and [lfree] is the lowest
    free block.  The stale headers left by merges do not matter. *)
From S2P Require Export Heap.

#[local] Set Warnings "-clear-no-such-hyp".

Record block := Block { b_used : bool; b_size : Z }.

Definition used_flag (b : block) : Z := if b_used b then 1 else 0.
Definition block_ok (b : block) : Prop := 12 <= b_size b /\ b_size b mod 4 = 0.

(** Bytes taken by blocks, headers included. *)
Fixpoint total (l : list block) : Z :=
  match l with [] => 0 | b :: l => 8 + b_size b + total l end.

(** The part of the list before some block: from [prev, ofs] to [prev', ofs']. *)
Fixpoint seg (m : gmap Z mem) (prev ofs : Z) (l : list block) (prev' ofs' : Z) : Prop :=
  match l with
  | [] => prev' = prev /\ ofs' = ofs
  | b :: l => m !! ofs = Some (Mem (ofs + 8 + b_size b) prev (used_flag b)) /\
              block_ok b /\ seg m ofs (ofs + 8 + b_size b) l prev' ofs'
  end.

(** The part up to the end of the heap. *)
Fixpoint chain (m : gmap Z mem) (prev ofs : Z) (l : list block) : Prop :=
  match l with
  | [] => ofs = ram_end /\ exists pr, m !! ofs = Some (Mem ram_end pr 1)
  | b :: l => m !! ofs = Some (Mem (ofs + 8 + b_size b) prev (used_flag b)) /\
              block_ok b /\ chain m ofs (ofs + 8 + b_size b) l
  end.

Fixpoint no_free_pair (l : list block) : Prop :=
  match l with
  | b1 :: (b2 :: _) as l' => (b_used b1 = true \/ b_used b2 = true) /\ no_free_pair l'
  | _ => True
  end.

Fixpoint lowest_free (ofs : Z) (l : list block) : Z :=
  match l with
  | [] => ofs
  | b :: l => if b_used b then lowest_free (ofs + 8 + b_size b) l else ofs
  end.

Record heap_ok (h : mem_heap) (l : list block) : Prop := {
  ok_chain : chain (ram h) 0 0 l;
  ok_plugged : no_free_pair l;
  ok_lfree : lfree h = lowest_free 0 l
}.

(** The data of a block starts after its header. *)
Definition data_at (l : list block) : Z := total l + 8.

(** ** Sizes and offsets *)
Lemma MEM_SIZE_ALIGNED_val : MEM_SIZE_ALIGNED = 22528. Proof. reflexivity. Qed.
Lemma ram_end_val : ram_end = 22528. Proof. reflexivity. Qed.
Lemma SIZEOF_STRUCT_MEM_val : SIZEOF_STRUCT_MEM = 8. Proof. reflexivity. Qed.
Lemma MIN_SIZE_ALIGNED_val : MIN_SIZE_ALIGNED = 12. Proof. reflexivity. Qed.
Create Rewrite HintDb heap.
#[export] Hint Rewrite MEM_SIZE_ALIGNED_val ram_end_val SIZEOF_STRUCT_MEM_val MIN_SIZE_ALIGNED_val : heap.

Lemma total_app l1 l2 : total (l1 ++ l2) = total l1 + total l2.
Proof. induction l1 as [|b l1 IH]; cbn [app total]; lia. Qed.

Lemma seg_app m p o l1 l2 p' o' :
  seg m p o (l1 ++ l2) p' o' <-> exists p1 o1, seg m p o l1 p1 o1 /\ seg m p1 o1 l2 p' o'.
Proof.
  revert p o. induction l1 as [|b l1 IH]; intros p o; cbn [app seg].
  - split; [intros ?; by exists p, o|by intros (? & ? & [-> ->] & ?)].
  - rewrite IH. naive_solver.
Qed.

Lemma chain_app m p o l1 l2 :
  chain m p o (l1 ++ l2) <-> exists p1 o1, seg m p o l1 p1 o1 /\ chain m p1 o1 l2.
Proof.
  revert p o. induction l1 as [|b l1 IH]; intros p o; cbn [app seg chain].
  - split; [intros ?; by exists p, o|by intros (? & ? & [-> ->] & ?)].
  - rewrite IH. naive_solver.
Qed.

Lemma seg_facts m p o l p' o' : seg m p o l p' o' -> o' = o + total l /\ Forall block_ok l /\ 0 <= total l.
Proof.
  revert p o. induction l as [|b l IH]; intros p o; cbn [seg total].
  - intros [-> ->]. split_and!; [lia|done|lia].
  - intros (_ & Hb & Hl). destruct (IH _ _ Hl) as (-> & Hf & ?). destruct Hb as [Hb1 Hb2].
    split_and!; [lia|by constructor|lia].
Qed.

Lemma chain_facts m p o l : chain m p o l -> o + total l = ram_end /\ Forall block_ok l /\ 0 <= total l.
Proof.
  revert p o. induction l as [|b l IH]; intros p o; cbn [chain total].
  - intros [-> _]. split_and!; [lia|done|lia].
  - intros (_ & Hb & Hl). destruct (IH _ _ Hl) as (? & Hf & ?). destruct Hb as [Hb1 Hb2].
    split_and!; [lia|by constructor|lia].
Qed.

Lemma total_aligned l : Forall block_ok l -> total l mod 4 = 0.
Proof.
  induction 1 as [|b l [_ Hb] Hl IH]; [done|]. cbn [total].
  Z.to_euclidean_division_equations; lia.
Qed.

(** Where the block after a prefix lies: its predecessor's offset. *)
Definition before (l : list block) : Z :=
  match last l with Some b => total l - (8 + b_size b) | None => 0 end.

Lemma seg_before m l p' o' : seg m 0 0 l p' o' -> p' = before l /\ o' = total l.
Proof.
  destruct l as [|b l _] using rev_ind; [by intros [-> ->]|].
  intros (p1 & o1 & H1 & H2)%seg_app. destruct H2 as (_ & _ & -> & ->).
  destruct (seg_facts _ _ _ _ _ _ H1) as (-> & _ & _).
  unfold before. rewrite last_snoc, total_app. cbn [total]. split; lia.
Qed.

(** ** Frames: changing headers elsewhere *)
Lemma seg_frame m m' p o l p' o' : (forall i, o <= i < o' -> m' !! i = m !! i) ->
  seg m p o l p' o' -> seg m' p o l p' o'.
Proof.
  revert p o. induction l as [|b l IH]; intros p o Hf; [done|]. intros (Hm & Hb & Hl).
  destruct (seg_facts _ _ _ _ _ _ Hl) as (Ho & _ & ?). destruct Hb as [Hb1 Hb2].
  cbn [seg]. split_and!; [by rewrite Hf by lia|done|]. apply IH; [|done]. intros i Hi. apply Hf. lia.
Qed.

Lemma chain_frame m m' p o l : (forall i, o <= i -> m' !! i = m !! i) ->
  chain m p o l -> chain m' p o l.
Proof.
  revert p o. induction l as [|b l IH]; intros p o Hf.
  - intros [-> Hm]. split; [done|]. by rewrite Hf.
  - intros (Hm & Hb & Hl). pose proof Hb as [Hb1 Hb2].
    cbn [chain]. split_and!; [by rewrite Hf by lia|done|]. apply IH; [|done]. intros i Hi. apply Hf. lia.
Qed.

(** The header at the head of a chain. *)
Definition head_header (p o : Z) (l : list block) (m : mem) : Prop :=
  match l with
  | [] => o = ram_end /\ m_next m = ram_end /\ m_used m = 1
  | b :: _ => m = Mem (o + 8 + b_size b) p (used_flag b)
  end.

Lemma chain_head m p o l : chain m p o l -> exists x, m !! o = Some x /\ head_header p o l x.
Proof.
  destruct l as [|b l]; cbn [chain].
  - intros [-> [pr Hm]]. by eexists.
  - intros (Hm & _). by eexists.
Qed.

(** Linking the head of a chain to another predecessor. *)
Lemma chain_relink m p q o l x : chain m p o l -> m !! o = Some x ->
  chain (<[o := Mem (m_next x) q (m_used x)]> m) q o l.
Proof.
  destruct l as [|b l]; cbn [chain].
  - intros [-> [pr Hm]] Hx. simplify_eq. split; [done|]. exists q. by rewrite lookup_insert_eq.
  - intros (Hm & Hb & Hl) Hx. simplify_eq. pose proof Hb as [Hb1 Hb2].
    split_and!; [by rewrite lookup_insert_eq|done|].
    eapply chain_frame; [|exact Hl]. intros i Hi. rewrite lookup_insert_ne by lia. done.
Qed.

(** The end of the heap needs no predecessor. *)
Lemma chain_end m p q : chain m p ram_end [] -> chain m q ram_end [].
Proof. done. Qed.

(** ** [lowest_free] *)
Lemma lowest_free_app o l1 l2 :
  lowest_free o (l1 ++ l2) =
    if forallb b_used l1 then lowest_free (o + total l1) l2 else lowest_free o l1.
Proof.
  revert o. induction l1 as [|b l1 IH]; intros o; cbn [app lowest_free forallb total].
  - f_equal. lia.
  - destruct (b_used b); cbn [andb]; [|done]. rewrite IH. destruct (forallb b_used l1); [|done].
    f_equal. lia.
Qed.

Lemma total_nonneg l : Forall block_ok l -> 0 <= total l.
Proof. induction 1 as [|b l [] ? ?]; cbn [total]; lia. Qed.

Lemma lowest_free_range o l : Forall block_ok l -> o <= lowest_free o l <= o + total l.
Proof.
  intros Hl. revert o. induction Hl as [|b l [Hb1 Hb2] Hl IH]; intros o; cbn [lowest_free total]; [lia|].
  pose proof (total_nonneg l Hl). destruct (b_used b); [specialize (IH (o + 8 + b_size b))|]; lia.
Qed.

Lemma lowest_free_split l : exists l1 l2, l = l1 ++ l2 /\ Forall (fun b => b_used b = true) l1 /\
  (l2 = [] \/ exists b l3, l2 = b :: l3 /\ b_used b = false) /\
  forall o, lowest_free o l = o + total l1.
Proof.
  induction l as [|b l (l1 & l2 & -> & H1 & H2 & H3)].
  - exists [], []. split_and!; [done|done|by left|intros o; cbn; lia].
  - destruct (b_used b) eqn:Hb.
    + exists (b :: l1), l2. split_and!; [done|by constructor|done|]. intros o.
      cbn [lowest_free total]. rewrite Hb, H3. lia.
    + exists [], (b :: l1 ++ l2). split_and!; [done|done|right; by eexists _, _|].
      intros o. cbn [lowest_free total]. rewrite Hb. lia.
Qed.

Lemma forallb_used l : Forall (fun b => b_used b = true) l -> forallb b_used l = true.
Proof. induction 1 as [|b l Hb Hl IH]; [done|]. cbn. by rewrite Hb, IH. Qed.

(** ** [no_free_pair] *)
Lemma no_free_pair_app l1 l2 : no_free_pair (l1 ++ l2) -> no_free_pair l1 /\ no_free_pair l2.
Proof.
  induction l1 as [|b l1 IH]; [done|]. destruct l1 as [|b1 l1]; cbn [app no_free_pair] in *.
  - destruct l2 as [|b2 l2]; [done|]. by intros [_ ?].
  - intros [? [? ?]%IH]. done.
Qed.

Lemma no_free_pair_join l1 b l2 : no_free_pair (l1 ++ [b]) -> no_free_pair (b :: l2) ->
  no_free_pair (l1 ++ b :: l2).
Proof.
  induction l1 as [|b1 l1 IH]; [done|]. intros H1 H2. destruct l1 as [|b2 l1]; cbn [app no_free_pair] in *.
  - naive_solver.
  - destruct H1 as [? H1]. split; [done|]. by apply IH.
Qed.

Lemma no_free_pair_used l1 b l2 : b_used b = true -> no_free_pair l1 -> no_free_pair l2 ->
  no_free_pair (l1 ++ b :: l2).
Proof.
  intros Hb H1 H2. apply no_free_pair_join.
  - induction l1 as [|b1 l1 IH]; [done|]. destruct l1 as [|b2 l1]; cbn [app no_free_pair] in *; [naive_solver|].
    destruct H1 as [? H1]. split; [done|]. by apply IH.
  - destruct l2 as [|b2 l2]; [done|]. split; [by left|done].
Qed.
