(* ===== verification/HeapOps.v ===== *)
(** * What each heap operation does to the list of blocks *)
From S2P Require Export HeapFacts.

#[local] Set Warnings "-clear-no-such-hyp".

(** ** Running commands *)
Definition put (h : mem_heap) (i : Z) (x : mem) : mem_heap :=
  MemHeap (<[i := x]> (ram h)) (bytes_at h) (lfree h).
Definition with_lfree (h : mem_heap) (i : Z) : mem_heap := MemHeap (ram h) (bytes_at h) i.

Lemma header_at h i x : ram h !! i = Some x -> header i h = (Ret x, h).
Proof. unfold header. by intros ->. Qed.

Lemma set_next_at h i x v : ram h !! i = Some x ->
  set_next i v h = (Ret tt, put h i (Mem v (m_prev x) (m_used x))).
Proof. intros Hx. unfold set_next. by cstep (header_at _ _ _ Hx). Qed.

Lemma set_prev_at h i x v : ram h !! i = Some x ->
  set_prev i v h = (Ret tt, put h i (Mem (m_next x) v (m_used x))).
Proof. intros Hx. unfold set_prev. by cstep (header_at _ _ _ Hx). Qed.

Lemma set_used_at h i x v : ram h !! i = Some x ->
  set_used i v h = (Ret tt, put h i (Mem (m_next x) (m_prev x) v)).
Proof. intros Hx. unfold set_used. by cstep (header_at _ _ _ Hx). Qed.

Ltac heap_lookup :=
  cbn [ram put with_lfree]; repeat first [rewrite lookup_insert_eq | rewrite lookup_insert_ne by lia]; try done.

(** ** A block in its place *)
Record heap_chain (h : mem_heap) (l : list block) : Prop := {
  hc_chain : chain (ram h) 0 0 l;
  hc_lfree : lfree h = lowest_free 0 l
}.

Lemma heap_ok_chain h l : heap_ok h l -> heap_chain h l.
Proof. by intros []. Qed.

Lemma chain_at m l1 b l2 : chain m 0 0 (l1 ++ b :: l2) ->
  seg m 0 0 l1 (before l1) (total l1) /\
  m !! total l1 = Some (Mem (total l1 + 8 + b_size b) (before l1) (used_flag b)) /\
  block_ok b /\ chain m (total l1) (total l1 + 8 + b_size b) l2 /\
  0 <= total l1 /\ total l1 mod 4 = 0 /\ 0 <= total l2 /\
  total l1 + 8 + b_size b + total l2 = ram_end /\ Forall block_ok l1 /\ Forall block_ok l2.
Proof.
  intros (p & o & H1 & H2)%chain_app. destruct (seg_before _ _ _ _ H1) as [-> ->].
  destruct H2 as (Hm & Hb & Hl). destruct (chain_facts _ _ _ _ Hl) as (? & ? & ?).
  destruct (seg_facts _ _ _ _ _ _ H1) as (_ & ? & ?).
  split_and!; try done. by apply total_aligned.
Qed.

(** Putting a chain together from a prefix and the rest. *)
Lemma chain_join m m' l1 l2 : seg m 0 0 l1 (before l1) (total l1) ->
  (forall i, 0 <= i < total l1 -> m' !! i = m !! i) -> chain m' (before l1) (total l1) l2 ->
  chain m' 0 0 (l1 ++ l2).
Proof.
  intros H1 Hf H2. apply chain_app. exists (before l1), (total l1). split; [|done].
  by eapply seg_frame.
Qed.

(** The rest of a chain, relinked, with headers below it changed. *)
Lemma chain_relink_frame m m' p q o l x : chain m p o l -> m !! o = Some x ->
  m' !! o = Some (Mem (m_next x) q (m_used x)) -> (forall i, o < i -> m' !! i = m !! i) ->
  chain m' q o l.
Proof.
  intros Hc Hx Hx' Hf. eapply chain_frame; [|exact (chain_relink m p q o l x Hc Hx)].
  intros i Hi. destruct (decide (i = o)) as [->|]; [by rewrite lookup_insert_eq|].
  rewrite lookup_insert_ne by done. apply Hf. lia.
Qed.

(** ** [plug_holes] *)
Definition merge_right (b : block) (l : list block) : list block :=
  match l with
  | b2 :: l3 => if b_used b2 then b :: l else Block false (b_size b + 8 + b_size b2) :: l3
  | [] => [b]
  end.

Definition merge_left (l : list block) (b : block) : list block :=
  match last l with
  | Some b0 => if b_used b0 then l ++ [b]
               else removelast l ++ [Block false (b_size b0 + 8 + b_size b)]
  | None => [b]
  end.

Lemma lowest_free_head l1 b l2 o : b_used b = false ->
  lowest_free o (l1 ++ b :: l2) = lowest_free o (l1 ++ [b]).
Proof. intros Hb. rewrite !lowest_free_app. cbn [lowest_free]. by rewrite Hb. Qed.

Lemma lowest_free_size l1 s s' l2 o :
  lowest_free o (l1 ++ Block false s :: l2) = lowest_free o (l1 ++ Block false s' :: l2).
Proof. by rewrite !lowest_free_app. Qed.

Lemma plug_forward_ok h l1 s l2 : heap_chain h (l1 ++ Block false s :: l2) ->
  exists h', plug_forward (total l1) h = (Ret tt, h') /\
    heap_chain h' (l1 ++ merge_right (Block false s) l2) /\ bytes_at h' = bytes_at h.
Proof.
  intros [Hc Hlf]. destruct (chain_at _ _ _ _ Hc) as (H1 & Hm & [Hs1 Hs2] & H2 & Ht & Hal & Ht2 & Hend & Hf1 & Hf2).
  destruct (chain_head _ _ _ _ H2) as (x & Hx & Hh). cbn [b_size] in *. rewrite ram_end_val in *.
  unfold plug_forward. cstep (header_at _ _ _ Hm). cbn [m_next].
  rewrite (bind_ret (assert_ _) _ h tt h) by (apply assert_true, Z.leb_le; autorewrite with heap; lia).
  cstep (header_at _ _ _ Hx).
  rewrite (proj2 (Z.eqb_neq _ _)) by lia. autorewrite with heap. cbn [negb andb].
  destruct l2 as [|b2 l3]; cbn [head_header] in Hh.
  { destruct Hh as (-> & _ & ->). cbn. by exists h. }
  subst x. cbn [m_used m_next merge_right]. unfold used_flag.
  destruct (b_used b2) eqn:Hb2; cbn [Z.eqb andb]; [by exists h|].
  destruct H2 as (_ & [Hb21 Hb22] & H3). cbn [total] in *.
  destruct (chain_facts _ _ _ _ H3) as (? & ? & ?). rewrite ram_end_val in *.
  rewrite (proj2 (Z.eqb_neq _ _)) by lia. cbn [negb].
  pose proof (lowest_free_range 0 l1 Hf1) as Hr.
  assert (Hlf' : lfree h <= total l1)
    by (rewrite Hlf, lowest_free_head, lowest_free_app by done; cbn; destruct (forallb b_used l1); lia).
  rewrite (bind_ret _ _ h (lfree h) h) by done. rewrite (proj2 (Z.eqb_neq _ _)) by lia.
  rewrite (bind_ret (ret tt) _ h tt h) by done.
  cstep (set_next_at _ _ _ _ Hm). cbn [m_prev m_used].
  destruct (chain_head _ _ _ _ H3) as (y & Hy & _).
  set (n2 := total l1 + 8 + s + 8 + b_size b2) in *.
  rewrite (set_prev_at _ n2 y) by (unfold n2; heap_lookup).
  eexists. split_and!; [reflexivity| |done]. split; cbn [lfree put ram].
  - eapply chain_join; [exact H1|intros; unfold n2; heap_lookup|]. cbn [chain b_size].
    replace (total l1 + 8 + (s + 8 + b_size b2)) with n2 by lia.
    split_and!; [unfold n2; heap_lookup|split; cbn [b_size]; Z.to_euclidean_division_equations; lia|].
    rewrite u16_small by lia. eapply chain_relink_frame; [exact H3|exact Hy|heap_lookup|].
    intros. unfold n2 in *. heap_lookup.
  - rewrite Hlf. rewrite lowest_free_head by done. symmetry. rewrite lowest_free_head by done.
    apply lowest_free_size.
Qed.

Lemma before_snoc l b : before (l ++ [b]) = total l.
Proof. unfold before. rewrite last_snoc, total_app. cbn [total]. lia. Qed.

Lemma merge_left_snoc l b0 b : merge_left (l ++ [b0]) b =
  if b_used b0 then (l ++ [b0]) ++ [b] else l ++ [Block false (b_size b0 + 8 + b_size b)].
Proof. unfold merge_left. by rewrite last_snoc, removelast_last. Qed.

Lemma plug_backward_ok h l1 s l2 : heap_chain h (l1 ++ Block false s :: l2) ->
  exists h', plug_backward (total l1) h = (Ret tt, h') /\
    heap_chain h' (merge_left l1 (Block false s) ++ l2) /\ bytes_at h' = bytes_at h.
Proof.
  intros Hok. pose proof Hok as [Hc Hlf].
  destruct (chain_at _ _ _ _ Hc) as (H1 & Hm & [Hs1 Hs2] & H2 & Ht & Hal & Ht2 & Hend & Hf1 & Hf2).
  destruct (chain_head _ _ _ _ H2) as (x & Hx & _). cbn [b_size] in *. rewrite ram_end_val in *.
  unfold plug_backward. cstep (header_at _ _ _ Hm). cbn [m_prev m_next]. cbv zeta.
  destruct l1 as [|b0 l0 _] using rev_ind.
  { cbn [before last total] in *. cstep (header_at _ _ _ Hm). cbn. by exists h. }
  rewrite <- app_assoc in Hc. cbn [app] in Hc.
  destruct (chain_at _ _ _ _ Hc) as (H0 & Hm0 & [Hb1 Hb2] & _ & Ht0 & Hal0 & _ & _ & Hf0 & _).
  rewrite before_snoc, merge_left_snoc in *. cstep (header_at _ _ _ Hm0).
  rewrite total_app in *. cbn [total m_used] in *. unfold used_flag.
  rewrite (proj2 (Z.eqb_neq (total l0) _)) by lia. cbn [negb andb].
  destruct (b_used b0) eqn:Hb0; cbn [Z.eqb].
  { exists h. split_and!; [done| |done]. rewrite <- !app_assoc in *. done. }
  rewrite (bind_ret _ _ h (lfree h) h) by done.
  assert (Hl0 : lfree h = lowest_free 0 (l0 ++ [b0]))
    by (rewrite Hlf, <- app_assoc; by apply lowest_free_head).
  pose proof (lowest_free_range 0 l0 Hf0).
  assert (lfree h <= total l0)
    by (rewrite Hl0, lowest_free_app; cbn [lowest_free]; rewrite Hb0; destruct (forallb b_used l0); lia).
  rewrite (proj2 (Z.eqb_neq _ _)) by lia. rewrite (bind_ret (ret tt) _ h tt h) by done.
  cstep (set_next_at _ _ _ _ Hm0). cbn [m_prev m_used].
  set (n2 := total l0 + (8 + b_size b0 + 0) + 8 + s) in *.
  rewrite (set_prev_at _ n2 x) by (unfold n2; heap_lookup).
  eexists. split_and!; [reflexivity| |done]. split; cbn [lfree put ram].
  - rewrite <- app_assoc. cbn [app].
    eapply chain_join; [exact H0|intros; unfold n2; heap_lookup|]. cbn [chain b_size].
    replace (total l0 + 8 + (b_size b0 + 8 + s)) with n2 by lia. unfold used_flag. rewrite Hb0. cbn [b_used].
    split_and!; [unfold n2; heap_lookup|split; cbn [b_size]; Z.to_euclidean_division_equations; lia|].
    rewrite u16_small by lia. eapply chain_relink_frame; [exact H2|exact Hx|heap_lookup|].
    intros. unfold n2 in *. heap_lookup.
  - rewrite Hl0, <- app_assoc. cbn [app]. symmetry. rewrite lowest_free_head by done.
    rewrite !lowest_free_app. cbn [lowest_free b_used]. by rewrite Hb0.
Qed.

(** ** [mem_free] of a used block *)
Definition freed (l1 : list block) (s : Z) (l2 : list block) : list block :=
  match merge_right (Block false s) l2 with
  | b :: l => merge_left l1 b ++ l
  | [] => l1
  end.

Lemma merge_right_head s l : exists s' l', merge_right (Block false s) l = Block false s' :: l'.
Proof. destruct l as [|b l]; cbn [merge_right]; [by eexists _, _|]. destruct (b_used b); by eexists _, _. Qed.

Lemma no_free_pair_replace l1 b b' l2 : b_used b = b_used b' ->
  no_free_pair (l1 ++ b :: l2) -> no_free_pair (l1 ++ b' :: l2).
Proof.
  intros Hb. induction l1 as [|b1 l1 IH].
  - destruct l2; cbn [app no_free_pair]; [done|]. by rewrite Hb.
  - destruct l1 as [|b2 l1]; cbn [app no_free_pair] in *; [rewrite Hb; naive_solver|naive_solver].
Qed.

Lemma freed_plugged l1 s l2 : no_free_pair (l1 ++ Block true s :: l2) -> no_free_pair (freed l1 s l2).
Proof.
  intros [H1 H2]%no_free_pair_app. unfold freed.
  assert (Hr : no_free_pair (merge_right (Block false s) l2)).
  { destruct l2 as [|b2 l3]; cbn [merge_right]; [done|].
    assert (H3 : no_free_pair (b2 :: l3)) by (by destruct H2).
    destruct (b_used b2) eqn:Hb; [split; [by right|done]|].
    apply (no_free_pair_replace [] b2); [by rewrite Hb|done]. }
  destruct (merge_right_head s l2) as (s' & l' & He). rewrite He in *.
  destruct l1 as [|b0 l0 _] using rev_ind; [done|]. rewrite merge_left_snoc.
  destruct (b_used b0) eqn:Hb0; rewrite <- !app_assoc; cbn [app].
  - apply no_free_pair_app in H1 as [H1 _]. apply no_free_pair_used; done.
  - apply no_free_pair_join; [|by apply (no_free_pair_replace [] (Block false s'))].
    apply (no_free_pair_replace l0 b0); [by rewrite Hb0|done].
Qed.

Lemma plug_holes_ok h l1 s l2 : heap_chain h (l1 ++ Block false s :: l2) ->
  exists h', plug_holes (total l1) h = (Ret tt, h') /\ heap_chain h' (freed l1 s l2) /\
    bytes_at h' = bytes_at h.
Proof.
  intros Hok. pose proof Hok as [Hc _].
  destruct (chain_at _ _ _ _ Hc) as (_ & Hm & [Hs1 Hs2] & _ & Ht & _ & Ht2 & Hend & _).
  cbn [b_size] in *. destruct (plug_forward_ok _ _ _ _ Hok) as (h3 & Hfw & Hok3 & Hb3).
  unfold freed. destruct (merge_right_head s l2) as (s' & l' & He). rewrite He in *.
  destruct (plug_backward_ok _ _ _ _ Hok3) as (h4 & Hbw & Hok4 & Hb4).
  exists h4. split_and!; [|done|by rewrite Hb4, Hb3]. unfold plug_holes.
  rewrite (bind_ret (assert_ _) _ h tt h) by (apply assert_true, Z.leb_le; lia).
  rewrite (bind_ret (assert_ _) _ h tt h) by (apply assert_true, Z.ltb_lt; lia).
  cstep (header_at _ _ _ Hm).
  rewrite (bind_ret (assert_ _) _ h tt h) by done.
  by cstep Hfw.
Qed.

Lemma mod4_land x : Z.land x 3 = x mod 4.
Proof. change 3 with (Z.ones 2). by rewrite Z.land_ones by lia. Qed.

Lemma free_block_ok h l1 s l2 : heap_ok h (l1 ++ Block true s :: l2) ->
  exists h', mem_free (Some (data_at l1)) h = (Ret tt, h') /\ heap_ok h' (freed l1 s l2) /\
    bytes_at h' = bytes_at h.
Proof.
  intros [Hc Hp Hlf].
  destruct (chain_at _ _ _ _ Hc) as (H1 & Hm & [Hs1 Hs2] & H2 & Ht & Hal & Ht2 & Hend & Hf1 & Hf2).
  cbn [b_size used_flag b_used] in *. rewrite ram_end_val in *. unfold mem_free, data_at.
  change (MEM_ALIGNMENT - 1) with 3. rewrite mod4_land. autorewrite with heap.
  rewrite (bind_ret (assert_ _) _ h tt h)
    by (apply assert_true, Z.eqb_eq; Z.to_euclidean_division_equations; lia).
  rewrite (proj2 (Z.leb_le 0 _)), (proj2 (Z.ltb_lt _ 22528)) by lia.
  rewrite (proj2 (Z.ltb_ge _ 0)), (proj2 (Z.leb_gt 22528 _)) by lia. cbn [andb orb].
  rewrite (bind_ret (assert_ _) _ h tt h) by done. cbv zeta.
  replace (total l1 + 8 - 8) with (total l1) by lia.
  cstep (header_at _ _ _ Hm). cbn [m_used].
  rewrite (bind_ret (assert_ _) _ h tt h) by done.
  cstep (set_used_at _ _ _ _ Hm). cbn [m_next m_prev].
  set (h1 := put h (total l1) _).
  rewrite (bind_ret (gets lfree) _ h1 (lfree h) h1) by done.
  set (h2 := with_lfree h1 (Z.min (total l1) (lfree h))).
  rewrite (bind_ret _ _ h1 tt h2).
  2:{ unfold h2, with_lfree. destruct (Z.ltb_spec (total l1) (lfree h)).
      - rewrite Z.min_l by lia. done.
      - rewrite Z.min_r by lia. done. }
  assert (Hok : heap_chain h2 (l1 ++ Block false s :: l2)).
  { split; cbn [h2 h1 put with_lfree ram lfree].
    - eapply chain_join; [exact H1|intros; heap_lookup|]. cbn [chain b_size].
      split_and!; [heap_lookup|done|]. eapply chain_frame; [|exact H2]. intros. heap_lookup.
    - rewrite Hlf, !lowest_free_app. cbn [lowest_free b_used].
      pose proof (lowest_free_range 0 l1 Hf1). pose proof (lowest_free_range (0 + total l1 + 8 + s) l2 Hf2).
      cbn [b_size]. destruct (forallb b_used l1); lia. }
  destruct (plug_holes_ok _ _ _ _ Hok) as (h4 & Hpl & [Hc4 Hlf4] & Hb4).
  exists h4. split_and!; [done|split; [done|by apply freed_plugged|done]|done].
Qed.
