(* ===== verification/HeapAlloc.v ===== *)
(** * Allocation from the heap, and trimming *)
From S2P Require Export HeapOps.

#[local] Set Warnings "-clear-no-such-hyp".

(** ** First fit *)
Fixpoint find_fit (size : Z) (l : list block) : option (list block * Z * list block) :=
  match l with
  | [] => None
  | b :: l =>
      if negb (b_used b) && (size <=? b_size b) then Some ([], b_size b, l)
      else '(l1, s, l2) ← find_fit size l; Some (b :: l1, s, l2)
  end.

(** The block of [s] bytes, used for [size]: the rest is split off when it can
    hold a block of its own. *)
Definition taken (size s : Z) (l : list block) : list block :=
  if size + 20 <=? s then Block true size :: Block false (s - 8 - size) :: l
  else Block true s :: l.

Lemma find_fit_Some size l l1 s l2 : find_fit size l = Some (l1, s, l2) ->
  l = l1 ++ Block false s :: l2 /\ size <= s.
Proof.
  revert l1. induction l as [|[u s'] l IH]; intros l1 Hl; [done|]. cbn [find_fit b_used b_size] in Hl.
  destruct u; cbn [negb andb] in Hl.
  - destruct (find_fit size l) as [[[l1' s1] l2']|]; [|done]. cbn in Hl. injection Hl as <- -> ->.
    destruct (IH l1' eq_refl) as [-> ?]. done.
  - destruct (Z.leb_spec size s'); [by injection Hl as <- -> ->|].
    destruct (find_fit size l) as [[[l1' s1] l2']|]; [|done]. cbn in Hl. injection Hl as <- -> ->.
    destruct (IH l1' eq_refl) as [-> ?]. done.
Qed.

Lemma find_fit_used size l1 l2 : Forall (fun b => b_used b = true) l1 ->
  find_fit size (l1 ++ l2) = ('(l3, s, l4) ← find_fit size l2; Some (l1 ++ l3, s, l4)).
Proof.
  induction 1 as [|b l1 Hb Hl IH]; cbn [app find_fit].
  - by destruct (find_fit size l2) as [[[] ?]|].
  - rewrite Hb. cbn [negb andb]. rewrite IH. by destruct (find_fit size l2) as [[[] ?]|].
Qed.

Lemma find_fit_none size l : Forall block_ok l -> total l < size + 8 -> find_fit size l = None.
Proof.
  induction 1 as [|b l [Hb _] Hf IH]; intros Hlt; [done|]. cbn [find_fit total] in *.
  pose proof (total_nonneg _ Hf). rewrite (proj2 (Z.leb_gt _ _)), andb_false_r by lia.
  by rewrite IH by lia.
Qed.

Lemma length_total l : Forall block_ok l -> 20 * Z.of_nat (length l) <= total l.
Proof. induction 1 as [|b l [] ? ?]; cbn [total length]; lia. Qed.

Lemma chain_fuel h p o l : chain (ram h) p o l -> 0 <= o -> (length l < walk_fuel)%nat.
Proof.
  intros (He & Hf & _)%chain_facts Ho. apply length_total in Hf. rewrite ram_end_val in He.
  change walk_fuel with 1128%nat. lia.
Qed.

(** ** The lowest free block after [mem_malloc] *)
Lemma next_free_ok l : forall n p o h, chain (ram h) p o l -> (length l <= n)%nat -> 0 <= o ->
  next_free n o h = (Ret (lowest_free o l), h) /\
  exists x, ram h !! lowest_free o l = Some x /\
    (lowest_free o l =? ram_end) || negb (truthy (m_used x)) = true.
Proof.
  induction l as [|b l IH]; intros n p o h Hc Hn Ho; pose proof (chain_facts _ _ _ _ Hc) as (He & Hf & _).
  - destruct Hc as [-> [pr Hm]]. cbn [lowest_free]. split; [|eexists; split; [exact Hm|done]].
    destruct n; cbn [next_free]; rewrite (bind_ret _ _ _ _ _ (header_at _ _ _ Hm)); done.
  - destruct Hc as (Hm & [Hb1 Hb2] & Hc). cbn [total length lowest_free] in *.
    inversion_clear Hf as [|?? _ Hf']. pose proof (total_nonneg l Hf').
    destruct n as [|n]; [lia|]. cbn [next_free]. cstep (header_at _ _ _ Hm).
    cbn [m_used m_next]. unfold used_flag. destruct (b_used b) eqn:Hu.
    + rewrite (proj2 (Z.eqb_neq _ _)) by lia. cbn [truthy Z.eqb negb andb].
      eapply IH; [exact Hc|lia|lia].
    + cbn [truthy Z.eqb negb andb]. split; [done|]. eexists. split; [exact Hm|].
      cbn [m_used]. unfold used_flag. rewrite Hu. apply orb_true_r.
Qed.

Lemma lowest_free_lt l : Forall block_ok l -> forall o, forallb b_used l = false ->
  lowest_free o l < o + total l.
Proof.
  induction 1 as [|b l [Hb _] Hf IH]; intros o Hu; [done|].
  cbn [lowest_free total forallb] in *. pose proof (total_nonneg l Hf).
  destruct (b_used b); cbn [andb] in Hu; [|lia]. specialize (IH (o + 8 + b_size b) Hu). lia.
Qed.

Lemma lowest_free_eq l1 b l2 : b_used b = false -> Forall block_ok l1 ->
  (total l1 =? lowest_free 0 (l1 ++ b :: l2)) = forallb b_used l1.
Proof.
  intros Hb Hf. rewrite lowest_free_app. destruct (forallb b_used l1) eqn:Hu.
  - cbn [lowest_free]. rewrite Hb. by apply Z.eqb_refl.
  - apply Z.eqb_neq. pose proof (lowest_free_lt l1 Hf 0 Hu). lia.
Qed.

(** A used block with a free one split off behind it. *)
Lemma chain_insert m m' l1 n n2 l3 : seg m 0 0 l1 (before l1) (total l1) ->
  block_ok (Block true n) -> let ptr2 := total l1 + 8 + n in block_ok (Block false (n2 - ptr2 - 8)) ->
  (forall i, 0 <= i < total l1 -> m' !! i = m !! i) ->
  m' !! total l1 = Some (Mem ptr2 (before l1) 1) -> m' !! ptr2 = Some (Mem n2 (total l1) 0) ->
  chain m' ptr2 n2 l3 -> chain m' 0 0 (l1 ++ Block true n :: Block false (n2 - ptr2 - 8) :: l3).
Proof.
  intros H1 Hn ptr2 Hs F1 F2 F3 F4. eapply chain_join; [exact H1|exact F1|]. cbn [chain b_size].
  fold ptr2. by replace (ptr2 + 8 + (n2 - ptr2 - 8)) with n2 by lia.
Qed.

(** ** [take_block], in two parts: splitting, and [lfree] *)
Lemma split_block_ok h l1 s l2 size : heap_ok h (l1 ++ Block false s :: l2) ->
  12 <= size <= s -> size mod 4 = 0 ->
  exists m', split_block (total l1) size h = (Ret tt, MemHeap m' (bytes_at h) (lfree h)) /\
    chain m' 0 0 (l1 ++ taken size s l2).
Proof.
  intros [Hc _ _] Hsz Hmod.
  destruct (chain_at _ _ _ _ Hc) as (H1 & Hm & [Hs1 Hs2] & H2 & Ht & Hal & Ht2 & Hend & Hf1 & Hf2).
  destruct (chain_head _ _ _ _ H2) as (x & Hx & Hh). cbn [b_size] in *. rewrite ram_end_val in *.
  unfold split_block. cstep (header_at _ _ _ Hm). cbn [m_next].
  autorewrite with heap. rewrite u32_small by lia. unfold taken.
  replace (size + 8 + 12 <=? total l1 + 8 + s - (total l1 + 8)) with (size + 20 <=? s)
    by (apply eq_true_iff_eq; rewrite !Z.leb_le; lia).
  destruct (Z.leb_spec (size + 20) s); cbv zeta.
  2:{ rewrite (set_used_at _ _ _ _ Hm). eexists. split; [reflexivity|].
      eapply chain_join; [exact H1|intros; heap_lookup|]. cbn [chain b_size].
      split_and!; [heap_lookup|done|]. eapply chain_frame; [|exact H2]. intros. heap_lookup. }
  rewrite (u16_small (total l1 + 8 + size)) by lia. set (ptr2 := total l1 + 8 + size) in *.
  set (n2 := total l1 + 8 + s) in *.
  set (h1 := put h ptr2 (Mem n2 (total l1) 0)).
  assert (Hm1 : ram h1 !! total l1 = Some (Mem n2 (before l1) 0)) by (unfold h1, ptr2; heap_lookup).
  rewrite (bind_ret (set_header _ _) _ h tt h1) by done.
  cstep (set_next_at _ _ _ _ Hm1). cbn [m_prev m_used].
  set (h2 := put h1 (total l1) _).
  assert (Hm2 : ram h2 !! total l1 = Some (Mem ptr2 (before l1) 0)) by (unfold h2; heap_lookup).
  cstep (set_used_at _ _ _ _ Hm2).
  cbn [m_prev m_next].
  assert (Hn : block_ok (Block true size)) by (split; cbn; lia).
  assert (Hs : block_ok (Block false (n2 - ptr2 - 8)))
    by (split; cbn; unfold n2, ptr2; Z.to_euclidean_division_equations; lia).
  pose proof (fun m' => chain_insert _ m' l1 size n2 l2 H1 Hn Hs) as Hgo. fold ptr2 in Hgo. cbv zeta in Hgo.
  replace (s - 8 - size) with (n2 - ptr2 - 8) by (unfold n2, ptr2; lia).
  destruct (Z.eqb_spec n2 22528) as [Hn2|Hn2]; cbn [negb].
  - eexists. split; [reflexivity|]. apply Hgo; unfold h2, h1, ptr2; try (intros; heap_lookup).
    destruct l2 as [|b2 l3].
    + destruct H2 as [_ [pr Hpr]]. split; [done|]. exists pr. rewrite <- Hpr. heap_lookup.
    + destruct H2 as (_ & [Hb _] & H3). cbn [total] in *. pose proof (chain_facts _ _ _ _ H3).
      inversion_clear Hf2 as [|?? _ Hf3]. pose proof (total_nonneg _ Hf3). lia.
  - rewrite (set_prev_at _ n2 x) by (unfold h2, h1, n2, ptr2; heap_lookup). eexists. split; [reflexivity|].
    apply Hgo; unfold h2, h1, ptr2, n2; try (intros; heap_lookup).
    eapply chain_relink_frame; [exact H2|exact Hx|heap_lookup|]. intros. unfold n2, ptr2 in *. heap_lookup.
Qed.

Lemma taken_total size s l : total (taken size s l) = 8 + s + total l.
Proof. unfold taken. destruct (_ <=? _); cbn [total b_size]; lia. Qed.

Lemma adjust_lfree_ok h m' l1 s l2 size : heap_ok h (l1 ++ Block false s :: l2) ->
  chain m' 0 0 (l1 ++ taken size s l2) ->
  exists h', adjust_lfree (total l1) (MemHeap m' (bytes_at h) (lfree h)) = (Ret tt, h') /\
    ram h' = m' /\ bytes_at h' = bytes_at h /\ lfree h' = lowest_free 0 (l1 ++ taken size s l2).
Proof.
  intros [Hc _ Hlf] Hc'. destruct (chain_at _ _ _ _ Hc) as (_ & _ & _ & _ & Ht & _ & _ & _ & Hf1 & _).
  set (h1 := MemHeap m' (bytes_at h) (lfree h)). unfold adjust_lfree.
  rewrite (bind_ret (gets lfree) _ h1 (lfree h) h1) by done.
  rewrite Hlf, lowest_free_eq, <- Hlf by done.
  rewrite lowest_free_app. destruct (forallb b_used l1) eqn:Hu.
  2:{ exists h1. split_and!; [done..|]. cbn [h1 lfree]. by rewrite Hlf, lowest_free_app, Hu. }
  assert (lfree h = total l1) as ->.
  { rewrite Hlf, lowest_free_app, Hu. cbn [lowest_free b_used]. lia. }
  apply chain_app in Hc' as (p & o & H1 & H2). destruct (seg_before _ _ _ _ H1) as [-> ->].
  pose proof (chain_fuel h1 _ _ _ H2 Ht) as Hfu.
  destruct (next_free_ok _ walk_fuel _ _ h1 H2) as (Hn & x & Hx & Hax); [lia|done|].
  cstep Hn. set (lf := lowest_free (total l1) (taken size s l2)) in *.
  exists (with_lfree h1 lf).
  rewrite (bind_ret (set_lfree lf) _ h1 tt (with_lfree h1 lf)) by done.
  rewrite (bind_ret (header lf) _ _ x (with_lfree h1 lf)) by (by apply header_at).
  split_and!; [by apply assert_true|done..].
Qed.

Lemma taken_plugged l1 s l2 size : no_free_pair (l1 ++ Block false s :: l2) ->
  no_free_pair (l1 ++ taken size s l2).
Proof.
  intros [H1 H2]%no_free_pair_app.
  assert (H3 : no_free_pair l2) by (destruct l2; [done|by destruct H2]).
  unfold taken. destruct (size + 20 <=? s); by apply no_free_pair_used.
Qed.

Lemma take_block_ok h l1 s l2 size : heap_ok h (l1 ++ Block false s :: l2) ->
  12 <= size <= s -> size mod 4 = 0 ->
  exists h', take_block (total l1) size h = (Ret (Some (data_at l1)), h') /\
    heap_ok h' (l1 ++ taken size s l2) /\ bytes_at h' = bytes_at h.
Proof.
  intros Hok Hsz Hmod. pose proof Hok as [Hc Hp _].
  destruct (chain_at _ _ _ _ Hc) as (_ & _ & [Hs1 Hs2] & _ & Ht & Hal & Ht2 & Hend & _ & _).
  cbn [b_size] in *. rewrite ram_end_val in *.
  destruct (split_block_ok h l1 s l2 size Hok Hsz Hmod) as (m' & Hsp & Hc').
  destruct (adjust_lfree_ok h m' l1 s l2 size Hok Hc') as (h' & Had & Hr & Hb & Hlf).
  exists h'. split_and!; [|split; [by rewrite Hr|by apply taken_plugged|done]|done].
  unfold take_block. rewrite (bind_ret _ _ _ _ _ Hsp), (bind_ret _ _ _ _ _ Had).
  change (MEM_ALIGNMENT - 1) with 3. rewrite mod4_land. change MEM_ALIGNMENT with 4. autorewrite with heap.
  rewrite Z.rem_mod_nonneg by lia.
  rewrite (bind_ret (assert_ _) _ h' tt h') by (apply assert_true, Z.leb_le; lia).
  rewrite (bind_ret (assert_ _) _ h' tt h')
    by (apply assert_true, Z.eqb_eq; Z.to_euclidean_division_equations; lia).
  by rewrite (bind_ret (assert_ _) _ h' tt h') by (by apply assert_true, Z.eqb_eq).
Qed.

(** ** The search *)
Lemma malloc_loop_ok l2 : forall n l1 h size, heap_ok h (l1 ++ l2) -> (length l2 < n)%nat ->
  12 <= size <= 22528 -> size mod 4 = 0 ->
  match find_fit size l2 with
  | Some (l3, s, l4) => exists h', malloc_loop n (total l1) size h = (Ret (Some (data_at (l1 ++ l3))), h') /\
      heap_ok h' ((l1 ++ l3) ++ taken size s l4) /\ bytes_at h' = bytes_at h
  | None => malloc_loop n (total l1) size h = (Ret None, h)
  end.
Proof.
  induction l2 as [|b l2 IH]; intros n l1 h size Hok Hn Hsz Hmod.
  - pose proof (ok_chain _ _ Hok) as Hc. rewrite app_nil_r in Hc.
    destruct (chain_facts _ _ _ _ Hc) as (He & _ & _). rewrite ram_end_val in He.
    cbn [find_fit]. destruct n; cbn [malloc_loop]; autorewrite with heap;
      by rewrite (proj2 (Z.ltb_ge _ _)) by lia.
  - destruct (chain_at _ _ _ _ (ok_chain _ _ Hok)) as (_ & Hm & [Hb1 Hb2] & _ & Ht & Hal & Ht2 & Hend & Hf1 & Hf2).
    rewrite ram_end_val in *. destruct n as [|n]; [lia|]. cbn [length] in Hn. cbn [malloc_loop].
    assert (Hfit : size <= b_size b -> total l1 < 22528 - size) by lia.
    specialize (IH n (l1 ++ [b]) h size). rewrite <- app_assoc, total_app in IH. cbn [app total] in IH.
    specialize (IH Hok ltac:(lia) Hsz Hmod). cbn [find_fit]. autorewrite with heap.
    replace (total l1 + (8 + b_size b + 0)) with (total l1 + 8 + b_size b) in IH by lia.
    destruct (Z.ltb_spec (total l1) (22528 - size)) as [Hlt|Hge].
    + cstep (header_at _ _ _ Hm). cbn [m_next m_used].
      rewrite u32_small by lia. replace (total l1 + 8 + b_size b - (total l1 + 8)) with (b_size b) by lia.
      replace (truthy (used_flag b)) with (b_used b) by (unfold used_flag; by destruct (b_used b)).
      destruct (negb (b_used b) && (size <=? b_size b)) eqn:Hfree.
      * apply andb_prop in Hfree as [Hu Hle%Z.leb_le]. destruct b as [[] s]; [done|]. cbn [b_size] in *.
        rewrite app_nil_r. apply take_block_ok; [done|lia|done].
      * destruct (find_fit size l2) as [[[l3 s1] l4]|]; cbn [mbind option_bind]; [|done].
        by replace ((l1 ++ [b]) ++ l3) with (l1 ++ b :: l3) in IH by (by rewrite <- app_assoc).
    + rewrite (proj2 (Z.leb_gt size (b_size b))) by lia. rewrite andb_false_r.
      by rewrite find_fit_none by (done || lia).
Qed.

(** ** [mem_malloc] *)
Definition round_up (size : Z) : Z := Z.max 12 (4 * ((size + 3) / 4)).

Lemma aligned_request_ok size : 0 <= size <= 65532 -> aligned_request size = round_up size.
Proof.
  intros Hs. unfold aligned_request, round_up. rewrite LWIP_MEM_ALIGN_SIZE_div by lia.
  rewrite u16_small by (Z.to_euclidean_division_equations; lia). autorewrite with heap.
  destruct (Z.ltb_spec (4 * ((size + 3) / 4)) 12); lia.
Qed.

Lemma round_up_ok size : 0 <= size -> 12 <= round_up size /\ round_up size mod 4 = 0 /\
  size <= round_up size <= Z.max 12 (size + 3).
Proof.
  intros Hs. unfold round_up. split_and!; [lia| |Z.to_euclidean_division_equations; lia..].
  destruct (Z.max_spec 12 (4 * ((size + 3) / 4))) as [[_ ->]|[_ ->]]; [|done].
  Z.to_euclidean_division_equations; lia.
Qed.

Lemma malloc_rounded_ok h l size n : heap_ok h l -> size <> 0 -> aligned_request size = n ->
  12 <= n -> n mod 4 = 0 ->
  match find_fit n l with
  | Some (l1, s, l2) => exists h', mem_malloc size h = (Ret (Some (data_at l1)), h') /\
      heap_ok h' (l1 ++ taken n s l2) /\ bytes_at h' = bytes_at h
  | None => mem_malloc size h = (Ret None, h)
  end.
Proof.
  intros Hok Hs0 Hn H12 Hmod. unfold mem_malloc. rewrite (proj2 (Z.eqb_neq _ _)) by done.
  rewrite Hn. autorewrite with heap.
  destruct (chain_facts _ _ _ _ (ok_chain _ _ Hok)) as (He & Hf & _). rewrite ram_end_val in He.
  destruct (Z.ltb_spec 22528 n); [by rewrite find_fit_none by (done || lia)|].
  destruct (lowest_free_split l) as (l1 & l2 & -> & Hu & _ & Hlow).
  apply Forall_app in Hf as [Hf1 Hf2]. pose proof (total_nonneg _ Hf1). pose proof (total_nonneg _ Hf2).
  rewrite total_app in He. rewrite (bind_ret (gets lfree) _ h (lfree h) h) by done.
  rewrite (ok_lfree _ _ Hok), Hlow, Z.add_0_l, u16_small by lia.
  assert (Hfuel : (length l2 < walk_fuel)%nat).
  { pose proof (chain_fuel h 0 0 (l1 ++ l2) (ok_chain _ _ Hok) ltac:(lia)) as Hfu.
    rewrite length_app in Hfu. lia. }
  pose proof (malloc_loop_ok l2 walk_fuel l1 h n Hok Hfuel ltac:(lia) Hmod) as Hloop.
  rewrite (find_fit_used _ _ _ Hu). by destruct (find_fit n l2) as [[[l3 s] l4]|].
Qed.

(** ** [mem_trim] *)
Definition trimmed (n s : Z) (l : list block) : list block :=
  if n =? s then Block true s :: l
  else match l with
       | Block false s2 :: l3 => Block true n :: Block false (s2 + (s - n)) :: l3
       | _ => if n + 20 <=? s then Block true n :: Block false (s - n - 8) :: l
              else Block true s :: l
       end.

(** Both ways of cutting a block write a free block at [ptr2] and link it. *)
Lemma link_new_ok h l1 x p n2 l3 n : seg (ram h) 0 0 l1 (before l1) (total l1) ->
  ram h !! total l1 = Some (Mem x (before l1) 1) -> chain (ram h) p n2 l3 ->
  0 <= total l1 -> block_ok (Block true n) ->
  let ptr2 := total l1 + 8 + n in block_ok (Block false (n2 - ptr2 - 8)) ->
  exists m',
    (set_header ptr2 (Mem n2 (total l1) 0) ;;;
     set_next (total l1) ptr2 ;;;
     (if negb (n2 =? MEM_SIZE_ALIGNED) then set_prev n2 ptr2 else ret tt)) h =
      (Ret tt, MemHeap m' (bytes_at h) (lfree h)) /\
    chain m' 0 0 (l1 ++ Block true n :: Block false (n2 - ptr2 - 8) :: l3).
Proof.
  intros H1 Hm H3 Ht Hn ptr2 Hs. pose proof Hn as [Hn1 _]. pose proof Hs as [Hs1 _]. cbn [b_size] in *.
  destruct (chain_head _ _ _ _ H3) as (y & Hy & _).
  set (h1 := put h ptr2 (Mem n2 (total l1) 0)).
  assert (Hm1 : ram h1 !! total l1 = Some (Mem x (before l1) 1)) by (unfold h1, ptr2; heap_lookup).
  rewrite (bind_ret (set_header _ _) _ h tt h1) by done.
  cstep (set_next_at _ _ _ _ Hm1). cbn [m_prev m_used].
  pose proof (fun m' => chain_insert _ m' l1 n n2 l3 H1 Hn Hs) as Hgo. fold ptr2 in Hgo. cbv zeta in Hgo.
  autorewrite with heap. destruct (Z.eqb_spec n2 22528) as [Hn2|Hn2]; cbn [negb].
  - eexists. split; [reflexivity|]. apply Hgo; unfold h1, ptr2 in *; try (intros; heap_lookup).
    destruct l3 as [|b2 l4].
    + destruct H3 as [He [pr Hpr]]. split; [done|]. exists pr. rewrite <- Hpr. heap_lookup.
    + pose proof (chain_facts _ _ _ _ H3) as (He & Hf & _). rewrite ram_end_val in He.
      inversion_clear Hf as [|?? [Hb _] Hf4]. pose proof (total_nonneg _ Hf4). cbn [total] in He. lia.
  - rewrite (set_prev_at _ n2 y) by (unfold h1, ptr2 in *; heap_lookup). eexists. split; [reflexivity|].
    apply Hgo; unfold h1, ptr2 in *; try (intros; heap_lookup).
    eapply chain_relink_frame; [exact H3|exact Hy|heap_lookup|]. intros. heap_lookup.
Qed.
