(* ===== verification/HeapThms.v ===== *)
(** * The theorems on the lwIP heap *)
From S2P Require Export HeapAlloc.

#[local] Set Warnings "-clear-no-such-hyp".

Lemma trimmed_plugged l1 s n l2 : no_free_pair (l1 ++ Block true s :: l2) ->
  no_free_pair (l1 ++ trimmed n s l2).
Proof.
  intros [H1 H2]%no_free_pair_app.
  assert (H3 : no_free_pair l2) by (destruct l2; [done|by destruct H2]).
  unfold trimmed. destruct (n =? s); [by apply no_free_pair_used|].
  destruct l2 as [|[[] s2] l3]; [destruct (n + 20 <=? s)..|]; apply no_free_pair_used; try done.
  split; [by right|done].
Qed.

Lemma lowest_free_used_block l1 s l2 : lowest_free 0 (l1 ++ Block true s :: l2) =
  if forallb b_used l1 then lowest_free (total l1 + 8 + s) l2 else lowest_free 0 l1.
Proof. rewrite lowest_free_app. cbn [lowest_free b_used b_size]. by rewrite Z.add_0_l. Qed.

(** After the cut: the new free block is linked, and [lfree] is set to [b]. *)
Lemma cut_link h l1 s l2 n n2 p l3 b : heap_ok h (l1 ++ Block true s :: l2) ->
  12 <= n -> n mod 4 = 0 -> chain (ram h) p n2 l3 ->
  let ptr2 := total l1 + 8 + n in block_ok (Block false (n2 - ptr2 - 8)) ->
  trimmed n s l2 = Block true n :: Block false (n2 - ptr2 - 8) :: l3 ->
  b = lowest_free 0 (l1 ++ trimmed n s l2) ->
  exists h', (set_header ptr2 (Mem n2 (total l1) 0) ;;;
    set_next (total l1) ptr2 ;;;
    (if negb (n2 =? MEM_SIZE_ALIGNED) then set_prev n2 ptr2 else ret tt)) (with_lfree h b) = (Ret tt, h') /\
    heap_ok h' (l1 ++ trimmed n s l2) /\ bytes_at h' = bytes_at h.
Proof.
  intros [Hc Hp _] Hn Hmod H3 ptr2 Hb Heq Hlf.
  destruct (chain_at _ _ _ _ Hc) as (H1 & Hm & _ & _ & Ht & _).
  destruct (link_new_ok (with_lfree h b) l1 _ p n2 l3 n H1 Hm H3 Ht) as (m' & Hrun & Hc');
    [split; done|exact Hb|].
  eexists. split_and!; [exact Hrun| |done]. split; cbn [ram lfree with_lfree].
  - by rewrite Heq.
  - by apply trimmed_plugged.
  - done.
Qed.

Lemma cut_block_ok h l1 s l2 n : heap_ok h (l1 ++ Block true s :: l2) ->
  12 <= n < s -> n mod 4 = 0 ->
  exists h', cut_block (total l1) (total l1) s n h = (Ret tt, h') /\
    heap_ok h' (l1 ++ trimmed n s l2) /\ bytes_at h' = bytes_at h.
Proof.
  intros Hok Hn Hmod. pose proof Hok as [Hc Hp Hlf].
  destruct (chain_at _ _ _ _ Hc) as (H1 & Hm & [Hs1 Hs2] & H2 & Ht & Hal & Ht2 & Hend & Hf1 & Hf2).
  destruct (chain_head _ _ _ _ H2) as (x & Hx & Hh). cbn [b_size used_flag b_used] in *.
  rewrite ram_end_val in *. pose proof (lowest_free_range 0 l1 Hf1) as Hr.
  pose proof (lowest_free_range (total l1 + 8 + s) l2 Hf2) as Hr2.
  unfold cut_block. cstep (header_at _ _ _ Hm). cbn [m_next].
  cstep (header_at _ _ _ Hx). autorewrite with heap.
  rewrite (u16_small (total l1 + 8 + n)) by lia. cbv zeta. rewrite lowest_free_used_block in Hlf.
  assert (Hcases : (exists s2 l3, l2 = Block false s2 :: l3) \/ m_used x = 1 /\
    trimmed n s l2 = if n + 20 <=? s then Block true n :: Block false (s - n - 8) :: l2 else Block true s :: l2).
  { unfold trimmed. rewrite (proj2 (Z.eqb_neq n s)) by lia.
    destruct l2 as [|[[] s2] l3]; [right; by destruct Hh as (_ & _ & ->)|right; cbn in Hh; by subst x|left; by eexists _, _]. }
  destruct Hcases as [(s2 & l3 & ->)|[Hu Htr]].
  - cbn [head_header used_flag b_used b_size] in Hh. subst x. cbn [m_used m_next Z.eqb].
    destruct H2 as (_ & [Hs21 Hs22] & H3). cbn [b_size total lowest_free b_used] in *.
    set (n2 := total l1 + 8 + s + 8 + s2) in *. set (ptr2 := total l1 + 8 + n) in *.
    assert (Htr : trimmed n s (Block false s2 :: l3) = Block true n :: Block false (n2 - ptr2 - 8) :: l3).
    { unfold trimmed. rewrite (proj2 (Z.eqb_neq n s)) by lia. repeat f_equal. unfold n2, ptr2. lia. }
    destruct (cut_link h l1 s _ n n2 _ l3 (if lfree h =? total l1 + 8 + s then ptr2 else lfree h)
      Hok ltac:(lia) Hmod H3) as (h' & Hrun & Hok' & Hb'); [|exact Htr| |].
    + split; cbn; unfold n2; Z.to_euclidean_division_equations; lia.
    + rewrite Htr, lowest_free_used_block. cbn [lowest_free b_used]. fold ptr2. rewrite Hlf.
      destruct (forallb b_used l1); [by rewrite Z.eqb_refl|]. by rewrite (proj2 (Z.eqb_neq _ _)) by lia.
    + exists h'. split_and!; [|done|done]. rewrite (bind_ret (gets lfree) _ h (lfree h) h) by done.
      rewrite (bind_ret _ _ h tt (with_lfree h (if lfree h =? total l1 + 8 + s then ptr2 else lfree h)));
        [exact Hrun|]. by destruct (lfree h =? _), h.
  - rewrite Hu. cbn [Z.eqb].
    replace (n + 8 + 12 <=? s) with (n + 20 <=? s) by (apply eq_true_iff_eq; rewrite !Z.leb_le; lia).
    destruct (Z.leb_spec (n + 20) s); [|exists h; by rewrite Htr].
    set (n2 := total l1 + 8 + s) in *. set (ptr2 := total l1 + 8 + n) in *.
    replace (s - n - 8) with (n2 - ptr2 - 8) in Htr by (unfold n2, ptr2; lia).
    destruct (cut_link h l1 s _ n n2 _ l2 (if ptr2 <? lfree h then ptr2 else lfree h)
      Hok ltac:(lia) Hmod H2) as (h' & Hrun & Hok' & Hb'); [|exact Htr| |].
    + split; cbn; unfold n2; Z.to_euclidean_division_equations; lia.
    + rewrite Htr, lowest_free_used_block. cbn [lowest_free b_used]. fold ptr2. rewrite Hlf.
      destruct (forallb b_used l1); [rewrite (proj2 (Z.ltb_lt _ _)) by lia; done|].
      by rewrite (proj2 (Z.ltb_ge _ _)) by lia.
    + exists h'. split_and!; [|done|done]. rewrite (bind_ret (gets lfree) _ h (lfree h) h) by done.
      rewrite (bind_ret _ _ h tt (with_lfree h (if ptr2 <? lfree h then ptr2 else lfree h)));
        [exact Hrun|]. by destruct (ptr2 <? lfree h), h.
Qed.

Lemma trim_block_ok h l1 s l2 newsize : heap_ok h (l1 ++ Block true s :: l2) ->
  0 <= newsize <= 65532 -> round_up newsize <= s ->
  exists h', mem_trim (data_at l1) newsize h = (Ret (Some (data_at l1)), h') /\
    heap_ok h' (l1 ++ trimmed (round_up newsize) s l2) /\ bytes_at h' = bytes_at h.
Proof.
  intros Hok Hns Hle. pose proof Hok as [Hc Hp Hlf].
  destruct (chain_at _ _ _ _ Hc) as (H1 & Hm & [Hs1 Hs2] & H2 & Ht & Hal & Ht2 & Hend & Hf1 & Hf2).
  destruct (round_up_ok newsize ltac:(lia)) as (Hn1 & Hn2 & _).
  unfold mem_trim. rewrite aligned_request_ok by done. set (n := round_up newsize) in *.
  cbn [b_size used_flag b_used] in *. autorewrite with heap in *. unfold data_at.
  rewrite (proj2 (Z.ltb_ge 22528 n)) by lia.
  rewrite (proj2 (Z.leb_le 0 _)), (proj2 (Z.ltb_lt _ 22528)) by lia.
  rewrite (proj2 (Z.ltb_ge _ 0)), (proj2 (Z.leb_gt 22528 _)) by lia. cbn [andb orb].
  rewrite (bind_ret (assert_ _) _ h tt h) by done. cbv zeta.
  replace (total l1 + 8 - 8) with (total l1) by lia.
  cstep (header_at _ _ _ Hm). cbn [m_next].
  rewrite (u16_small (total l1)) by lia.
  replace (total l1 + 8 + s - total l1 - 8) with s by lia. rewrite (u16_small s) by lia.
  rewrite (bind_ret (assert_ _) _ h tt h) by (apply assert_true, Z.leb_le; lia).
  rewrite (proj2 (Z.ltb_ge s n)) by lia. destruct (Z.eqb_spec n s) as [He|He].
  - exists h. split_and!; [done| |done]. unfold trimmed. by rewrite (proj2 (Z.eqb_eq _ _) He).
  - destruct (cut_block_ok h l1 s l2 n Hok ltac:(lia) Hn2) as (h' & Hrun & Hok' & Hb').
    exists h'. split_and!; [by cstep Hrun|done..].
Qed.

(** ** The live blocks *)

(** Data offset and size of each used block. *)
Fixpoint uses (o : Z) (l : list block) : list (Z * Z) :=
  match l with
  | [] => []
  | b :: l => (if b_used b then [(o + 8, b_size b)] else []) ++ uses (o + 8 + b_size b) l
  end.

Lemma uses_app o l1 l2 : uses o (l1 ++ l2) = uses o l1 ++ uses (o + total l1) l2.
Proof.
  revert o. induction l1 as [|b l1 IH]; intros o; cbn [app uses total]; [f_equal; lia|].
  rewrite IH, <- app_assoc. do 3 f_equal. lia.
Qed.

Lemma uses_taken l1 s l2 n : n <= s -> exists s', n <= s' /\
  uses 0 (l1 ++ taken n s l2) = uses 0 l1 ++ (data_at l1, s') :: uses (total l1 + 8 + s) l2.
Proof.
  intros Hn. unfold taken, data_at. rewrite uses_app. destruct (Z.leb_spec (n + 20) s).
  - exists n. split; [lia|]. cbn [uses b_used b_size app]. do 3 f_equal. lia.
  - exists s. split; [lia|]. cbn [uses b_used b_size app]. done.
Qed.

Lemma uses_freed l1 s l2 : uses 0 (freed l1 s l2) = uses 0 l1 ++ uses (total l1 + 8 + s) l2.
Proof.
  unfold freed.
  assert (Hr : exists s' l', merge_right (Block false s) l2 = Block false s' :: l' /\
    uses (total l1 + 8 + s') l' = uses (total l1 + 8 + s) l2).
  { destruct l2 as [|b2 l3]; cbn [merge_right]; [by eexists _, _|].
    destruct (b_used b2) eqn:Hb2; [by eexists _, _|]. eexists _, _. split; [done|].
    cbn [uses b_size]. rewrite Hb2. cbn [app]. f_equal. lia. }
  destruct Hr as (s' & l' & -> & <-).
  destruct l1 as [|b0 l0 _] using rev_ind; [done|]. rewrite merge_left_snoc.
  destruct (b_used b0) eqn:Hb0; rewrite !uses_app, ?total_app; cbn [uses total b_used b_size app];
    rewrite ?Hb0, ?app_nil_r; [do 2 f_equal; lia|f_equal; f_equal; lia].
Qed.

Lemma uses_trimmed l1 s l2 n : n <= s -> exists s', n <= s' /\
  uses 0 (l1 ++ trimmed n s l2) = uses 0 l1 ++ (data_at l1, s') :: uses (total l1 + 8 + s) l2.
Proof.
  intros Hn. unfold trimmed, data_at. rewrite uses_app.
  destruct (Z.eqb_spec n s) as [->|]; [by exists s|].
  destruct l2 as [|[[] s2] l3].
  - destruct (n + 20 <=? s); [by exists n|by exists s].
  - destruct (n + 20 <=? s); [|by exists s]. exists n. split; [lia|].
    cbn [uses b_used b_size app]. do 2 f_equal. f_equal; [f_equal; lia|f_equal; lia].
  - exists n. split; [lia|]. cbn [uses b_used b_size app]. do 2 f_equal. f_equal; lia.
Qed.

(** Live blocks lie apart, in order, between the header of one and the next. *)
Lemma uses_in o l q s : Forall block_ok l -> (q, s) ∈ uses o l ->
  o + 8 <= q /\ q + s <= o + total l /\ 12 <= s.
Proof.
  intros Hf. revert o. induction Hf as [|b l [Hb _] Hf IH]; intros o; [by intros ?%elem_of_nil|].
  cbn [uses total]. pose proof (total_nonneg l Hf). intros [Hq|Hq]%elem_of_app.
  - destruct (b_used b); [|by apply elem_of_nil in Hq].
    apply list_elem_of_singleton in Hq as [= -> ->]. lia.
  - apply IH in Hq. lia.
Qed.

Lemma uses_split l q s : (q, s) ∈ uses 0 l ->
  exists l1 l2, l = l1 ++ Block true s :: l2 /\ q = data_at l1.
Proof.
  assert (Hgen : forall o, (q, s) ∈ uses o l ->
    exists l1 l2, l = l1 ++ Block true s :: l2 /\ q = o + total l1 + 8).
  { induction l as [|b l IH]; intros o; [by intros ?%elem_of_nil|]. cbn [uses].
    intros [Hq|Hq]%elem_of_app.
    - destruct b as [[] s']; [|by apply elem_of_nil in Hq].
      apply list_elem_of_singleton in Hq as [= -> ->]. exists [], l. split; [done|]. cbn. lia.
    - destruct (IH _ Hq) as (l1 & l2 & -> & ->). exists (b :: l1), l2. split; [done|]. cbn [total]. lia. }
  intros (l1 & l2 & -> & ->)%Hgen. exists l1, l2. split; [done|]. unfold data_at. lia.
Qed.

Lemma uses_disjoint o l q1 s1 q2 s2 : Forall block_ok l -> (q1, s1) ∈ uses o l -> (q2, s2) ∈ uses o l ->
  (q1, s1) = (q2, s2) \/ q1 + s1 + 8 <= q2 \/ q2 + s2 + 8 <= q1.
Proof.
  intros Hf. revert o. induction Hf as [|b l [Hb _] Hf IH]; intros o; [by intros ?%elem_of_nil|].
  cbn [uses]. destruct (b_used b); cbn [app]; [|by apply IH].
  intros [H1|H1]%elem_of_cons [H2|H2]%elem_of_cons.
  - left. congruence.
  - injection H1 as -> ->. apply uses_in in H2; [|done]. right; left. lia.
  - injection H2 as -> ->. apply uses_in in H1; [|done]. right; right. lia.
  - by eapply IH.
Qed.

(** ** Sessions of a client of the heap *)
Inductive op := Malloc (size : Z) | Free (k : nat) | Trim (k : nat) (size : Z).

(** The client holds a list of pointers, each with the size it asked for; it frees
    and shrinks only what it holds. *)
Definition run_op (o : op) (live : list (Z * Z)) : cmd mem_heap (list (Z * Z)) :=
  match o with
  | Malloc size =>
      p <- mem_malloc size ;;
      ret (match p with Some q => (q, size) :: live | None => live end)
  | Free k =>
      match live !! k with
      | Some (q, _) => mem_free (Some q) ;;; ret (delete k live)
      | None => ret live
      end
  | Trim k size =>
      match live !! k with
      | Some (q, n) => if size <=? n then mem_trim q size ;;; ret (<[k := (q, size)]> live) else ret live
      | None => ret live
      end
  end.

Fixpoint run_ops (os : list op) (live : list (Z * Z)) : cmd mem_heap (list (Z * Z)) :=
  match os with
  | [] => ret live
  | o :: os => live' <- run_op o live ;; run_ops os live'
  end.

Definition op_ok (o : op) : Prop :=
  match o with Malloc n | Trim _ n => 0 <= n <= 65532 | Free _ => True end.

(** The client's pointers are distinct live blocks, each large enough. *)
Definition holds_live (l : list block) (live : list (Z * Z)) : Prop :=
  NoDup live.*1 /\ forall q n, (q, n) ∈ live -> 0 <= n /\ exists s, (q, s) ∈ uses 0 l /\ n <= s.

(** What changes when the block at [q] does and the others stay. *)
Lemma holds_live_change l l' live live' q :
  (forall q' s, q' <> q -> (q', s) ∈ uses 0 l -> (q', s) ∈ uses 0 l') ->
  holds_live l live -> NoDup live'.*1 ->
  (forall q' n, (q', n) ∈ live' -> q' <> q /\ (q', n) ∈ live \/ q' = q /\ 0 <= n /\ exists s, (q, s) ∈ uses 0 l' /\ n <= s) ->
  holds_live l' live'.
Proof.
  intros Hu [_ Hl] Hnd Hc. split; [done|]. intros q' n Hq.
  destruct (Hc _ _ Hq) as [[Hne Hq']|(-> & ? & ?)]; [|done].
  destruct (Hl _ _ Hq') as (? & s & Hs & ?). split; [done|]. exists s. auto.
Qed.

Lemma in_uses_other l1 b l2 q s : Forall block_ok (l1 ++ b :: l2) ->
  (q, s) ∈ uses 0 l1 ++ uses (total l1 + 8 + b_size b) l2 -> q <> data_at l1.
Proof.
  intros (Hf1 & [[Hb _] Hf2]%Forall_cons)%Forall_app Hq. unfold data_at.
  pose proof (total_nonneg _ Hf1).
  apply elem_of_app in Hq as [Hq|Hq]; apply uses_in in Hq; try done; lia.
Qed.

Lemma run_malloc h l size live : heap_ok h l -> holds_live l live -> 0 <= size <= 65532 ->
  exists live' h' l', run_op (Malloc size) live h = (Ret live', h') /\ heap_ok h' l' /\ holds_live l' live'.
Proof.
  intros Hok Hl Hs. cbn [run_op].
  destruct (decide (size = 0)) as [->|Hs0]; [by exists live, h, l|].
  destruct (round_up_ok size ltac:(lia)) as (Hn1 & Hn2 & Hn3).
  pose proof (malloc_rounded_ok h l size _ Hok Hs0 (aligned_request_ok size Hs) Hn1 Hn2) as Hm.
  destruct (find_fit (round_up size) l) as [[[l1 s] l2]|] eqn:Hfit.
  2:{ exists live, h, l. by cstep Hm. }
  destruct Hm as (h' & Hrun & Hok' & _). apply find_fit_Some in Hfit as [-> Hle].
  destruct (chain_facts _ _ _ _ (ok_chain _ _ Hok)) as (_ & Hf & _).
  destruct (uses_taken l1 s l2 (round_up size) Hle) as (s' & Hs' & Hu).
  assert (Huo : uses 0 (l1 ++ Block false s :: l2) = uses 0 l1 ++ uses (total l1 + 8 + s) l2)
    by (rewrite uses_app; done).
  eexists _, h', _. cstep Hrun. split_and!; [reflexivity|exact Hok'|].
  apply (holds_live_change _ _ live _ (data_at l1)) with (2 := Hl).
  - intros q' s1 _. rewrite Huo, Hu. intros [?|?]%elem_of_app; set_solver.
  - cbn [fmap list_fmap fst]. apply NoDup_cons. split; [|by destruct Hl].
    intros ([q' n] & Hq & Hin)%list_elem_of_fmap. cbn in Hq. subst q'.
    destruct Hl as [_ Hl]. destruct (Hl _ _ Hin) as (_ & s1 & Hin' & _). rewrite Huo in Hin'.
    by apply (in_uses_other _ (Block false s) _ _ _ Hf) in Hin'.
  - intros q' n [[= -> ->]|Hin]%elem_of_cons.
    + right. split_and!; [done|lia|]. exists s'. rewrite Hu. split; [set_solver|lia].
    + left. split; [|done]. destruct Hl as [_ Hl]. destruct (Hl _ _ Hin) as (_ & s1 & Hin' & _).
      rewrite Huo in Hin'. by apply (in_uses_other _ (Block false s) _ _ _ Hf) in Hin'.
Qed.

Lemma live_delete (live : list (Z * Z)) k q n : NoDup live.*1 -> live !! k = Some (q, n) ->
  NoDup (delete k live).*1 /\ forall q' n', (q', n') ∈ delete k live -> q' <> q /\ (q', n') ∈ live.
Proof.
  intros Hnd Hk. pose proof (delete_Permutation _ _ _ Hk) as Hp.
  rewrite Hp in Hnd. cbn in Hnd. apply NoDup_cons in Hnd as [Hni Hnd]. split; [done|].
  intros q' n' Hin. split; [|rewrite Hp; by right]. intros ->. apply Hni.
  apply list_elem_of_fmap. by exists (q, n').
Qed.

Lemma live_insert (live : list (Z * Z)) k q n m : NoDup live.*1 -> live !! k = Some (q, n) ->
  NoDup (<[k := (q, m)]> live).*1 /\
  forall q' n', (q', n') ∈ <[k := (q, m)]> live -> q' <> q /\ (q', n') ∈ live \/ (q', n') = (q, m).
Proof.
  intros Hnd Hk. split.
  - rewrite list_fmap_insert. cbn. by rewrite list_insert_id by (by rewrite list_lookup_fmap, Hk).
  - intros q' n' (i & Hi)%list_elem_of_lookup.
    destruct (decide (i = k)) as [->|Hne].
    + right. rewrite list_lookup_insert_eq in Hi by (by eapply lookup_lt_Some). by simplify_eq.
    + left. rewrite list_lookup_insert_ne in Hi by done. split; [|by eapply list_elem_of_lookup_2].
      intros ->. apply Hne. eapply (NoDup_lookup live.*1); [done|..]; rewrite list_lookup_fmap;
        [by rewrite Hi|by rewrite Hk].
Qed.

Lemma run_op_ok h l o live : heap_ok h l -> holds_live l live -> op_ok o ->
  exists live' h' l', run_op o live h = (Ret live', h') /\ heap_ok h' l' /\ holds_live l' live'.
Proof.
  intros Hok Hl Ho. destruct o as [size|k|k size]; [by eapply run_malloc|..]; cbn [run_op];
    destruct (live !! k) as [[q n]|] eqn:Hk; try by exists live, h, l.
  - pose proof Hl as [Hnd Hin]. destruct (Hin q n) as (_ & s & Hs & Hns); [by eapply list_elem_of_lookup_2|].
    destruct (uses_split _ _ _ Hs) as (l1 & l2 & -> & ->).
    destruct (chain_facts _ _ _ _ (ok_chain _ _ Hok)) as (_ & Hf & _).
    destruct (free_block_ok _ _ _ _ Hok) as (h' & Hrun & Hok' & _).
    destruct (live_delete live k (data_at l1) n Hnd Hk) as [Hnd' Hin'].
    exists (delete k live), h', (freed l1 s l2). cstep Hrun. split_and!; [done|done|].
    apply (holds_live_change (l1 ++ Block true s :: l2) _ live _ (data_at l1)); [|done|done|auto].
    intros q' s1 Hne. rewrite uses_freed, uses_app. cbn [uses b_used app b_size].
    intros [?|[[= -> ->]|?]%elem_of_cons]%elem_of_app; [set_solver|done|set_solver].
  - destruct (Z.leb_spec size n); [|by exists live, h, l]. cbn [op_ok] in Ho.
    pose proof Hl as [Hnd Hin]. destruct (Hin q n) as (_ & s & Hs & Hns); [by eapply list_elem_of_lookup_2|].
    destruct (uses_split _ _ _ Hs) as (l1 & l2 & -> & ->).
    destruct (chain_facts _ _ _ _ (ok_chain _ _ Hok)) as (_ & Hf & _).
    assert (Hb : block_ok (Block true s)) by (apply Forall_app in Hf as [_ Hf]; by inversion Hf).
    assert (Hr : size <= round_up size <= s).
    { destruct Hb as [Hb1 Hb2]. cbn [b_size] in *. unfold round_up. Z.to_euclidean_division_equations; lia. }
    destruct (trim_block_ok h l1 s l2 size Hok) as (h' & Hrun & Hok' & _); [lia|lia|].
    destruct (live_insert live k (data_at l1) n size Hnd Hk) as [Hnd' Hin'].
    destruct (uses_trimmed l1 s l2 (round_up size) ltac:(lia)) as (s' & Hs' & Hu).
    exists (<[k := (data_at l1, size)]> live), h', (l1 ++ trimmed (round_up size) s l2).
    cstep Hrun. split_and!; [done|done|].
    apply (holds_live_change (l1 ++ Block true s :: l2) _ live _ (data_at l1)); [|done|done|].
    + intros q' s1 Hne. rewrite Hu, uses_app. cbn [uses b_used app b_size].
      intros [?|[[= -> ->]|?]%elem_of_cons]%elem_of_app; [set_solver|done|set_solver].
    + intros q' n' Hq. destruct (Hin' _ _ Hq) as [?|[= -> ->]]; [by left|right].
      split_and!; [done|lia|]. exists s'. rewrite Hu. split; [set_solver|lia].
Qed.
