(* ===== verification/HeapProps.v ===== *)
(** * The promises of the lwIP heap *)
From S2P Require Export HeapThms.

#[local] Set Warnings "-clear-no-such-hyp".

Lemma mem_init_ok h : exists h', mem_init h = (Ret tt, h') /\ heap_ok h' [Block false 22520].
Proof.
  eexists. split; [reflexivity|]. split; cbn [ram lfree lowest_free b_used].
  - cbn [chain b_size]. rewrite ram_end_val. split_and!.
    + rewrite lookup_insert_ne by done. by rewrite lookup_insert_eq.
    + split; cbn [b_size]; [lia|done].
    + done.
    + exists 22528. by rewrite lookup_insert_eq.
  - done.
  - done.
Qed.

(** Freeing what [taken] took: the neighbours of a free block are used. *)
Lemma merge_left_used l1 b l2 : b_used b = false -> no_free_pair (l1 ++ b :: l2) ->
  forall b', merge_left l1 b' = l1 ++ [b'].
Proof.
  intros Hb Hp b'. destruct l1 as [|b0 l0 _] using rev_ind; [done|].
  rewrite <- app_assoc in Hp. apply no_free_pair_app in Hp as [_ [[Hu|Hu] _]]; [|congruence].
  by rewrite merge_left_snoc, Hu.
Qed.

Lemma freed_taken l1 s l2 n : no_free_pair (l1 ++ Block false s :: l2) ->
  exists s' l', l1 ++ taken n s l2 = l1 ++ Block true s' :: l' /\
    freed l1 s' l' = l1 ++ Block false s :: l2.
Proof.
  intros Hp. pose proof (merge_left_used l1 (Block false s) l2 eq_refl Hp) as Hml.
  apply no_free_pair_app in Hp as [_ Hp]. unfold taken, freed. destruct (Z.leb_spec (n + 20) s).
  - eexists _, _. split; [reflexivity|]. cbn [merge_right b_used b_size].
    rewrite Hml, <- app_assoc. cbn [app]. do 3 f_equal. lia.
  - eexists _, _. split; [reflexivity|].
    destruct l2 as [|b2 l3]; cbn [merge_right]; [by rewrite Hml, <- app_assoc|].
    destruct Hp as [[Hu|Hu] _]; [done|]. by rewrite Hu, Hml, <- app_assoc.
Qed.

Section CallocFrame.
Context (m : gmap Z mem) (p n : Z).
#[local] Abbreviation m' := (filter (fun im : Z * mem => overwritten p n im.1 = false) m).

Lemma filter_kept i : overwritten p n i = false -> m' !! i = m !! i.
Proof.
  intros Hi. destruct (m !! i) as [x|] eqn:Hx.
  - by apply map_lookup_filter_Some.
  - apply map_lookup_filter_None. by left.
Qed.

Lemma filter_chain l1 s l2 : p = data_at l1 -> 0 <= n <= s -> chain m 0 0 (l1 ++ Block true s :: l2) ->
  chain m' 0 0 (l1 ++ Block true s :: l2).
Proof.
  intros Hp Hn Hc. destruct (chain_at _ _ _ _ Hc) as (H1 & Hm & Hb & H2 & Ht & _).
  assert (Hk : forall i, i <= total l1 \/ total l1 + 8 + s <= i -> overwritten p n i = false).
  { intros i Hi. unfold overwritten. autorewrite with heap. rewrite Hp. unfold data_at.
    destruct (Z.ltb_spec (total l1 + 8) (i + 8)), (Z.ltb_spec i (total l1 + 8 + n)); cbn; lia. }
  eapply chain_join; [exact H1|intros; apply filter_kept, Hk; lia|]. cbn [chain b_size].
  split_and!; [rewrite filter_kept by (apply Hk; lia); done|done|].
  eapply chain_frame; [|exact H2]. intros. apply filter_kept, Hk. cbn [b_size] in *. lia.
Qed.
End CallocFrame.

Lemma zeros_lookup p n j : 0 <= j < n ->
  (list_to_map ((fun k : nat => (p + Z.of_nat k, 0)) <$> seq 0 (Z.to_nat n)) : gmap Z Z) !! (p + j) = Some 0.
Proof.
  intros Hj. apply elem_of_list_to_map_1.
  - rewrite <- list_fmap_compose. apply NoDup_fmap; [intros a b; cbn; lia|apply NoDup_seq].
  - apply list_elem_of_fmap. exists (Z.to_nat j). split; [f_equal; lia|]. apply elem_of_seq. lia.
Qed.

(** The request after rounding, with the wrap of [mem_size_t]. *)
Lemma request_ok size : 1 <= size <= 65535 ->
  let n := if size <=? 65532 then round_up size else 12 in
  aligned_request size = n /\ 12 <= n /\ n mod 4 = 0.
Proof.
  intros Hs n. unfold n. destruct (Z.leb_spec size 65532).
  - destruct (round_up_ok size ltac:(lia)) as (? & ? & _). by rewrite aligned_request_ok by lia.
  - assert (size = 65533 \/ size = 65534 \/ size = 65535) as [->|[->| ->]] by lia; done.
Qed.

Lemma malloc_above_start h l size q h1 : heap_ok h l -> 0 <= size <= 65535 ->
  mem_malloc size h = (Ret (Some q), h1) -> 8 <= q.
Proof.
  intros Hok Hs Hm. destruct (decide (size = 0)) as [->|]; [done|].
  destruct (request_ok size ltac:(lia)) as (Hn & H12 & Hmod).
  set (w := if size <=? 65532 then round_up size else 12) in *.
  pose proof (malloc_rounded_ok h l size w Hok ltac:(lia) Hn H12 Hmod) as Hr.
  destruct (find_fit w l) as [[[l1 s] l2]|] eqn:Hfit; [|congruence].
  destruct Hr as (h' & Hr & _). rewrite Hm in Hr. injection Hr as -> _.
  apply find_fit_Some in Hfit as [-> _]. destruct (chain_facts _ _ _ _ (ok_chain _ _ Hok)) as (_ & Hf & _).
  apply Forall_app in Hf as [Hf _]. pose proof (total_nonneg _ Hf). unfold data_at. lia.
Qed.

(** C25: [mem_malloc] is first fit over the blocks: the data of the first free
    block that can hold the size, rounded up to the alignment and the minimum, is
    returned, the rest of the block is split off when it can hold a block of its
    own, and otherwise NULL is returned and nothing changes.  For 65533 to 65535
    the rounding wraps in 16 bits, and a 12-byte block is searched instead. *)
Theorem mem_malloc_correct h l size : heap_ok h l -> 1 <= size <= 65535 ->
  let n := if size <=? 65532 then round_up size else 12 in
  match find_fit n l with
  | Some (l1, s, l2) => l = l1 ++ Block false s :: l2 /\ n <= s /\
      exists h', mem_malloc size h = (Ret (Some (data_at l1)), h') /\ heap_ok h' (l1 ++ taken n s l2)
  | None => mem_malloc size h = (Ret None, h)
  end.
Proof.
  intros Hok Hs n.
  pose proof (request_ok size Hs) as Hr. cbv zeta in Hr. fold n in Hr. destruct Hr as (Hn & H12 & Hmod).
  pose proof (malloc_rounded_ok h l size n Hok ltac:(lia) Hn H12 Hmod) as Hm.
  destruct (find_fit n l) as [[[l1 s] l2]|] eqn:Hfit; [|done].
  apply find_fit_Some in Hfit as [-> Hle]. destruct Hm as (h' & Hrun & Hok' & _).
  split_and!; [done|done|]. by exists h'.
Qed.

(** [mem_free] of a live block makes it free and merges it with the free
    blocks on both sides; all other blocks stay, and [mem_free(NULL)] does nothing. *)
Theorem mem_free_correct h l1 s l2 : heap_ok h (l1 ++ Block true s :: l2) ->
  mem_free None h = (Ret tt, h) /\
  exists h', mem_free (Some (data_at l1)) h = (Ret tt, h') /\ heap_ok h' (freed l1 s l2) /\
    uses 0 (freed l1 s l2) = uses 0 l1 ++ uses (total l1 + 8 + s) l2.
Proof.
  intros Hok. split; [done|]. destruct (free_block_ok h l1 s l2 Hok) as (h' & Hrun & Hok' & _).
  exists h'. split_and!; [done|done|apply uses_freed].
Qed.

(** [mem_trim] returns the pointer it was given and gives the cut-off bytes to
    the free block behind, or to a new one when they can hold it; a new size larger
    than the heap is refused with NULL, and larger than the block stops the system
    in the assertion. *)
Theorem mem_trim_correct h l1 s l2 newsize : heap_ok h (l1 ++ Block true s :: l2) ->
  0 <= newsize <= 65532 ->
  if round_up newsize <=? s then
    exists h', mem_trim (data_at l1) newsize h = (Ret (Some (data_at l1)), h') /\
      heap_ok h' (l1 ++ trimmed (round_up newsize) s l2)
  else if round_up newsize <=? 22528 then (mem_trim (data_at l1) newsize h).1 = Fault
  else mem_trim (data_at l1) newsize h = (Ret None, h).
Proof.
  intros Hok Hs. destruct (Z.leb_spec (round_up newsize) s).
  { destruct (trim_block_ok h l1 s l2 newsize Hok) as (h' & ? & ? & _); [done|done|]. by exists h'. }
  destruct (chain_at _ _ _ _ (ok_chain _ _ Hok)) as (_ & Hm & [Hs1 Hs2] & _ & Ht & _ & Ht2 & Hend & _).
  unfold mem_trim. rewrite aligned_request_ok by done. set (n := round_up newsize) in *.
  autorewrite with heap in *. cbn [b_size] in *. unfold data_at.
  destruct (Z.leb_spec n 22528).
  2:{ by rewrite (proj2 (Z.ltb_lt 22528 n)) by lia. }
  rewrite (proj2 (Z.ltb_ge 22528 n)) by lia.
  rewrite (proj2 (Z.leb_le 0 _)), (proj2 (Z.ltb_lt _ 22528)) by lia.
  rewrite (proj2 (Z.ltb_ge _ 0)), (proj2 (Z.leb_gt 22528 _)) by lia. cbn [andb orb].
  rewrite (bind_ret (assert_ _) _ h tt h) by done. cbv zeta.
  replace (total l1 + 8 - 8) with (total l1) by lia.
  cstep (header_at _ _ _ Hm). cbn [m_next]. rewrite (u16_small (total l1)) by lia.
  replace (total l1 + 8 + s - total l1 - 8) with s by lia. rewrite (u16_small s) by lia.
  rewrite (proj2 (Z.leb_gt n s)) by lia. done.
Qed.

(** C26: allocating a block and freeing it again leaves the heap with the blocks it
    had, in the same places: no fragmentation remains. *)
Theorem malloc_free_roundtrip h l size q h1 : heap_ok h l -> 1 <= size <= 65532 ->
  mem_malloc size h = (Ret (Some q), h1) ->
  exists h2, mem_free (Some q) h1 = (Ret tt, h2) /\ heap_ok h2 l.
Proof.
  intros Hok Hs Hm. destruct (round_up_ok size ltac:(lia)) as (Hn1 & Hn2 & _).
  pose proof (malloc_rounded_ok h l size _ Hok ltac:(lia) (aligned_request_ok size ltac:(lia)) Hn1 Hn2) as Hr.
  destruct (find_fit (round_up size) l) as [[[l1 s] l2]|] eqn:Hfit; [|congruence].
  apply find_fit_Some in Hfit as [-> Hle]. destruct Hr as (h' & Hrun & Hok' & _).
  rewrite Hm in Hrun. injection Hrun as -> ->.
  destruct (freed_taken l1 s l2 (round_up size) (ok_plugged _ _ Hok)) as (s' & l' & He & Hf).
  rewrite He in Hok'. destruct (free_block_ok _ _ _ _ Hok') as (h2 & Hfree & Hok2 & _).
  exists h2. by rewrite <- Hf.
Qed.

(** whatever a client does after [mem_init] (allocations of any size up to
    65532, frees and shrinks of what it holds, in any order), every call returns,
    and the blocks it holds are aligned, inside the heap, at least as large as it
    asked for, and disjoint with room for a header between them. *)
Theorem heap_session_safe h os : Forall op_ok os ->
  exists live h', (mem_init ;;; run_ops os []) h = (Ret live, h') /\
    (forall q n, (q, n) ∈ live -> 8 <= q /\ q + n <= MEM_SIZE_ALIGNED /\ q mod 4 = 0) /\
    forall i j q1 n1 q2 n2, i <> j -> live !! i = Some (q1, n1) -> live !! j = Some (q2, n2) ->
      q1 + n1 + 8 <= q2 \/ q2 + n2 + 8 <= q1.
Proof.
  intros Hos. destruct (mem_init_ok h) as (h0 & Hi & Hok0). cstep Hi.
  assert (Hrun : forall os live h l, Forall op_ok os -> heap_ok h l -> holds_live l live ->
    exists live' h' l', run_ops os live h = (Ret live', h') /\ heap_ok h' l' /\ holds_live l' live').
  { clear. induction os as [|o os IH]; intros live h l Hos Hok Hl; [by exists live, h, l|].
    inversion_clear Hos as [|?? Ho Hos']. cbn [run_ops].
    destruct (run_op_ok h l o live Hok Hl Ho) as (live1 & h1 & l1 & Hr & Hok1 & Hl1).
    cstep Hr. by eapply IH. }
  destruct (Hrun os [] h0 _ Hos Hok0) as (live & h' & l & Hr & Hok & [Hnd Hl]).
  { split; [constructor|]. by intros ?? ?%elem_of_nil. }
  exists live, h'. destruct (chain_facts _ _ _ _ (ok_chain _ _ Hok)) as (He & Hf & _).
  split_and!; [done| |].
  - intros q n Hin. destruct (Hl q n Hin) as (Hn & s & Hs & Hle).
    pose proof (uses_in _ _ _ _ Hf Hs). rewrite ram_end_val in He. autorewrite with heap.
    split_and!; [lia|lia|]. destruct (uses_split _ _ _ Hs) as (l1 & l2 & -> & ->). unfold data_at.
    apply Forall_app in Hf as [Hf1 _]. pose proof (total_aligned l1 Hf1).
    Z.to_euclidean_division_equations; lia.
  - intros i j q1 n1 q2 n2 Hne Hi1 Hj.
    destruct (Hl q1 n1) as (_ & s1 & Hs1 & ?); [by eapply list_elem_of_lookup_2|].
    destruct (Hl q2 n2) as (_ & s2 & Hs2 & ?); [by eapply list_elem_of_lookup_2|].
    destruct (uses_disjoint 0 l _ _ _ _ Hf Hs1 Hs2) as [[= -> _]|?]; [|lia].
    exfalso. apply Hne. eapply (NoDup_lookup live.*1); [done|..]; rewrite list_lookup_fmap;
      [by rewrite Hi1|by rewrite Hj].
Qed.

(** [mem_calloc] of up to 65532 bytes allocates as [mem_malloc] does and zeroes
    the bytes without touching a header; when [count * size] does not fit 16 bits,
    the block is allocated for the truncated product but the whole product is
    zeroed, and a successful allocation runs past the end of the heap. *)
Theorem mem_calloc_correct h l count size : heap_ok h l ->
  0 <= count <= 65535 -> 0 <= size <= 65535 -> 1 <= count * size ->
  if count * size <=? 65532 then
    let n := round_up (count * size) in
    match find_fit n l with
    | Some (l1, s, l2) => exists h', mem_calloc count size h = (Ret (Some (data_at l1)), h') /\
        heap_ok h' (l1 ++ taken n s l2) /\
        forall j, 0 <= j < count * size -> bytes_at h' !! (data_at l1 + j) = Some 0
    | None => mem_calloc count size h = (Ret None, h)
    end
  else 65536 <= count * size ->
    forall q h1, mem_malloc (u16 (count * size)) h = (Ret (Some q), h1) ->
      (mem_calloc count size h).1 = Fault.
Proof.
  intros Hok Hc Hs H1. unfold mem_calloc. set (N := count * size) in *.
  destruct (Z.leb_spec N 65532) as [Hle|Hgt].
  - cbv zeta. set (n := round_up N). rewrite u16_small by lia. destruct (round_up_ok N ltac:(lia)) as (Hn1 & Hn2 & Hn3).
    pose proof (malloc_rounded_ok h l N n Hok ltac:(lia) (aligned_request_ok N ltac:(lia)) Hn1 Hn2) as Hr.
    destruct (find_fit n l) as [[[l1 s] l2]|] eqn:Hfit; [|by cstep Hr].
    apply find_fit_Some in Hfit as [-> Hle']. destruct Hr as (h1 & Hrun & Hok1 & _).
    cstep Hrun.
    destruct (chain_at _ _ _ _ (ok_chain _ _ Hok)) as (_ & _ & [Hs1 _] & _ & Ht & _ & Ht2 & Hend & _).
    cbn [b_size] in *. rewrite ram_end_val in Hend.
    unfold memset0. autorewrite with heap. rewrite (proj2 (Z.leb_le _ _)) by (unfold data_at; lia).
    eexists. split_and!; [reflexivity| |].
    + destruct Hok1 as [Hc1 Hp1 Hl1]. split; cbn [ram lfree]; [|done|done].
      unfold taken in *. destruct (n + 20 <=? s); apply filter_chain; (done || lia).
    + intros j Hj. cbn [bytes_at]. apply lookup_union_Some_l. by apply zeros_lookup.
  - intros Hov q h1 Hm. pose proof (malloc_above_start h l (u16 N) q h1 Hok) as Hq.
    pose proof (u16_range N). specialize (Hq ltac:(lia) Hm). cstep Hm. unfold memset0, bind. autorewrite with heap.
    by rewrite (proj2 (Z.leb_gt _ _)) by lia.
Qed.
