(* ===== verification/HeapRuns.v ===== *)
(** * Concrete runs of the heap theorems

    [fresh]: the heap after [mem_init]; [busy]: three blocks, the second one free. *)
From S2P Require Export HeapProps.

Definition fresh : mem_heap := (mem_init (MemHeap ∅ ∅ 0)).2.
Definition busy : mem_heap :=
  ((a <- mem_malloc 100 ;; b <- mem_malloc 40 ;; c <- mem_malloc 60 ;; mem_free b) fresh).2.
Definition busy_blocks := [Block true 100; Block false 40; Block true 60; Block false 22296].

Ltac chain_tac :=
  split; [repeat first [reflexivity | by vm_compute | eexists; vm_compute; reflexivity | split]
         |repeat split; first [by left|by right]|reflexivity].

Lemma fresh_ok : heap_ok fresh [Block false 22520].
Proof. chain_tac. Qed.

Lemma busy_ok : heap_ok busy busy_blocks.
Proof. chain_tac. Qed.

Lemma mem_malloc_correct_witness :
  (exists h', mem_malloc 30 busy = (Ret (Some (data_at [Block true 100])), h') /\
     heap_ok h' [Block true 100; Block true 40; Block true 60; Block false 22296]) /\
  exists h', mem_malloc 65535 busy = (Ret (Some (data_at [Block true 100])), h') /\
     heap_ok h' [Block true 100; Block true 12; Block false 20; Block true 60; Block false 22296].
Proof.
  split; [apply (mem_malloc_correct busy busy_blocks 30 busy_ok)|
          apply (mem_malloc_correct busy busy_blocks 65535 busy_ok)]; vm_compute; split; congruence.
Defined.

Lemma mem_free_correct_witness : mem_free None busy = (Ret tt, busy) /\
  exists h', mem_free (Some (data_at [Block true 100; Block false 40])) busy = (Ret tt, h') /\
    heap_ok h' [Block true 100; Block false 22412] /\
    uses 0 [Block true 100; Block false 22412] = [(8, 100)].
Proof.
  apply (mem_free_correct busy [Block true 100; Block false 40] 60 [Block false 22296] busy_ok).
Defined.

Lemma mem_trim_correct_witness :
  exists h', mem_trim (data_at []) 50 busy = (Ret (Some (data_at [])), h') /\
    heap_ok h' [Block true 52; Block false 88; Block true 60; Block false 22296].
Proof.
  apply (mem_trim_correct busy [] 100 [Block false 40; Block true 60; Block false 22296] 50 busy_ok).
  vm_compute; split; congruence.
Defined.

Lemma malloc_free_roundtrip_witness :
  exists q h1 h2, mem_malloc 12 busy = (Ret (Some q), h1) /\ mem_free (Some q) h1 = (Ret tt, h2) /\
    heap_ok h2 busy_blocks.
Proof.
  eexists _, _.
  destruct (malloc_free_roundtrip busy busy_blocks 12 _ _ busy_ok ltac:(vm_compute; split; congruence)
    ltac:(vm_compute; reflexivity)) as (h2 & Hf & Hok).
  exists h2. split_and!; [vm_compute; reflexivity|exact Hf|exact Hok].
Defined.

Lemma heap_session_safe_witness :
  let os := [Malloc 100; Malloc 3000; Free 1%nat; Malloc 40; Trim 0%nat 8; Malloc 22528] in
  exists live h', (mem_init ;;; run_ops os []) (MemHeap ∅ ∅ 0) = (Ret live, h') /\
    (forall q n, (q, n) ∈ live -> 8 <= q /\ q + n <= MEM_SIZE_ALIGNED /\ q mod 4 = 0) /\
    forall i j q1 n1 q2 n2, i <> j -> live !! i = Some (q1, n1) -> live !! j = Some (q2, n2) ->
      q1 + n1 + 8 <= q2 \/ q2 + n2 + 8 <= q1.
Proof.
  apply (heap_session_safe (MemHeap ∅ ∅ 0)
    [Malloc 100; Malloc 3000; Free 1%nat; Malloc 40; Trim 0%nat 8; Malloc 22528]).
  repeat constructor; vm_compute; congruence.
Defined.

Lemma mem_calloc_correct_witness :
  (exists h', mem_calloc 5 8 busy = (Ret (Some (data_at [Block true 100])), h') /\
     heap_ok h' [Block true 100; Block true 40; Block true 60; Block false 22296] /\
     forall j, 0 <= j < 40 -> bytes_at h' !! (data_at [Block true 100] + j) = Some 0) /\
  (mem_calloc 256 257 busy).1 = Fault.
Proof.
  split.
  - apply (mem_calloc_correct busy busy_blocks 5 8 busy_ok); vm_compute; try split; congruence.
  - refine (mem_calloc_correct busy busy_blocks 256 257 busy_ok _ _ _ _ _ _ _);
      [vm_compute; split; congruence..|vm_compute; congruence|vm_compute; congruence|].
    vm_compute. reflexivity.
Defined.
