(* ===== verification/Memp.v ===== *)
(** * Memory pools: [lwip/src/core/memp.c]

    A pool is an array of elements of one size; those that are free are linked through
    their first word, from the pool's [tab].  Addresses are integers.  The pools of the
    configuration are a parameter: where they lie, and the sizes of most structures, come
    from the compiler and the linker. *)
From S2P Require Export HeapProps.

#[local] Set Warnings "-clear-no-such-hyp".

(** [struct memp_desc]; [tab] is part of the state. *)
Record memp_desc := MempDesc {
  d_size : Z;      (* u16_t, aligned *)
  d_num : Z;       (* u16_t *)
  d_base : Z
}.

(** [*desc->tab] by the number of the pool, and the links in the free elements. *)
Record memps := Memps {
  tab : nat -> option Z;
  memp_next : gmap Z (option Z)
}.

Definition MEMP_SIZE := 0.
Definition LWIP_MEM_ALIGN (addr : Z) : Z :=
  Z.land (u32 (addr + MEM_ALIGNMENT - 1)) (u32 (Z.lnot (MEM_ALIGNMENT - 1))).

#[local] Abbreviation M := (cmd memps).

Definition next_of (p : Z) : M (option Z) := fun s =>
  match memp_next s !! p with Some v => (Ret v, s) | None => (Fault, s) end.
Definition set_memp_next (p : Z) (v : option Z) : M unit :=
  modify (fun s => Memps (tab s) (<[p := v]> (memp_next s))).
Definition set_tab (i : nat) (v : option Z) : M unit :=
  modify (fun s => Memps (fun j => if (j =? i)%nat then v else tab s j) (memp_next s)).

(** [for (i = 0; i < desc->num; ++i)] *)
Fixpoint init_loop (n : nat) (i : nat) (memp size : Z) : M unit :=
  match n with
  | O => ret tt
  | S n =>
      t <- gets (fun s => tab s i) ;;
      set_memp_next memp t ;;;
      set_tab i (Some memp) ;;;
      init_loop n i (memp + MEMP_SIZE + size) size
  end.

Definition memp_init_pool (i : nat) (d : memp_desc) : M unit :=
  set_tab i None ;;;
  init_loop (Z.to_nat (d_num d)) i (LWIP_MEM_ALIGN (d_base d)) (d_size d).

(** [for (i = 0; i < LWIP_ARRAYSIZE(memp_pools); i++)] *)
Fixpoint init_pools (i : nat) (pools : list memp_desc) : M unit :=
  match pools with
  | [] => ret tt
  | d :: pools => memp_init_pool i d ;;; init_pools (S i) pools
  end.

Definition do_memp_malloc_pool (i : nat) : M (option Z) :=
  memp <- gets (fun s => tab s i) ;;
  match memp with
  | Some memp =>
      next <- next_of memp ;;
      set_tab i next ;;;
      assert_ (memp mod MEM_ALIGNMENT =? 0) ;;;
      ret (Some (memp + MEMP_SIZE))
  | None => ret None
  end.

Definition do_memp_free_pool (i : nat) (mem : Z) : M unit :=
  assert_ (mem mod MEM_ALIGNMENT =? 0) ;;;
  let memp := mem - MEMP_SIZE in
  t <- gets (fun s => tab s i) ;;
  set_memp_next memp t ;;;
  set_tab i (Some memp).

Section Memp.
Context (memp_pools : list memp_desc).

Definition memp_init : M unit := init_pools 0 memp_pools.

Definition memp_malloc (type_ : nat) : M (option Z) :=
  assert_ (type_ <? length memp_pools)%nat ;;;
  do_memp_malloc_pool type_.

Definition memp_free (type_ : nat) (mem : option Z) : M unit :=
  assert_ (type_ <? length memp_pools)%nat ;;;
  match mem with
  | Some mem => do_memp_free_pool type_ mem
  | None => ret tt
  end.
End Memp.

(** A pool of the caller's own, by its number, or NULL. *)
Definition memp_malloc_pool (desc : option nat) : M (option Z) :=
  match desc with Some i => do_memp_malloc_pool i | None => fault end.
Definition memp_free_pool (desc : option nat) (mem : option Z) : M unit :=
  match desc, mem with
  | None, _ => fault
  | Some _, None => ret tt
  | Some i, Some mem => do_memp_free_pool i mem
  end.

(** ** The free elements of a pool *)

Fixpoint free_list (m : gmap Z (option Z)) (t : option Z) (l : list Z) : Prop :=
  match l with
  | [] => t = None
  | p :: l => t = Some p /\ exists nx, m !! p = Some nx /\ free_list m nx l
  end.

(** Walking the list; a pool has at most [n] elements. *)
Fixpoint walk_free (n : nat) (m : gmap Z (option Z)) (t : option Z) : list Z :=
  match n, t with
  | S n, Some p => p :: match m !! p with Some nx => walk_free n m nx | None => [] end
  | _, _ => []
  end.

Definition elements (d : memp_desc) : list Z :=
  (fun k : nat => LWIP_MEM_ALIGN (d_base d) + Z.of_nat k * d_size d) <$> seq 0 (Z.to_nat (d_num d)).

(** Elements have room for the link, and the pool lies in the address space. *)
Record desc_ok (d : memp_desc) : Prop := {
  size_ok : 4 <= d_size d /\ d_size d mod 4 = 0;
  num_ok : 0 <= d_num d;
  base_ok : 0 < d_base d /\ d_base d + 3 + d_num d * d_size d < 2 ^ 32
}.

(** The invariant of the pool number [i]. *)
Definition pool_ok (s : memps) (i : nat) (d : memp_desc) (l : list Z) : Prop :=
  free_list (memp_next s) (tab s i) l /\ NoDup l /\ l ⊆ elements d.

Lemma walk_free_ok m n : forall t l, free_list m t l -> (length l <= n)%nat -> walk_free n m t = l.
Proof.
  induction n as [|n IH]; intros t [|p l] Hf Hl; cbn in Hl; try lia.
  - by rewrite Hf.
  - by rewrite Hf.
  - destruct Hf as (-> & nx & Hm & Hf). cbn. rewrite Hm. by rewrite (IH nx l) by (done || lia).
Qed.

Lemma free_list_frame m m' t l : (forall p, p ∈ l -> m' !! p = m !! p) -> free_list m t l -> free_list m' t l.
Proof.
  revert t. induction l as [|p l IH]; intros t Hm; [done|]. intros (-> & nx & Hp & Hf).
  split; [done|]. exists nx. split; [rewrite Hm by left; done|]. apply IH; [|done]. intros q Hq. apply Hm. by right.
Qed.

Lemma align_ok a : 0 <= a <= 2 ^ 32 - 4 -> LWIP_MEM_ALIGN a mod 4 = 0 /\ a <= LWIP_MEM_ALIGN a <= a + 3.
Proof.
  intros Ha. change (LWIP_MEM_ALIGN a) with (LWIP_MEM_ALIGN_SIZE a). rewrite LWIP_MEM_ALIGN_SIZE_div by done.
  split; Z.to_euclidean_division_equations; lia.
Qed.

Lemma element_in d p : desc_ok d -> p ∈ elements d ->
  p mod 4 = 0 /\ 0 < p /\ LWIP_MEM_ALIGN (d_base d) <= p /\ p + d_size d <= LWIP_MEM_ALIGN (d_base d) + d_num d * d_size d.
Proof.
  intros [[H4 Hm] Hn [Hb Hlt]] (k & -> & Hk%elem_of_seq)%list_elem_of_fmap.
  destruct (align_ok (d_base d) ltac:(nia)) as [Ha Hr].
  split; [|split; [nia|split; [nia|nia]]].
  rewrite Z.add_mod, Z.mul_mod, Hm, Z.mul_0_r, Ha by lia. done.
Qed.

Lemma elements_apart d p q : desc_ok d -> p ∈ elements d -> q ∈ elements d -> p = q \/ p + d_size d <= q \/ q + d_size d <= p.
Proof.
  intros [[H4 _] _ _] (k & -> & _)%list_elem_of_fmap (j & -> & _)%list_elem_of_fmap.
  destruct (lt_eq_lt_dec k j) as [[Hl| ->]|Hl]; [right; left; nia|by left|right; right; nia].
Qed.

Lemma elements_NoDup d : desc_ok d -> NoDup (elements d).
Proof.
  intros [[H4 _] _ _]. apply NoDup_fmap; [|apply NoDup_seq]. intros k j Hkj. nia.
Qed.

Lemma elements_length d : length (elements d) = Z.to_nat (d_num d).
Proof. unfold elements. by rewrite length_fmap, length_seq. Qed.

Lemma pool_free_short s i d l : pool_ok s i d l -> (length l <= Z.to_nat (d_num d))%nat.
Proof.
  intros (_ & Hnd & Hsub). rewrite <- elements_length. by apply submseteq_length, NoDup_submseteq.
Qed.

(** ** Each operation *)
Lemma malloc_pool_ok s i d l : desc_ok d -> pool_ok s i d l ->
  match l with
  | [] => do_memp_malloc_pool i s = (Ret None, s)
  | p :: l' => exists s', do_memp_malloc_pool i s = (Ret (Some p), s') /\ pool_ok s' i d l' /\
      (p ∈ elements d /\ p ∉ l') /\ memp_next s' = memp_next s /\ (forall j, j <> i -> tab s' j = tab s j)
  end.
Proof.
  intros Hd (Hf & Hnd & Hsub). unfold do_memp_malloc_pool. cstep (eq_refl (gets (fun s => tab s i) s)).
  destruct l as [|p l]; [by rewrite Hf|]. destruct Hf as (-> & nx & Hp & Hf).
  apply NoDup_cons in Hnd as [Hni Hnd]. assert (Hin : p ∈ elements d) by (apply Hsub; left).
  destruct (element_in d p Hd Hin) as (Hmod & _).
  rewrite (bind_ret (next_of p) _ s nx s) by (unfold next_of; by rewrite Hp).
  eexists. rewrite (bind_ret (set_tab i nx) _ s tt _) by reflexivity. change MEM_ALIGNMENT with 4.
  rewrite Hmod, (bind_ret (assert_ _) _ _ tt _) by reflexivity. unfold MEMP_SIZE. rewrite Z.add_0_r.
  split; [reflexivity|]. split; [split; [|split; [done|]]|split; [done|split; [done|]]]; cbn.
  - by rewrite Nat.eqb_refl.
  - intros q Hq. apply Hsub. by right.
  - intros j Hj. by rewrite (proj2 (Nat.eqb_neq j i)).
Qed.

Lemma free_pool_ok s i d l p : desc_ok d -> pool_ok s i d l -> p ∈ elements d -> p ∉ l ->
  exists s', do_memp_free_pool i p s = (Ret tt, s') /\ pool_ok s' i d (p :: l) /\
    memp_next s' = <[p := tab s i]> (memp_next s) /\ (forall j, j <> i -> tab s' j = tab s j).
Proof.
  intros Hd (Hf & Hnd & Hsub) Hin Hni. destruct (element_in d p Hd Hin) as (Hmod & _).
  unfold do_memp_free_pool. change MEM_ALIGNMENT with 4. unfold MEMP_SIZE.
  rewrite Hmod, (bind_ret (assert_ _) _ s tt s) by reflexivity. rewrite Z.sub_0_r.
  eexists. split; [reflexivity|]. split; [|split; [done|]].
  - split; [|split; [by apply NoDup_cons|]]; cbn.
    + rewrite Nat.eqb_refl. split; [done|]. exists (tab s i). rewrite lookup_insert_eq. split; [done|].
      eapply free_list_frame; [|exact Hf]. intros q Hq. rewrite lookup_insert_ne; [done|]. by intros ->.
    + intros q [->|Hq]%elem_of_cons; [done|by apply Hsub].
  - intros j Hj. cbn. by rewrite (proj2 (Nat.eqb_neq j i)).
Qed.

(** ** [memp_init]: every element is free *)
Lemma init_loop_ok n : forall s i l memp size, free_list (memp_next s) (tab s i) l -> (forall q, q ∈ l -> q < memp) -> NoDup l ->
  0 < size ->
  let more := (fun k : nat => memp + Z.of_nat k * size) <$> seq 0 n in
  exists s', init_loop n i memp size s = (Ret tt, s') /\
    free_list (memp_next s') (tab s' i) (reverse more ++ l) /\ NoDup (reverse more ++ l) /\
    (forall j, j <> i -> tab s' j = tab s j) /\ (forall q, q ∉ more -> memp_next s' !! q = memp_next s !! q).
Proof.
  induction n as [|n IH]; intros s i l memp size Hf Hlt Hnd Hsz more; [by exists s|].
  assert (Hmore : more = memp :: ((fun k : nat => memp + size + Z.of_nat k * size) <$> seq 0 n)).
  { unfold more. cbn [seq fmap list_fmap]. f_equal; [lia|]. rewrite <- fmap_S_seq, <- list_fmap_compose.
    apply list_fmap_ext. intros k x _. cbn. lia. }
  cbn [init_loop]. cstep (eq_refl (gets (fun s => tab s i) s)).
  rewrite (bind_ret (set_memp_next memp _) _ s tt _) by reflexivity.
  rewrite (bind_ret (set_tab i _) _ _ tt _) by reflexivity. unfold MEMP_SIZE. rewrite Z.add_0_r.
  set (s1 := Memps _ _). destruct (IH s1 i (memp :: l) (memp + size) size) as (s' & Hr & Hf' & Hnd' & Ht & Hn').
  - unfold s1. cbn. rewrite Nat.eqb_refl. split; [done|]. exists (tab s i). rewrite lookup_insert_eq. split; [done|].
    eapply free_list_frame; [|exact Hf]. intros q Hq. apply lookup_insert_ne. specialize (Hlt q Hq). lia.
  - intros q [->|Hq]%elem_of_cons; [lia|]. specialize (Hlt q Hq). lia.
  - apply NoDup_cons. split; [|done]. intros Hq. specialize (Hlt _ Hq). lia.
  - done.
  - exists s'. split; [done|]. rewrite Hmore, reverse_cons, <- app_assoc. cbn [app]. split; [done|]. split; [done|].
    split; [intros j Hj; rewrite Ht by done; unfold s1; cbn; by rewrite (proj2 (Nat.eqb_neq j i))|].
    intros q [Hq Hq']%not_elem_of_cons. rewrite Hn' by done. unfold s1. cbn. by apply lookup_insert_ne.
Qed.

Lemma init_pool_ok s i d : desc_ok d -> exists s', memp_init_pool i d s = (Ret tt, s') /\
  pool_ok s' i d (reverse (elements d)) /\ (forall j, j <> i -> tab s' j = tab s j) /\
  (forall q, q ∉ elements d -> memp_next s' !! q = memp_next s !! q).
Proof.
  intros Hd. unfold memp_init_pool. rewrite (bind_ret (set_tab i None) _ s tt _) by reflexivity. set (s1 := Memps _ _).
  pose proof Hd as [[H4 _] _ _].
  destruct (init_loop_ok (Z.to_nat (d_num d)) s1 i [] (LWIP_MEM_ALIGN (d_base d)) (d_size d)) as (s' & Hr & Hf & Hnd & Ht & Hn).
  - unfold s1. cbn. by rewrite Nat.eqb_refl.
  - by intros q Hq%elem_of_nil.
  - constructor.
  - lia.
  - fold (elements d) in *. rewrite app_nil_r in *. exists s'. split; [done|]. split; [split; [done|split; [done|]]|split; [|done]].
    + intros q. by rewrite reverse_Permutation.
    + intros j Hj. rewrite Ht by done. unfold s1. cbn. by rewrite (proj2 (Nat.eqb_neq j i)).
Qed.
