(* ===== verification/Memory.v ===== *)
(** * The allocators together: the heap and the pools in one address space

    Everything the stack allocates comes from [mem_malloc] or from a pool.  [granted] lists
    what is in use, with its place and size; the interface [Allocator] of the packet
    buffers is implemented by the functions of [mem.c] and [memp.c]. *)
From S2P Require Export Pbuf Memp.

#[local] Set Warnings "-clear-no-such-hyp".

(** [memp_t], in the order of [memp_std.h] (the pools of the configuration); [None] is the heap. *)
Definition MEMP_MAX : nat := 13.
Definition memp_type (k : akind) : option nat :=
  match k with
  | RAM => None
  | MEMP_NETBUF => Some 6%nat
  | MEMP_PBUF => Some 11%nat
  | MEMP_PBUF_POOL => Some 12%nat
  end.

(** UDP_PCB, TCP_PCB, TCP_PCB_LISTEN, TCP_SEG, REASSDATA, FRAG_PBUF, NETBUF, NETCONN,
    TCPIP_MSG_API, TCPIP_MSG_INPKT, SYS_TIMEOUT, PBUF, PBUF_POOL *)
Definition memp_nums : list Z := [6; 10; 6; 22; 5; 15; 10; 4; 8; 8; 10; 15; 9].

Definition pool_end (d : memp_desc) : Z := LWIP_MEM_ALIGN (d_base d) + d_num d * d_size d.

(** Where the compiler and the linker put the pools and the heap, and what memory holds
    before it is written. *)
Class MempLayout := {
  memp_pools : list memp_desc;
  ram_heap : Z;
  stale_struct : ptr -> pbuf;
  stale_byte : Z -> Z;
  layout_nums : d_num <$> memp_pools = memp_nums;
  layout_sizes : forall d, (memp_pools !! 11%nat = Some d -> d_size d = SIZEOF_STRUCT_PBUF) /\
    (memp_pools !! 12%nat = Some d -> d_size d = SIZEOF_STRUCT_PBUF + PBUF_POOL_BUFSIZE_ALIGNED);
  layout_pools : forall i d, memp_pools !! i = Some d -> desc_ok d;
  layout_ram : 0 < ram_heap /\ ram_heap mod 4 = 0;
  layout_apart : forall i j d e, i <> j -> memp_pools !! i = Some d -> memp_pools !! j = Some e ->
    pool_end d <= LWIP_MEM_ALIGN (d_base e) \/ pool_end e <= LWIP_MEM_ALIGN (d_base d);
  layout_heap : forall i d, memp_pools !! i = Some d ->
    pool_end d <= ram_heap \/ ram_heap + MEM_SIZE_ALIGNED <= LWIP_MEM_ALIGN (d_base d)
}.

(** ** Ranges of memory *)

(** What is in use: its pool (or the heap), its address and its size. *)
Definition range : Type := option nat * Z * Z.
Definition addr (x : range) : Z := x.1.2.
Definition ext (x : range) : Z := x.2.
Definition disj (x y : range) : Prop := addr x + ext x <= addr y \/ addr y + ext y <= addr x.

#[export] Instance disj_sym : Symmetric disj.
Proof. intros x y [?|?]; [by right|by left]. Qed.

Fixpoint apart (l : list range) : Prop :=
  match l with [] => True | x :: l => Forall (disj x) l /\ apart l end.

Lemma apart_app l1 l2 : apart (l1 ++ l2) <-> apart l1 /\ apart l2 /\ forall x y, x ∈ l1 -> y ∈ l2 -> disj x y.
Proof.
  induction l1 as [|x l1 IH]; cbn [app apart].
  - split; [|by intros (_ & ? & _)]. intros H. split; [done|]. split; [done|]. by intros x y Hx%elem_of_nil.
  - rewrite IH, Forall_app, !Forall_forall. split.
    + intros ([H1 H2] & H3 & H4 & H5). split_and!; [done|done|done|].
      intros x' y [->|Hx]%elem_of_cons Hy; [by apply H2|by apply H5].
    + intros ([H1 H3] & H4 & H5). split; [split; [done|]|split; [done|split; [done|]]].
      * intros y Hy. apply H5; [left|done].
      * intros x' y Hx Hy. apply H5; [by right|done].
Qed.

#[export] Instance apart_perm : Proper ((≡ₚ) ==> iff) apart.
Proof.
  assert (Hgo : forall l1 l2, l1 ≡ₚ l2 -> apart l1 -> apart l2).
  { induction 1 as [|x l1 l2 Hp IH|x y l|l1 l2 l3 _ IH1 _ IH2]; cbn [apart]; [done| | |auto].
    - intros [Hf Ha]. split; [by rewrite <- Hp|auto].
    - intros ([Hy Hf]%Forall_cons & Hg & Ha). split; [constructor; [by symmetry|done]|done]. }
  intros l1 l2 Hp. split; apply Hgo; [done|by symmetry].
Qed.

Lemma apart_NoDup l : Forall (fun x => 0 < ext x) l -> apart l -> NoDup (addr <$> l).
Proof.
  induction l as [|x l IH]; intros Hf Ha; [constructor|]. apply Forall_cons in Hf as [Hx Hf]. destruct Ha as [Hd Ha].
  cbn. apply NoDup_cons. split; [|auto]. intros (y & Hy & Hin)%list_elem_of_fmap.
  rewrite Forall_forall in Hd, Hf. specialize (Hd y Hin). specialize (Hf y Hin). unfold disj in Hd. lia.
Qed.

Lemma apart_lookup l i j x y : apart l -> i <> j -> l !! i = Some x -> l !! j = Some y -> disj x y.
Proof.
  revert i j. induction l as [|z l IH]; intros i j; [done|]. intros [Hf Ha] Hij Hx Hy. rewrite Forall_forall in Hf.
  destruct i as [|i], j as [|j]; [done| | |by apply (IH i j); [done|congruence|..]]; cbn in Hx, Hy.
  - injection Hx as ->. apply Hf. by eapply list_elem_of_lookup_2.
  - injection Hy as ->. symmetry. apply Hf. by eapply list_elem_of_lookup_2.
Qed.

(** ** The heap's blocks, read from its headers *)
Fixpoint walk_blocks (n : nat) (i : Z) (h : mem_heap) : list block :=
  match n with
  | O => []
  | S n =>
      if i =? ram_end then [] else
      match ram h !! i with
      | Some m => Block (truthy (m_used m)) (m_next m - i - 8) :: walk_blocks n (m_next m) h
      | None => []
      end
  end.
Definition heap_blocks (h : mem_heap) : list block := walk_blocks walk_fuel 0 h.

Lemma walk_blocks_ok n : forall p o l h, chain (ram h) p o l -> 0 <= o -> (length l < n)%nat -> walk_blocks n o h = l.
Proof.
  induction n as [|n IH]; intros p o [|b l] h Hc Ho Hl; cbn [length] in Hl; try lia; cbn [walk_blocks].
  - destruct Hc as [-> _]. by rewrite Z.eqb_refl.
  - pose proof (chain_facts _ _ _ _ Hc) as (He & [[Hb _] Hf]%Forall_cons & _). pose proof (total_nonneg _ Hf) as Ht.
    destruct Hc as (Hm & _ & Hc). cbn [total] in He. rewrite (proj2 (Z.eqb_neq _ _)) by lia. rewrite Hm. cbn [m_used m_next].
    rewrite (IH _ _ _ _ Hc ltac:(lia) ltac:(lia)). f_equal. destruct b as [[] s]; unfold used_flag; cbn; f_equal; lia.
Qed.

Lemma heap_blocks_ok h l : heap_ok h l -> heap_blocks h = l.
Proof.
  intros [Hc _ _]. apply (walk_blocks_ok _ 0 0); [done|done|]. by eapply chain_fuel.
Qed.

(** ** The state of both allocators *)
Record memory := Memory { m_heap : mem_heap; m_pools : memps }.
#[local] Abbreviation M := (cmd memory).

Definition on_heap {B} (c : cmd mem_heap B) : M B := fun s =>
  let '(r, h) := c (m_heap s) in (r, Memory h (m_pools s)).
Definition on_pools {B} (c : cmd memps B) : M B := fun s =>
  let '(r, ps) := c (m_pools s) in (r, Memory (m_heap s) ps).

Section Memory.
Context `{MempLayout}.

(** [lwip_init] *)
Definition memory_init : M unit := on_heap mem_init ;;; on_pools (memp_init memp_pools).

(** [mem_malloc(n)], [memp_malloc(type)]; the size is a [mem_size_t]. *)
Definition alloc (k : akind) (n : Z) : M (option Z) :=
  match memp_type k with
  | None => q <- on_heap (mem_malloc (u16 n)) ;; ret (Z.add ram_heap <$> q)
  | Some i => on_pools (memp_malloc memp_pools i)
  end.

(** [mem_free(p)], [memp_free(type, p)] *)
Definition free_in (o : option nat) (p : Z) : M unit :=
  match o with
  | None => on_heap (mem_free (Some (p - ram_heap)))
  | Some i => on_pools (memp_free memp_pools i (Some p))
  end.

(** [mem_trim(p, n)] *)
Definition trim (p n : Z) : M (option Z) :=
  q <- on_heap (mem_trim (p - ram_heap) (u16 n)) ;; ret (Z.add ram_heap <$> q).

(** What is in use. *)
Definition heap_range (x : Z * Z) : range := (None, ram_heap + x.1, x.2).
Definition heap_holds (h : mem_heap) : list range := heap_range <$> uses 0 (heap_blocks h).
Definition pool_holds (ps : memps) (i : nat) (d : memp_desc) : list range :=
  let l := walk_free (Z.to_nat (d_num d)) (memp_next ps) (tab ps i) in
  (fun p => (Some i, p, d_size d)) <$> filter (fun p => p ∉ l) (elements d).
Fixpoint pools_holds (ps : memps) (i : nat) (pools : list memp_desc) : list range :=
  match pools with
  | [] => []
  | d :: pools => pool_holds ps i d ++ pools_holds ps (S i) pools
  end.
Definition granted s : list range := heap_holds (m_heap s) ++ pools_holds (m_pools s) 0 memp_pools.

Record memory_ok s : Prop := {
  ok_heap : exists l, heap_ok (m_heap s) l;
  ok_pools : forall i d, memp_pools !! i = Some d -> exists l, pool_ok (m_pools s) i d l
}.

(** ** What is in use lies apart *)
Lemma pool_holds_free ps i d l : pool_ok ps i d l ->
  pool_holds ps i d = (fun p => (Some i, p, d_size d)) <$> filter (fun p => p ∉ l) (elements d).
Proof. intros Hp. unfold pool_holds. rewrite (walk_free_ok _ _ _ l); [done|apply Hp|by eapply pool_free_short]. Qed.

Lemma pool_holds_in ps i d x : desc_ok d -> x ∈ pool_holds ps i d ->
  x.1.1 = Some i /\ addr x ∈ elements d /\ ext x = d_size d /\ 0 < addr x /\ 0 < ext x /\
  LWIP_MEM_ALIGN (d_base d) <= addr x /\ addr x + ext x <= pool_end d.
Proof.
  intros Hd (p & -> & [_ Hin]%list_elem_of_filter)%list_elem_of_fmap. pose proof (element_in d p Hd Hin) as (_ & Hp & Hl & Hr).
  pose proof (size_ok _ Hd). unfold addr, ext, pool_end. cbn. split_and!; done || lia.
Qed.

Lemma pools_holds_in ps i pools x : x ∈ pools_holds ps i pools ->
  exists j d, pools !! j = Some d /\ x ∈ pool_holds ps (i + j) d.
Proof.
  revert i. induction pools as [|d pools IH]; intros i; [by intros Hx%elem_of_nil|]. cbn [pools_holds].
  intros [Hx|Hx]%elem_of_app; [exists 0%nat, d; by rewrite Nat.add_0_r|].
  destruct (IH _ Hx) as (j & e & Hj & He). exists (S j), e. split; [done|]. by rewrite Nat.add_succ_r.
Qed.

Lemma heap_holds_in h l x : heap_ok h l -> x ∈ heap_holds h ->
  x.1.1 = None /\ 0 < addr x /\ 0 < ext x /\ ram_heap <= addr x /\ addr x + ext x <= ram_heap + MEM_SIZE_ALIGNED.
Proof.
  intros Hh ([q s] & -> & Hin)%list_elem_of_fmap. rewrite (heap_blocks_ok _ _ Hh) in Hin.
  destruct (chain_facts _ _ _ _ (ok_chain _ _ Hh)) as (He & Hf & _). rewrite ram_end_val in He.
  pose proof (uses_in _ _ _ _ Hf Hin). pose proof (proj1 layout_ram). autorewrite with heap.
  unfold addr, ext. cbn. split_and!; [done|lia..].
Qed.

Lemma uses_apart o l : Forall block_ok l -> apart (heap_range <$> uses o l).
Proof.
  intros Hf. revert o. induction Hf as [|b l [Hb _] Hf IH]; intros o; [done|]. cbn [uses]. destruct (b_used b); cbn; [|apply IH].
  split; [|apply IH]. apply Forall_forall. intros y ([q s] & -> & Hin)%list_elem_of_fmap.
  apply (uses_in _ _ _ _ Hf) in Hin. left. unfold addr, ext. cbn. lia.
Qed.

Lemma pool_apart ps i d : desc_ok d -> apart (pool_holds ps i d).
Proof.
  intros Hd. unfold pool_holds. set (l := walk_free _ _ _).
  pose proof (NoDup_filter (fun p => p ∉ l) _ (elements_NoDup d Hd)) as Hnd.
  assert (Hsub : forall p, p ∈ filter (fun p => p ∉ l) (elements d) -> p ∈ elements d).
  { by intros p [_ Hp]%list_elem_of_filter. }
  revert Hnd Hsub. generalize (filter (fun p => p ∉ l) (elements d)). induction l0 as [|p l0 IH]; intros Hnd Hsub; [done|].
  apply NoDup_cons in Hnd as [Hni Hnd]. cbn. split; [|apply IH; [done|intros q Hq; apply Hsub; by right]].
  apply Forall_forall. intros y (q & -> & Hq)%list_elem_of_fmap.
  destruct (elements_apart d p q Hd (Hsub p ltac:(left)) (Hsub q ltac:(by right))) as [->|Hpq]; [done|exact Hpq].
Qed.

Lemma pools_apart ps i pools : (forall j d, pools !! j = Some d -> desc_ok d) ->
  (forall j k d e, j <> k -> pools !! j = Some d -> pools !! k = Some e ->
    pool_end d <= LWIP_MEM_ALIGN (d_base e) \/ pool_end e <= LWIP_MEM_ALIGN (d_base d)) ->
  apart (pools_holds ps i pools).
Proof.
  revert i. induction pools as [|d pools IH]; intros i Hd Ha; [done|]. cbn [pools_holds]. apply apart_app.
  split; [apply pool_apart, (Hd 0%nat); done|]. split.
  - apply IH; [intros j e Hj; by apply (Hd (S j))|]. intros j k e f Hjk Hj Hk. by apply (Ha (S j) (S k)); [lia|..].
  - intros x y Hx Hy. destruct (pools_holds_in _ _ _ _ Hy) as (j & e & Hj & Hy').
    pose proof (pool_holds_in _ _ _ _ (Hd 0%nat d eq_refl) Hx) as (_ & _ & _ & _ & _ & Hx1 & Hx2).
    pose proof (pool_holds_in _ _ _ _ (Hd (S j) e Hj) Hy') as (_ & _ & _ & _ & _ & Hy1 & Hy2).
    destruct (Ha 0%nat (S j) d e ltac:(lia) eq_refl Hj); [left|right]; lia.
Qed.

Lemma holds_in s x : memory_ok s -> x ∈ granted s -> 0 < addr x /\ 0 < ext x.
Proof.
  intros [[l Hh] Hp] [Hx|Hx]%elem_of_app.
  - by destruct (heap_holds_in _ _ _ Hh Hx) as (_ & ? & ? & _).
  - destruct (pools_holds_in _ _ _ _ Hx) as (j & d & Hj & Hx').
    by destruct (pool_holds_in _ _ _ _ (layout_pools _ _ Hj) Hx') as (_ & _ & _ & ? & ? & _).
Qed.

Lemma holds_apart s : memory_ok s -> apart (granted s).
Proof.
  intros [[l Hh] Hp]. unfold granted. apply apart_app. split; [|split].
  - unfold heap_holds. rewrite (heap_blocks_ok _ _ Hh). apply uses_apart.
    by destruct (chain_facts _ _ _ _ (ok_chain _ _ Hh)) as (_ & ? & _).
  - apply pools_apart; [apply layout_pools|apply layout_apart].
  - intros x y Hx Hy. pose proof (heap_holds_in _ _ _ Hh Hx) as (_ & _ & _ & Hx1 & Hx2).
    destruct (pools_holds_in _ _ _ _ Hy) as (j & e & Hj & Hy').
    pose proof (pool_holds_in _ _ _ _ (layout_pools _ _ Hj) Hy') as (_ & _ & _ & _ & _ & Hy1 & Hy2).
    destruct (layout_heap j e Hj); [right|left]; lia.
Qed.

Lemma holds_NoDup s : memory_ok s -> NoDup (addr <$> granted s).
Proof.
  intros Hok. apply apart_NoDup; [|by apply holds_apart]. apply Forall_forall. intros x Hx. by apply (holds_in s).
Qed.

(** ** What the operations change *)
Lemma pools_holds_ext ps ps' i pools : (forall j e, pools !! j = Some e -> pool_holds ps' (i + j) e = pool_holds ps (i + j) e) ->
  pools_holds ps' i pools = pools_holds ps i pools.
Proof.
  revert i. induction pools as [|d pools IH]; intros i He; [done|]. cbn [pools_holds].
  pose proof (He 0%nat d eq_refl) as H0. rewrite Nat.add_0_r in H0. rewrite H0. f_equal. apply IH.
  intros j e Hj. specialize (He (S j) e Hj). by rewrite Nat.add_succ_r in He.
Qed.

(** One pool has one element more in use. *)
Lemma pools_holds_change ps ps' i pools k d x : pools !! k = Some d ->
  (forall j e, j <> k -> pools !! j = Some e -> pool_holds ps' (i + j) e = pool_holds ps (i + j) e) ->
  pool_holds ps' (i + k) d ≡ₚ x :: pool_holds ps (i + k) d ->
  pools_holds ps' i pools ≡ₚ x :: pools_holds ps i pools.
Proof.
  revert i k. induction pools as [|e pools IH]; intros i k Hk Hne Hx; [done|]. cbn [pools_holds]. destruct k as [|k].
  - injection Hk as ->. rewrite Nat.add_0_r in Hx. rewrite Hx. cbn [app]. f_equiv. f_equiv. apply reflexive_eq.
    apply pools_holds_ext. intros j f Hj. specialize (Hne (S j) f ltac:(lia) Hj). by rewrite Nat.add_succ_r in Hne.
  - pose proof (Hne 0%nat e ltac:(lia) eq_refl) as H0. rewrite Nat.add_0_r in H0. rewrite H0.
    rewrite (IH (S i) k); [by rewrite Permutation_middle|done| |by rewrite Nat.add_succ_r in Hx].
    intros j f Hj Hf. specialize (Hne (S j) f ltac:(lia) Hf). by rewrite Nat.add_succ_r in Hne.
Qed.

(** An element of one pool is no element of another. *)
Lemma other_pool i j d e p : i <> j -> memp_pools !! i = Some d -> memp_pools !! j = Some e ->
  p ∈ elements d -> p ∈ elements e -> False.
Proof.
  intros Hij Hi Hj Hp Hq. pose proof (layout_pools _ _ Hi) as Hd. pose proof (layout_pools _ _ Hj) as He.
  pose proof (element_in d p Hd Hp) as (_ & _ & H1 & H2). pose proof (element_in e p He Hq) as (_ & _ & H3 & H4).
  pose proof (size_ok _ Hd). pose proof (size_ok _ He). unfold pool_end in *.
  destruct (layout_apart i j d e Hij Hi Hj) as [Hl|Hl]; unfold pool_end in Hl; lia.
Qed.

(** Taking [p] from the free elements. *)
Lemma filter_taken d p l : desc_ok d -> p ∈ elements d -> p ∉ l ->
  filter (fun q => q ∉ l) (elements d) ≡ₚ p :: filter (fun q => q ∉ p :: l) (elements d).
Proof.
  intros Hd Hp Hl. pose proof (elements_NoDup d Hd) as Hnd. apply NoDup_Permutation.
  - by apply NoDup_filter.
  - apply NoDup_cons. split; [|by apply NoDup_filter]. intros [Hq _]%list_elem_of_filter. apply Hq. by left.
  - intros q. rewrite elem_of_cons, !list_elem_of_filter, not_elem_of_cons.
    destruct (decide (q = p)) as [->|Hq]; [tauto|tauto].
Qed.

Lemma pool_ok_frame ps ps' i d l : pool_ok ps i d l -> tab ps' i = tab ps i ->
  (forall q, q ∈ l -> memp_next ps' !! q = memp_next ps !! q) -> pool_ok ps' i d l.
Proof. intros (Hf & Hr) Ht Hn. split; [|done]. rewrite Ht. by eapply free_list_frame. Qed.

(** From [ps] to [ps'] only pool [i] changes, whose free elements are [l']. *)
Lemma pools_step ps ps' i d l' x : memp_pools !! i = Some d -> pool_ok ps' i d l' ->
  (forall j e, memp_pools !! j = Some e -> exists l, pool_ok ps j e l) ->
  (forall j, j <> i -> tab ps' j = tab ps j) -> (forall q, q ∉ elements d -> memp_next ps' !! q = memp_next ps !! q) ->
  (pool_holds ps' i d ≡ₚ x :: pool_holds ps i d -> pools_holds ps' 0 memp_pools ≡ₚ x :: pools_holds ps 0 memp_pools) /\
  (pool_holds ps i d ≡ₚ x :: pool_holds ps' i d -> pools_holds ps 0 memp_pools ≡ₚ x :: pools_holds ps' 0 memp_pools) /\
  forall j e, memp_pools !! j = Some e -> exists l, pool_ok ps' j e l.
Proof.
  intros Hi Hok' Hok Ht Hn.
  assert (Hother : forall j e, j <> i -> memp_pools !! j = Some e ->
    exists l, pool_ok ps' j e l /\ pool_holds ps' j e = pool_holds ps j e).
  { intros j e Hj He. destruct (Hok j e He) as [l Hl]. assert (Hl' : pool_ok ps' j e l).
    { eapply pool_ok_frame; [done|by apply Ht|]. intros q Hq. apply Hn. intros Hq'.
      destruct Hl as (_ & _ & Hsub). eapply (other_pool i j d e q); [by apply not_eq_sym|done|done|done|by apply Hsub]. }
    exists l. split; [done|]. by rewrite (pool_holds_free ps j e l), (pool_holds_free ps' j e l). }
  split; [|split].
  - intros Hx. apply (pools_holds_change ps ps' 0 memp_pools i d x Hi); [|done].
    intros j e Hj He. by destruct (Hother j e Hj He) as (l & _ & ?).
  - intros Hx. apply (pools_holds_change ps' ps 0 memp_pools i d x Hi); [|done].
    intros j e Hj He. by destruct (Hother j e Hj He) as (l & _ & ?).
  - intros j e He. destruct (decide (j = i)) as [->|Hj]; [|by destruct (Hother j e Hj He) as (l & ? & _); exists l].
    rewrite Hi in He. injection He as <-. by exists l'.
Qed.

(** ** Allocation *)

(** What [mem_malloc(n)] is good for: the size is rounded up in 16 bits, so the three
    largest requests wrap to 0 and get the smallest block. *)
Definition usable (n : Z) : Z := if n <=? 65532 then n else 12.

(** The size [e] of what a request for [n] bytes gets. *)
Definition room (k : akind) (n e : Z) : Prop :=
  match k with
  | RAM => 0 <= n <= 65535 -> usable n <= e
  | MEMP_PBUF => e = SIZEOF_STRUCT_PBUF
  | MEMP_PBUF_POOL => e = SIZEOF_STRUCT_PBUF + PBUF_POOL_BUFSIZE_ALIGNED
  | MEMP_NETBUF => 4 <= e
  end.

Lemma pool_desc i : (i < MEMP_MAX)%nat -> exists d, memp_pools !! i = Some d.
Proof.
  intros Hi. apply lookup_lt_is_Some. pose proof (f_equal length layout_nums) as Hl. rewrite length_fmap in Hl.
  change (length memp_nums) with MEMP_MAX in Hl. lia.
Qed.

Lemma memp_type_desc k i n : memp_type k = Some i -> exists d, memp_pools !! i = Some d /\ room k n (d_size d).
Proof.
  intros Hi. destruct (pool_desc i) as [d Hd]; [destruct k; inversion Hi; unfold MEMP_MAX; lia|].
  exists d. split; [done|]. pose proof (layout_sizes d) as [H11 H12]. destruct (layout_pools _ _ Hd) as [[H4 _] _ _].
  destruct k; inversion Hi; subst i; cbn; auto.
Qed.

Lemma pool_alloc s i d : memory_ok s -> memp_pools !! i = Some d ->
  exists r s', on_pools (memp_malloc memp_pools i) s = (Ret r, s') /\ memory_ok s' /\
    match r with None => s' = s | Some p => granted s' ≡ₚ (Some i, p, d_size d) :: granted s end.
Proof.
  intros [Hh Hp] Hi. destruct (Hp i d Hi) as [l Hl]. pose proof (layout_pools _ _ Hi) as Hd.
  pose proof (malloc_pool_ok _ _ _ _ Hd Hl) as Hm. unfold on_pools, memp_malloc.
  rewrite (bind_ret (assert_ _) _ _ tt (m_pools s)) by (apply assert_true, Nat.ltb_lt; by eapply lookup_lt_Some).
  destruct l as [|p l]; [rewrite Hm; exists None, s; by destruct s|]. destruct Hm as (ps' & -> & Hl' & [Hin Hni] & Hn & Ht).
  destruct (pools_step (m_pools s) ps' i d l (Some i, p, d_size d) Hi Hl' Hp Ht ltac:(by rewrite Hn)) as (Hup & _ & Hp').
  eexists _, _. split; [reflexivity|]. split; [by split|]. unfold granted. cbn [m_heap m_pools]. rewrite Hup; [by rewrite Permutation_middle|].
  rewrite (pool_holds_free _ _ _ _ Hl'), (pool_holds_free _ _ _ _ Hl). by rewrite (filter_taken d p l Hd Hin Hni).
Qed.

Lemma ram_alloc s n : memory_ok s -> exists r s', alloc RAM n s = (Ret r, s') /\ memory_ok s' /\
  match r with None => s' = s | Some p => exists e, room RAM n e /\ granted s' ≡ₚ (None, p, e) :: granted s end.
Proof.
  intros [[l Hh] Hp]. cbn [alloc memp_type]. pose proof (u16_range n) as Hu. set (m := u16 n) in *.
  assert (Hnone : on_heap (mem_malloc m) s = (Ret None, s) ->
    exists r s', (q <- on_heap (mem_malloc m) ;; ret (Z.add ram_heap <$> q)) s = (Ret r, s') /\ memory_ok s' /\
    match r with None => s' = s | Some p => exists e, room RAM n e /\ granted s' ≡ₚ (None, p, e) :: granted s end).
  { intros Hr. exists None, s. split; [by cstep Hr|]. split; [by split; [exists l|]|done]. }
  destruct (decide (m = 0)) as [Hm0|Hm0].
  { apply Hnone. unfold on_heap. rewrite Hm0. by destruct s. }
  destruct (request_ok m ltac:(lia)) as (Hrq & H12 & Hmod). set (w := if m <=? 65532 then round_up m else 12) in *.
  pose proof (malloc_rounded_ok (m_heap s) l m w Hh Hm0 Hrq H12 Hmod) as Hm.
  destruct (find_fit w l) as [[[l1 sz] l2]|] eqn:Hfit; [|apply Hnone; unfold on_heap; rewrite Hm; by destruct s].
  destruct Hm as (h' & Hr & Hh' & _). apply find_fit_Some in Hfit as [-> Hle].
  destruct (uses_taken l1 sz l2 w Hle) as (s' & Hs' & Hus).
  exists (Some (ram_heap + data_at l1)), (Memory h' (m_pools s)). split; [|split].
  - rewrite (bind_ret (on_heap _) _ s (Some (data_at l1)) (Memory h' (m_pools s))) by (unfold on_heap; by rewrite Hr). done.
  - split; [by eexists|done].
  - exists s'. split.
    + intros Hn. unfold usable, w, m in *. rewrite u16_small in * by lia. destruct (Z.leb_spec n 65532); [|lia].
      destruct (round_up_ok n ltac:(lia)) as (_ & _ & ?). lia.
    + unfold granted, heap_holds. cbn [m_heap m_pools]. rewrite (heap_blocks_ok _ _ Hh'), (heap_blocks_ok _ _ Hh), Hus, uses_app.
      cbn [uses b_used app b_size]. rewrite Z.add_0_l, !fmap_app, <- !app_assoc. cbn [fmap list_fmap app].
      by rewrite <- Permutation_middle.
Qed.

(** What [alloc] gives is not in use, and as large as asked for. *)
Lemma alloc_ok s k n : memory_ok s -> exists r s', alloc k n s = (Ret r, s') /\ memory_ok s' /\
  match r with None => s' = s | Some p => exists e, room k n e /\ granted s' ≡ₚ (memp_type k, p, e) :: granted s end.
Proof.
  intros Hok. destruct (memp_type k) as [i|] eqn:Hk; [|destruct k; try done; by apply ram_alloc].
  destruct (memp_type_desc k i n Hk) as (d & Hi & Hsz). unfold alloc. rewrite Hk.
  destruct (pool_alloc s i d Hok Hi) as (r & s' & Hr & Hok' & Hres). exists r, s'. split; [done|]. split; [done|].
  destruct r; [|done]. exists (d_size d). auto.
Qed.

(** ** Release *)
Lemma heap_held s p e : memory_ok s -> (None, p, e) ∈ granted s -> exists l1 l2,
  heap_ok (m_heap s) (l1 ++ Block true e :: l2) /\ p = ram_heap + data_at l1.
Proof.
  intros [[l Hh] Hp] [Hx|Hx]%elem_of_app.
  - destruct (proj1 (list_elem_of_fmap _ _ _) Hx) as ([q sz] & [= -> ->] & Hin). rewrite (heap_blocks_ok _ _ Hh) in Hin.
    destruct (uses_split _ _ _ Hin) as (l1 & l2 & -> & ->). by exists l1, l2.
  - destruct (pools_holds_in _ _ _ _ Hx) as (j & d & Hj & Hx').
    by destruct (pool_holds_in _ _ _ _ (layout_pools _ _ Hj) Hx') as (? & _).
Qed.

Lemma pool_held s i p e : memory_ok s -> (Some i, p, e) ∈ granted s -> exists d l, memp_pools !! i = Some d /\
  pool_ok (m_pools s) i d l /\ p ∈ elements d /\ (p ∉ l) /\ e = d_size d.
Proof.
  intros [[l Hh] Hp] [Hx|Hx]%elem_of_app; [by destruct (heap_holds_in _ _ _ Hh Hx) as (? & _)|].
  destruct (pools_holds_in _ _ _ _ Hx) as (j & d & Hj & Hx'). destruct (Hp j d Hj) as [fl Hfl].
  rewrite Nat.add_0_l, (pool_holds_free _ _ _ _ Hfl) in Hx'.
  destruct (proj1 (list_elem_of_fmap _ _ _) Hx') as (q & [= -> -> ->] & [Hni Hin]%list_elem_of_filter). by exists d, fl.
Qed.

Lemma free_in_ok s o p e : memory_ok s -> (o, p, e) ∈ granted s ->
  exists s', free_in o p s = (Ret tt, s') /\ memory_ok s' /\ granted s ≡ₚ (o, p, e) :: granted s'.
Proof.
  intros Hok Hx. destruct o as [i|]; cbn [free_in].
  - destruct (pool_held s i p e Hok Hx) as (d & l & Hi & Hl & Hin & Hni & ->). destruct Hok as [Hh Hp].
    pose proof (layout_pools _ _ Hi) as Hd. destruct (free_pool_ok _ _ _ _ _ Hd Hl Hin Hni) as (ps' & Hr & Hl' & Hn & Ht).
    destruct (pools_step (m_pools s) ps' i d (p :: l) (Some i, p, d_size d) Hi Hl' Hp Ht) as (_ & Hdn & Hp').
    { intros q Hq. rewrite Hn. apply lookup_insert_ne. by intros ->. }
    exists (Memory (m_heap s) ps'). split; [|split; [by split|]].
    + unfold on_pools, memp_free.
      rewrite (bind_ret (assert_ _) _ _ tt (m_pools s)) by (apply assert_true, Nat.ltb_lt; by eapply lookup_lt_Some). by rewrite Hr.
    + unfold granted. cbn [m_heap m_pools]. rewrite Hdn; [by rewrite Permutation_middle|].
      rewrite (pool_holds_free _ _ _ _ Hl'), (pool_holds_free _ _ _ _ Hl). by rewrite (filter_taken d p l Hd Hin Hni).
  - destruct (heap_held s p e Hok Hx) as (l1 & l2 & Hh & ->). destruct (free_block_ok _ _ _ _ Hh) as (h' & Hr & Hh' & _).
    exists (Memory h' (m_pools s)). replace (ram_heap + data_at l1 - ram_heap) with (data_at l1) by lia.
    split; [unfold on_heap; by rewrite Hr|]. split; [split; [by eexists|apply Hok]|].
    unfold granted, heap_holds. cbn [m_heap m_pools]. rewrite (heap_blocks_ok _ _ Hh'), (heap_blocks_ok _ _ Hh), uses_freed, uses_app.
    cbn [uses b_used app b_size]. rewrite Z.add_0_l, !fmap_app, <- !app_assoc. cbn [fmap list_fmap app].
    by rewrite <- Permutation_middle.
Qed.

(** ** Cutting a block of the heap *)
Lemma trim_ok s p e n : memory_ok s -> (None, p, e) ∈ granted s -> 0 <= n <= 65532 -> round_up n <= e ->
  exists s' e' l, trim p n s = (Ret (Some p), s') /\ memory_ok s' /\ n <= e' /\
    granted s ≡ₚ (None, p, e) :: l /\ granted s' ≡ₚ (None, p, e') :: l.
Proof.
  intros Hok Hx Hn Hle. destruct (heap_held s p e Hok Hx) as (l1 & l2 & Hh & ->).
  destruct (trim_block_ok _ _ _ _ _ Hh Hn Hle) as (h' & Hr & Hh' & _). destruct (uses_trimmed l1 e l2 _ Hle) as (e' & He' & Hus).
  destruct (round_up_ok n ltac:(lia)) as (_ & _ & Hrn).
  exists (Memory h' (m_pools s)), e', ((heap_range <$> uses 0 l1 ++ uses (total l1 + 8 + e) l2) ++ pools_holds (m_pools s) 0 memp_pools).
  split; [|split; [split; [by eexists|apply Hok]|split; [lia|split]]].
  - unfold trim. rewrite u16_small by lia. replace (ram_heap + data_at l1 - ram_heap) with (data_at l1) by lia.
    rewrite (bind_ret (on_heap _) _ s (Some (data_at l1)) (Memory h' (m_pools s))) by (unfold on_heap; by rewrite Hr). done.
  - unfold granted, heap_holds. rewrite (heap_blocks_ok _ _ Hh), uses_app. cbn [uses b_used app b_size].
    rewrite Z.add_0_l, !fmap_app, <- !app_assoc. cbn [fmap list_fmap app]. by rewrite <- Permutation_middle.
  - unfold granted, heap_holds. cbn [m_heap m_pools]. rewrite (heap_blocks_ok _ _ Hh'), Hus.
    rewrite !fmap_app, <- !app_assoc. cbn [fmap list_fmap app]. by rewrite <- Permutation_middle.
Qed.

(** ** [lwip_init] *)
Lemma init_pools_ok pools : forall i s, (forall j d, pools !! j = Some d -> desc_ok d) ->
  (forall j k d e p, j <> k -> pools !! j = Some d -> pools !! k = Some e -> p ∈ elements d -> p ∈ elements e -> False) ->
  exists s', init_pools i pools s = (Ret tt, s') /\
    (forall j d, pools !! j = Some d -> pool_ok s' (i + j) d (reverse (elements d))) /\
    (forall j, (j < i)%nat -> tab s' j = tab s j) /\
    (forall q, (forall j d, pools !! j = Some d -> q ∉ elements d) -> memp_next s' !! q = memp_next s !! q).
Proof.
  induction pools as [|d pools IH]; intros i s Hd Hne; [by exists s|]. cbn [init_pools].
  destruct (init_pool_ok s i d (Hd 0%nat d eq_refl)) as (s1 & Hr1 & Hp1 & Ht1 & Hn1).
  destruct (IH (S i) s1) as (s2 & Hr2 & Hp2 & Ht2 & Hn2).
  { intros j e Hj. by apply (Hd (S j)). }
  { intros j k e f p Hjk Hj Hk. apply (Hne (S j) (S k)); [lia|done|done]. }
  exists s2. split; [by cstep Hr1|]. split; [|split].
  - intros [|j] e Hj; [|rewrite Nat.add_succ_r; by apply Hp2]. injection Hj as <-. rewrite Nat.add_0_r.
    eapply pool_ok_frame; [exact Hp1|by apply Ht2; lia|]. intros q Hq. apply Hn2. intros j e Hj Hqe.
    apply (Hne 0%nat (S j) d e q); [lia|done|done| |done]. by rewrite reverse_Permutation in Hq.
  - intros j Hj. rewrite Ht2, Ht1 by lia. done.
  - intros q Hq. rewrite Hn2, Hn1; [done|by apply (Hq 0%nat)|]. intros j e Hj. by apply (Hq (S j)).
Qed.

Lemma memory_init_ok s : exists s', memory_init s = (Ret tt, s') /\ memory_ok s' /\ granted s' = [].
Proof.
  destruct (mem_init_ok (m_heap s)) as (h & Hr & Hh).
  destruct (init_pools_ok memp_pools 0 (m_pools s) layout_pools other_pool) as (ps & Hr2 & Hp & _).
  assert (Hps : forall j d, memp_pools !! j = Some d -> pool_holds ps j d = []).
  { intros j d Hj. rewrite (pool_holds_free ps j d _ (Hp j d Hj)). destruct (filter _ _) as [|p l] eqn:Hl; [done|].
    assert (Hin : p ∈ p :: l) by left. rewrite <- Hl in Hin. apply list_elem_of_filter in Hin as [Hni Hin].
    by rewrite reverse_Permutation in Hni. }
  exists (Memory h ps). split; [|split].
  - unfold memory_init. rewrite (bind_ret (on_heap mem_init) _ s tt (Memory h (m_pools s))) by (unfold on_heap; by rewrite Hr).
    unfold on_pools, memp_init. cbn [m_pools m_heap]. by rewrite Hr2.
  - split; [by eexists|]. intros j d Hj. eexists. by apply Hp.
  - unfold granted, heap_holds. cbn [m_heap m_pools]. rewrite (heap_blocks_ok _ _ Hh). cbn [uses b_used app fmap list_fmap].
    assert (Hgo : forall pools i, (forall j d, pools !! j = Some d -> pool_holds ps (i + j) d = []) -> pools_holds ps i pools = []).
    { induction pools as [|d pools IH]; intros i He; [done|]. cbn [pools_holds].
      pose proof (He 0%nat d eq_refl) as H0. rewrite Nat.add_0_r in H0. rewrite H0. apply IH.
      intros j e Hj. specialize (He (S j) e Hj). by rewrite Nat.add_succ_r in He. }
    by apply Hgo.
Qed.

(** ** The interface of the packet buffers *)
Definition memory_at : Type := { s : memory | memory_ok s }.

Lemma alloc_keeps k n (a : memory_at) : memory_ok (alloc k n (`a)).2.
Proof. destruct a as [s Hok]. cbn. by destruct (alloc_ok s k n Hok) as (r & s' & -> & ? & _). Qed.

(** A pointer goes back to where it came from. *)
Definition give_back (p : ptr) s : memory :=
  match list_find (fun x => addr x = Z.pos p) (granted s) with
  | Some (_, (o, _, _)) => (free_in o (Z.pos p) s).2
  | None => s
  end.

Lemma give_back_ok p s : memory_ok s -> memory_ok (give_back p s) /\
  ((exists o e, granted s ≡ₚ (o, Z.pos p, e) :: granted (give_back p s) /\ (free_in o (Z.pos p) s).1 = Ret tt) \/
   give_back p s = s /\ Z.pos p ∉ addr <$> granted s).
Proof.
  intros Hok. unfold give_back. destruct (list_find _ _) as [[i [[o q] e]]|] eqn:Hf.
  - apply list_find_Some in Hf as (Hl & Hq & _). unfold addr in Hq. cbn in Hq. subst q.
    destruct (free_in_ok s o (Z.pos p) e Hok) as (s' & Hr & Hok' & Hp); [by eapply list_elem_of_lookup_2|].
    rewrite Hr. split; [done|]. left. exists o, e. by rewrite Hr.
  - split; [done|]. right. split; [done|]. apply list_find_None in Hf. intros (x & Hx & Hin)%list_elem_of_fmap.
    rewrite Forall_forall in Hf. by apply (Hf x Hin).
Qed.

(** A cut within the contract of [mem_trim]; any other stops the system. *)
Definition cut (p : ptr) (n : Z) s : memory :=
  match list_find (fun x => x.1 = (None, Z.pos p)) (granted s) with
  | Some (_, (_, _, e)) =>
      if (0 <=? n) && (n <=? 65532) && (round_up n <=? e) then (trim (Z.pos p) n s).2 else s
  | None => s
  end.

Lemma cut_ok p n s : memory_ok s -> memory_ok (cut p n s) /\ (addr <$> granted (cut p n s)) ≡ₚ (addr <$> granted s).
Proof.
  intros Hok. unfold cut. destruct (list_find _ _) as [[i [[o q] e]]|] eqn:Hf; [|done].
  apply list_find_Some in Hf as (Hl & [= -> ->] & _). destruct (_ && _) eqn:Hc; [|done].
  apply andb_true_iff in Hc as [[H0%Z.leb_le H1%Z.leb_le]%andb_true_iff H2%Z.leb_le].
  destruct (trim_ok s (Z.pos p) e n Hok) as (s' & e' & l & -> & Hok' & _ & Hs & Hs'); [by eapply list_elem_of_lookup_2|lia|done|].
  split; [done|]. by rewrite Hs, Hs'.
Qed.

Definition live_at s : gset ptr := list_to_set (Z.to_pos <$> (addr <$> granted s)).

Lemma live_at_in s p : memory_ok s -> p ∈ live_at s <-> Z.pos p ∈ addr <$> granted s.
Proof.
  intros Hok. unfold live_at. rewrite elem_of_list_to_set. split.
  - intros (q & -> & Hq)%list_elem_of_fmap. pose proof Hq as (x & -> & Hx)%list_elem_of_fmap.
    destruct (holds_in s x Hok Hx) as [Hpos _]. by rewrite Z2Pos.id by lia.
  - intros Hp. apply list_elem_of_fmap. by exists (Z.pos p).
Qed.

Lemma live_at_cons s s' o p e : memory_ok s -> memory_ok s' -> granted s' ≡ₚ (o, Z.pos p, e) :: granted s ->
  (p ∉ live_at s) /\ live_at s' = {[p]} ∪ live_at s.
Proof.
  intros Hok Hok' Hp. pose proof (holds_NoDup s' Hok') as Hnd. rewrite Hp in Hnd. cbn in Hnd.
  apply NoDup_cons in Hnd as [Hni _]. split; [by rewrite live_at_in|]. unfold live_at. by rewrite Hp.
Qed.

Lemma taken_out (p : ptr) (X Y : gset ptr) : p ∉ Y -> X = {[p]} ∪ Y -> Y = X ∖ {[p]}.
Proof. set_solver. Qed.

Lemma taken_none (p : ptr) (X : gset ptr) : p ∉ X -> X = X ∖ {[p]}.
Proof. set_solver. Qed.

#[export] Instance lwip_memory : Allocator memory_at.
Proof.
  refine {|
    al_get k n a := (match (alloc k n (`a)).1 with Ret (Some p) => Some (Z.to_pos p) | _ => None end,
                     exist _ (alloc k n (`a)).2 (alloc_keeps k n a));
    al_put k p a := exist _ (give_back p (`a)) (proj1 (give_back_ok p (`a) (proj2_sig a)));
    al_trim p n a := exist _ (cut p n (`a)) (proj1 (cut_ok p n (`a) (proj2_sig a)));
    live a := live_at (`a);
    stale_pbuf := stale_struct;
    stale_bytes p n := (fun k : nat => stale_byte (Z.pos p + SIZEOF_STRUCT_PBUF + Z.of_nat k)) <$> seq 0 (Z.to_nat n)
  |}.
  - intros p n. by rewrite length_fmap, length_seq.
  - intros k n [s Hok]. cbn [proj1_sig]. destruct (alloc_ok s k n Hok) as ([p|] & s' & -> & Hok' & Hr); cbn [fst snd proj1_sig].
    2:{ by rewrite Hr. }
    destruct Hr as (e & _ & Hp). destruct (holds_in s' (memp_type k, p, e) Hok') as [Hpos _]; [rewrite Hp; left|].
    unfold addr in Hpos. cbn in Hpos. rewrite <- (Z2Pos.id p) in Hp by lia. by eapply live_at_cons.
  - intros k p [s Hok]. cbn [proj1_sig]. destruct (give_back_ok p s Hok) as [Hok' [(o & e & Hp & _)|[Hs Hni]]].
    + destruct (live_at_cons _ _ _ _ _ Hok' Hok Hp) as [Hni Hl]. by apply taken_out.
    + rewrite Hs. apply taken_none. by rewrite live_at_in.
  - intros p n [s Hok]. cbn [proj1_sig]. destruct (cut_ok p n s Hok) as [_ Hp]. unfold live_at. by rewrite Hp.
Defined.

(** A pbuf freed to the allocator it came from is freed by that allocator's function. *)
Lemma put_own k p e (a : memory_at) : (memp_type k, Z.pos p, e) ∈ granted (`a) ->
  free_in (memp_type k) (Z.pos p) (`a) = (Ret tt, proj1_sig (al_put k p a)).
Proof.
  destruct a as [s Hok]. cbn. intros Hx. destruct (free_in_ok s _ _ _ Hok Hx) as (s' & Hr & _).
  rewrite Hr. f_equal. unfold give_back. destruct (list_find _ _) as [[i [[o q] e']]|] eqn:Hf.
  - apply list_find_Some in Hf as (Hl & Hq & _). unfold addr in Hq. cbn in Hq. subst q.
    destruct (proj1 (list_elem_of_lookup _ _) Hx) as [j Hj]. cbn in Hj.
    assert (i = j) as ->.
    { eapply (NoDup_lookup _ _ _ (Z.pos p) (holds_NoDup s Hok)); rewrite list_lookup_fmap; [exact (f_equal (fmap addr) Hl)|exact (f_equal (fmap addr) Hj)]. }
    pose proof (eq_trans (eq_sym Hl) Hj) as [= -> _]. by rewrite Hr.
  - apply list_find_None in Hf. rewrite Forall_forall in Hf. by destruct (Hf _ Hx).
Qed.
End Memory.

(** ** Sessions of the clients of the allocators *)
Section Sessions.
Context `{MempLayout}.

Lemma holds_aligned s x : memory_ok s -> x ∈ granted s -> addr x mod 4 = 0.
Proof.
  intros Hok Hx. destruct x as [[[i|] p] e]; cbn.
  - destruct (pool_held s i p e Hok Hx) as (d & l & Hi & _ & Hin & _).
    by destruct (element_in d p (layout_pools _ _ Hi) Hin) as (? & _).
  - destruct (heap_held s p e Hok Hx) as (l1 & l2 & Hh & ->).
    destruct (chain_facts _ _ _ _ (ok_chain _ _ Hh)) as (_ & [Hf _]%Forall_app & _).
    pose proof (total_aligned l1 Hf). destruct layout_ram as [_ Hr]. unfold addr, data_at. cbn.
    Z.to_euclidean_division_equations; lia.
Qed.

Lemma delete_replaced {B} (l : list B) j x : delete j (<[j := x]> l) = delete j l.
Proof. revert j. induction l as [|y l IH]; intros [|j]; [done..|]. cbn. f_equal. apply IH. Qed.

(** The clients of the heap, and of any of the pools. *)
Inductive request := Malloc (n : Z) | Element (i : nat) | Release (j : nat) | Shrink (j : nat) (n : Z).

(** What the clients hold: the pool (or the heap), the pointer, and the bytes they may use. *)
Definition run_request (r : request) (held : list range) : cmd memory (list range) :=
  match r with
  | Malloc n =>
      p <- alloc RAM n ;;
      ret (match p with Some p => (None, p, usable n) :: held | None => held end)
  | Element i =>
      p <- on_pools (memp_malloc memp_pools i) ;;
      ret (match p with Some p => (Some i, p, default 0 (d_size <$> memp_pools !! i)) :: held | None => held end)
  | Release j =>
      match held !! j with
      | Some (o, p, _) => free_in o p ;;; ret (delete j held)
      | None => ret held
      end
  | Shrink j n =>
      match held !! j with
      | Some (None, p, m) => if n <=? m then trim p n ;;; ret (<[j := (None, p, n)]> held) else ret held
      | _ => ret held
      end
  end.

Fixpoint run_requests (rs : list request) (held : list range) : cmd memory (list range) :=
  match rs with
  | [] => ret held
  | r :: rs => held' <- run_request r held ;; run_requests rs held'
  end.

(** Sizes are of type [mem_size_t], and pools are those of the configuration. *)
Definition typed (r : request) : Prop :=
  match r with
  | Malloc n | Shrink _ n => 0 <= n <= 65535
  | Element i => (i < MEMP_MAX)%nat
  | Release _ => True
  end.

(** The memory that a pointer of a client stands for. *)
Definition served (x y : range) : Prop := y.1 = x.1 /\ ext x <= ext y.
Definition serves s (held : list range) : Prop := exists l, granted s ≡ₚ l /\ Forall2 served held l.

Lemma shrink_ok s j p m n held : memory_ok s -> serves s held -> held !! j = Some (None, p, m) -> 0 <= n <= m ->
  exists s', trim p n s = (Ret (Some p), s') /\ memory_ok s' /\ serves s' (<[j := (None, p, n)]> held).
Proof.
  intros Hok (l & Hl & Hs) Hj Hn.
  destruct (Forall2_lookup_l _ _ _ _ _ Hs Hj) as ([[o q] e] & Hy & [[= -> ->] He]). unfold ext in He. cbn in He.
  assert (Hin : (None, p, e) ∈ granted s) by (rewrite Hl; by eapply list_elem_of_lookup_2).
  destruct (heap_held s p e Hok Hin) as (l1 & l2 & Hh & Hp1).
  destruct (chain_at _ _ _ _ (ok_chain _ _ Hh)) as (_ & _ & [Hb1 Hb2] & _). cbn [b_size] in *.
  assert (He2 : e <= 65532).
  { assert (Hx : (None, p, e) ∈ heap_holds (m_heap s)).
    { apply elem_of_app in Hin as [Hin|Hin]; [done|]. destruct (pools_holds_in _ _ _ _ Hin) as (k & d & Hk & Hx).
      by destruct (pool_holds_in _ _ _ _ (layout_pools _ _ Hk) Hx) as (? & _). }
    destruct (heap_holds_in _ _ _ Hh Hx) as (_ & _ & _ & H1 & H2). unfold addr, ext in *. cbn in *.
    change MEM_SIZE_ALIGNED with 22528 in H2. lia. }
  destruct (trim_ok s p e n Hok Hin ltac:(lia)) as (s' & e' & l' & Hrun & Hok' & Hle & Hp & Hp').
  { unfold round_up. Z.to_euclidean_division_equations; lia. }
  exists s'. split; [done|]. split; [done|].
  exists (<[j := (None, p, e')]> l). split; [|apply Forall2_insert; [done|by split]].
  rewrite Hp'. pose proof (delete_Permutation _ _ _ Hy) as Hdel.
  assert (Hy' : <[j := (None, p, e')]> l !! j = Some ((None, p, e') : range)).
  { apply list_lookup_insert_eq. by eapply lookup_lt_Some. }
  rewrite (delete_Permutation _ _ _ Hy'), delete_replaced. f_equiv.
  apply (Permutation_cons_inv (a := (None, p, e))). rewrite <- Hp, Hl. exact Hdel.
Qed.

Lemma run_request_ok s r held : memory_ok s -> serves s held -> typed r ->
  exists held' s', run_request r held s = (Ret held', s') /\ memory_ok s' /\ serves s' held'.
Proof.
  intros Hok Hsv Hr. pose proof Hsv as (l & Hl & Hs). destruct r as [n|i|j|j n]; cbn [run_request typed] in *.
  - destruct (alloc_ok s RAM n Hok) as (p & s' & Hrun & Hok' & Hres).
    eexists _, s'. split; [by cstep Hrun|]. split; [done|].
    destruct p as [p|]; [|subst s'; by exists l]. destruct Hres as (e & Hn & Hp).
    exists ((None, p, e) :: l). split; [by rewrite Hp, Hl|]. constructor; [|done]. split; [done|]. by apply Hn.
  - destruct (pool_desc i Hr) as [d Hd]. destruct (pool_alloc s i d Hok Hd) as (p & s' & Hrun & Hok' & Hres).
    eexists _, s'. split; [by cstep Hrun|]. split; [done|].
    destruct p as [p|]; [|subst s'; by exists l].
    exists ((Some i, p, d_size d) :: l). split; [by rewrite Hres, Hl|]. constructor; [|done]. split; [done|].
    rewrite Hd. unfold ext. cbn. lia.
  - destruct (held !! j) as [[[o p] n]|] eqn:Hj; [|by exists held, s].
    destruct (Forall2_lookup_l _ _ _ _ _ Hs Hj) as ([[o' q] e] & Hy & [[= -> ->] _]).
    destruct (free_in_ok s o p e Hok) as (s' & Hrun & Hok' & Hp).
    { rewrite Hl. by eapply list_elem_of_lookup_2. }
    exists (delete j held), s'. split; [by cstep Hrun|]. split; [done|]. exists (delete j l). split; [|by apply Forall2_delete].
    apply (Permutation_cons_inv (a := (o, p, e))). rewrite <- Hp, Hl. by apply delete_Permutation.
  - destruct (held !! j) as [[[[i|] p] m]|] eqn:Hj; [by exists held, s| |by exists held, s].
    destruct (Z.leb_spec n m) as [Hnm|]; [|by exists held, s].
    destruct (shrink_ok s j p m n held Hok Hsv Hj ltac:(lia)) as (s' & Hrun & Hok' & Hs').
    exists (<[j := (None, p, n)]> held), s'. split; [by cstep Hrun|]. by split.
Qed.

(** C6: Whatever is allocated, freed and cut after lwip_init, from the heap and from any of the 13
    pools, in any order (a size is any mem_size_t), every call returns, and what is in use
    is exactly what it granted: each pointer addresses an element of its pool, or at least
    the bytes asked for of the heap (12 bytes when 65533 to 65535 are asked for: the size
    is rounded up in 16 bits); it is aligned, and no two share a byte.  After everything
    is freed nothing is in use. *)
Theorem memory_session_safe s rs : Forall typed rs ->
  exists held s', (memory_init ;;; run_requests rs []) s = (Ret held, s') /\ memory_ok s' /\ serves s' held /\
    (held = [] -> granted s' = []) /\
    (forall o p n, (o, p, n) ∈ held -> 0 < p /\ p mod 4 = 0) /\
    forall i j o1 p1 n1 o2 p2 n2, i <> j -> held !! i = Some (o1, p1, n1) -> held !! j = Some (o2, p2, n2) ->
      p1 + n1 <= p2 \/ p2 + n2 <= p1.
Proof.
  intros Hrs. destruct (memory_init_ok s) as (s0 & Hi & Hok0 & Hh0).
  assert (Hrun : forall rs held s, Forall typed rs -> memory_ok s -> serves s held ->
    exists held' s', run_requests rs held s = (Ret held', s') /\ memory_ok s' /\ serves s' held').
  { clear -H. induction rs as [|r rs IH]; intros held s Hrs Hok Hs; [by exists held, s|]. apply Forall_cons in Hrs as [Hr Hrs].
    cbn [run_requests]. destruct (run_request_ok s r held Hok Hs Hr) as (h1 & s1 & Hr1 & Hok1 & Hs1). cstep Hr1. by apply IH. }
  destruct (Hrun rs [] s0 Hrs Hok0) as (held & s' & Hr & Hok & Hs); [by exists []; rewrite Hh0|].
  exists held, s'. split; [by cstep Hi|]. split; [done|]. split; [done|]. destruct Hs as (l & Hl & Hs). split; [|split].
  - intros ->. apply Forall2_nil_inv_l in Hs as ->. by apply Permutation_nil_r in Hl.
  - intros o p n (j & Hj)%list_elem_of_lookup. destruct (Forall2_lookup_l _ _ _ _ _ Hs Hj) as ([[o' q] e] & Hy & [[= -> ->] _]).
    assert (Hin : (o, p, e) ∈ granted s') by (rewrite Hl; by eapply list_elem_of_lookup_2).
    split; [by destruct (holds_in _ _ Hok Hin) as [? _]|exact (holds_aligned _ _ Hok Hin)].
  - intros i j o1 p1 n1 o2 p2 n2 Hij H1 H2. pose proof (holds_apart s' Hok) as Ha. rewrite Hl in Ha.
    destruct (Forall2_lookup_l _ _ _ _ _ Hs H1) as ([[o1' q1] e1] & Hy1 & [[= -> ->] He1]).
    destruct (Forall2_lookup_l _ _ _ _ _ Hs H2) as ([[o2' q2] e2] & Hy2 & [[= -> ->] He2]).
    pose proof (apart_lookup l i j _ _ Ha Hij Hy1 Hy2) as Hd. unfold disj, addr, ext in *. cbn in *. lia.
Qed.
End Sessions.
