(* ===== verification/Text.v ===== *)
(** * Text: the string helpers of [lwip/src/core/def.c] and the IPv4 addresses
    of [lwip/src/core/ipv4/ip4_addr.c]

    A [char *] is what its array holds from there on; reading past the end of the array
    has no meaning. *)
From S2P Require Export CInt.

(** ** Reading through a pointer *)
#[local] Abbreviation M := (cmd (list Z)).

(** [*cp] and [*++cp] *)
Definition peek : M Z := fun s => match s with c :: _ => (Ret c, s) | [] => (Fault, s) end.
Definition advance : M Z := modify (drop 1) ;;; peek.

(** [*p++] on two strings *)
Definition next_char (s : list Z) : option (Z * list Z) :=
  match s with c :: s => Some (c, s) | [] => None end.

(** [strlen] *)
Fixpoint c_strlen (s : list Z) : option nat :=
  match s with
  | [] => None
  | c :: s => if c =? 0 then Some O else S <$> c_strlen s
  end.

(** [strncmp(p, token, n) == 0]; [None] is a read past the end *)
Fixpoint strncmp_eq (n : nat) (p token : list Z) : option bool :=
  match n with
  | O => Some true
  | S n =>
      match p, token with
      | a :: p, b :: token =>
          if a =? b then if a =? 0 then Some true else strncmp_eq n p token else Some false
      | _, _ => None
      end
  end.

(** ** [lwip_strnstr]: the distance of the result from [buffer] *)
Fixpoint strnstr_loop (p token : list Z) (tokenlen : nat) (n : Z) (ofs : nat) : option (option nat) :=
  match p with
  | [] => None
  | c :: p' =>
      if negb (c =? 0) && (Z.of_nat ofs + Z.of_nat tokenlen <=? n) then
        match head token with
        | Some t =>
            if c =? t then
              match strncmp_eq tokenlen p token with
              | Some true => Some (Some ofs)
              | Some false => strnstr_loop p' token tokenlen n (S ofs)
              | None => None
              end
            else strnstr_loop p' token tokenlen n (S ofs)
        | None => None
        end
      else Some None
  end.

Definition lwip_strnstr (buffer token : list Z) (n : Z) : option (option nat) :=
  match c_strlen token with
  | None => None
  | Some O => Some (Some O)
  | Some tokenlen => strnstr_loop buffer token tokenlen n 0
  end.

(** ** [lwip_stricmp], [lwip_strnicmp] *)

(** The body of both loops: true when it ends with [return 1]. *)
Definition chars_differ (c1 c2 : Z) : bool :=
  if negb (c1 =? c2) then
    let c1_upc := Z.lor c1 0x20 in
    if (97 <=? c1_upc) && (c1_upc <=? 122) then
      let c2_upc := Z.lor c2 0x20 in
      negb (c1_upc =? c2_upc)
    else true
  else false.

Fixpoint lwip_stricmp (str1 str2 : list Z) : option Z :=
  match str1, str2 with
  | c1 :: str1, c2 :: str2 =>
      if chars_differ c1 c2 then Some 1
      else if negb (c1 =? 0) then lwip_stricmp str1 str2 else Some 0
  | _, _ => None
  end.

Fixpoint lwip_strnicmp (str1 str2 : list Z) (len : Z) : option Z :=
  match str1, str2 with
  | c1 :: str1, c2 :: str2 =>
      if chars_differ c1 c2 then Some 1
      else if truthy len && negb (c1 =? 0) then lwip_strnicmp str1 str2 (len - 1) else Some 0
  | _, _ => None
  end.

(** ** [lwip_itoa] *)

(** ["zyx..a9876543210123456789abc..z"[35 + d]] for a digit from -9 to 9 *)
Definition digit_char (d : Z) : Z := 48 + Z.abs d.

(** The digits, lowest first, and the last [tmp_value]; a 32-bit [int] has at most ten. *)
Fixpoint itoa_loop (n : nat) (number : Z) : option (list Z * Z) :=
  match n with
  | O => None
  | S n =>
      let tmp_value := number in
      let number := cdiv number 10 in
      let d := digit_char (tmp_value - number * 10) in
      if number =? 0 then Some ([d], tmp_value)
      else r ← itoa_loop n number; Some (d :: r.1, r.2)
  end.

(** What ends up in [result]; the reversal in place is [rev]. *)
Definition lwip_itoa (number : Z) : option (list Z) :=
  r ← itoa_loop 10 number;
  Some (rev (if r.2 <? 0 then r.1 ++ [45] else r.1) ++ [0]).

(** ** Character classes of [ip4_addr.c] *)
Definition in_range (c lo up : Z) : bool := (lo <=? u8 c) && (u8 c <=? up).
Definition isdigit (c : Z) : bool := in_range c 48 57.
Definition isxdigit (c : Z) : bool := isdigit c || in_range c 97 102 || in_range c 65 70.
Definition islower (c : Z) : bool := in_range c 97 122.
Definition isspace (c : Z) : bool :=
  (c =? 32) || (c =? 12) || (c =? 10) || (c =? 13) || (c =? 9) || (c =? 11).

(** ** [ip4addr_aton] *)

(** the inner loop: the digits of one number *)
Fixpoint digits_loop (n : nat) (c val base : Z) : M (Z * Z) :=
  if isdigit c then
    match n with
    | O => diverge
    | S n => c' <- advance ;; digits_loop n c' (u32 (u32 (val * base) + u32 (c - 48))) base
    end
  else if (base =? 16) && isxdigit c then
    match n with
    | O => diverge
    | S n => c' <- advance ;;
             digits_loop n c' (Z.lor (u32 (Z.shiftl val 4))
                                 (u32 (c + 10 - (if islower c then 97 else 65)))) base
    end
  else ret (val, c).

(** one number: the base from its first characters, then its digits *)
Definition number (c : Z) : M (Z * Z) :=
  n <- gets (fun s => length s) ;;
  if c =? 48 then
    c <- advance ;;
    if (c =? 120) || (c =? 88) then c <- advance ;; digits_loop n c 0 16
    else digits_loop n c 0 8
  else digits_loop n c 0 10.

(** the outer loop: the parts before the last number, the number, what follows it *)
Fixpoint parts_loop (n : nat) (c : Z) (parts : list Z) : M (list Z * Z * Z) :=
  exit_if (negb (isdigit c)) 0 ;;;
  r <- number c ;;
  let '(val, c) := (r : Z * Z) in
  if c =? 46 then
    match n with
    | O => exit 0
    | S n => c <- advance ;; parts_loop n c (parts ++ [val])
    end
  else ret (parts, val, c).

(** the value of the address from its parts, and the default case of the switch *)
Definition concoct (parts : list Z) (val : Z) : M Z :=
  match parts with
  | [] => ret val
  | [p0] =>
      exit_if (val >? 0xffffff) 0 ;;;
      exit_if (p0 >? 0xff) 0 ;;;
      ret (Z.lor val (u32 (Z.shiftl p0 24)))
  | [p0; p1] =>
      exit_if (val >? 0xffff) 0 ;;;
      exit_if ((p0 >? 0xff) || (p1 >? 0xff)) 0 ;;;
      ret (Z.lor val (Z.lor (u32 (Z.shiftl p0 24)) (u32 (Z.shiftl p1 16))))
  | [p0; p1; p2] =>
      exit_if (val >? 0xff) 0 ;;;
      exit_if ((p0 >? 0xff) || (p1 >? 0xff) || (p2 >? 0xff)) 0 ;;;
      ret (Z.lor val (Z.lor (Z.lor (u32 (Z.shiftl p0 24)) (u32 (Z.shiftl p1 16))) (u32 (Z.shiftl p2 8))))
  | _ => assert_ false ;;; ret val
  end.

(** [Ret addr] is the return of 1 with [*addr] written, [Exit 0] the return of 0. *)
Definition ip4addr_aton : M Z :=
  c <- peek ;;
  r <- parts_loop 3 c [] ;;
  let '(parts, val, c) := (r : list Z * Z * Z) in
  exit_if (negb (c =? 0) && negb (isspace c)) 0 ;;;
  val <- concoct parts val ;;
  ret (lwip_htonl val).

Definition IPADDR_NONE := 0xffffffff.
Definition ipaddr_addr (cp : list Z) : outcome Z :=
  match (ip4addr_aton cp).1 with
  | Exit _ => Ret IPADDR_NONE
  | o => o
  end.

(** ** [ip4addr_ntoa_r] *)

(** [do { rem = *ap % 10; *ap /= 10; inv[i++] = '0' + rem; } while ( *ap);] on a byte *)
Fixpoint inv_digits (n : nat) (ap : Z) : list Z :=
  match n with
  | O => []
  | S n => 48 + ap mod 10 :: (if ap / 10 =? 0 then [] else inv_digits n (ap / 10))
  end.

(** [if (len++ >= buflen) return NULL; *rp++ = c;] for one character after the other *)
Fixpoint put_chars (cs : list Z) (len buflen : Z) (buf : list Z) : cmd unit (option (Z * list Z)) :=
  match cs with
  | [] => ret (Some (len, buf))
  | c :: cs =>
      if buflen <=? len then ret None
      else buf' <- write_array buf len [c] ;; put_chars cs (len + 1) buflen buf'
  end.

(** the bytes of [s_addr] in memory *)
Definition addr_bytes (s_addr : Z) : list Z :=
  [u8 s_addr; u8 (Z.shiftr s_addr 8); u8 (Z.shiftr s_addr 16); u8 (Z.shiftr s_addr 24)].

Fixpoint ntoa_loop (aps : list Z) (len buflen : Z) (buf : list Z) : cmd unit (option (Z * list Z)) :=
  match aps with
  | [] => ret (Some (len, buf))
  | ap :: aps =>
      r <- put_chars (rev (inv_digits 3 ap) ++ [46]) len buflen buf ;;
      match r with
      | None => ret None
      | Some (len, buf) => ntoa_loop aps len buflen buf
      end
  end.

Definition ip4addr_ntoa_r (addr : Z) (buf : list Z) (buflen : Z) : cmd unit (option (list Z)) :=
  r <- ntoa_loop (addr_bytes addr) 0 buflen buf ;;
  match r with
  | None => ret None
  | Some (len, buf) => buf' <- write_array buf (len - 1) [0] ;; ret (Some buf')
  end.

(** ** Netmasks and broadcast addresses *)

(** [for (mask = 1UL << 31; mask != 0; mask >>= 1)]: first the ones, then no one *)
Fixpoint skip_ones (n : nat) (nm : Z) : nat :=
  match n with
  | O => O
  | S n => if Z.land nm (Z.shiftl 1 (Z.of_nat n)) =? 0 then S n else skip_ones n nm
  end.
Fixpoint no_one (n : nat) (nm : Z) : bool :=
  match n with
  | O => true
  | S n => if negb (Z.land nm (Z.shiftl 1 (Z.of_nat n)) =? 0) then false else no_one n nm
  end.

Definition ip4_addr_netmask_valid (netmask : Z) : bool :=
  let nm_hostorder := lwip_htonl netmask in
  no_one (skip_ones 32 nm_hostorder) nm_hostorder.

Definition ip4_addr_netcmp (addr1 addr2 mask : Z) : bool := Z.land addr1 mask =? Z.land addr2 mask.

Definition ip4_addr_isbroadcast_u32 (addr : Z) (netif_broadcast : bool) (netif_addr netif_mask : Z) : bool :=
  if (u32 (Z.lnot addr) =? 0) || (addr =? 0) then true
  else if negb netif_broadcast then false
  else if addr =? netif_addr then false
  else ip4_addr_netcmp addr netif_addr netif_mask &&
       (Z.land addr (u32 (Z.lnot netif_mask)) =? Z.land 0xffffffff (u32 (Z.lnot netif_mask))).
