(* ===== verification/TextThms.v ===== *)
(** * Text: numbers and addresses survive printing and parsing *)
From S2P Require Export Text.

#[local] Abbreviation M := (cmd (list Z)).

(** ** Parsing a number *)
Definition decimal_value (ds : list Z) (v : Z) : Z :=
  fold_left (fun v c => u32 (u32 (v * 10) + u32 (c - 48))) ds v.

Lemma peek_at c s : peek (c :: s) = (Ret c, c :: s).
Proof. done. Qed.
Lemma advance_at a c s : advance (a :: c :: s) = (Ret c, c :: s).
Proof. done. Qed.

Lemma digits_run ds : forall n v c e rest, Forall (fun c => isdigit c = true) ds -> isdigit e = false ->
  (length ds <= n)%nat -> head (ds ++ [e]) = Some c ->
  digits_loop n c v 10 (ds ++ e :: rest) = (Ret (decimal_value ds v, e), e :: rest).
Proof.
  induction ds as [|d ds IH]; intros n v c e rest Hds He Hn Hc; injection Hc as <-.
  - destruct n; cbn [digits_loop app]; by rewrite He.
  - apply Forall_cons in Hds as [Hd Hds]. cbn [length] in Hn. destruct n as [|n]; [lia|].
    cbn [digits_loop app]. rewrite Hd.
    assert (exists c', head (ds ++ [e]) = Some c' /\ advance (d :: ds ++ e :: rest) = (Ret c', ds ++ e :: rest)) as (c' & Hc' & Ha).
    { destruct ds as [|d' ds]; eexists; done. }
    cstep Ha. apply (IH n _ c' e rest); [done|done|lia|done].
Qed.

(** The digits of a byte, as [ip4addr_ntoa_r] prints them: checked for all 256. *)
Definition byte_text (b : Z) : list Z := rev (inv_digits 3 b).

Definition byte_text_ok (b : Z) : bool :=
  forallb isdigit (byte_text b) && (decimal_value (byte_text b) 0 =? b) &&
  (if b =? 0 then bool_decide (byte_text b = [48]) else negb (default 48 (head (byte_text b)) =? 48)) &&
  bool_decide (byte_text b <> []) && (length (byte_text b) <=? 3)%nat.

Lemma byte_texts : forallb byte_text_ok (seqZ 0 256) = true.
Proof. by vm_compute. Qed.

Lemma byte_text_spec b : 0 <= b < 256 ->
  Forall (fun c => isdigit c = true) (byte_text b) /\ decimal_value (byte_text b) 0 = b /\
  (b = 0 /\ byte_text b = [48] \/ exists c ds, byte_text b = c :: ds /\ c <> 48) /\ (length (byte_text b) <= 3)%nat.
Proof.
  intros Hb. pose proof byte_texts as Ht. rewrite forallb_forall in Ht.
  assert (byte_text_ok b = true) as Hok by (apply Ht, list_elem_of_In, elem_of_seqZ; lia). clear Ht.
  unfold byte_text_ok in Hok. rewrite !andb_true_iff in Hok. destruct Hok as ((((Hd & Hv) & Hz) & Hne) & Hl).
  split; [|split; [lia|split; [|by apply Nat.leb_le]]].
  - apply Forall_forall. intros c Hc. rewrite forallb_forall in Hd. by apply Hd, list_elem_of_In.
  - destruct (Z.eqb_spec b 0); [left; split; [done|by apply bool_decide_eq_true in Hz]|right].
    apply bool_decide_eq_true in Hne. destruct (byte_text b) as [|c ds]; [done|]. exists c, ds. split; [done|].
    cbn in Hz. apply negb_true_iff, Z.eqb_neq in Hz. done.
Qed.

Lemma number_run b e rest : 0 <= b < 256 -> e = 46 \/ e = 0 ->
  exists c, head (byte_text b) = Some c /\ isdigit c = true /\
    number c (byte_text b ++ e :: rest) = (Ret (b, e), e :: rest).
Proof.
  intros Hb He. assert (isdigit e = false) as Hde by (by destruct He as [-> | ->]).
  destruct (byte_text_spec b Hb) as (Hd & Hv & Hz & Hl).
  destruct Hz as [[-> Ht]|(c & ds & Ht & Hc)]; rewrite Ht in *.
  - exists 48. split_and!; [done..|]. unfold number. cstep (eq_refl (gets (fun s : list Z => length s) _)).
    cbn [app Z.eqb Pos.eqb]. cstep (advance_at 48 e rest).
    destruct He as [-> | ->]; by cbn [Z.eqb Pos.eqb orb digits_loop isdigit].
  - exists c. split_and!; [done|by apply Forall_inv in Hd|]. unfold number.
    cstep (eq_refl (gets (fun s : list Z => length s) _)). rewrite (proj2 (Z.eqb_neq _ _) Hc).
    rewrite (digits_run (c :: ds)); [by rewrite Hv|done|done| |done].
    rewrite length_app. lia.
Qed.

(** ** An address *)
Definition addr_text (addr : Z) : list Z :=
  match addr_bytes addr with
  | [a; b; c; d] => byte_text a ++ 46 :: byte_text b ++ 46 :: byte_text c ++ 46 :: byte_text d
  | _ => []
  end.

Lemma parts_run_dot n b rest parts : 0 <= b < 256 -> (0 < n)%nat ->
  exists c, head (byte_text b) = Some c /\ forall c' rest', rest = c' :: rest' ->
    parts_loop n c parts (byte_text b ++ 46 :: rest) = parts_loop (n - 1) c' (parts ++ [b]) rest.
Proof.
  intros Hb Hn. destruct (number_run b 46 rest Hb (or_introl eq_refl)) as (c & Hc & Hd & Hr).
  exists c. split; [done|]. intros c' rest' ->. destruct n as [|n]; [lia|]. cbn [parts_loop].
  rewrite Hd. cbn [negb exit_if]. cstep (eq_refl (ret tt (byte_text b ++ 46 :: c' :: rest'))). cstep Hr.
  cbn [Z.eqb Pos.eqb]. cstep (advance_at 46 c' rest'). by replace (S n - 1)%nat with n by lia.
Qed.

Lemma parts_run_end n b rest parts : 0 <= b < 256 ->
  exists c, head (byte_text b) = Some c /\
    parts_loop n c parts (byte_text b ++ 0 :: rest) = (Ret (parts, b, 0), 0 :: rest).
Proof.
  intros Hb. destruct (number_run b 0 rest Hb (or_intror eq_refl)) as (c & Hc & Hd & Hr).
  exists c. split; [done|]. destruct n as [|n]; cbn [parts_loop]; rewrite Hd; cbn [negb exit_if];
    cstep (eq_refl (ret tt (byte_text b ++ 0 :: rest))); by cstep Hr.
Qed.

Lemma byte_text_cons b c : head (byte_text b) = Some c -> exists ds, byte_text b = c :: ds.
Proof. destruct (byte_text b) as [|d ds]; [done|]. intros [= <-]. by exists ds. Qed.

Lemma concoct_word a b c d s : 0 <= a < 256 -> 0 <= b < 256 -> 0 <= c < 256 -> 0 <= d < 256 ->
  concoct [a; b; c] d s = (Ret (word_of a b c d), s).
Proof.
  intros. cbn [concoct]. rewrite !Z.gtb_ltb, !(proj2 (Z.ltb_ge _ _)) by lia. cbn [orb exit_if].
  unfold bind, ret. do 2 f_equal.
  rewrite !u32_small by (rewrite Z.shiftl_mul_pow2; lia). rewrite <- lor_word by done.
  rewrite Z.lor_comm. by rewrite <- !Z.lor_assoc.
Qed.

Lemma addr_bytes_word addr : 0 <= addr < 2 ^ 32 ->
  exists a b c d, addr_bytes addr = [a; b; c; d] /\ 0 <= a < 256 /\ 0 <= b < 256 /\ 0 <= c < 256 /\
    0 <= d < 256 /\ addr = word_of d c b a.
Proof.
  intros Ha. eexists _, _, _, _. split; [reflexivity|].
  rewrite !Z.shiftr_div_pow2 by lia. split_and!; try apply u8_range.
  unfold word_of, u8. Z.to_euclidean_division_equations; lia.
Qed.

Lemma aton_text addr tail : 0 <= addr < 2 ^ 32 ->
  (ip4addr_aton (addr_text addr ++ 0 :: tail)).1 = Ret addr.
Proof.
  intros Haddr. destruct (addr_bytes_word addr Haddr) as (a & b & c & d & Hbs & Ha & Hb & Hc & Hd & Hw).
  unfold addr_text. rewrite Hbs, <- !app_assoc. cbn [app]. rewrite <- !app_assoc. cbn [app]. rewrite <- !app_assoc. cbn [app].
  destruct (parts_run_end 0 d tail [a; b; c] Hd) as (cd & Hcd & Rd).
  destruct (parts_run_dot 1 c (byte_text d ++ 0 :: tail) [a; b] Hc ltac:(lia)) as (cc & Hcc & Rc).
  destruct (parts_run_dot 2 b (byte_text c ++ 46 :: byte_text d ++ 0 :: tail) [a] Hb ltac:(lia)) as (cb & Hcb & Rb).
  destruct (parts_run_dot 3 a (byte_text b ++ 46 :: byte_text c ++ 46 :: byte_text d ++ 0 :: tail) [] Ha ltac:(lia)) as (ca & Hca & Ra).
  destruct (byte_text_cons _ _ Hca) as [da Ea], (byte_text_cons _ _ Hcb) as [db Eb],
    (byte_text_cons _ _ Hcc) as [dc Ec], (byte_text_cons _ _ Hcd) as [dd Ed].
  rewrite Ed in Rc. specialize (Rc _ _ eq_refl). rewrite <- Ed in Rc.
  rewrite Ec in Rb. specialize (Rb _ _ eq_refl). rewrite <- Ec in Rb.
  rewrite Eb in Ra. specialize (Ra _ _ eq_refl). rewrite <- Eb in Ra.
  unfold ip4addr_aton.
  assert (forall s, peek (byte_text a ++ s) = (Ret ca, byte_text a ++ s)) as Hp by (intros s; by rewrite Ea).
  cstep (Hp _).
  assert (parts_loop 3 ca [] (byte_text a ++ 46 :: byte_text b ++ 46 :: byte_text c ++ 46 :: byte_text d ++ 0 :: tail)
    = (Ret ([a; b; c], d, 0), 0 :: tail)) as Hr
    by (etransitivity; [apply Ra|]; etransitivity; [apply Rb|]; etransitivity; [apply Rc|]; exact Rd).
  cstep Hr. cbn [Z.eqb negb andb exit_if]. cstep (eq_refl (ret tt (0 :: tail))).
  cstep (concoct_word a b c d (0 :: tail) Ha Hb Hc Hd). cbn [ret fst]. by rewrite lwip_htonl_word, <- Hw.
Qed.

(** ** [ip4addr_ntoa_r] *)
Lemma write_list_write a k c bs : (k + 1 + length bs <= length a)%nat ->
  write_list (write_list a k [c]) (k + 1) bs = write_list a k (c :: bs).
Proof. apply (write_list_app a k [c] bs). Qed.

Lemma put_chars_run cs : forall len buflen buf,
  0 <= len <= buflen -> buflen <= Z.of_nat (length buf) ->
  put_chars cs len buflen buf tt =
    (Ret (if len + Z.of_nat (length cs) <=? buflen
          then Some (len + Z.of_nat (length cs), write_list buf (Z.to_nat len) cs) else None), tt).
Proof.
  induction cs as [|c cs IH]; intros len buflen buf Hl Hb; cbn [put_chars length].
  - rewrite (proj2 (Z.leb_le _ _)) by lia. unfold ret, write_list. cbn [length]. do 2 f_equal.
    rewrite Z.add_0_r, Nat.add_0_r. cbn [app]. by rewrite take_drop.
  - destruct (Z.leb_spec buflen len).
    + by rewrite (proj2 (Z.leb_gt _ _)) by lia.
    + unfold write_array. rewrite (proj2 (Z.leb_le 0 len)), (proj2 (Z.leb_le _ (Z.of_nat (length buf)))) by (cbn; lia).
      cbn [andb]. cstep (eq_refl (ret (write_list buf (Z.to_nat len) [c]) tt)). rewrite IH.
      2: lia. 2: (rewrite write_list_length by (cbn; lia); lia).
      replace (len + 1 + Z.of_nat (length cs)) with (len + Z.of_nat (S (length cs))) by lia.
      destruct (Z.leb_spec (len + Z.of_nat (S (length cs))) buflen); [|done].
      replace (Z.to_nat (len + 1)) with (Z.to_nat len + 1)%nat by lia. by rewrite write_list_write by lia.
Qed.

#[local] Arguments addr_text : simpl never.

Definition dotted (aps : list Z) : list Z := concat ((fun ap => byte_text ap ++ [46]) <$> aps).

Lemma ntoa_loop_run aps : forall len buflen buf,
  0 <= len <= buflen -> buflen <= Z.of_nat (length buf) ->
  ntoa_loop aps len buflen buf tt =
    (Ret (if len + Z.of_nat (length (dotted aps)) <=? buflen
          then Some (len + Z.of_nat (length (dotted aps)), write_list buf (Z.to_nat len) (dotted aps)) else None), tt).
Proof.
  induction aps as [|ap aps IH]; intros len buflen buf Hl Hb.
  { by apply (put_chars_run []). }
  cbn [ntoa_loop]. change (rev (inv_digits 3 ap)) with (byte_text ap).
  cstep (put_chars_run (byte_text ap ++ [46]) len buflen buf Hl Hb).
  change (dotted (ap :: aps)) with ((byte_text ap ++ [46]) ++ dotted aps).
  rewrite (length_app (byte_text ap ++ [46])).
  set (n := length (byte_text ap ++ [46])). destruct (Z.leb_spec (len + Z.of_nat n) buflen).
  - cbv beta iota. rewrite IH; [|lia|rewrite write_list_length by (fold n; lia); lia].
    replace (len + Z.of_nat n + Z.of_nat (length (dotted aps))) with (len + Z.of_nat (n + length (dotted aps))) by lia.
    destruct (Z.leb_spec (len + Z.of_nat (n + length (dotted aps))) buflen); [|done]. do 4 f_equal.
    replace (Z.to_nat (len + Z.of_nat n)) with (Z.to_nat len + n)%nat by lia. apply write_list_app. fold n. lia.
  - by rewrite (proj2 (Z.leb_gt _ _)) by lia.
Qed.

Lemma dotted_text addr : dotted (addr_bytes addr) = addr_text addr ++ [46].
Proof.
  unfold dotted, addr_text, addr_bytes. cbn [fmap list_fmap concat].
  by repeat (rewrite <- app_assoc; cbn [app]).
Qed.

Lemma addr_text_length addr : 0 <= addr < 2 ^ 32 -> (length (addr_text addr) <= 15)%nat.
Proof.
  intros Ha. destruct (addr_bytes_word addr Ha) as (a & b & c & d & Hbs & Hra & Hrb & Hrc & Hrd & _).
  unfold addr_text. rewrite Hbs.
  pose proof (byte_text_spec a Hra) as (_ & _ & _ & ?). pose proof (byte_text_spec b Hrb) as (_ & _ & _ & ?).
  pose proof (byte_text_spec c Hrc) as (_ & _ & _ & ?). pose proof (byte_text_spec d Hrd) as (_ & _ & _ & ?).
  rewrite !length_app. cbn [length]. rewrite !length_app. cbn [length]. rewrite !length_app. cbn [length]. lia.
Qed.

Lemma write_last buf t x y : (length t < length buf)%nat ->
  write_list (write_list buf 0 (t ++ [x])) (length t) [y] = t ++ y :: drop (S (length t)) buf.
Proof.
  intros Hl. unfold write_list. rewrite take_0. cbn [app length Nat.add]. rewrite length_app. cbn [length].
  rewrite <- app_assoc, take_app_length. f_equal. f_equal. rewrite app_assoc.
  rewrite drop_app_length' by (rewrite length_app; done). by rewrite Nat.add_1_r.
Qed.

(** C38: Every address, printed into a buffer that can hold it (16 bytes always can), and
    parsed again, is the same address; a buffer too short gives NULL, and no
    byte outside the buffer is written. *)
Theorem ip4_text_roundtrip addr buf buflen :
  0 <= addr < 2 ^ 32 -> 0 <= buflen <= Z.of_nat (length buf) ->
  exists text, Z.of_nat (length text) <= 15 /\
    ip4addr_ntoa_r addr buf buflen tt =
      (Ret (if Z.of_nat (length text) <? buflen
            then Some (text ++ 0 :: drop (S (length text)) buf) else None), tt) /\
    forall tail, (ip4addr_aton (text ++ 0 :: tail)).1 = Ret addr.
Proof.
  intros Ha Hb. exists (addr_text addr). pose proof (addr_text_length addr Ha).
  split_and!; [lia| |intros tail; by apply aton_text].
  unfold ip4addr_ntoa_r. cstep (ntoa_loop_run (addr_bytes addr) 0 buflen buf ltac:(lia) ltac:(lia)).
  rewrite dotted_text, length_app, Z.add_0_l. cbn [length].
  set (n := length (addr_text addr)) in *.
  destruct (Z.leb_spec (Z.of_nat (n + 1)) buflen), (Z.ltb_spec (Z.of_nat n) buflen); try lia; [|done].
  change (Z.to_nat 0) with 0%nat. cbv beta iota.
  assert (length (write_list buf 0 (addr_text addr ++ [46])) = length buf) as Hlen
    by (rewrite write_list_length; rewrite ?length_app; cbn; fold n; lia).
  unfold write_array. rewrite Hlen, (proj2 (Z.leb_le 0 _)), (proj2 (Z.leb_le _ (Z.of_nat (length buf)))) by (cbn; lia).
  cbn [andb]. unfold bind, ret. do 3 f_equal. replace (Z.to_nat (Z.of_nat (n + 1) - 1)) with n by lia.
  apply write_last. lia.
Qed.

(** ** [ip4addr_aton] stays inside a terminated string *)
Definition at_char (c : Z) (s : list Z) : Prop := head s = Some c /\ 0 ∈ s.

Lemma advance_safe c s : at_char c s -> c <> 0 ->
  exists c' s', advance s = (Ret c', s') /\ at_char c' s' /\ length s = S (length s').
Proof.
  intros [Hh H0] Hc. destruct s as [|a s]; [done|]. injection Hh as ->.
  apply elem_of_cons in H0 as [?|H0]; [congruence|]. destruct s as [|c' s]; [by apply not_elem_of_nil in H0|].
  exists c', (c' :: s). by split_and!.
Qed.

Lemma digits_safe n : forall c val base s, at_char c s -> (length s <= n)%nat ->
  exists v c' s', digits_loop n c val base s = (Ret (v, c'), s') /\ at_char c' s'.
Proof.
  induction n as [|n IH]; intros c val base s Hc Hn; cbn [digits_loop].
  { destruct s; [by destruct Hc|cbn in Hn; lia]. }
  destruct (isdigit c) eqn:Hd; [|destruct ((base =? 16) && isxdigit c) eqn:Hx; [|by exists val, c, s]].
  - destruct (advance_safe c s Hc) as (c' & s' & Ha & Hc' & Hl); [by intros ->|]. cstep Ha. apply IH; [done|lia].
  - destruct (advance_safe c s Hc) as (c' & s' & Ha & Hc' & Hl);
      [by intros ->; rewrite andb_false_r in Hx|]. cstep Ha. apply IH; [done|lia].
Qed.

Lemma number_safe c s : at_char c s -> exists v c' s', number c s = (Ret (v, c'), s') /\ at_char c' s'.
Proof.
  intros Hc. unfold number. cstep (eq_refl (gets (fun s : list Z => length s) s)).
  destruct (Z.eqb_spec c 48) as [->|]; [|by apply digits_safe].
  destruct (advance_safe 48 s Hc) as (c & s1 & Ha & Hc1 & Hl); [done|]. cstep Ha.
  destruct ((c =? 120) || (c =? 88)) eqn:Hx; [|apply digits_safe; [done|lia]].
  destruct (advance_safe c s1 Hc1) as (c' & s2 & Ha' & Hc2 & Hl'); [by intros ->|]. cstep Ha'.
  apply digits_safe; [done|lia].
Qed.

Lemma parts_safe n : forall c parts s, at_char c s ->
  exists o s', parts_loop n c parts s = (o, s') /\
    (o = Exit 0 \/ exists ps v c', o = Ret (ps, v, c') /\ (length ps <= length parts + n)%nat).
Proof.
  induction n as [|n IH]; intros c parts s Hc; cbn [parts_loop];
    (destruct (isdigit c); cbn [negb exit_if];
     [cstep (eq_refl (ret tt s))|by eexists _, _; split; [reflexivity|left]]);
    destruct (number_safe c s Hc) as (v & c' & s' & Hr & Hc'); cstep Hr; destruct (Z.eqb_spec c' 46) as [->|].
  - by eexists _, _; split; [reflexivity|left].
  - eexists _, _; split; [reflexivity|right]. eexists _, _, _. split; [done|lia].
  - destruct (advance_safe 46 s' Hc') as (c'' & s'' & Ha & Hc'' & _); [done|]. cstep Ha.
    destruct (IH c'' (parts ++ [v]) s'' Hc'') as (o & s3 & Hr3 & Ho). exists o, s3. split; [done|].
    destruct Ho as [->|(ps & w & cc & -> & Hl)]; [by left|right]. exists ps, w, cc. split; [done|].
    rewrite length_app in Hl. cbn in Hl. lia.
  - eexists _, _; split; [reflexivity|right]. eexists _, _, _. split; [done|lia].
Qed.

Lemma concoct_safe ps v s : (length ps <= 3)%nat ->
  concoct ps v s = (Exit 0, s) \/ exists w, concoct ps v s = (Ret w, s).
Proof.
  intros Hl. destruct ps as [|p0 [|p1 [|p2 [|p3 ps]]]]; cbn [length] in Hl; [eauto| | | |lia];
    cbn [concoct]; unfold exit_if; repeat case_match; eauto.
Qed.

(** C39: On any array with a terminator, whatever characters precede it, the parser ends
    and reads nothing behind the terminator; it refuses, or gives an address; the
    assertion for more than four parts is never reached. *)
Theorem aton_safe s : 0 ∈ s ->
  (ip4addr_aton s).1 = Exit 0 \/ exists addr, (ip4addr_aton s).1 = Ret addr /\ 0 <= addr < 2 ^ 32.
Proof.
  intros H0. destruct s as [|c s]; [by apply not_elem_of_nil in H0|].
  unfold ip4addr_aton. cstep (peek_at c s).
  destruct (parts_safe 3 c [] (c :: s)) as (o & s' & Hr & Ho); [done|].
  destruct Ho as [->|(ps & v & c' & -> & Hl)]; [left; unfold bind; by rewrite Hr|]. cstep Hr.
  destruct (negb (c' =? 0) && negb (isspace c')); cbn [exit_if]; [by left|].
  cstep (eq_refl (ret tt s')).
  destruct (concoct_safe ps v s' ltac:(cbn in Hl; lia)) as [Hc|[w Hc]];
    [left; unfold bind; by rewrite Hc|]. cstep Hc. right.
  eexists. split; [reflexivity|]. apply u32_range.
Qed.
