(* ===== verification/StringThms.v ===== *)
(** * The string helpers: numbers to text, comparisons, netmasks; runs and witnesses *)
From S2P Require Export TextThms.

(** ** [lwip_itoa] *)
Fixpoint low_first_value (ds : list Z) : Z :=
  match ds with [] => 0 | d :: ds => (d - 48) + 10 * low_first_value ds end.
(** The number a row of decimal digits stands for. *)
Definition text_value (ds : list Z) : Z := low_first_value (rev ds).

Lemma quot_abs z : Z.abs (Z.quot z 10) = Z.abs z / 10.
Proof. rewrite <- Z.quot_abs by lia. by rewrite Z.quot_div_nonneg by lia. Qed.

Lemma itoa_loop_run n : forall number, (0 < n)%nat -> Z.abs number < 10 ^ Z.of_nat n ->
  exists ds tmp, itoa_loop n number = Some (ds, tmp) /\ (0 < length ds <= n)%nat /\
    Forall (fun d => 48 <= d <= 57) ds /\ low_first_value ds = Z.abs number /\
    (tmp <? 0) = (number <? 0) /\ (number <> 0 -> last ds <> Some 48).
Proof.
  induction n as [|n IH]; intros z Hn Hz; [lia|]. cbn [itoa_loop]. cbv zeta. unfold cdiv, digit_char.
  pose proof (quot_abs z) as Hq. pose proof (Z.quot_rem' z 10) as Hr. pose proof (Z.rem_bound_abs z 10 ltac:(lia)) as Hb.
  assert (Z.abs (z - Z.quot z 10 * 10) = Z.abs z mod 10) as Hd.
  { rewrite <- Z.rem_abs, Z.rem_mod_nonneg in * by lia. rewrite (Zmod_eq_full (Z.abs z)), <- Hq by lia.
    replace (z - Z.quot z 10 * 10) with (Z.rem z 10) by lia. Z.to_euclidean_division_equations; lia. }
  rewrite Hd. pose proof (Z.mod_pos_bound (Z.abs z) 10 ltac:(lia)).
  destruct (Z.eqb_spec (Z.quot z 10) 0) as [E|E].
  - eexists _, _. split; [reflexivity|]. cbn [length low_first_value].
    assert (Z.abs z mod 10 = Z.abs z) as Hm by (apply Z.mod_small; Z.to_euclidean_division_equations; lia).
    split_and!; try done; try lia; [repeat constructor; lia|]. intros Hne [= Hl]. lia.
  - destruct n as [|n]; [exfalso; change (10 ^ Z.of_nat 1) with 10 in Hz; Z.to_euclidean_division_equations; lia|].
    destruct (IH (Z.quot z 10)) as (ds & tmp & He & Hl & Hf & Hv & Hs & Hlast); [lia| |].
    { rewrite Hq. apply Z.div_lt_upper_bound; [lia|]. rewrite <- Z.pow_succ_r by lia.
      by rewrite <- Nat2Z.inj_succ. }
    rewrite He. eexists _, _. split; [reflexivity|]. cbn [length low_first_value fst snd].
    split_and!; try lia.
    + constructor; [lia|done].
    + rewrite Hv, Hq. pose proof (Z.div_mod (Z.abs z) 10). lia.
    + intros _. destruct ds as [|d ds]; [cbn in Hl; lia|]. by apply Hlast.
Qed.

(** [lwip_itoa] writes the decimal text of every [int], the smallest one included: a
    sign, then digits without a leading zero, then the terminator: 12 bytes at most.
    It never looks at [bufsize]. *)
Theorem itoa_correct z : - 2 ^ 31 <= z < 2 ^ 31 ->
  exists ds, lwip_itoa z = Some ((if z <? 0 then [45] else []) ++ ds ++ [0]) /\
    Forall (fun d => 48 <= d <= 57) ds /\ text_value ds = Z.abs z /\
    (0 < length ds <= 10)%nat /\ (z <> 0 -> head ds <> Some 48).
Proof.
  intros Hz. destruct (itoa_loop_run 10 z) as (ds & tmp & He & Hl & Hf & Hv & Hs & Hlast); [lia|lia|].
  exists (rev ds). unfold lwip_itoa. rewrite He. cbn [mbind option_bind fst snd].
  split_and!.
  - f_equal. rewrite Hs. destruct (z <? 0); [|done]. by rewrite rev_app_distr.
  - by apply Forall_rev.
  - unfold text_value. by rewrite rev_involutive.
  - rewrite length_rev. lia.
  - rewrite length_rev. lia.
  - intros Hne. rewrite <- (reverse_involutive ds) in Hlast. rewrite last_reverse in Hlast.
    rewrite rev_alt. by apply Hlast.
Qed.

(** ** Comparisons *)
Definition lower (c : Z) : Z := if (65 <=? c) && (c <=? 90) then c + 32 else c.

Lemma chars_table :
  forallb (fun a => forallb (fun b => Bool.eqb (chars_differ a b) (negb (lower a =? lower b))) (seqZ 0 256)) (seqZ 0 256) = true.
Proof. by vm_compute. Qed.

Lemma chars_differ_lower a b : 0 <= a < 256 -> 0 <= b < 256 ->
  chars_differ a b = negb (lower a =? lower b).
Proof.
  intros Ha Hb. pose proof chars_table as Ht. rewrite forallb_forall in Ht.
  specialize (Ht a ltac:(apply list_elem_of_In, elem_of_seqZ; lia)). rewrite forallb_forall in Ht.
  specialize (Ht b ltac:(apply list_elem_of_In, elem_of_seqZ; lia)). by apply Bool.eqb_prop in Ht.
Qed.

Definition chars (t : list Z) : Prop := Forall (fun c => 1 <= c < 256) t.

Lemma lower_zero c : 0 <= c < 256 -> lower c = lower 0 -> c = 0.
Proof. intros Hc. unfold lower. destruct (Z.leb_spec 65 c), (Z.leb_spec c 90); cbn; lia. Qed.

(** [lwip_stricmp] is 0 exactly on strings that are equal up to the case of the
    letters A to Z, and reads neither string past its terminator. *)
Theorem stricmp_correct t1 t2 r1 r2 : chars t1 -> chars t2 ->
  lwip_stricmp (t1 ++ 0 :: r1) (t2 ++ 0 :: r2) =
    Some (if bool_decide (lower <$> t1 = lower <$> t2) then 0 else 1).
Proof.
  intros H1. revert t2. induction H1 as [|c1 t1 Hc1 H1 IH]; intros t2 H2; destruct t2 as [|c2 t2];
    cbn [app lwip_stricmp fmap list_fmap]; [done| | |]; rewrite chars_differ_lower;
    try (apply Forall_cons in H2 as [Hc2 H2]); try lia.
  - destruct (Z.eqb_spec (lower 0) (lower c2)) as [E|E]; [symmetry in E; apply lower_zero in E; lia|done].
  - destruct (Z.eqb_spec (lower c1) (lower 0)) as [E|E]; [apply lower_zero in E; lia|done].
  - destruct (Z.eqb_spec (lower c1) (lower c2)) as [E|E]; cbn [negb].
    + rewrite (proj2 (Z.eqb_neq c1 0)) by lia. cbn [negb]. rewrite IH by done. f_equal.
      rewrite (bool_decide_ext (lower <$> t1 = lower <$> t2) (lower c1 :: (lower <$> t1) = lower c2 :: (lower <$> t2)));
        [done|]. rewrite E. split; congruence.
    + rewrite bool_decide_eq_false_2 by congruence. done.
Qed.

(** [lwip_strnicmp] compares [len + 1] characters, one more than it is asked for. *)
Theorem strnicmp_compares_one_more n t1 t2 r1 r2 : chars t1 -> chars t2 ->
  lwip_strnicmp (t1 ++ 0 :: r1) (t2 ++ 0 :: r2) (Z.of_nat n) =
    Some (if bool_decide (lower <$> take (S n) t1 = lower <$> take (S n) t2) then 0 else 1).
Proof.
  intros H1. revert n t2. induction H1 as [|c1 t1 Hc1 H1 IH]; intros n t2 H2; destruct t2 as [|c2 t2];
    cbn [app lwip_strnicmp take fmap list_fmap].
  { unfold chars_differ. cbn. by rewrite andb_false_r. }
  all: rewrite chars_differ_lower; try (apply Forall_cons in H2 as [Hc2 H2]); try lia.
  - destruct (Z.eqb_spec (lower 0) (lower c2)) as [E|E]; [symmetry in E; apply lower_zero in E; lia|done].
  - destruct (Z.eqb_spec (lower c1) (lower 0)) as [E|E]; [apply lower_zero in E; lia|done].
  - destruct (Z.eqb_spec (lower c1) (lower c2)) as [E|E]; cbn [negb].
    + rewrite (proj2 (Z.eqb_neq c1 0)) by lia. cbn [negb]. rewrite andb_true_r. destruct n as [|n].
      * cbn [take]. rewrite E. by rewrite bool_decide_eq_true_2.
      * replace (truthy (Z.of_nat (S n))) with true by (symmetry; apply truthy_true; lia).
        replace (Z.of_nat (S n) - 1) with (Z.of_nat n) by lia. rewrite IH by done. f_equal.
        rewrite (bool_decide_ext (lower <$> take (S n) t1 = lower <$> take (S n) t2)
          (lower c1 :: (lower <$> take (S n) t1) = lower c2 :: (lower <$> take (S n) t2))); [done|].
        rewrite E. split; congruence.
    + rewrite bool_decide_eq_false_2 by congruence. done.
Qed.

(** ** Netmasks *)
Lemma land_bit x n : (Z.land x (Z.shiftl 1 (Z.of_nat n)) =? 0) = negb (Z.testbit x (Z.of_nat n)).
Proof.
  destruct (Z.testbit x (Z.of_nat n)) eqn:Hb; cbn [negb].
  - apply Z.eqb_neq. intros H0. apply (f_equal (fun z => Z.testbit z (Z.of_nat n))) in H0.
    rewrite Z.land_spec, Hb, Z.shiftl_1_l, Z.pow2_bits_true, Z.bits_0 in H0 by lia. done.
  - apply Z.eqb_eq, Z.bits_inj'. intros i Hi. rewrite Z.land_spec, Z.shiftl_1_l, Z.bits_0.
    destruct (decide (i = Z.of_nat n)) as [->|]; [by rewrite Hb|].
    rewrite Z.pow2_bits_false by lia. apply andb_false_r.
Qed.

Lemma top_bit n x : 0 <= x < 2 ^ Z.of_nat (S n) ->
  Z.testbit x (Z.of_nat n) = (2 ^ Z.of_nat n <=? x).
Proof.
  intros Hx. rewrite Z.testbit_eqb by lia. rewrite Nat2Z.inj_succ, Z.pow_succ_r in Hx by lia.
  pose proof (Z.pow_pos_nonneg 2 (Z.of_nat n)).
  destruct (Z.leb_spec (2 ^ Z.of_nat n) x).
  - replace (x / 2 ^ Z.of_nat n) with 1; [done|]. apply (Z.div_unique _ _ _ (x - 2 ^ Z.of_nat n)); lia.
  - by rewrite Z.div_small by lia.
Qed.

Lemma no_one_zero n x : 0 <= x < 2 ^ Z.of_nat n -> no_one n x = (x =? 0).
Proof.
  revert x. induction n as [|n IH]; intros x Hx; [cbn in *; symmetry; apply Z.eqb_eq; lia|].
  cbn [no_one]. rewrite land_bit, top_bit, negb_involutive by done.
  destruct (Z.leb_spec (2 ^ Z.of_nat n) x).
  - pose proof (Z.pow_pos_nonneg 2 (Z.of_nat n)). symmetry. apply Z.eqb_neq. lia.
  - apply IH. lia.
Qed.

Lemma low_bits n m x : (m <= n)%nat -> 0 <= x < 2 ^ Z.of_nat n ->
  skip_ones m (2 ^ Z.of_nat n + x) = skip_ones m x /\ no_one m (2 ^ Z.of_nat n + x) = no_one m x.
Proof.
  intros Hm Hx. assert (forall i, (i < n)%nat -> Z.testbit (2 ^ Z.of_nat n + x) (Z.of_nat i) = Z.testbit x (Z.of_nat i)) as Hb.
  { intros i Hi. rewrite <- (Z.mod_pow2_bits_low (2 ^ Z.of_nat n + x) (Z.of_nat n)) by lia.
    f_equal. rewrite <- (Z.mul_1_l (2 ^ Z.of_nat n)) at 1. rewrite Z.add_comm, Z.mod_add by lia. by apply Z.mod_small. }
  clear Hx. induction m as [|m IH]; [done|]. cbn [skip_ones no_one]. rewrite !land_bit, Hb by lia.
  destruct (IH ltac:(lia)) as [-> ->]. done.
Qed.

Lemma skip_ones_le n x : (skip_ones n x <= n)%nat.
Proof. induction n as [|n IH]; [done|]. cbn [skip_ones]. destruct (_ =? 0); lia. Qed.

Lemma prefix_mask n x : 0 <= x < 2 ^ Z.of_nat n ->
  no_one (skip_ones n x) x = true <-> exists k, 0 <= k <= Z.of_nat n /\ x = 2 ^ Z.of_nat n - 2 ^ (Z.of_nat n - k).
Proof.
  revert x. induction n as [|n IH]; intros x Hx.
  { split; [intros _|done]. exists 0. cbn in *. lia. }
  pose proof (Z.pow_pos_nonneg 2 (Z.of_nat n) ltac:(lia) ltac:(lia)) as Hp.
  assert (2 ^ Z.of_nat (S n) = 2 * 2 ^ Z.of_nat n) as HS by (rewrite Nat2Z.inj_succ, Z.pow_succ_r by lia; done).
  cbn [skip_ones]. rewrite land_bit, top_bit by done. destruct (Z.leb_spec (2 ^ Z.of_nat n) x) as [Hle|Hlt]; cbn [negb].
  - set (y := x - 2 ^ Z.of_nat n). assert (0 <= y < 2 ^ Z.of_nat n) as Hy by (unfold y; lia).
    replace x with (2 ^ Z.of_nat n + y) by (unfold y; lia).
    destruct (low_bits n n y ltac:(lia) Hy) as [-> _].
    destruct (low_bits n (skip_ones n y) y (skip_ones_le n y) Hy) as [_ ->]. rewrite IH by done. split.
    + intros (k & Hk & Hyk). exists (k + 1). split; [lia|]. rewrite HS.
      replace (Z.of_nat (S n) - (k + 1)) with (Z.of_nat n - k) by lia. lia.
    + intros (k & Hk & Hyk). destruct (decide (k = 0)) as [->|].
      { rewrite Z.sub_0_r, HS in Hyk. lia. }
      exists (k - 1). split; [lia|]. replace (Z.of_nat n - (k - 1)) with (Z.of_nat (S n) - k) by lia. lia.
  - cbn [no_one]. rewrite land_bit, top_bit, negb_involutive, (proj2 (Z.leb_gt _ _) Hlt) by done.
    rewrite no_one_zero, Z.eqb_eq by lia. split.
    + intros ->. exists 0. rewrite Z.sub_0_r. lia.
    + intros (k & Hk & Hxk). destruct (decide (k = 0)) as [->|]; [rewrite Z.sub_0_r in Hxk; lia|].
      pose proof (Z.pow_le_mono_r 2 (Z.of_nat (S n) - k) (Z.of_nat n) ltac:(lia) ltac:(lia)). lia.
Qed.

(** A netmask is accepted exactly when, in host order, it is [k] ones followed by
    zeros, for some prefix length [k] from 0 to 32. *)
Theorem netmask_valid_correct netmask : 0 <= netmask < 2 ^ 32 ->
  ip4_addr_netmask_valid netmask = true <->
  exists k, 0 <= k <= 32 /\ lwip_htonl netmask = 2 ^ 32 - 2 ^ (32 - k).
Proof. intros _. apply (prefix_mask 32). apply u32_range. Qed.

(** The address of the board, 192.168.0.105, in network order. *)
Definition board : Z := 0x6900A8C0.
Definition board_text : list Z := [49; 57; 50; 46; 49; 54; 56; 46; 48; 46; 49; 48; 53].

Example board_printed : ip4addr_ntoa_r board (replicate 16 7) 16 tt = (Ret (Some (board_text ++ [0; 7; 7])), tt).
Proof. by vm_compute. Qed.

(** Hexadecimal, octal and short forms are read; a number of more than 32 bits wraps around. *)
Example aton_forms :
  ipaddr_addr [48; 120; 55; 70; 46; 49; 0] = Ret (lwip_htonl 0x7F000001) /\   (* 0x7F.1 *)
  ipaddr_addr [48; 49; 48; 46; 50; 53; 54; 0] = Ret (lwip_htonl 0x08000100) /\ (* 010.256 *)
  ipaddr_addr [52; 50; 57; 52; 57; 54; 55; 50; 57; 55; 0] = Ret (lwip_htonl 1) /\ (* 4294967297 *)
  ipaddr_addr [49; 46; 46; 50; 0] = Ret IPADDR_NONE.                           (* 1..2 *)
Proof. by vm_compute. Qed.

Lemma ip4_text_roundtrip_witness :
  exists text, ip4addr_ntoa_r board (replicate 16 7) 16 tt = (Ret (Some (text ++ 0 :: drop (S (length text)) (replicate 16 7))), tt) /\
    (ip4addr_aton (text ++ [0])).1 = Ret board.
Proof.
  destruct (ip4_text_roundtrip board (replicate 16 7) 16) as (text & Hl & Hp & Ha); [done|cbn; lia|].
  exists text. rewrite Hp. rewrite (proj2 (Z.ltb_lt _ _)) by lia. split; [done|apply Ha].
Defined.

Lemma aton_safe_witness :
  (ip4addr_aton [49; 50; 0]).1 = Exit 0 \/ exists addr, (ip4addr_aton [49; 50; 0]).1 = Ret addr /\ 0 <= addr < 2 ^ 32.
Proof. apply (aton_safe [49; 50; 0]). by do 2 apply list_elem_of_further; apply list_elem_of_here. Defined.

Lemma itoa_correct_witness :
  exists ds, lwip_itoa (- 2 ^ 31) = Some ([45] ++ ds ++ [0]) /\ text_value ds = 2 ^ 31.
Proof. destruct (itoa_correct (- 2 ^ 31)) as (ds & H & _ & Hv & _); [lia|]. by exists ds. Defined.

Lemma stricmp_correct_witness : lwip_stricmp ([72; 105] ++ [0]) ([104; 73] ++ [0]) = Some 0.
Proof. rewrite (stricmp_correct [72; 105] [104; 73] [] []); [done|by repeat constructor..]. Defined.

(** "AB" and "ac" differ in the second character, but only one was to be compared. *)
Lemma strnicmp_compares_one_more_witness :
  lwip_strnicmp ([65; 66] ++ [0]) ([97; 99] ++ [0]) (Z.of_nat 1) = Some 1.
Proof. rewrite (strnicmp_compares_one_more 1 [65; 66] [97; 99] [] []); [done|by repeat constructor..]. Defined.

Lemma netmask_valid_correct_witness :
  ip4_addr_netmask_valid 0x00FFFFFF = true <->
  exists k, 0 <= k <= 32 /\ lwip_htonl 0x00FFFFFF = 2 ^ 32 - 2 ^ (32 - k).
Proof. apply (netmask_valid_correct 0x00FFFFFF). done. Defined.
