(* ===== verification/PbufOwn.v ===== *)
(** * Packets with one owner: what allocation, copying, filling and release do to the rest

    [owns h q l]: the packet [l] at [q] belongs to one holder, each pbuf with its own
    buffer.  [hstep X L h h'] frames a run: it changes nothing but the pbufs and buffers
    [X], and the memory in use afterwards is [L]. *)
From S2P Require Export PbufAlloc.

#[local] Set Warnings "-clear-no-such-hyp".

Section Own.
Context {A : Type} `{Allocator A}.
Implicit Types (h : heap A) (q : ptr) (x : pbuf) (l : list node) (X L : gset ptr).

Definition own_node (n : node) : Prop :=
  n_block n = Some (n_ptr n) /\ ref (n_buf n) = 1 /\ PBUF_FLAG_custom (n_buf n) = false /\
  (type (n_buf n) = PBUF_RAM \/ type (n_buf n) = PBUF_POOL).

(** Pbufs of the pool. *)
Definition pooled l : Prop := Forall (fun n => type (n_buf n) = PBUF_POOL) l.

Definition owns h q l : Prop := packet h (Some q) l /\ Forall own_node l.

Definition ptrs l : gset ptr := list_to_set (n_ptr <$> l).

Definition hstep X L h h' : Prop :=
  (forall p, p ∉ X -> pb h' !! p = pb h !! p /\ bl h' !! p = bl h !! p) /\
  live (al h') = L /\ alloc_inv h'.

(** [pbuf_alloc], called in [h] for a [PBUF_RAM] of these dimensions, finds no memory. *)
Definition no_ram (layer n : Z) h : Prop := exists h', forall custom,
  pbuf_alloc custom layer n PBUF_RAM h = (Ret None, h').

Lemma no_ram_alloc custom layer n h h' : pbuf_alloc custom layer n PBUF_RAM h = (Ret None, h') -> no_ram layer n h.
Proof. intros Hr. exists h'. intros custom'. by rewrite <- Hr. Qed.

Lemma ptrs_elem n l : n ∈ l -> n_ptr n ∈ ptrs l.
Proof. intros Hn. apply elem_of_list_to_set, list_elem_of_fmap. eauto. Qed.

Lemma hstep_refl X h : alloc_inv h -> hstep X (live (al h)) h h.
Proof. intros Hi. unfold hstep. by split_and!. Qed.

Lemma hstep_trans X1 X2 L1 L2 h h1 h2 :
  hstep X1 L1 h h1 -> hstep X2 L2 h1 h2 -> hstep (X1 ∪ X2) L2 h h2.
Proof.
  intros (H1 & _ & _) (H2 & HL & Hi). unfold hstep. split_and!; [|done|done].
  intros p [Hp1 Hp2]%not_elem_of_union. destruct (H1 p Hp1) as [<- <-]. by apply H2.
Qed.

Lemma hstep_weaken X X' L h h' : hstep X L h h' -> X ⊆ X' -> hstep X' L h h'.
Proof. intros (H1 & HL & Hi) HX. unfold hstep. split_and!; [|done|done]. intros p Hp. apply H1. set_solver. Qed.

Lemma packet_keep l : forall p h h', packet h p l ->
  (forall n, n ∈ l -> pb h' !! n_ptr n = pb h !! n_ptr n) ->
  (forall b, Some b ∈ n_block <$> l -> bl h' !! b = bl h !! b) -> packet h' p l.
Proof.
  induction l as [|[q x bs] l IH]; intros p h h' Hp Hpb Hbl; [done|].
  destruct Hp as (-> & Hx & (b & o & a & Hpl & Ha & Hr) & Ht & Hp). split_and!.
  - done.
  - specialize (Hpb (Node q x bs) ltac:(left)). cbn in Hpb. by rewrite Hpb.
  - exists b, o, a. split; [done|]. rewrite Hbl; [done|].
    rewrite fmap_cons. assert (n_block (Node q x bs) = Some b) as -> by (unfold n_block; cbn; by rewrite Hpl). left.
  - done.
  - apply (IH _ h); [done|..]; intros; [apply Hpb|apply Hbl]; by right.
Qed.

(** A packet does not see what happens to others. *)
Lemma owns_keep X L h h' q l : owns h q l -> hstep X L h h' -> ptrs l ## X -> owns h' q l.
Proof.
  intros [Hp Ho] (Hs & _) Hd. split; [|done]. apply (packet_keep l _ h); [done|..].
  - intros n Hn. apply Hs. pose proof (ptrs_elem _ _ Hn). set_solver.
  - intros b (n & Hb & Hn)%list_elem_of_fmap. rewrite Forall_forall in Ho.
    destruct (Ho n Hn) as (Hb' & _). rewrite Hb' in Hb. injection Hb as ->.
    apply Hs. pose proof (ptrs_elem _ _ Hn). set_solver.
Qed.

Lemma owns_live h q l : owns h q l -> alloc_inv h -> ptrs l ⊆ live (al h).
Proof.
  intros [Hp _] [Hi _] p (n & -> & Hn)%elem_of_list_to_set%list_elem_of_fmap.
  apply Hi, elem_of_dom. exists (n_buf n). by apply (packet_lookup _ _ _ _ Hp).
Qed.

Lemma owns_head h q n l : owns h q (n :: l) -> n_ptr n = q.
Proof. intros [Hp _]. apply packet_head in Hp. by injection Hp. Qed.

Lemma owns_separate h q l : owns h q l -> separate l.
Proof.
  intros [Hp Ho]. unfold separate.
  assert (n_block <$> l = Some <$> (n_ptr <$> l)) as ->.
  { rewrite <- list_fmap_compose. apply list_fmap_ext. intros i n Hn.
    rewrite Forall_forall in Ho. destruct (Ho n) as (-> & _); [by eapply list_elem_of_lookup_2|done]. }
  apply NoDup_fmap; [apply _|]. by eapply packet_NoDup.
Qed.

(** ** Writing into a packet *)
Lemma set_block_step p a h : alloc_inv h -> p ∈ live (al h) -> hstep {[p]} (live (al h)) h (set_block p a h).
Proof.
  intros [I1 I2] Hp. unfold hstep, alloc_inv. cbn. rewrite dom_insert. split_and!; [|done|done|set_solver].
  intros r Hr. rewrite lookup_insert_ne; [done|set_solver].
Qed.

Lemma owns_write h q l1 p x bs l2 off cs : owns h q (l1 ++ Node p x bs :: l2) -> alloc_inv h ->
  0 <= off -> off + Z.of_nat (length cs) <= len x -> exists h',
  write_mem (payload x) off cs h = (Ret tt, h') /\
  owns h' q (l1 ++ Node p x (write_list bs (Z.to_nat off) cs) :: l2) /\
  hstep {[p]} (live (al h)) h h'.
Proof.
  intros Ho Hi Hoff Hle. pose proof (owns_separate _ _ _ Ho) as Hs. pose proof (owns_live _ _ _ Ho Hi) as Hlv.
  destruct Ho as [Hp Ho]. destruct (packet_mid _ _ _ _ _ Hp) as (_ & Hh & _). cbn in Hh.
  destruct (write_mem_at h x bs off cs Hh Hoff Hle) as (b & a & Hb & Hw & Hh').
  pose proof Ho as (_ & (Hbp & _)%Forall_cons)%Forall_app.
  assert (b = p) as ->. { destruct Hbp as [Hbp _]. unfold n_block in Hb, Hbp. cbn in *. congruence. }
  exists (set_block p a h). split; [done|]. split.
  - unfold separate in Hs. rewrite fmap_app, fmap_cons in Hs.
    assert (Hq : n_block (Node p x bs) = Some p) by done. rewrite Hq in Hs.
    apply NoDup_app in Hs as (_ & Hd1 & Hs). apply NoDup_cons in Hs as [Hd2 _]. split.
    + eapply packet_write; [exact Hp|done| |done|done]. intros Hin. apply (Hd1 _ Hin). left.
    + apply Forall_app in Ho as [Ho1 Ho2]. apply Forall_app. split; [done|].
      apply Forall_cons in Ho2 as [Ho2 Ho3]. constructor; done.
  - apply set_block_step; [done|]. apply Hlv. apply (ptrs_elem (Node p x bs)). set_solver.
Qed.

(** ** Headers *)
Lemma owns_head_payload h q x bs l : owns h q (Node q x bs :: l) ->
  exists o, payload x = Some (q, o) /\ 0 <= o /\ (type x = PBUF_RAM \/ type x = PBUF_POOL) /\
    Z.of_nat (length bs) = len x /\ tot_len x = Z.of_nat (length (bs ++ content l)).
Proof.
  intros [Hp Ho]. apply Forall_cons in Ho as [(Hb & _ & _ & Ht) _].
  pose proof (packet_tot _ _ _ _ Hp) as Htot. rewrite content_cons in Htot.
  destruct Hp as (_ & _ & Hh & _). pose proof (holds_length _ _ _ Hh) as Hl.
  destruct Hh as (b & o & a & Hpl & _ & Ho & _). unfold n_block in Hb. cbn in Hb. rewrite Hpl in Hb.
  injection Hb as ->. exists o. by split_and!.
Qed.

(** The head with its payload pointer moved by [k] bytes. *)
Lemma owns_moved h q x bs l o k bs' : owns h q (Node q x bs :: l) -> alloc_inv h ->
  payload x = Some (q, o) -> holds (bl h) (moved k x) bs' ->
  let h1 := set_pb (<[q := moved k x]> (pb h)) h in
  owns h1 q (Node q (moved k x) bs' :: l) /\ hstep {[q]} (live (al h)) h h1.
Proof.
  intros [Hp Ho] [I1 I2] Hpl Hh. pose proof (packet_NoDup _ _ _ Hp) as Hnd.
  cbn in Hnd. apply NoDup_cons in Hnd as [Hnd _].
  destruct Hp as (_ & Hx & Hb & Ht & Hp). pose proof (holds_length _ _ _ Hb). split; [split|].
  - split_and!; [done|apply lookup_insert_eq|done|cbn; lia|].
    apply (packet_keep l _ h); [done| |done]. intros n Hn. cbn. rewrite lookup_insert_ne; [done|].
    intros ->. apply Hnd, list_elem_of_fmap. eauto.
  - apply Forall_cons in Ho as [(Hb1 & Hr & Hc & Hty) Ho]. constructor; [|done].
    unfold own_node, n_block in *. cbn in *. rewrite Hpl. by split_and!.
  - unfold hstep, alloc_inv. cbn. rewrite dom_insert. assert (q ∈ live (al h)) by (apply I1, elem_of_dom; eauto).
    split_and!; [|done|set_solver|done]. intros r Hr. by rewrite lookup_insert_ne by set_solver.
Qed.

(** Room for a header of [k] bytes in front. *)
Lemma header_push h q x bs l o k : owns h q (Node q x bs :: l) -> alloc_inv h ->
  payload x = Some (q, o) -> 0 < k <= 32767 -> tot_len x + k <= 65535 ->
  if o <? k then pbuf_header q k h = (Ret 1, h)
  else exists hb h1, pbuf_header q k h = (Ret 0, h1) /\ length hb = Z.to_nat k /\
         owns h1 q (Node q (moved (- k) x) (hb ++ bs) :: l) /\ hstep {[q]} (live (al h)) h h1 /\ bl h1 = bl h.
Proof.
  intros Ho Hi Hpl Hk Ht. destruct (owns_head_payload _ _ _ _ _ Ho) as (o' & Hpl' & Ho0 & Hty & Hl & Htot).
  rewrite Hpl in Hpl'. injection Hpl' as <-. rewrite length_app in Htot.
  pose proof Ho as [(_ & Hx & Hb & _) _].
  pose proof (header_ok h q x k 0 q o Hx Hpl ltac:(lia) ltac:(lia) Hty ltac:(lia) ltac:(lia) Ht) as Hr.
  change (pbuf_header q k h = if o - k <? 0 then (Ret 1, h) else (Ret 0, set_pb (<[q := moved (- k) x]> (pb h)) h)) in Hr.
  destruct (Z.ltb_spec (o - k) 0); destruct (Z.ltb_spec o k); try lia; [done|].
  destruct Hb as (b & o' & a & Hpl' & Ha & Ho' & Hl' & Hle & ->). rewrite Hpl in Hpl'. injection Hpl' as <- <-.
  assert (Hlen : length (take (Z.to_nat k) (drop (Z.to_nat (o - k)) a)) = Z.to_nat k).
  { rewrite length_take, length_drop. lia. }
  destruct (owns_moved h q x _ l o (- k)
    (take (Z.to_nat k) (drop (Z.to_nat (o - k)) a) ++ take (Z.to_nat (len x)) (drop (Z.to_nat o) a)) Ho Hi Hpl)
    as [Ho1 Hs1].
  { exists q, (o - k), a. unfold moved. cbn. rewrite Hpl. cbn. split_and!; [do 2 f_equal; lia|done|lia|lia|lia|].
    replace (Z.to_nat (len x - - k)) with (Z.to_nat k + Z.to_nat (len x))%nat by lia.
    rewrite <- take_take_drop, drop_drop. do 3 f_equal. lia. }
  do 2 eexists. split; [exact Hr|]. by split_and!.
Qed.

(** The first [k] bytes are no longer part of the packet. *)
Lemma header_pull h q x bs l k : owns h q (Node q x bs :: l) -> alloc_inv h ->
  0 < k <= 32767 -> k <= len x -> tot_len x <= 65535 -> exists h1,
  pbuf_header q (- k) h = (Ret 0, h1) /\
  owns h1 q (Node q (moved k x) (drop (Z.to_nat k) bs) :: l) /\ hstep {[q]} (live (al h)) h h1 /\
  bl h1 = bl h.
Proof.
  intros Ho Hi Hk Hle Ht. destruct (owns_head_payload _ _ _ _ _ Ho) as (o & Hpl & Ho0 & Hty & Hl & Htot).
  rewrite length_app in Htot. pose proof Ho as [(_ & Hx & Hb & _) _].
  pose proof (header_ok h q x (- k) 0 q o Hx Hpl ltac:(lia) ltac:(lia) Hty ltac:(lia) ltac:(lia) ltac:(lia)) as Hr.
  change (pbuf_header q (- k) h = if o - - k <? 0 then (Ret 1, h)
    else (Ret 0, set_pb (<[q := moved (- - k) x]> (pb h)) h)) in Hr.
  rewrite (proj2 (Z.ltb_ge _ _)), Z.opp_involutive in Hr by lia.
  destruct (owns_moved h q x bs l o k _ Ho Hi Hpl (holds_moved _ _ _ k Hb ltac:(lia))) as [Ho1 Hs1].
  eexists. by split_and!.
Qed.
End Own.

Section Life.
Context {A : Type} `{Allocator A}.
Context (custom : ptr -> heap A -> heap A).

(** [pbuf_alloc], called in [h] with these arguments, finds no memory. *)
Definition refused (layer n ty : Z) (h : heap A) : Prop := exists h',
  pbuf_alloc custom layer n ty h = (Ret None, h').

Implicit Types (h : heap A) (q : ptr) (x : pbuf) (l : list node) (X L : gset ptr).

(** ** Release *)
Lemma owns_free h q n l : owns h q (n :: l) -> alloc_inv h -> exists k h',
  pbuf_free custom (Some q) h = (Ret k, h') /\
  hstep (ptrs (n :: l)) (live (al h) ∖ ptrs (n :: l)) h h'.
Proof.
  intros [Hp Ho] Hi. pose proof (packet_chain _ _ _ Hp) as Hc.
  assert (Hs : sole (links (n :: l))).
  { unfold sole, links. rewrite Forall_fmap. eapply Forall_impl; [exact Ho|]. intros m (_ & ? & ? & _). done. }
  pose proof (packet_head _ _ _ _ Hp) as Hq. injection Hq as ->.
  destruct (free_sole custom h _ _ (n_buf n) Hc) as [k Hf]; [|apply Forall_cons in Ho as [(_ & _ & _ & Ht) _]|done|].
  { eapply packet_lookup; [done|left]. }
  { destruct Ht as [Ht|Ht]; [by left|by right; right; right]. }
  exists k. eexists. split; [exact Hf|].
  assert (Hl : live (al (release_all (links (n :: l)) h)) = live (al h) ∖ ptrs (n :: l))
    by (rewrite release_all_live; unfold ptrs; by rewrite <- links_ptrs).
  unfold hstep. split_and!; [|exact Hl|].
  - intros p Hp'. unfold ptrs in Hp'. rewrite <- links_ptrs in Hp'.
    assert (p ∉ (links (n :: l)).*1) by (by rewrite <- (elem_of_list_to_set (C := gset ptr))).
    by rewrite release_all_lookup, release_all_block.
  - unfold alloc_inv. rewrite Hl. destruct Hi as [H1 H2].
    split; intros p [y Hy]%elem_of_dom;
      destruct (release_all_delete (links (n :: l)) h p) as [D1 D2];
      rewrite ?D1, ?D2 in Hy; case_decide as Hd; try done;
      rewrite links_ptrs in Hd; apply elem_of_difference; (split; [|by unfold ptrs; rewrite elem_of_list_to_set]);
      [apply H1|apply H2]; apply elem_of_dom; eauto.
Qed.

(** ** Shortening a packet of the pool *)
Lemma shrink_ptrs l n : n_ptr <$> shrink l n = take (length (shrink l n)) (n_ptr <$> l).
Proof.
  revert n. induction l as [|[q x bs] l IH]; intros n; [done|]. rewrite shrink_cons.
  destruct (n <=? len x); [done|]. rewrite fmap_cons, IH. done.
Qed.

Lemma shrink_forall (P : node -> Prop) l n : Forall P l ->
  (forall q x bs, P (Node q x bs) -> forall k, P (Node q (with_tot_len k x) bs) /\
     P (Node q (with_next None (with_tot_len k (with_len k x))) (take (Z.to_nat k) bs))) -> Forall P (shrink l n).
Proof.
  intros Hl HP. revert n. induction Hl as [|[q x bs] l Hx Hl IH]; intros n; [constructor|]. rewrite shrink_cons.
  destruct (n <=? len x); (constructor; [by apply HP|done]).
Qed.

Lemma shrink_pooled l n : pooled l -> pooled (shrink l n).
Proof. intros Hl. by apply shrink_forall. Qed.

Lemma owns_owned h q l : owns h q l -> pooled l -> owned l.
Proof.
  intros [_ Ho] Hp. unfold owned. apply Forall_forall. intros n Hn. unfold pooled in Hp. rewrite Forall_forall in Ho, Hp.
  destruct (Ho n Hn) as (Hb & Hr & Hc & _). pose proof (Hp n Hn) as Ht. unfold node_ok, known_type. split_and!; try done.
  - right. right. right. done.
  - intros b Hb' _. congruence.
  - intros Hram. rewrite Ht in Hram. done.
Qed.

Lemma owns_realloc h q n l new_len : owns h q (n :: l) -> pooled (n :: l) -> alloc_inv h ->
  0 <= new_len < tot_len (n_buf n) -> tot_len (n_buf n) <= 65535 -> exists h',
  pbuf_realloc custom q new_len h = (Ret tt, h') /\ owns h' q (shrink (n :: l) new_len) /\
  hstep (ptrs (n :: l)) (live (al h) ∖ (ptrs (n :: l) ∖ ptrs (shrink (n :: l) new_len))) h h' /\
  bl h' !! q = bl h !! q.
Proof.
  intros Ho Hp [I1 I2] Hn Ht. pose proof (owns_head _ _ _ _ Ho) as <-. pose proof (owns_owned _ _ _ Ho Hp) as Hd.
  destruct Ho as [Hpk Ho].
  destruct (realloc_ok custom n l h new_len Hpk Hd Hn Ht) as (h' & Hr & Hpk' & Hon & Hlv & Hgone & Hb).
  set (l' := shrink (n :: l) new_len) in *. exists h'. split; [done|].
  assert (Hset : ptrs (n :: l) ∖ ptrs l' = list_to_set (drop (length l') (n_ptr <$> n :: l))).
  { unfold ptrs, l'. rewrite (shrink_ptrs (n :: l) new_len). fold l'. pose proof (packet_NoDup _ _ _ Hpk) as Hnd.
    rewrite <- (take_drop (length l') (n_ptr <$> n :: l)) in Hnd. apply NoDup_app in Hnd as (_ & Hnd & _).
    rewrite <- (take_drop (length l') (n_ptr <$> n :: l)) at 1. rewrite list_to_set_app_L. set_solver. }
  rewrite Hset, <- Hlv. split; [|split].
  - split; [done|]. apply shrink_forall; [done|]. intros p x bs Hx k. unfold own_node, n_block in *. cbn in *. naive_solver.
  - unfold hstep, alloc_inv. split; [intros p Hp'; apply Hon; by rewrite <- (elem_of_list_to_set (C := gset ptr))|].
    split; [done|]. rewrite Hlv.
    split; intros p [y Hy]%elem_of_dom; (destruct (decide (p ∈ drop (length l') (n_ptr <$> n :: l))) as [Hin|Hin];
      [destruct (Hgone p Hin); congruence|]); (apply elem_of_difference; split; [|by rewrite elem_of_list_to_set]).
    all: destruct (decide (p ∈ n_ptr <$> n :: l)) as [Hl|Hl].
    1,3: apply I1; apply (packet_lookup _ _ _ _ Hpk) || (apply list_elem_of_fmap in Hl as (m & -> & Hm); apply elem_of_dom; exists (n_buf m); by apply (packet_lookup _ _ _ _ Hpk)).
    + apply I1, elem_of_dom. destruct (Hon p Hl) as [<- _]. eauto.
    + apply I2, elem_of_dom. destruct (Hon p Hl) as [_ <-]. eauto.
  - apply Hb. apply Forall_cons in Hp as [-> _]. done.
Qed.

(** ** Allocation *)
Lemma allocated_step h l h' : alloc_inv h -> packet h' (n_ptr <$> head l) l ->
  (forall n, n ∈ l -> n_block n = Some (n_ptr n)) -> allocated h l h' ->
  hstep (ptrs l) (ptrs l ∪ live (al h)) h h' /\ ptrs l ## live (al h).
Proof.
  intros [I1 I2] Hp Hb (Ho & Hl & Hn). unfold hstep, alloc_inv. split_and!.
  - intros p Hp'. apply Ho. by rewrite <- (elem_of_list_to_set (C := gset ptr)).
  - done.
  - intros p [y Hy]%elem_of_dom. rewrite Hl. destruct (decide (p ∈ n_ptr <$> l)) as [Hin|Hout].
    + apply elem_of_union_l. by apply elem_of_list_to_set.
    + apply elem_of_union_r, I1, elem_of_dom. destruct (Ho p Hout) as [<- _]. eauto.
  - intros p [y Hy]%elem_of_dom. rewrite Hl. destruct (decide (p ∈ n_ptr <$> l)) as [Hin|Hout].
    + apply elem_of_union_l. by apply elem_of_list_to_set.
    + apply elem_of_union_r, I2, elem_of_dom. destruct (Ho p Hout) as [_ <-]. eauto.
  - intros p Hp1 Hp2. apply (Hn p); [by apply elem_of_list_to_set in Hp1|done].
Qed.

(** A failed allocation only asks the allocator. *)
Lemma unchanged_step X h h' : alloc_inv h -> unchanged h h' -> hstep X (live (al h)) h h'.
Proof.
  intros [I1 I2] (Hp & Hb & Hl). unfold hstep, alloc_inv. rewrite Hp, Hb, Hl. by split_and!.
Qed.

Lemma owns_alloc_ram layer off n h : header_offset layer = Some off -> 0 <= n <= 65535 -> alloc_inv h ->
  exists o h', pbuf_alloc custom layer n PBUF_RAM h = (Ret o, h') /\
    match o with
    | None => hstep ∅ (live (al h)) h h'
    | Some q => exists x bs, owns h' q [Node q x bs] /\ len x = n /\
        payload x = Some (q, LWIP_MEM_ALIGN_SIZE off) /\ flags x = 0 /\ type x = PBUF_RAM /\
        (q ∉ live (al h)) /\ hstep {[q]} ({[q]} ∪ live (al h)) h h'
    end.
Proof.
  intros Hoff Hn Hi.
  destruct (alloc_ram_ok custom layer off n h Hoff Hn Hi) as ([q|] & h' & Hr & Ho).
  2:{ eexists None, _. split; [exact Hr|by apply unchanged_step]. }
  exists (Some q), h'. split; [exact Hr|]. destruct Ho as (x & bs & Hp & Hl & Ht & Hrf & Hf & Hpl & Ha).
  assert (Hb : n_block (Node q x bs) = Some q) by (unfold n_block; cbn; by rewrite Hpl).
  destruct (allocated_step h [Node q x bs] h' Hi) as [Hs Hd]; [done| |done|].
  { intros n0 ->%list_elem_of_singleton. done. }
  exists x, bs. split_and!; try done.
  - split; [done|]. constructor; [|constructor]. unfold own_node. cbn. split_and!; try done.
    + unfold PBUF_FLAG_custom. by rewrite Hf.
    + by left.
  - unfold ptrs in Hd. cbn in Hd. set_solver.
  - unfold ptrs in Hs. cbn in Hs. rewrite union_empty_r_L in Hs. done.
Qed.

Lemma owns_alloc_pool layer off n h : header_offset layer = Some off -> 0 <= n <= 65535 -> alloc_inv h ->
  (forall q, PBUF_FLAG_custom (stale_pbuf q) = false) ->
  exists o h', pbuf_alloc custom layer n PBUF_POOL h = (Ret o, h') /\
    match o with
    | None => hstep ∅ (live (al h)) h h'
    | Some q => exists l, owns h' q l /\ Forall pool_node l /\ Z.of_nat (length (content l)) = n /\
        pool_block h' q (LWIP_MEM_ALIGN_SIZE off) l /\
        ptrs l ## live (al h) /\ hstep (ptrs l) (ptrs l ∪ live (al h)) h h'
    end.
Proof.
  intros Hoff Hn Hi Hst.
  destruct (alloc_pool_ok custom layer off n h Hoff Hn Hi Hst) as ([q|] & h' & Hr & Ho).
  2:{ eexists None, _. split; [exact Hr|by apply unchanged_step]. }
  exists (Some q), h'. split; [exact Hr|]. destruct Ho as (l & Hp & Hl & Hpn & Hpb & Ha). exists l.
  rewrite Forall_forall in Hpn.
  destruct (allocated_step h l h' Hi) as [Hs Hd]; [|intros m Hm; by apply Hpn|done|].
  { destruct l as [|m l]; [done|]. change (packet h' (Some (n_ptr m)) (m :: l)).
    by rewrite <- (packet_head _ _ _ _ Hp). }
  split_and!; [split; [done|]|by apply Forall_forall|done|done|done|done].
  apply Forall_forall. intros m Hm. destruct (Hpn m Hm) as (T & F & R & B). unfold own_node, PBUF_FLAG_custom.
  rewrite F. split_and!; [done|done|done|by right].
Qed.
End Life.
