(* ===== verification/PbufCopy.v ===== *)
(** * Copying a packet: [pbuf_copy] into one pbuf, [pbuf_coalesce] *)
From S2P Require Export PbufOwn.

#[local] Set Warnings "-clear-no-such-hyp".

Section Copy.
Context {A : Type} `{Allocator A}.
Implicit Types (h : heap A) (p q t : ptr) (x : pbuf) (l : list node).

(** The check for a packet queue: a pbuf that ends a packet has no next one. *)
Definition no_more x : bool := negb (len x =? tot_len x) || (if next x is Some _ then false else true).

Lemma no_queue h p n l : packet h (Some p) (n :: l) -> filled l -> no_more (n_buf n) = true.
Proof.
  destruct n as [q x bs]. intros (_ & _ & Hb & Ht & Hp) Hf. unfold no_more. cbn.
  destruct l as [|n l]; [by rewrite Hp, orb_true_r|].
  apply Forall_cons in Hf as [Hf _]. destruct n as [r y cs]. destruct Hp as (-> & _ & Hc & _ & _).
  apply holds_length in Hc. rewrite content_cons, length_app in Ht. cbn in Ht, Hf.
  rewrite (proj2 (Z.eqb_neq _ _)) by lia. done.
Qed.

(** The end of a round, as the code has it from the two cursors on. *)
Definition round_end (n : nat) t p (f x : pbuf) (offset_to offset_from : Z) : cmd (heap A) Z :=
  let '(p_from', offset_from) := if len f <=? offset_from then (next f, 0) else (Some p, offset_from) in
  let '(p_to', offset_to) := if offset_to =? len x then (next x, 0) else (Some t, offset_to) in
  LWIP_ERROR ((if p_to' is Some _ then true else false) || (if p_from' is Some _ then false else true)) ;;;
  (match p_from' with
   | Some q => y <- load q ;; LWIP_ERROR (no_more y)
   | None => ret tt
   end) ;;;
  (match p_to' with
   | Some q => y <- load q ;; LWIP_ERROR (no_more y)
   | None => ret tt
   end) ;;;
  match p_from', p_to' with
  | None, _ => ret ERR_OK
  | Some pf, Some pt => copy_loop n pt pf offset_to offset_from
  | Some _, None => fault
  end.

(** One round that moves a whole source pbuf [f] into the destination [x]. *)
Lemma copy_round n h h1 t p f x bs cs off : pb h !! t = Some x -> pb h !! p = Some f ->
  holds (bl h) f cs -> 0 <= off -> off + len f <= len x <= 65535 ->
  write_mem (payload x) off cs h = (Ret tt, h1) ->
  bs = round_end n t p f x (off + len f) (len f) h1 ->
  copy_loop (S n) t p off 0 h = bs.
Proof.
  intros Ht Hp Hc Hoff Hle Hw ->. pose proof (holds_length _ _ _ Hc) as Hl. cbn [copy_loop].
  cstep (load_at h t x Ht). cstep (load_at h p f Hp). rewrite Z.sub_0_r.
  rewrite (proj2 (Z.leb_le _ _)), (u16_small (len f)) by lia.
  cstep (read_mem_at h f cs 0 (len f) Hc ltac:(lia) ltac:(lia) ltac:(lia)). rewrite drop_0, take_ge by lia.
  cstep Hw. rewrite !u16_small by lia. rewrite Z.add_0_l.
  rewrite (bind_ret _ _ h1 tt h1) by (apply assert_true; lia).
  rewrite (bind_ret _ _ h1 tt h1) by (apply assert_true; lia).
  unfold round_end. by rewrite Z.leb_refl.
Qed.

Lemma copy_loop_ok l : forall n0 n h t x bt off,
  owns h (n_ptr n0) (n0 :: l) -> filled l -> owns h t [Node t x bt] -> t ∉ ptrs (n0 :: l) ->
  alloc_inv h -> (length l < n)%nat -> 0 <= off ->
  off + Z.of_nat (length (content (n0 :: l))) <= len x <= 65535 -> exists h',
  copy_loop n t (n_ptr n0) off 0 h = (Ret ERR_OK, h') /\
  owns h' t [Node t x (write_list bt (Z.to_nat off) (content (n0 :: l)))] /\
  hstep {[t]} (live (al h)) h h'.
Proof.
  induction l as [|n1 l IH]; intros [p f cs] n h t x bt off Ho Hf Hot Hnt Hi Hn Hoff Hle;
    (destruct n as [|n]; [cbn in Hn; lia|]); cbn [n_ptr] in *;
    pose proof Ho as [(_ & Hpf & Hcs & Htot & Hnext) _];
    pose proof Hot as [(_ & Hpt & Hbt & Htt & Hnt') _];
    pose proof (holds_length _ _ _ Hcs) as Hlc; pose proof (holds_length _ _ _ Hbt) as Hlb;
    rewrite content_cons, length_app in Hle; cbn [n_bytes] in Hle;
    destruct (owns_write h t [] t x bt [] off cs Hot Hi ltac:(lia) ltac:(lia)) as (h1 & Hw & Hot1 & Hs1);
    cbn [app] in Hot1.
  - rewrite (copy_round n h h1 t p f x _ cs off Hpt Hpf Hcs ltac:(lia) ltac:(lia) Hw eq_refl).
    unfold round_end. rewrite Z.leb_refl. change (next f = None) in Hnext. change (next x = None) in Hnt'.
    rewrite Hnext, Hnt'. exists h1. split; [|split; [|done]].
    + destruct (off + len f =? len x); [done|].
      rewrite (bind_ret _ _ h1 tt h1) by done. rewrite (bind_ret _ _ h1 tt h1) by done.
      pose proof Hot1 as [(_ & Hpt1 & _) _].
      rewrite (bind_ret _ _ h1 tt h1); [done|]. cstep (load_at h1 t x Hpt1).
      unfold no_more. by rewrite Hnt', orb_true_r.
    + rewrite content_cons. cbn [n_bytes content concat fmap list_fmap]. by rewrite app_nil_r.
  - apply Forall_cons in Hf as [Hf1 Hf].
    assert (Ho1 : owns h (n_ptr n1) (n1 :: l)).
    { destruct Ho as [_ Ho]. apply Forall_cons in Ho as [_ Ho]. pose proof (packet_head _ _ _ _ Hnext) as Hq.
      rewrite Hq in Hnext. by split. }
    assert (Ho2 : owns h1 (n_ptr n1) (n1 :: l)).
    { apply (owns_keep _ _ _ _ _ _ Ho1 Hs1). unfold ptrs in Hnt |- *. set_solver. }
    assert (Hlen1 : 0 < Z.of_nat (length (content (n1 :: l)))).
    { destruct n1 as [r y ds]. destruct Hnext as (_ & _ & Hd & _). apply holds_length in Hd.
      rewrite content_cons, length_app. cbn in Hf1 |- *. lia. }
    destruct (IH n1 n h1 t x (write_list bt (Z.to_nat off) cs) (off + len f)) as (h' & Hr & Hot' & Hs');
      [done|done|done| |by destruct Hs1 as (_ & _ & ?)|cbn in Hn; lia|lia|lia|].
    { unfold ptrs in Hnt |- *. set_solver. }
    exists h'. split; [|split].
    + rewrite (copy_round n h h1 t p f x _ cs off Hpt Hpf Hcs ltac:(lia) ltac:(lia) Hw eq_refl).
      unfold round_end. rewrite Z.leb_refl, (proj2 (Z.eqb_neq _ _)) by lia.
      rewrite (packet_head _ _ _ _ Hnext).
      rewrite (bind_ret _ _ h1 tt h1) by done.
      assert (Hq1 : pb h1 !! n_ptr n1 = Some (n_buf n1)) by (destruct Ho2 as [Ho2 _]; eapply packet_lookup; [exact Ho2|left]).
      rewrite (bind_ret _ _ h1 tt h1).
      2:{ cstep (load_at h1 _ _ Hq1). destruct Ho2 as [Ho2 _]. by rewrite (no_queue _ _ _ _ Ho2 Hf). }
      rewrite (bind_ret _ _ h1 tt h1); [done|]. pose proof Hot1 as [(_ & Hpt1 & _) _].
      cstep (load_at h1 t x Hpt1). change (next x = None) in Hnt'.
      unfold no_more. by rewrite Hnt', orb_true_r.
    + rewrite content_cons. cbn [n_bytes]. rewrite <- write_list_app by lia.
      replace (Z.to_nat off + length cs)%nat with (Z.to_nat (off + len f)) by lia. done.
    + destruct Hs1 as (Hs1 & HL1 & Hi1). destruct Hs' as (Hs' & HL' & Hi'). unfold hstep.
      split_and!; [|by rewrite HL'|done]. intros r Hr'. destruct (Hs1 r Hr') as [<- <-]. by apply Hs'.
Qed.

(** Copying a packet into a fresh pbuf that can hold it. *)
Lemma copy_ok q n l h t x bt : owns h q (n :: l) -> filled l -> owns h t [Node t x bt] ->
  t ∉ ptrs (n :: l) -> alloc_inv h -> Z.of_nat (length (content (n :: l))) <= len x <= 65535 ->
  exists h', pbuf_copy (Some t) (Some q) h = (Ret ERR_OK, h') /\
    owns h' t [Node t x (content (n :: l) ++ drop (length (content (n :: l))) bt)] /\
    hstep {[t]} (live (al h)) h h'.
Proof.
  intros Ho Hf Ht Hnt Hi Hle. pose proof (owns_head _ _ _ _ Ho) as Hq.
  pose proof Ht as [(_ & Hx & Hbt & Htt & _) _]. change (length (content [])) with 0%nat in Htt.
  pose proof Ho as [Hp _]. assert (Hn : pb h !! q = Some (n_buf n)) by (rewrite <- Hq; eapply packet_lookup; [exact Hp|left]).
  assert (Hsz : (length l < S (size (pb h)))%nat) by (pose proof (packet_size _ _ _ Hp) as Hsz; cbn in Hsz; lia).
  assert (Htn : tot_len (n_buf n) = Z.of_nat (length (content (n :: l)))) by (rewrite <- Hq in Hp; by eapply packet_tot).
  subst q. destruct (copy_loop_ok l n (S (size (pb h)) + S (size (pb h))) h t x bt 0) as (h' & Hr & Ho' & Hs);
    [done..|lia|lia|lia|].
  exists h'. split; [|by split]. unfold pbuf_copy. rewrite (bind_ret (LWIP_ERROR _) _ h tt h) by done.
  cstep (load_at h t x Hx). cstep (load_at h _ _ Hn).
  rewrite (bind_ret _ _ h tt h) by (apply LWIP_ERROR_true; lia).
  cstep (eq_refl (fuel h)). exact Hr.
Qed.
End Copy.
