(* ===== verification/Ethernet.v ===== *)
(** * Ethernet frames: [lwip/src/netif/ethernet.c] (output) and the frames of
    [lwip/port/ethernetif.c]

    The state of the link layer: the ARP table with its cached index, the
    interfaces, the transmit buffer of the port, the packet buffers and the rest of
    the system.  The transmit descriptors of the Ethernet controller, which its hardware
    works on, are the class [Controller]; a frame on the wire is a list of bytes. *)
From S2P Require Export Pbuf Text.

(** ** Constants of [prot/ethernet.h], [prot/etharp.h], [netif.h], [fsl_enet.h] *)
Definition ETH_HWADDR_LEN := 6.
Definition SIZEOF_ETH_HDR := 14.
Definition ETHTYPE_IP := 0x0800.
Definition ETHTYPE_ARP := 0x0806.
Definition LL_IP4_MULTICAST_ADDR_0 := 0x01.
Definition LL_IP4_MULTICAST_ADDR_1 := 0x00.
Definition LL_IP4_MULTICAST_ADDR_2 := 0x5e.
Definition ethbroadcast : list Z := [0xff; 0xff; 0xff; 0xff; 0xff; 0xff].
Definition ethzero : list Z := [0; 0; 0; 0; 0; 0].
Definition NETIF_FLAG_BROADCAST := 0x02.
Definition NETIF_FLAG_ETHARP := 0x08.
Definition PBUF_FLAG_LLBCAST := 0x08.
Definition PBUF_FLAG_LLMCAST := 0x10.
Definition ENET_FRAME_MAX_FRAMELEN := 1518.
Definition kStatus_Success := 0.
Definition kStatus_ENET_TxFrameOverLen := 4003.
Definition kStatus_ENET_TxFrameBusy := 4004.

(** ** State *)
Inductive etharp_state : Type :=
  | ETHARP_STATE_EMPTY
  | ETHARP_STATE_PENDING
  | ETHARP_STATE_STABLE
  | ETHARP_STATE_STABLE_REREQUESTING_1
  | ETHARP_STATE_STABLE_REREQUESTING_2.

#[export] Instance etharp_state_eq_dec : EqDecision etharp_state.
Proof. solve_decision. Defined.

(** One entry of the ARP table; a [netif] pointer is the number of the interface. *)
Record etharp_entry := Entry {
  e_q : option ptr;
  e_ipaddr : Z;
  e_netif : option Z;
  e_ethaddr : list Z;
  e_ctime : Z;
  e_state : etharp_state
}.

Record netif := Netif {
  hwaddr : list Z;
  hwaddr_len : Z;
  ip_addr : Z;
  netmask : Z;
  gw : Z;
  nflags : Z;
  mtu : Z
}.

(** The transmit side of the controller, and what holds of the rest of the system at every
    call.  [enet_tx] puts a frame into the current descriptor, unless the hardware still
    works on that one; [xEventGroupWaitBits] waits for the interrupt of a frame that has
    been sent, after which fewer frames are under way ([tx_pending]). *)
Class Controller (E : Type) := {
  enet_tx : list Z -> E -> option E;
  xEventGroupWaitBits : E -> E;
  tx_pending : E -> nat;
  tx_progress : forall frame d, enet_tx frame d = None -> (tx_pending (xEventGroupWaitBits d) < tx_pending d)%nat;
  dev_inv : E -> Prop;
  tx_inv : forall frame d d', dev_inv d -> enet_tx frame d = Some d' -> dev_inv d';
  wait_inv : forall d, dev_inv d -> dev_inv (xEventGroupWaitBits d)
}.

(** ** The driver and the port: [ENET_SendFrame], [enet_send_frame] *)
Section Send.
Context {E : Type} `{Controller E}.

Definition ENET_SendFrame (frame : list Z) (d : E) : Z * E :=
  if ENET_FRAME_MAX_FRAMELEN <? Z.of_nat (length frame) then (kStatus_ENET_TxFrameOverLen, d)
  else match enet_tx frame d with
       | Some d => (kStatus_Success, d)
       | None => (kStatus_ENET_TxFrameBusy, d)
       end.

(** [do { ... } while (result == kStatus_ENET_TxFrameBusy); return ERR_OK;]  The code sets no
    bound: [enet_send_ends] shows that one more round than frames under way is enough. *)
Fixpoint enet_send_loop (n : nat) (frame : list Z) : cmd E Z :=
  match n with
  | O => diverge
  | S n =>
      result <- (fun d => let '(r, d) := ENET_SendFrame frame d in (Ret r, d)) ;;
      if result =? kStatus_ENET_TxFrameBusy then modify xEventGroupWaitBits ;;; enet_send_loop n frame
      else ret ERR_OK
  end.

(** What the loop comes to. *)
Definition enet_send_frame (frame : list Z) (d : E) : Z * E :=
  match enet_send_loop (S (tx_pending d)) frame d with
  | (Ret r, d) => (r, d)
  | (_, d) => (ERR_OK, d)
  end.

Lemma enet_send_step n frame d : enet_send_loop (S n) frame d =
  if Z.of_nat (length frame) <=? ENET_FRAME_MAX_FRAMELEN then
    match enet_tx frame d with
    | Some d => (Ret ERR_OK, d)
    | None => enet_send_loop n frame (xEventGroupWaitBits d)
    end
  else (Ret ERR_OK, d).
Proof.
  cbn [enet_send_loop]. unfold bind, ENET_SendFrame. rewrite Z.ltb_antisym.
  destruct (_ <=? _); cbn [negb]; [|done]. by destruct (enet_tx frame d).
Qed.

Lemma enet_send_enough frame n : forall d, (tx_pending d < n)%nat ->
  exists d', enet_send_loop n frame d = (Ret ERR_OK, d') /\
    forall m, (tx_pending d < m)%nat -> enet_send_loop m frame d = (Ret ERR_OK, d').
Proof.
  induction n as [|n IH]; intros d Hd; [lia|]. rewrite enet_send_step. destruct (_ <=? _) eqn:Hl.
  - destruct (enet_tx frame d) as [d'|] eqn:Htx.
    + exists d'. split; [done|]. intros [|m] Hm; [lia|]. by rewrite enet_send_step, Hl, Htx.
    + pose proof (tx_progress frame d Htx) as Hp. destruct (IH (xEventGroupWaitBits d)) as (d' & Hr & Hm); [lia|].
      exists d'. split; [done|]. intros [|m] Hmm; [lia|]. rewrite enet_send_step, Hl, Htx. apply Hm. lia.
  - exists d. split; [done|]. intros [|m] Hm; [lia|]. by rewrite enet_send_step, Hl.
Qed.

(** The loop ends, always with [ERR_OK]. *)
Lemma enet_send_ends frame d :
  enet_send_loop (S (tx_pending d)) frame d = (Ret ERR_OK, (enet_send_frame frame d).2) /\
  (enet_send_frame frame d).1 = ERR_OK.
Proof.
  destruct (enet_send_enough frame (S (tx_pending d)) d ltac:(lia)) as (d' & Hr & _).
  unfold enet_send_frame. by rewrite Hr.
Qed.

Lemma send_inv frame d : dev_inv d -> dev_inv (enet_send_frame frame d).2.
Proof.
  unfold enet_send_frame. generalize (S (tx_pending d)) as n. intros n. revert d.
  induction n as [|n IH]; intros d Hd; [done|]. rewrite enet_send_step.
  destruct (_ <=? _); [|done]. destruct (enet_tx frame d) as [d'|] eqn:Htx; [by eapply tx_inv|].
  by apply IH, wait_inv.
Qed.

(** A frame that is too long is lost, and the caller is told that it was sent. *)
Lemma oversized_frame_lost frame d : ENET_FRAME_MAX_FRAMELEN < Z.of_nat (length frame) ->
  enet_send_frame frame d = (ERR_OK, d).
Proof. intros Hl. unfold enet_send_frame. by rewrite enet_send_step, (proj2 (Z.leb_gt _ _)). Qed.
End Send.

Record link (A E : Type) := Link {
  arp_table : list etharp_entry;
  etharp_cached_entry : Z;          (* u8_t *)
  netifs : Z -> netif;
  ucBuffer : list Z;
  hp : heap A;
  dev : E
}.
Arguments Link {A E} _ _ _ _ _ _.
Arguments arp_table {A E} _.
Arguments etharp_cached_entry {A E} _.
Arguments netifs {A E} _.
Arguments ucBuffer {A E} _.
Arguments hp {A E} _.
Arguments dev {A E} _.

Section Ethernet.
Context {A E : Type} `{Allocator A} `{Controller E}.
#[local] Abbreviation M := (cmd (link A E)).

Definition set_table (l : list etharp_entry) : M unit := modify (fun s =>
  Link l (etharp_cached_entry s) (netifs s) (ucBuffer s) (hp s) (dev s)).
Definition set_cached (i : Z) : M unit := modify (fun s =>
  Link (arp_table s) i (netifs s) (ucBuffer s) (hp s) (dev s)).
Definition set_ucBuffer (b : list Z) : M unit := modify (fun s =>
  Link (arp_table s) (etharp_cached_entry s) (netifs s) b (hp s) (dev s)).
Definition on_dev (f : E -> E) : M unit := modify (fun s =>
  Link (arp_table s) (etharp_cached_entry s) (netifs s) (ucBuffer s) (hp s) (f (dev s))).
Definition with_hp (h : heap A) (s : link A E) : link A E :=
  Link (arp_table s) (etharp_cached_entry s) (netifs s) (ucBuffer s) h (dev s).

(** A call of the packet buffers. *)
Definition pbufs {X : Type} (m : cmd (heap A) X) : M X := fun s =>
  let '(r, h) := m (hp s) in (r, with_hp h s).

(** ** Fields of packed headers: little-endian loads and stores *)
Definition le16 (v : Z) : list Z := [u8 v; u8 (Z.shiftr v 8)].
Definition of_le16 (bs : list Z) : Z := nth 0 bs 0 + 256 * nth 1 bs 0.
Definition of_le32 (bs : list Z) : Z := word_of (nth 3 bs 0) (nth 2 bs 0) (nth 1 bs 0) (nth 0 bs 0).

(** ** [low_level_output]: a frame leaves *)

(** [memcpy(pucChar, q->payload, q->len)] for every pbuf of the chain *)
Fixpoint gather (n : nat) (q : option ptr) (k : Z) : M unit :=
  match q with
  | None => ret tt
  | Some p =>
    match n with
    | O => diverge
    | S n =>
        x <- pbufs (load p) ;;
        bs <- pbufs (read_mem (payload x) 0 (len x)) ;;
        buf <- gets ucBuffer ;;
        buf' <- write_array buf k bs ;;
        set_ucBuffer buf' ;;;
        gather n (next x) (k + len x)
    end
  end.

Definition send (frame : list Z) : M Z := fun s =>
  let '(r, d) := enet_send_loop (S (tx_pending (dev s))) frame (dev s) in
  (r, Link (arp_table s) (etharp_cached_entry s) (netifs s) (ucBuffer s) (hp s) d).

Definition low_level_output (p : ptr) : M Z := func (
  x <- pbufs (load p) ;;
  frame <- (if len x =? tot_len x then pbufs (read_mem (payload x) 0 (tot_len x))
            else if ENET_FRAME_MAX_FRAMELEN <=? tot_len x then exit ERR_BUF
            else n <- pbufs fuel ;;
                 gather n (Some p) 0 ;;;
                 buf <- gets ucBuffer ;;
                 read_bytes buf 0 (tot_len x)) ;;
  result <- send frame ;;
  pbufs (read_mem (payload x) 0 1) ;;;
  ret result).

(** ** [ethernet_output] *)
Definition ethernet_output (netif_ : Z) (p : ptr) (src dst : list Z) (eth_type : Z) : M Z :=
  let eth_type_be := lwip_htons eth_type in
  r <- pbufs (pbuf_header p SIZEOF_ETH_HDR) ;;
  if negb (r =? 0) then ret ERR_BUF else
  x <- pbufs (load p) ;;
  pbufs (write_mem (payload x) 12 (le16 eth_type_be)) ;;;
  d <- read_bytes dst 0 ETH_HWADDR_LEN ;;
  pbufs (write_mem (payload x) 0 d) ;;;
  s <- read_bytes src 0 ETH_HWADDR_LEN ;;
  pbufs (write_mem (payload x) 6 s) ;;;
  n <- gets (fun st => netifs st netif_) ;;
  assert_ (hwaddr_len n =? ETH_HWADDR_LEN) ;;;
  low_level_output p.
End Ethernet.
