(* ===== verification/Etharp.v ===== *)
(** * Address resolution: [lwip/src/core/ipv4/etharp.c], and the dispatch of received
    frames in [lwip/src/netif/ethernet.c] and [lwip/port/ethernetif.c]

    The table has ten entries; an entry that is being resolved may hold one packet
    ([ARP_QUEUEING] is 0).  What IP does with a received packet and what DHCP does with
    a reply are arguments ([Upper]). *)
From S2P Require Export Ethernet.

Definition ARP_TABLE_SIZE := 10.
Definition ARP_MAXAGE := 300.
Definition ARP_AGE_REREQUEST_USED_UNICAST := ARP_MAXAGE - 30.
Definition ARP_AGE_REREQUEST_USED_BROADCAST := ARP_MAXAGE - 15.
Definition ARP_MAXPENDING := 5.
Definition ETHARP_FLAG_TRY_HARD := 1.
Definition ETHARP_FLAG_FIND_ONLY := 2.
Definition SIZEOF_ETHARP_HDR := 28.
Definition HWTYPE_ETHERNET := 1.
Definition ARP_REQUEST := 1.
Definition ARP_REPLY := 2.
Definition ERR_RTE := -4.

(** [state >= ETHARP_STATE_STABLE] *)
Definition stable (st : etharp_state) : bool :=
  match st with
  | ETHARP_STATE_EMPTY | ETHARP_STATE_PENDING => false
  | _ => true
  end.

Definition with_state v e := Entry (e_q e) (e_ipaddr e) (e_netif e) (e_ethaddr e) (e_ctime e) v.
Definition with_ctime v e := Entry (e_q e) (e_ipaddr e) (e_netif e) (e_ethaddr e) v (e_state e).
Definition with_q v e := Entry v (e_ipaddr e) (e_netif e) (e_ethaddr e) (e_ctime e) (e_state e).
Definition with_ipaddr v e := Entry (e_q e) v (e_netif e) (e_ethaddr e) (e_ctime e) (e_state e).
Definition with_netif v e := Entry (e_q e) (e_ipaddr e) v (e_ethaddr e) (e_ctime e) (e_state e).
Definition with_ethaddr v e := Entry (e_q e) (e_ipaddr e) (e_netif e) v (e_ctime e) (e_state e).

(** The layers above: IP takes over a received packet, DHCP looks at ARP replies. *)
Class Upper (A E : Type) `{Controller E} := {
  ip4_input : ptr -> Z -> cmd (link A E) unit;
  dhcp_arp_reply : Z -> Z -> E -> E;
  dhcp_inv : forall netif_ a d, dev_inv d -> dev_inv (dhcp_arp_reply netif_ a d)
}.

(** The candidates the search remembers: places in the table, and ages. *)
Record candidates := Candidates {
  old_pending : Z; old_stable : Z; empty_ : Z; old_queue : Z;
  age_queue : Z; age_pending : Z; age_stable : Z
}.

Section Etharp.
Context {A E : Type} `{Allocator A} `{Controller E} `{!Upper A E}.
Context (custom : ptr -> heap A -> heap A).
#[local] Abbreviation M := (cmd (link A E)).

(** [arp_table[i]] *)
Definition entry (i : Z) : M etharp_entry := fun s =>
  match arp_table s !! Z.to_nat i with
  | Some e => if 0 <=? i then (Ret e, s) else (Fault, s)
  | None => (Fault, s)
  end.
Definition set_entry (i : Z) (e : etharp_entry) : M unit :=
  entry i ;;;
  l <- gets arp_table ;;
  set_table (<[Z.to_nat i := e]> l).
Definition on_entry (i : Z) (f : etharp_entry -> etharp_entry) : M unit :=
  e <- entry i ;; set_entry i (f e).

(** [for (i = 0; i < ARP_TABLE_SIZE; ++i)] *)
Fixpoint each_entry (n : nat) (i : Z) (body : Z -> M unit) : M unit :=
  match n with
  | O => ret tt
  | S n => body i ;;; each_entry n (i + 1) body
  end.

(** ** Entries *)
Definition etharp_free_entry (i : Z) : M unit :=
  e <- entry i ;;
  (match e_q e with
   | Some q => pbufs (pbuf_free custom (Some q)) ;;; on_entry i (with_q None)
   | None => ret tt
   end) ;;;
  on_entry i (with_state ETHARP_STATE_EMPTY) ;;;
  on_entry i (with_ctime 0) ;;;
  on_entry i (with_netif None) ;;;
  on_entry i (with_ipaddr 0) ;;;
  on_entry i (with_ethaddr ethzero).

(** The sweep of [etharp_find_entry]: a matching entry, or the candidates. *)
Fixpoint find_loop (l : list etharp_entry) (i : Z) (ipaddr : option Z) (c : candidates) : Z + candidates :=
  match l with
  | [] => inr c
  | e :: l =>
      if (empty_ c =? ARP_TABLE_SIZE) && bool_decide (e_state e = ETHARP_STATE_EMPTY)
      then find_loop l (i + 1) ipaddr
             (Candidates (old_pending c) (old_stable c) i (old_queue c) (age_queue c) (age_pending c) (age_stable c))
      else if bool_decide (e_state e <> ETHARP_STATE_EMPTY) then
        if (if ipaddr is Some a then a =? e_ipaddr e else false) then inl i
        else if bool_decide (e_state e = ETHARP_STATE_PENDING) then
          if e_q e is Some _ then
            find_loop l (i + 1) ipaddr
              (if age_queue c <=? e_ctime e
               then Candidates (old_pending c) (old_stable c) (empty_ c) i (e_ctime e) (age_pending c) (age_stable c)
               else c)
          else
            find_loop l (i + 1) ipaddr
              (if age_pending c <=? e_ctime e
               then Candidates i (old_stable c) (empty_ c) (old_queue c) (age_queue c) (e_ctime e) (age_stable c)
               else c)
        else
          find_loop l (i + 1) ipaddr
            (if age_stable c <=? e_ctime e
             then Candidates (old_pending c) i (empty_ c) (old_queue c) (age_queue c) (age_pending c) (e_ctime e)
             else c)
      else find_loop l (i + 1) ipaddr c
  end.

Definition no_candidates : candidates :=
  Candidates ARP_TABLE_SIZE ARP_TABLE_SIZE ARP_TABLE_SIZE ARP_TABLE_SIZE 0 0 0.

Definition etharp_find_entry (ipaddr : option Z) (flags_ : Z) : M Z := func (
  l <- gets arp_table ;;
  match find_loop l 0 ipaddr no_candidates with
  | inl i => ret i
  | inr c =>
      exit_if (truthy (Z.land flags_ ETHARP_FLAG_FIND_ONLY)
               || ((empty_ c =? ARP_TABLE_SIZE) && negb (truthy (Z.land flags_ ETHARP_FLAG_TRY_HARD)))) ERR_MEM ;;;
      i <- (if empty_ c <? ARP_TABLE_SIZE then ret (empty_ c) else
            i <- (if old_stable c <? ARP_TABLE_SIZE then
                    e <- entry (old_stable c) ;;
                    assert_ (if e_q e is Some _ then false else true) ;;;
                    ret (old_stable c)
                  else if old_pending c <? ARP_TABLE_SIZE then ret (old_pending c)
                  else if old_queue c <? ARP_TABLE_SIZE then ret (old_queue c)
                  else exit ERR_MEM) ;;
            assert_ (i <? ARP_TABLE_SIZE) ;;;
            etharp_free_entry i ;;;
            ret i) ;;
      assert_ (i <? ARP_TABLE_SIZE) ;;;
      e <- entry i ;;
      assert_ (bool_decide (e_state e = ETHARP_STATE_EMPTY)) ;;;
      (match ipaddr with Some a => on_entry i (with_ipaddr a) | None => ret tt end) ;;;
      on_entry i (with_ctime 0) ;;;
      ret i
  end).

(** ** Addresses ([ip4_addr.h]) *)
Definition ip4_addr_isany (a : Z) : bool := a =? 0.
Definition ip4_addr_ismulticast (a : Z) : bool :=
  Z.land a (PP_HTONL 0xf0000000) =? PP_HTONL 0xe0000000.
Definition ip4_addr_islinklocal (a : Z) : bool :=
  Z.land a (PP_HTONL 0xffff0000) =? PP_HTONL 0xa9fe0000.
Definition ip4_addr_isbroadcast (a : Z) (n : netif) : bool :=
  ip4_addr_isbroadcast_u32 a (truthy (Z.land (nflags n) NETIF_FLAG_BROADCAST)) (ip_addr n) (netmask n).

(** ** Requests *)
Definition etharp_raw (netif_ : Z) (ethsrc_addr ethdst_addr hwsrc_addr : list Z) (ipsrc_addr : Z)
    (hwdst_addr : list Z) (ipdst_addr opcode : Z) : M Z :=
  p <- pbufs (pbuf_alloc custom PBUF_LINK SIZEOF_ETHARP_HDR PBUF_RAM) ;;
  match p with
  | None => ret ERR_MEM
  | Some p =>
      x <- pbufs (load p) ;;
      assert_ (SIZEOF_ETHARP_HDR <=? len x) ;;;
      pbufs (write_mem (payload x) 6 (le16 (lwip_htons opcode))) ;;;
      n <- gets (fun s => netifs s netif_) ;;
      assert_ (hwaddr_len n =? ETH_HWADDR_LEN) ;;;
      hwsrc <- read_bytes hwsrc_addr 0 ETH_HWADDR_LEN ;;
      pbufs (write_mem (payload x) 8 hwsrc) ;;;
      hwdst <- read_bytes hwdst_addr 0 ETH_HWADDR_LEN ;;
      pbufs (write_mem (payload x) 18 hwdst) ;;;
      pbufs (write_mem (payload x) 14 (addr_bytes ipsrc_addr)) ;;;
      pbufs (write_mem (payload x) 24 (addr_bytes ipdst_addr)) ;;;
      pbufs (write_mem (payload x) 0 (le16 (PP_HTONS HWTYPE_ETHERNET))) ;;;
      pbufs (write_mem (payload x) 2 (le16 (PP_HTONS ETHTYPE_IP))) ;;;
      pbufs (write_mem (payload x) 4 [ETH_HWADDR_LEN]) ;;;
      pbufs (write_mem (payload x) 5 [4]) ;;;
      ethernet_output netif_ p ethsrc_addr ethdst_addr ETHTYPE_ARP ;;;
      pbufs (pbuf_free custom (Some p)) ;;;
      ret ERR_OK
  end.

Definition etharp_request_dst (netif_ ipaddr : Z) (hw_dst_addr : list Z) : M Z :=
  n <- gets (fun s => netifs s netif_) ;;
  etharp_raw netif_ (hwaddr n) hw_dst_addr (hwaddr n) (ip_addr n) ethzero ipaddr ARP_REQUEST.

Definition etharp_request (netif_ ipaddr : Z) : M Z := etharp_request_dst netif_ ipaddr ethbroadcast.

(** ** [etharp_tmr] *)
Definition tmr_entry (i : Z) : M unit :=
  e <- entry i ;;
  if bool_decide (e_state e = ETHARP_STATE_EMPTY) then ret tt else
  set_entry i (with_ctime (u16 (e_ctime e + 1)) e) ;;;
  e <- entry i ;;
  if (ARP_MAXAGE <=? e_ctime e)
     || (bool_decide (e_state e = ETHARP_STATE_PENDING) && (ARP_MAXPENDING <=? e_ctime e))
  then etharp_free_entry i
  else match e_state e with
       | ETHARP_STATE_STABLE_REREQUESTING_1 => set_entry i (with_state ETHARP_STATE_STABLE_REREQUESTING_2 e)
       | ETHARP_STATE_STABLE_REREQUESTING_2 => set_entry i (with_state ETHARP_STATE_STABLE e)
       | ETHARP_STATE_PENDING =>
           match e_netif e with
           | Some n => etharp_request n (e_ipaddr e) ;;; ret tt
           | None => fault
           end
       | _ => ret tt
       end.
Definition etharp_tmr : M unit := each_entry 10 0 tmr_entry.

Definition etharp_cleanup_netif (netif_ : Z) : M unit := each_entry 10 0 (fun i =>
  e <- entry i ;;
  if bool_decide (e_state e <> ETHARP_STATE_EMPTY) && bool_decide (e_netif e = Some netif_)
  then etharp_free_entry i else ret tt).

(** ** [etharp_update_arp_entry] *)

(** The entry is found: it becomes stable, and the packet that waited is sent. *)
Definition update_entry (netif_ i : Z) (ethaddr : list Z) : M unit :=
  on_entry i (with_state ETHARP_STATE_STABLE) ;;;
  on_entry i (with_netif (Some netif_)) ;;;
  on_entry i (with_ethaddr ethaddr) ;;;
  on_entry i (with_ctime 0) ;;;
  e <- entry i ;;
  match e_q e with
  | Some p =>
      on_entry i (with_q None) ;;;
      n <- gets (fun s => netifs s netif_) ;;
      ethernet_output netif_ p (hwaddr n) ethaddr ETHTYPE_IP ;;;
      pbufs (pbuf_free custom (Some p)) ;;;
      ret tt
  | None => ret tt
  end.

Definition etharp_update_arp_entry (netif_ ipaddr : Z) (ethaddr : list Z) (flags_ : Z) : M Z := func (
  n <- gets (fun s => netifs s netif_) ;;
  assert_ (hwaddr_len n =? ETH_HWADDR_LEN) ;;;
  exit_if (ip4_addr_isany ipaddr || ip4_addr_isbroadcast ipaddr n || ip4_addr_ismulticast ipaddr) ERR_ARG ;;;
  i <- etharp_find_entry (Some ipaddr) flags_ ;;
  exit_if (i <? 0) i ;;;
  update_entry netif_ i ethaddr ;;;
  ret ERR_OK).

(** ** Reading the table *)
Definition etharp_find_addr (ipaddr : Z) : M Z :=
  i <- etharp_find_entry (Some ipaddr) ETHARP_FLAG_FIND_ONLY ;;
  if 0 <=? i then
    e <- entry i ;;
    ret (if stable (e_state e) then i else -1)
  else ret (-1).

Definition etharp_get_entry (i : Z) : M (option (Z * option Z * list Z)) :=
  if i <? ARP_TABLE_SIZE then
    e <- entry i ;;
    ret (if stable (e_state e) then Some (e_ipaddr e, e_netif e, e_ethaddr e) else None)
  else ret None.

(** ** [etharp_input] *)
Definition read16 (pl : option (ptr * Z)) (off : Z) : M Z :=
  bs <- pbufs (read_mem pl off 2) ;; ret (of_le16 bs).
Definition read8 (pl : option (ptr * Z)) (off : Z) : M Z :=
  bs <- pbufs (read_mem pl off 1) ;; ret (nth 0 bs 0).
Definition is_ (m : M Z) (v : Z) : M bool := x <- m ;; ret (x =? v).

Definition etharp_input (p : ptr) (netif_ : Z) : M unit :=
  x <- pbufs (load p) ;;
  let hdr := payload x in
  ok <- andM (is_ (read16 hdr 0) (PP_HTONS HWTYPE_ETHERNET))
          (andM (is_ (read8 hdr 4) ETH_HWADDR_LEN)
             (andM (is_ (read8 hdr 5) 4) (is_ (read16 hdr 2) (PP_HTONS ETHTYPE_IP)))) ;;
  if negb ok then pbufs (pbuf_free custom (Some p)) ;;; ret tt else
  sip <- pbufs (read_mem hdr 14 4) ;;
  dip <- pbufs (read_mem hdr 24 4) ;;
  shwaddr <- pbufs (read_mem hdr 8 6) ;;
  let sipaddr := of_le32 sip in
  let dipaddr := of_le32 dip in
  n <- gets (fun s => netifs s netif_) ;;
  let for_us := if ip4_addr_isany (ip_addr n) then false else dipaddr =? ip_addr n in
  etharp_update_arp_entry netif_ sipaddr shwaddr
    (if for_us then ETHARP_FLAG_TRY_HARD else ETHARP_FLAG_FIND_ONLY) ;;;
  opcode <- read16 hdr 6 ;;
  (if opcode =? PP_HTONS ARP_REQUEST then
     if for_us
     then etharp_raw netif_ (hwaddr n) shwaddr (hwaddr n) (ip_addr n) shwaddr sipaddr ARP_REPLY ;;; ret tt
     else ret tt
   else if opcode =? PP_HTONS ARP_REPLY then on_dev (dhcp_arp_reply netif_ sipaddr)
   else ret tt) ;;;
  pbufs (pbuf_free custom (Some p)) ;;;
  ret tt.

(** ** Sending *)
Definition etharp_output_to_arp_index (netif_ : Z) (q : ptr) (arp_idx : Z) : M Z :=
  e <- entry arp_idx ;;
  assert_ (stable (e_state e)) ;;;
  (if bool_decide (e_state e = ETHARP_STATE_STABLE) then
     if ARP_AGE_REREQUEST_USED_BROADCAST <=? e_ctime e then
       r <- etharp_request netif_ (e_ipaddr e) ;;
       if r =? ERR_OK then on_entry arp_idx (with_state ETHARP_STATE_STABLE_REREQUESTING_1) else ret tt
     else if ARP_AGE_REREQUEST_USED_UNICAST <=? e_ctime e then
       r <- etharp_request_dst netif_ (e_ipaddr e) (e_ethaddr e) ;;
       if r =? ERR_OK then on_entry arp_idx (with_state ETHARP_STATE_STABLE_REREQUESTING_1) else ret tt
     else ret tt
   else ret tt) ;;;
  n <- gets (fun s => netifs s netif_) ;;
  e <- entry arp_idx ;;
  ethernet_output netif_ q (hwaddr n) (e_ethaddr e) ETHTYPE_IP.

(** The walk over the pbufs of a packet: the total length of the first one, from there
    on, that is not [PBUF_ROM]. *)
Fixpoint copy_needed (n : nat) (p : option ptr) : M (option Z) :=
  match p with
  | None => ret None
  | Some p =>
    match n with
    | O => diverge
    | S n =>
        x <- pbufs (load p) ;;
        assert_ (negb (len x =? tot_len x) || (if next x is Some _ then false else true)) ;;;
        if negb (type x =? PBUF_ROM) then ret (Some (tot_len x)) else copy_needed n (next x)
    end
  end.

(** The packet to keep until the address is known: a copy, or one reference more. *)
Definition take_over (q : ptr) : M (option ptr) :=
  n <- pbufs fuel ;;
  c <- copy_needed n (Some q) ;;
  match c with
  | Some tot_len_ =>
      p <- pbufs (pbuf_alloc custom PBUF_LINK tot_len_ PBUF_RAM) ;;
      match p with
      | Some p =>
          r <- pbufs (pbuf_copy (Some p) (Some q)) ;;
          if negb (r =? ERR_OK) then pbufs (pbuf_free custom (Some p)) ;;; ret None else ret (Some p)
      | None => ret None
      end
  | None => pbufs (pbuf_ref (Some q)) ;;; ret (Some q)
  end.

Definition etharp_query (netif_ ipaddr : Z) (q : option ptr) : M Z := func (
  n <- gets (fun s => netifs s netif_) ;;
  exit_if (ip4_addr_isbroadcast ipaddr n || ip4_addr_ismulticast ipaddr || ip4_addr_isany ipaddr) ERR_ARG ;;;
  i <- etharp_find_entry (Some ipaddr) ETHARP_FLAG_TRY_HARD ;;
  exit_if (i <? 0) i ;;;
  e <- entry i ;;
  let is_new_entry := bool_decide (e_state e = ETHARP_STATE_EMPTY) in
  (if is_new_entry
   then on_entry i (with_state ETHARP_STATE_PENDING) ;;; on_entry i (with_netif (Some netif_))
   else ret tt) ;;;
  (if is_new_entry || (if q is None then true else false) then
     result <- etharp_request netif_ ipaddr ;;
     if q is None then exit result else ret tt
   else ret tt) ;;;
  q <- (match q with Some q => ret q | None => fault end) ;;
  e <- entry i ;;
  if stable (e_state e) then
    set_cached i ;;;
    ethernet_output netif_ q (hwaddr n) (e_ethaddr e) ETHTYPE_IP
  else if bool_decide (e_state e = ETHARP_STATE_PENDING) then
    p <- take_over q ;;
    match p with
    | Some p =>
        e <- entry i ;;
        (match e_q e with
         | Some old => pbufs (pbuf_free custom (Some old)) ;;; ret tt
         | None => ret tt
         end) ;;;
        on_entry i (with_q (Some p)) ;;;
        ret ERR_OK
    | None => ret ERR_MEM
    end
  else ret ERR_MEM).

(** [for (i = 0; i < ARP_TABLE_SIZE; i++)]: the first stable entry with this address *)
Fixpoint stable_loop (l : list etharp_entry) (i : Z) (dst_addr : Z) : option Z :=
  match l with
  | [] => None
  | e :: l => if stable (e_state e) && (dst_addr =? e_ipaddr e) then Some i
              else stable_loop l (i + 1) dst_addr
  end.

Definition mcastaddr (ipaddr : Z) : list Z :=
  let b := addr_bytes ipaddr in
  [LL_IP4_MULTICAST_ADDR_0; LL_IP4_MULTICAST_ADDR_1; LL_IP4_MULTICAST_ADDR_2;
   Z.land (nth 1 b 0) 0x7f; nth 2 b 0; nth 3 b 0].

Definition etharp_output (netif_ : Z) (q : ptr) (ipaddr : Z) : M Z := func (
  n <- gets (fun s => netifs s netif_) ;;
  if ip4_addr_isbroadcast ipaddr n then
    ethernet_output netif_ q (hwaddr n) ethbroadcast ETHTYPE_IP
  else if ip4_addr_ismulticast ipaddr then
    ethernet_output netif_ q (hwaddr n) (mcastaddr ipaddr) ETHTYPE_IP
  else
    dst_addr <- (if negb (ip4_addr_netcmp ipaddr (ip_addr n) (netmask n)) && negb (ip4_addr_islinklocal ipaddr)
                 then if negb (ip4_addr_isany (gw n)) then ret (gw n) else exit ERR_RTE
                 else ret ipaddr) ;;
    cached <- gets etharp_cached_entry ;;
    c <- entry cached ;;
    if stable (e_state c) && (dst_addr =? e_ipaddr c)
    then etharp_output_to_arp_index netif_ q cached
    else
      l <- gets arp_table ;;
      match stable_loop l 0 dst_addr with
      | Some i => set_cached i ;;; etharp_output_to_arp_index netif_ q i
      | None => etharp_query netif_ dst_addr (Some q)
      end).

(** ** Receiving: [low_level_input], [ethernet_input] *)

(** The frame is copied into the pbufs of the chain, as far as it fits the port's
    temporary buffer. *)
Fixpoint scatter (n : nat) (q : option ptr) (data_tmp : list Z) (data_tmp_len : Z) : M unit :=
  match q with
  | None => ret tt
  | Some p =>
    match n with
    | O => diverge
    | S n =>
        x <- pbufs (load p) ;;
        if data_tmp_len + len x <=? ENET_FRAME_MAX_FRAMELEN then
          bs <- read_bytes data_tmp data_tmp_len (len x) ;;
          pbufs (write_mem (payload x) 0 bs) ;;;
          scatter n (next x) data_tmp (data_tmp_len + len x)
        else ret tt
    end
  end.

(** [frame] is what the controller's driver delivers, not empty. *)
Definition low_level_input (frame : list Z) : M (option ptr) :=
  p <- pbufs (pbuf_alloc custom PBUF_RAW (u16 (Z.of_nat (length frame))) PBUF_POOL) ;;
  match p with
  | None => ret None
  | Some p =>
      x <- pbufs (load p) ;;
      (match next x with
       | None => pbufs (write_mem (payload x) 0 frame)
       | Some _ => n <- pbufs fuel ;; scatter n (Some p) frame 0
       end) ;;;
      ret (Some p)
  end.

Definition ethernet_input (p : ptr) (netif_ : Z) : M Z :=
  let free_and_return := pbufs (pbuf_free custom (Some p)) ;;; ret ERR_OK in
  x <- pbufs (load p) ;;
  if len x <=? SIZEOF_ETH_HDR then free_and_return else
  type_ <- read16 (payload x) 12 ;;
  dest <- pbufs (read_mem (payload x) 0 6) ;;
  (if truthy (Z.land (nth 0 dest 0) 1) then
     if nth 0 dest 0 =? LL_IP4_MULTICAST_ADDR_0 then
       if (nth 1 dest 0 =? LL_IP4_MULTICAST_ADDR_1) && (nth 2 dest 0 =? LL_IP4_MULTICAST_ADDR_2)
       then pbufs (update p (fun x => with_flags (Z.lor (flags x) PBUF_FLAG_LLMCAST) x))
       else ret tt
     else if bool_decide (dest = ethbroadcast)
     then pbufs (update p (fun x => with_flags (Z.lor (flags x) PBUF_FLAG_LLBCAST) x))
     else ret tt
   else ret tt) ;;;
  n <- gets (fun s => netifs s netif_) ;;
  let arp_netif := truthy (Z.land (nflags n) NETIF_FLAG_ETHARP) in
  if type_ =? PP_HTONS ETHTYPE_IP then
    if negb arp_netif then free_and_return else
    r <- (if len x <? SIZEOF_ETH_HDR then ret 1 else pbufs (pbuf_header p (- SIZEOF_ETH_HDR))) ;;
    if truthy r then free_and_return else ip4_input p netif_ ;;; ret ERR_OK
  else if type_ =? PP_HTONS ETHTYPE_ARP then
    if negb arp_netif then free_and_return else
    r <- (if len x <? SIZEOF_ETH_HDR then ret 1 else pbufs (pbuf_header p (- SIZEOF_ETH_HDR))) ;;
    if truthy r then free_and_return else etharp_input p netif_ ;;; ret ERR_OK
  else free_and_return.

(** [while ((p = low_level_input(netif)) != NULL)], for the frames the controller has;
    what the input function of the interface does with a packet in the end is
    [ethernet_input]. *)
Fixpoint ethernetif_input (frames : list (list Z)) (netif_ : Z) : M unit :=
  match frames with
  | [] => ret tt
  | frame :: frames =>
      p <- low_level_input frame ;;
      match p with
      | None => ret tt
      | Some p =>
          r <- ethernet_input p netif_ ;;
          (if negb (r =? ERR_OK) then pbufs (pbuf_free custom (Some p)) ;;; ret tt else ret tt) ;;;
          ethernetif_input frames netif_
      end
  end.
End Etharp.
