(* ===== verification/EthFacts.v ===== *)
(** * What is on the wire after [ethernet_output] *)
From S2P Require Export Ethernet PbufCopy.

#[local] Set Warnings "-clear-no-such-hyp".

(** An Ethernet frame: addresses, type in network order, payload. *)
Definition eth_frame (dst src : list Z) (type_ : Z) (c : list Z) : list Z :=
  dst ++ src ++ le16 (lwip_htons type_) ++ c.

Lemma pbufs_run {A E X : Type} (m : cmd (heap A) X) (s : link A E) r h :
  m (hp s) = (r, h) -> pbufs m s = (r, with_hp h s).
Proof. intros Hm. unfold pbufs. by rewrite Hm. Qed.

Lemma with_hp_hp {A E : Type} (s : link A E) : with_hp (hp s) s = s.
Proof. by destruct s. Qed.

(** [pstep H]: the next command is a call of the packet buffers, which runs as [H] says. *)
Ltac pstep H :=
  match goal with |- context [bind (pbufs _) _ ?s] => rewrite (bind_ret _ _ s _ _ (pbufs_run _ s _ _ H)) end;
  rewrite ?with_hp_hp.

Section EthFacts.
Context {A E : Type} `{Allocator A} `{Controller E}.
Implicit Types (h : heap A) (q : ptr) (x : pbuf) (l : list node) (s : link A E).

(** [s] with other packet buffers, another transmit buffer and another device. *)
Definition after s h (b : list Z) (d : E) : link A E :=
  Link (arp_table s) (etharp_cached_entry s) (netifs s) b h d.

Lemma after_id s : after s (hp s) (ucBuffer s) (dev s) = s.
Proof. by destruct s. Qed.

Lemma gather_ok l : forall n p s k, packet (hp s) p l -> (length l < n)%nat -> 0 <= k ->
  k + Z.of_nat (length (content l)) <= Z.of_nat (length (ucBuffer s)) ->
  gather n p k s =
    (Ret tt, after s (hp s) (write_list (ucBuffer s) (Z.to_nat k) (content l)) (dev s)).
Proof.
  induction l as [|[q x bs] l IH]; intros n p s k Hp Hn Hk Hle.
  - cbn in Hp. subst p. change (content []) with (@nil Z). rewrite write_list_nil, after_id. by destruct n.
  - destruct Hp as (-> & Hx & Hb & Ht & Hp). destruct n as [|n]; [cbn in Hn; lia|].
    pose proof (holds_length _ _ _ Hb) as Hl. rewrite content_cons, length_app in *. cbn [n_bytes] in *.
    cbn [gather]. pstep (load_at _ q x Hx).
    pstep (read_mem_at _ x bs 0 (len x) Hb ltac:(lia) ltac:(lia) ltac:(lia)). rewrite drop_0, take_ge by lia.
    cstep (eq_refl (gets ucBuffer s)). cstep (write_array_at (ucBuffer s) bs k s Hk ltac:(lia)).
    set (b := write_list _ _ bs).
    cstep (eq_refl (set_ucBuffer b s)). rewrite IH; [|done|cbn in Hn; lia|lia|].
    + cbn. unfold after, b. cbn. do 2 f_equal. rewrite <- write_list_app by lia. f_equal. lia.
    + cbn. unfold b. rewrite write_list_length by lia. lia.
Qed.

(** The frame fits the port's buffer, or needs no copy. *)
Definition sendable x (c : list Z) : bool :=
  (len x =? tot_len x) || negb (ENET_FRAME_MAX_FRAMELEN <=? Z.of_nat (length c)).

Lemma low_level_output_ok s q x bs l : owns (hp s) q (Node q x bs :: l) -> 0 < len x ->
  length (ucBuffer s) = 1518%nat ->
  let c := content (Node q x bs :: l) in
  exists r b d, low_level_output q s = (Ret r, after s (hp s) b d) /\ length b = 1518%nat /\
    (r, d) = if sendable x c then enet_send_frame c (dev s) else (ERR_BUF, dev s).
Proof.
  intros Ho Hl0 Hbuf c. pose proof (owns_head_payload _ _ _ _ _ Ho) as (o & Hpl & Ho0 & _ & Hlb & Htot).
  pose proof Ho as [Hp _]. pose proof (packet_size _ _ _ Hp) as Hsz. pose proof Hp as (_ & Hx & Hb & Ht & _).
  change (bs ++ content l) with c in Htot.
  unfold low_level_output, func, sendable. fold c. rewrite <- Htot.
  assert (Hlast : forall s' frame, hp s' = hp s -> (result <- send frame ;; pbufs (read_mem (payload x) 0 1) ;;; ret result) s'
    = let '(r, d) := enet_send_frame frame (dev s') in (Ret r, after s' (hp s') (ucBuffer s') d)).
  { intros s' frame Hs'. unfold bind at 1, send. destruct (enet_send_ends frame (dev s')) as [-> Hok].
    destruct (enet_send_frame frame (dev s')) as [r d]. cbn in Hok. subst r.
    erewrite bind_ret; [reflexivity|]. unfold pbufs. cbn [hp]. rewrite Hs'.
    rewrite (read_mem_at (hp s) x bs 0 1 Hb) by lia. by unfold after, with_hp; cbn; rewrite ?Hs'. }
  pstep (load_at _ q x Hx). destruct (Z.eqb_spec (len x) (tot_len x)) as [Heq|Hne]; cbn [orb].
  - pstep (read_mem_at _ x bs 0 (tot_len x) Hb ltac:(lia) ltac:(lia) ltac:(lia)).
    assert (take (Z.to_nat (tot_len x)) (drop (Z.to_nat 0) bs) = c) as ->.
    { rewrite drop_0, take_ge by lia. unfold c. rewrite content_cons.
      assert (content l = []) as -> by (apply length_zero_iff_nil; lia). by rewrite app_nil_r. }
    rewrite Hlast by done. destruct (enet_send_frame c (dev s)) as [r d]. by exists r, (ucBuffer s), d.
  - destruct (Z.leb_spec ENET_FRAME_MAX_FRAMELEN (tot_len x)) as [Hbig|Hsmall]; cbn [negb].
    { exists ERR_BUF, (ucBuffer s), (dev s). by rewrite after_id. }
    change ENET_FRAME_MAX_FRAMELEN with 1518 in Hsmall.     rewrite bind_bind, (bind_ret _ _ s (S (size (pb (hp s)))) s) by (by destruct s).
    rewrite bind_bind, (bind_ret _ _ _ _ _ (gather_ok (Node q x bs :: l) (S (size (pb (hp s)))) _ s 0 Hp ltac:(cbn in *; lia) ltac:(lia) ltac:(fold c; lia))).
    fold c. rewrite bind_bind. set (s1 := after s (hp s) _ (dev s)). cstep (eq_refl (gets ucBuffer s1)).
    assert (Hw : length (ucBuffer s1) = 1518%nat) 
      by (change (ucBuffer s1) with (write_list (ucBuffer s) (Z.to_nat 0) c); rewrite write_list_length; lia).
    cstep (read_bytes_at (ucBuffer s1) 0 (tot_len x) s1 ltac:(lia) ltac:(lia) ltac:(lia)).
    assert (take (Z.to_nat (tot_len x)) (drop (Z.to_nat 0) (ucBuffer s1)) = c) as ->.
    { rewrite drop_0. change (ucBuffer s1) with (c ++ drop (0 + length c) (ucBuffer s)).
      by rewrite take_app_length' by lia. }
    rewrite Hlast by done. change (dev s1) with (dev s). destruct (enet_send_frame c (dev s)) as [r d].
    by exists r, (ucBuffer s1), d.
Qed.

(** ** [ethernet_output] *)
Lemma header_bytes (hb d a t bs : list Z) : length hb = 14%nat -> length d = 6%nat ->
  length a = 6%nat -> length t = 2%nat ->
  write_list (write_list (write_list (hb ++ bs) 12 t) 0 d) 6 a = d ++ a ++ t ++ bs.
Proof.
  intros. do 15 (destruct hb as [|? hb]; [try done|]); [|done].
  do 7 (destruct d as [|? d]; [try done|]); [|done].
  do 7 (destruct a as [|? a]; [try done|]); [|done].
  do 3 (destruct t as [|? t]; [done|]). done.
Qed.

(** [low_level_output] gives the frame to the driver: a single pbuf as it is, whatever its
    length, a chain if with its header it is shorter than the port's buffer. *)
Definition port_takes x (c : list Z) : bool := (len x =? tot_len x) || (Z.of_nat (length c) + 14 <? 1518).

Lemma ethernet_output_ok s nif q x bs l dst src ty o :
  owns (hp s) q (Node q x bs :: l) -> alloc_inv (hp s) -> length (ucBuffer s) = 1518%nat ->
  hwaddr_len (netifs s nif) = 6 -> length src = 6%nat -> length dst = 6%nat ->
  tot_len x <= 65521 -> payload x = Some (q, o) ->
  exists r h' b d x' bs', ethernet_output nif q src dst ty s = (Ret r, after s h' b d) /\
    length b = 1518%nat /\ owns h' q (Node q x' bs' :: l) /\
    hstep {[q]} (live (al (hp s))) (hp s) h' /\
    (r, d) = if negb (o <? 14) && port_takes x (content (Node q x bs :: l))
             then enet_send_frame (eth_frame dst src ty (content (Node q x bs :: l))) (dev s)
             else (ERR_BUF, dev s).
Proof.
  intros Ho Hi Hbuf Hhw Hsrc Hdst Ht Hpl. unfold ethernet_output.
  pose proof (header_push (hp s) q x bs l o SIZEOF_ETH_HDR Ho Hi Hpl ltac:(done) ltac:(change SIZEOF_ETH_HDR with 14; lia)) as Hh.
  change (o <? SIZEOF_ETH_HDR) with (o <? 14) in Hh.
  destruct (o <? 14) eqn:Hroom; cbn [negb andb].
  { pstep Hh. cbn [Z.eqb negb].
    exists ERR_BUF, (hp s), (ucBuffer s), (dev s), x, bs. rewrite after_id. by split_and!; [..|apply hstep_refl|]. }
  destruct Hh as (hb & h1 & Hr & Hlhb & Ho1 & Hs1 & _). pstep Hr. cbn [Z.eqb negb].
  set (x1 := moved (- SIZEOF_ETH_HDR) x) in *. pose proof Ho1 as [(_ & Hx1 & Hb1 & _) _].
  assert (Hx1l : len x1 = len x + 14) by (cbn; change SIZEOF_ETH_HDR with 14; lia).
  destruct (owns_head_payload _ _ _ _ _ Ho) as (_ & _ & _ & _ & Hlbs & Htot).
  set (s1 := with_hp h1 s). pstep (load_at (hp s1) q x1 Hx1).
  destruct (owns_write h1 q [] q x1 (hb ++ bs) l 12 (le16 (lwip_htons ty)) Ho1) as (h2 & Hw2 & Ho2 & Hs2);
    [by destruct Hs1 as (_ & _ & ?)|lia|cbn [length le16]; lia|]. pstep Hw2.
  cstep (read_bytes_at dst 0 ETH_HWADDR_LEN (with_hp h2 s1) ltac:(lia) ltac:(done) ltac:(rewrite Hdst; done)).
  rewrite drop_0, take_ge by (rewrite Hdst; done).
  destruct (owns_write h2 q [] q x1 _ l 0 dst Ho2) as (h3 & Hw3 & Ho3 & Hs3);
    [by destruct Hs2 as (_ & _ & ?)|lia|lia|]. pstep Hw3.
  cstep (read_bytes_at src 0 ETH_HWADDR_LEN (with_hp h3 (with_hp h2 s1)) ltac:(lia) ltac:(done) ltac:(rewrite Hsrc; done)).
  rewrite drop_0, take_ge by (rewrite Hsrc; done).
  destruct (owns_write h3 q [] q x1 _ l 6 src Ho3) as (h4 & Hw4 & Ho4 & Hs4);
    [by destruct Hs3 as (_ & _ & ?)|lia|lia|]. pstep Hw4.
  change (with_hp h4 _) with (with_hp h4 s). set (s4 := with_hp h4 s).
  cstep (eq_refl (gets (fun st : link A E => netifs st nif) s4)).
  rewrite (bind_ret _ _ s4 tt s4) by (cbn; by rewrite Hhw). cbn [app] in Ho4.
  change (Z.to_nat 12) with 12%nat in Ho4. change (Z.to_nat 0) with 0%nat in Ho4.
  change (Z.to_nat 6) with 6%nat in Ho4. rewrite header_bytes in Ho4 by done.
  destruct (low_level_output_ok s4 q x1 _ l Ho4 ltac:(lia) Hbuf) as (r & b & d & Hrun & Hb & Hrd).
  exists r, h4, b, d, x1. eexists. split_and!; [exact Hrun|done|exact Ho4| |].
  - apply (hstep_weaken ({[q]} ∪ {[q]} ∪ {[q]} ∪ {[q]})); [|set_solver].
    destruct Hs1 as (? & L1 & ?), Hs2 as (? & L2 & ?), Hs3 as (? & L3 & ?), Hs4 as (? & L4 & ?).
    rewrite L1 in L2. rewrite L2 in L3. rewrite L3 in L4.
    repeat eapply hstep_trans; unfold hstep; split_and!; try done; rewrite ?L1, ?L2, ?L3, ?L4; done.
  - rewrite Hrd. unfold sendable, port_takes, eth_frame. rewrite !content_cons. cbn [n_bytes].
    assert (Hc : content (Node q x bs :: l) = bs ++ content l) by done.
    replace (len x1 =? tot_len x1) with (len x =? tot_len x)
      by (cbn; change SIZEOF_ETH_HDR with 14; lia).
    rewrite <- !app_assoc. change (dev s4) with (dev s).
    replace (negb _) with (Z.of_nat (length (bs ++ content l)) + 14 <? 1518); [done|].
    change ENET_FRAME_MAX_FRAMELEN with 1518. rewrite !length_app, Hdst, Hsrc. cbn [length le16].
    destruct (Z.ltb_spec (Z.of_nat (length bs + length (content l)) + 14) 1518),
      (Z.leb_spec 1518 (Z.of_nat (6 + (6 + (2 + (length bs + length (content l))))))); done || lia.
Qed.
End EthFacts.
