(* ===== verification/EtharpTable.v ===== *)
(** * The ARP table and the packets it holds: frames, the invariant, the search *)
From S2P Require Export Etharp EthFacts.

#[local] Set Warnings "-clear-no-such-hyp".

(** An ARP message (RFC 826) as [etharp_raw] lays it out. *)
Definition arp_message (opcode : Z) (hwsrc : list Z) (ipsrc : Z) (hwdst : list Z) (ipdst : Z) : list Z :=
  le16 (PP_HTONS HWTYPE_ETHERNET) ++ le16 (PP_HTONS ETHTYPE_IP) ++ [ETH_HWADDR_LEN; 4] ++
  le16 (lwip_htons opcode) ++ hwsrc ++ addr_bytes ipsrc ++ hwdst ++ addr_bytes ipdst.

Section Keep.
Context {A : Type} `{Allocator A}.
Implicit Types (h : heap A).

(** Everything in use stays as it is, and nothing else is in use afterwards. *)
Definition hkeep h h' : Prop :=
  (forall p, p ∈ live (al h) -> pb h' !! p = pb h !! p /\ bl h' !! p = bl h !! p) /\
  live (al h') = live (al h) /\ alloc_inv h'.

Lemma hkeep_refl h : alloc_inv h -> hkeep h h.
Proof. intros Hi. unfold hkeep. by split_and!. Qed.

Lemma hkeep_trans h h1 h2 : hkeep h h1 -> hkeep h1 h2 -> hkeep h h2.
Proof.
  intros (K1 & L1 & _) (K2 & L2 & I2). unfold hkeep. rewrite L1 in *. split_and!; [|done|done].
  intros p Hp. destruct (K1 p Hp) as [<- <-]. by apply K2.
Qed.

(** A step on fresh memory, given back. *)
Lemma hkeep_fresh h h' X : hstep X (live (al h)) h h' -> X ## live (al h) -> hkeep h h'.
Proof. intros (Hs & HL & Hi) Hd. unfold hkeep. split_and!; [|done|done]. intros p Hp. apply Hs. set_solver. Qed.

(** A write into a packet, with what happened since [h0]. *)
Lemma write_since h0 L h p x bs off cs {l} :
  hstep {[p]} L h0 h /\ owns h p (Node p x bs :: l) -> 0 <= off -> off + Z.of_nat (length cs) <= len x ->
  exists h', write_mem (payload x) off cs h = (Ret tt, h') /\
    hstep {[p]} L h0 h' /\ owns h' p (Node p x (write_list bs (Z.to_nat off) cs) :: l).
Proof.
  intros [Hs Ho] H1 H2. pose proof Hs as (_ & HL & Hi).
  destruct (owns_write h p [] p x bs l off cs Ho Hi H1 H2) as (h' & Hw & Ho' & Hs').
  exists h'. split_and!; [done| |done]. rewrite HL in Hs'.
  replace {[p]} with ({[p]} ∪ {[p]} : gset ptr) by set_solver. by eapply hstep_trans.
Qed.
End Keep.

Lemma message_bytes (b hs hd : list Z) ips ipd op : length b = 28%nat -> length hs = 6%nat -> length hd = 6%nat ->
  write_list (write_list (write_list (write_list (write_list (write_list (write_list (write_list (write_list b
    6 (le16 (lwip_htons op))) 8 hs) 18 hd) 14 (addr_bytes ips)) 24 (addr_bytes ipd))
    0 (le16 (PP_HTONS HWTYPE_ETHERNET))) 2 (le16 (PP_HTONS ETHTYPE_IP))) 4 [ETH_HWADDR_LEN]) 5 [4]
  = arp_message op hs ips hd ipd.
Proof.
  intros. do 29 (destruct b as [|? b]; [try done|]); [|done].
  do 7 (destruct hs as [|? hs]; [try done|]); [|done].
  do 7 (destruct hd as [|? hd]; [done|]). done.
Qed.

Section Raw.
Context {A E : Type} `{Allocator A} `{Controller E}.
Context (custom : ptr -> heap A -> heap A).
Implicit Types (h : heap A) (s : link A E).

(** Either the frame was handed to the controller, or [pbuf_alloc] found no memory for it
    in [h]. *)
Definition frame_or_none h (frame : list Z) (d : E) (r : Z) (d' : E) : Prop :=
  (r = ERR_OK /\ d' = (enet_send_frame frame d).2) \/
  (r = ERR_MEM /\ d' = d /\ no_ram PBUF_LINK SIZEOF_ETHARP_HDR h).

Lemma frame_or_none_inv h frame d r d' : frame_or_none h frame d r d' -> dev_inv d -> dev_inv d'.
Proof. intros [[_ ->]|(_ & -> & _)] Hd; [by apply send_inv|done]. Qed.

Lemma etharp_raw_ok s nif src dst hs ips hd ipd op :
  alloc_inv (hp s) -> length (ucBuffer s) = 1518%nat -> hwaddr_len (netifs s nif) = 6 ->
  length src = 6%nat -> length dst = 6%nat -> length hs = 6%nat -> length hd = 6%nat ->
  exists r h' b d, etharp_raw custom nif src dst hs ips hd ipd op s = (Ret r, after s h' b d) /\
    length b = 1518%nat /\ hkeep (hp s) h' /\
    frame_or_none (hp s) (eth_frame dst src ETHTYPE_ARP (arp_message op hs ips hd ipd)) (dev s) r d.
Proof.
  intros Hi Hbuf Hhw Hsrc Hdst Hhs Hhd. unfold etharp_raw.
  destruct (owns_alloc_ram custom PBUF_LINK 14 SIZEOF_ETHARP_HDR (hp s) eq_refl ltac:(done) Hi)
    as ([p|] & h1 & Hal & Hpost).
  2:{ exists ERR_MEM, h1, (ucBuffer s), (dev s). pstep Hal. split_and!; [done|done| |].
      - by apply (hkeep_fresh _ _ ∅).
      - right. split_and!; [done..|by eapply no_ram_alloc]. }
  destruct Hpost as (x & bs & Ho & Hlx & Hpl & _ & _ & Hfresh & Hs).
  pstep Hal. pose proof Ho as [(_ & Hx & Hb & Ht & _) _]. pose proof (holds_length _ _ _ Hb) as Hlb.
  rewrite Hlx in *. change SIZEOF_ETHARP_HDR with 28 in *. change (Z.of_nat (length (content []))) with 0 in Ht.
  pstep (load_at h1 p x Hx). rewrite (bind_ret _ _ (with_hp h1 s) tt (with_hp h1 s)) by (by rewrite Hlx).
  pose proof (conj Hs Ho) as Hc. clear Hs Ho Hb. cbn [app].
  destruct (write_since _ _ _ _ _ _ 6 (le16 (lwip_htons op)) Hc) as (h2 & Hw & Hc2); [lia|rewrite Hlx; cbn; lia|]. pstep Hw.
  cstep (eq_refl (gets (fun st : link A E => netifs st nif) (with_hp h2 (with_hp h1 s)))).
  erewrite bind_ret by (apply assert_true; cbn; by rewrite Hhw).
  cstep (read_bytes_at hs 0 ETH_HWADDR_LEN (with_hp h2 (with_hp h1 s)) ltac:(done) ltac:(done) ltac:(by rewrite Hhs)).
  rewrite drop_0, take_ge by (by rewrite Hhs).
  destruct (write_since _ _ _ _ _ _ 8 hs Hc2) as (h3 & Hw3 & Hc3); [lia|lia|]. pstep Hw3.
  erewrite bind_ret by (apply (read_bytes_at hd 0 ETH_HWADDR_LEN); [done|done|by rewrite Hhd]).
  rewrite drop_0, take_ge by (by rewrite Hhd).
  destruct (write_since _ _ _ _ _ _ 18 hd Hc3) as (h4 & Hw4 & Hc4); [lia|lia|]. pstep Hw4.
  destruct (write_since _ _ _ _ _ _ 14 (addr_bytes ips) Hc4) as (h5 & Hw5 & Hc5); [lia|rewrite Hlx; cbn; lia|]. pstep Hw5.
  destruct (write_since _ _ _ _ _ _ 24 (addr_bytes ipd) Hc5) as (h6 & Hw6 & Hc6); [lia|rewrite Hlx; cbn; lia|]. pstep Hw6.
  destruct (write_since _ _ _ _ _ _ 0 (le16 (PP_HTONS HWTYPE_ETHERNET)) Hc6) as (h7 & Hw7 & Hc7); [lia|rewrite Hlx; cbn; lia|]. pstep Hw7.
  destruct (write_since _ _ _ _ _ _ 2 (le16 (PP_HTONS ETHTYPE_IP)) Hc7) as (h8 & Hw8 & Hc8); [lia|rewrite Hlx; cbn; lia|]. pstep Hw8.
  destruct (write_since _ _ _ _ _ _ 4 [ETH_HWADDR_LEN] Hc8) as (h9 & Hw9 & Hc9); [lia|rewrite Hlx; cbn; lia|]. pstep Hw9.
  destruct (write_since _ _ _ _ _ _ 5 [4] Hc9) as (h10 & Hw10 & Hs10 & Ho10); [lia|rewrite Hlx; cbn; lia|]. pstep Hw10.
  change (with_hp h10 _) with (with_hp h10 s). set (s10 := with_hp h10 s).
  assert (Hm : owns h10 p [Node p x (arp_message op hs ips hd ipd)]).
  { rewrite <- (message_bytes bs hs hd ips ipd op) by (done || lia). exact Ho10. }
  clear Ho10 Hc Hc2 Hc3 Hc4 Hc5 Hc6 Hc7 Hc8 Hc9.
  destruct (ethernet_output_ok s10 nif p x _ [] dst src ETHTYPE_ARP 16 Hm) as
    (r & h11 & b & d & x' & bs' & Hrun & Hlb' & Ho11 & Hs11 & Hrd);
    [by destruct Hs10 as (_ & _ & ?)|done|done|done|done|lia|done|].
  rewrite (bind_ret _ _ _ _ _ Hrun). assert (Hf : port_takes x (content [Node p x (arp_message op hs ips hd ipd)]) = true).
  { unfold port_takes. rewrite Hlx, Ht. done. }
  change (16 <? 14) with false in Hrd. rewrite Hf in Hrd. cbn [negb andb] in Hrd.
  rewrite content_cons in Hrd. change (content []) with (@nil Z) in Hrd. rewrite app_nil_r in Hrd. cbn [n_bytes] in Hrd.
  destruct (owns_free custom h11 p _ [] Ho11) as (k & h12 & Hfr & Hs12); [by destruct Hs11 as (_ & _ & ?)|].
  pstep Hfr. exists ERR_OK, h12, b, d. split_and!; [done|done| |].
  - apply (hkeep_fresh _ _ {[p]}); [|set_solver].
    pose proof (hstep_trans _ _ _ _ _ _ _ (hstep_trans _ _ _ _ _ _ _ Hs10 Hs11) Hs12) as Hall.
    unfold ptrs in Hall. cbn in Hall. destruct Hs10 as (_ & L10 & _), Hs11 as (_ & L11 & _).
    change (hp s10) with h10 in L11. rewrite L11, L10 in Hall.
    replace (({[p]} ∪ live (al (hp s))) ∖ ({[p]} ∪ ∅)) with (live (al (hp s))) in Hall by set_solver.
    eapply hstep_weaken; [exact Hall|set_solver].
  - left. split; [done|]. change (dev s10) with (dev s) in Hrd. by rewrite <- Hrd.
Qed.
End Raw.

(** ** Tables *)
Implicit Types (e : etharp_entry) (tbl : list etharp_entry).

Definition occupied e : bool := negb (bool_decide (e_state e = ETHARP_STATE_EMPTY)).

(** The address an entry is about, and the packet it holds. *)
Definition addr_of e : option Z := if occupied e then Some (e_ipaddr e) else None.
Definition addrs tbl : list Z := omap addr_of tbl.
Definition held tbl : list ptr := omap e_q tbl.

(** Pending entries are younger than [ARP_MAXPENDING], others than [ARP_MAXAGE]; only a
    pending entry holds a packet. *)
Definition entry_ok e : Prop :=
  match e_state e with
  | ETHARP_STATE_EMPTY => e_q e = None
  | ETHARP_STATE_PENDING => 0 <= e_ctime e < ARP_MAXPENDING /\ is_Some (e_netif e)
  | _ => e_q e = None /\ 0 <= e_ctime e < ARP_MAXAGE /\ length (e_ethaddr e) = 6%nat /\ is_Some (e_netif e)
  end.

Record table_ok tbl : Prop := {
  t_length : length tbl = 10%nat;
  t_entries : Forall entry_ok tbl;
  t_addrs : NoDup (addrs tbl);
  t_held : NoDup (held tbl)
}.

Section Omap.
Context {B : Type} (f : etharp_entry -> option B).

Lemma omap_split tbl i e : tbl !! i = Some e -> omap f tbl ≡ₚ option_list (f e) ++ omap f (delete i tbl).
Proof.
  intros Hi. rewrite (delete_Permutation tbl i e Hi) at 1. cbn. by destruct (f e).
Qed.

Lemma omap_insert tbl i e e' : tbl !! i = Some e ->
  omap f (<[i := e']> tbl) ≡ₚ option_list (f e') ++ omap f (delete i tbl).
Proof.
  intros Hi. assert (Hl : (i < length tbl)%nat) by (by eapply lookup_lt_Some).
  assert (Hi' : <[i := e']> tbl !! i = Some e') by (by apply list_lookup_insert_eq).
  rewrite (omap_split _ i e' Hi'). apply Permutation_app_head.
  rewrite !delete_take_drop, take_insert_ge, drop_insert_lt by lia. done.
Qed.

Lemma omap_insert_elem tbl i e e' b : tbl !! i = Some e -> NoDup (omap f tbl) ->
  b ∈ omap f (<[i := e']> tbl) <-> f e' = Some b \/ (b ∈ omap f tbl /\ f e <> Some b).
Proof.
  intros Hi Hnd. rewrite (omap_insert tbl i e e' Hi), (omap_split tbl i e Hi) in *.
  apply NoDup_app in Hnd as (_ & Hd & _). rewrite !elem_of_app.
  assert (Ho : forall o, b ∈ option_list o <-> o = Some b).
  { intros [c|]; cbn; [rewrite list_elem_of_singleton; naive_solver|]. split; [by intros ?%elem_of_nil|done]. }
  rewrite !Ho. specialize (Hd b). rewrite Ho in Hd. naive_solver.
Qed.

Lemma omap_insert_NoDup tbl i e e' : tbl !! i = Some e -> NoDup (omap f tbl) ->
  (forall b, f e' = Some b -> f e = Some b \/ b ∉ omap f tbl) -> NoDup (omap f (<[i := e']> tbl)).
Proof.
  intros Hi Hnd Hf. rewrite (omap_insert tbl i e e' Hi), (omap_split tbl i e Hi) in *.
  apply NoDup_app in Hnd as (_ & Hd & Hnd). destruct (f e') as [b|]; [|done]. cbn.
  constructor; [|done]. intros Hin. destruct (Hf b eq_refl) as [Hb|Hb].
  - apply (Hd b); [|done]. rewrite Hb. left.
  - apply Hb. rewrite (omap_split tbl i e Hi). apply elem_of_app. by right.
Qed.
End Omap.

Lemma table_ok_insert tbl i e e' : table_ok tbl -> tbl !! i = Some e -> entry_ok e' ->
  (forall a, addr_of e' = Some a -> addr_of e = Some a \/ a ∉ addrs tbl) ->
  (forall p, e_q e' = Some p -> e_q e = Some p \/ p ∉ held tbl) ->
  table_ok (<[i := e']> tbl).
Proof.
  intros [T1 T2 T3 T4] Hi He Ha Hq. split.
  - by rewrite length_insert.
  - by apply Forall_insert.
  - by eapply omap_insert_NoDup.
  - by eapply omap_insert_NoDup.
Qed.

Lemma unknown_insert tbl i e e' a : table_ok tbl -> tbl !! i = Some e -> a ∉ addrs tbl ->
  addr_of e' <> Some a -> a ∉ addrs (<[i := e']> tbl).
Proof.
  intros [_ _ T3 _] Hi Ha He Hin. apply (omap_insert_elem _ _ _ _ _ _ Hi T3) in Hin.
  destruct Hin as [?|[? _]]; done.
Qed.

(** ** The whole state *)
Section ArpOk.
Context {A E : Type} `{Allocator A} `{Controller E}.
Implicit Types (h : heap A) (s : link A E).

(** A packet waiting for its address: one RAM pbuf with room for the Ethernet header. *)
Definition parked h (p : ptr) : Prop := exists x bs,
  owns h p [Node p x bs] /\ payload x = Some (p, 16) /\ tot_len x <= 65521.

Record arp_ok s : Prop := {
  a_table : table_ok (arp_table s);
  a_parked : forall p, p ∈ held (arp_table s) -> parked (hp s) p;
  a_cached : 0 <= etharp_cached_entry s < ARP_TABLE_SIZE;
  a_netifs : forall n, length (hwaddr (netifs s n)) = 6%nat /\ hwaddr_len (netifs s n) = 6;
  a_buffer : length (ucBuffer s) = 1518%nat;
  a_heap : alloc_inv (hp s);
  a_dev : dev_inv (dev s)
}.

(** The memory in use that is not a waiting packet. *)
Definition rest s : gset ptr := live (al (hp s)) ∖ list_to_set (held (arp_table s)).

(** A step leaves the rest alone, up to the pbufs [X]; [R] is the rest afterwards. *)
Definition steps (X R : gset ptr) s s' : Prop :=
  rest s' = R /\ netifs s' = netifs s /\
  forall p, p ∈ rest s -> p ∉ X -> pb (hp s') !! p = pb (hp s) !! p /\ bl (hp s') !! p = bl (hp s) !! p.
Definition keeps (X : gset ptr) s s' : Prop := steps X (rest s) s s'.

Lemma keeps_refl X s : keeps X s s.
Proof. unfold keeps, steps. by split_and!. Qed.

Lemma steps_trans X Y R1 R2 s s1 s2 : steps X R1 s s1 -> steps Y R2 s1 s2 -> rest s ∖ X ⊆ R1 ->
  steps (X ∪ Y) R2 s s2.
Proof.
  intros (R & N1 & K1) (R' & N2 & K2) HR. unfold steps. rewrite R', N2, N1. split_and!; [done|done|].
  intros p Hp [HX HY]%not_elem_of_union. destruct (K1 p Hp HX) as [<- <-]. apply K2; [rewrite R; set_solver|done].
Qed.

Lemma keeps_trans X Y s s1 s2 : keeps X s s1 -> keeps Y s1 s2 -> keeps (X ∪ Y) s s2.
Proof.
  intros K1 K2. unfold keeps. pose proof K1 as (<- & _). by eapply steps_trans; [exact K1|exact K2|set_solver].
Qed.

(** Only the pbufs of the rest count. *)
Lemma steps_drop X Y R s s' : steps X R s s' -> X ∩ rest s ⊆ Y -> steps Y R s s'.
Proof. intros (HR & N & K) HX. unfold steps. split_and!; [done|done|]. intros p Hp HY. apply K; set_solver. Qed.

(** Packets of others. *)
Lemma steps_owns X R s s' q l : steps X R s s' -> owns (hp s) q l -> ptrs l ⊆ rest s -> ptrs l ## X ->
  owns (hp s') q l.
Proof.
  intros (_ & _ & K) [Hp Ho] Hr Hd. split; [|done]. apply (packet_keep l _ (hp s)); [done|..].
  - intros n Hn. pose proof (ptrs_elem _ _ Hn). apply K; set_solver.
  - intros b (n & Hb & Hn)%list_elem_of_fmap. rewrite Forall_forall in Ho. destruct (Ho n Hn) as (Hb' & _).
    rewrite Hb' in Hb. injection Hb as ->. pose proof (ptrs_elem _ _ Hn). apply K; set_solver.
Qed.

Lemma parked_keep h h' p : parked h p ->
  pb h' !! p = pb h !! p -> bl h' !! p = bl h !! p -> parked h' p.
Proof.
  intros (x & bs & [Hp Ho] & Hpl & Ht) H1 H2. exists x, bs. split; [split; [|done]|done].
  apply (packet_keep _ _ h); [done|..].
  - by intros n ->%list_elem_of_singleton.
  - intros b Hb. apply list_elem_of_singleton in Hb. unfold n_block in Hb. cbn in Hb. rewrite Hpl in Hb.
    by injection Hb as ->.
Qed.

Lemma held_live s p : arp_ok s -> p ∈ held (arp_table s) -> p ∈ live (al (hp s)).
Proof.
  intros Hok Hp. destruct (a_parked _ Hok p Hp) as (x & bs & Ho & _).
  pose proof (owns_live _ _ _ Ho (a_heap _ Hok)) as Hl. apply Hl. apply (ptrs_elem (Node p x bs)). left.
Qed.

(** ** Access to entries *)
Definition with_table tbl s : link A E :=
  Link tbl (etharp_cached_entry s) (netifs s) (ucBuffer s) (hp s) (dev s).

Lemma entry_at s i e : 0 <= i -> arp_table s !! Z.to_nat i = Some e -> entry i s = (Ret e, s).
Proof. intros Hi He. unfold entry. rewrite He. by rewrite (proj2 (Z.leb_le _ _)) by lia. Qed.

Lemma set_entry_at s i e e' : 0 <= i -> arp_table s !! Z.to_nat i = Some e ->
  set_entry i e' s = (Ret tt, with_table (<[Z.to_nat i := e']> (arp_table s)) s).
Proof. intros Hi He. unfold set_entry. by cstep (entry_at s i e Hi He). Qed.

Lemma on_entry_at s i f e : 0 <= i -> arp_table s !! Z.to_nat i = Some e ->
  on_entry i f s = (Ret tt, with_table (<[Z.to_nat i := f e]> (arp_table s)) s).
Proof. intros Hi He. unfold on_entry. cstep (entry_at s i e Hi He). by apply (set_entry_at s i e). Qed.

(** Two changes of the same entry. *)
Lemma with_table_insert s i e1 e2 tbl :
  with_table (<[i := e2]> (arp_table (with_table (<[i := e1]> tbl) s))) (with_table (<[i := e1]> tbl) s)
  = with_table (<[i := e2]> tbl) s.
Proof. unfold with_table. cbn. by rewrite list_insert_insert_eq. Qed.

Lemma table_lookup s i : arp_ok s -> 0 <= i < ARP_TABLE_SIZE -> exists e, arp_table s !! Z.to_nat i = Some e.
Proof.
  intros Hok Hi. apply lookup_lt_is_Some. rewrite (t_length _ (a_table _ Hok)). unfold ARP_TABLE_SIZE in Hi. lia.
Qed.

(** ** Steps that keep the invariant *)

(** Other packet buffers, another device: what waits is still there. *)
Lemma arp_ok_after s h' b d : arp_ok s -> alloc_inv h' -> length b = 1518%nat -> dev_inv d ->
  (forall p, p ∈ held (arp_table s) -> pb h' !! p = pb (hp s) !! p /\ bl h' !! p = bl (hp s) !! p) ->
  arp_ok (after s h' b d).
Proof.
  intros [T P C N B I V] Hi Hb Hd Hh. split; cbn; try done.
  intros p Hp. destruct (Hh p Hp). by apply (parked_keep (hp s)); [apply P|..].
Qed.

Lemma after_hkeep s h' b d : arp_ok s -> hkeep (hp s) h' -> length b = 1518%nat -> dev_inv d ->
  arp_ok (after s h' b d) /\ keeps ∅ s (after s h' b d).
Proof.
  intros Hok (Hk & HL & Hi) Hb Hd. split.
  - apply arp_ok_after; [done|done|done|done|]. intros p Hp. apply Hk. by apply held_live.
  - unfold keeps, steps, rest. cbn. rewrite HL. split_and!; [done|done|]. intros p Hp _. apply Hk. set_solver.
Qed.

(** A change of an entry, possibly with its packet. *)
Lemma arp_ok_change s i e e' h' : arp_ok s -> arp_table s !! i = Some e -> entry_ok e' -> alloc_inv h' ->
  (forall a, addr_of e' = Some a -> addr_of e = Some a \/ a ∉ addrs (arp_table s)) ->
  (forall p, p ∈ held (arp_table s) -> e_q e <> Some p ->
     pb h' !! p = pb (hp s) !! p /\ bl h' !! p = bl (hp s) !! p) ->
  (forall p, e_q e' = Some p -> parked h' p /\ (e_q e = Some p \/ p ∉ held (arp_table s))) ->
  arp_ok (with_table (<[i := e']> (arp_table s)) (with_hp h' s)).
Proof.
  intros [T P C N B I V] Hi He Hh Ha Hk Hq. split; cbn; try done.
  - eapply table_ok_insert; [done|done|done|done|]. intros p Hp. by apply Hq.
  - intros p Hp. apply (omap_insert_elem _ _ _ _ _ _ Hi (t_held _ T)) in Hp as [Hp|[Hp Hne]].
    + by apply Hq.
    + destruct (Hk p Hp Hne). by apply (parked_keep (hp s)); [apply P|..].
Qed.

Lemma held_insert s i e e' p : arp_ok s -> arp_table s !! i = Some e ->
  p ∈ held (<[i := e']> (arp_table s)) <-> e_q e' = Some p \/ (p ∈ held (arp_table s) /\ e_q e <> Some p).
Proof. intros Hok Hi. apply (omap_insert_elem _ _ _ _ _ _ Hi). by destruct (a_table _ Hok). Qed.

Lemma held_lookup s i e p : arp_table s !! i = Some e -> e_q e = Some p -> p ∈ held (arp_table s).
Proof. intros Hi Hq. apply list_elem_of_omap. exists e. split; [by eapply list_elem_of_lookup_2|done]. Qed.

(** A change of an entry that keeps its packet. *)
Lemma arp_ok_insert s i e e' : arp_ok s -> arp_table s !! i = Some e -> entry_ok e' -> e_q e' = e_q e ->
  (forall a, addr_of e' = Some a -> addr_of e = Some a \/ a ∉ addrs (arp_table s)) ->
  arp_ok (with_table (<[i := e']> (arp_table s)) s) /\ keeps ∅ s (with_table (<[i := e']> (arp_table s)) s).
Proof.
  intros Hok Hi He Hq Ha. split.
  - pose proof (arp_ok_change s i e e' (hp s)) as Hc. rewrite with_hp_hp in Hc.
    apply Hc; try done; [by destruct Hok|].
    intros p Hp. rewrite Hq in Hp. split; [|by left]. apply (a_parked _ Hok). by eapply held_lookup.
  - unfold keeps, steps, rest. cbn. split_and!; [|done|done]. f_equal. apply set_eq. intros p.
    rewrite !elem_of_list_to_set, (held_insert s i e e' p Hok Hi), Hq.
    split; [intros [Hp|[Hp _]]; [by eapply held_lookup|done]|].
    intros Hp. destruct (decide (e_q e = Some p)); auto.
Qed.
End ArpOk.
