(* ===== verification/EtharpFind.v ===== *)
(** * Entries are freed and found: [etharp_free_entry], [etharp_find_entry] *)
From S2P Require Export EtharpTable.

#[local] Set Warnings "-clear-no-such-hyp".

(** ** The sweep *)

(** The candidates after the part [pre] of the table: for each kind of entry, the place
    of the oldest one (the last of them), or [ARP_TABLE_SIZE]. *)
Definition oldest (P : etharp_entry -> Prop) (pre : list etharp_entry) (i age : Z) : Prop :=
  (i = ARP_TABLE_SIZE /\ age = 0 /\ Forall (fun e => ~ P e) pre) \/
  (exists e, 0 <= i /\ pre !! Z.to_nat i = Some e /\ P e /\ e_ctime e = age /\
     Forall (fun e' => P e' -> e_ctime e' <= age) pre).

Definition is_stable (e : etharp_entry) : Prop := stable (e_state e) = true.
Definition pending_idle (e : etharp_entry) : Prop := e_state e = ETHARP_STATE_PENDING /\ e_q e = None.
Definition pending_busy (e : etharp_entry) : Prop := e_state e = ETHARP_STATE_PENDING /\ is_Some (e_q e).

Definition first_empty (pre : list etharp_entry) (i : Z) : Prop :=
  (i = ARP_TABLE_SIZE /\ Forall (fun e => occupied e = true) pre) \/
  (exists e, 0 <= i /\ pre !! Z.to_nat i = Some e /\ e_state e = ETHARP_STATE_EMPTY /\
     Forall (fun e' => occupied e' = true) (take (Z.to_nat i) pre)).

Definition describes (pre : list etharp_entry) (c : candidates) : Prop :=
  first_empty pre (empty_ c) /\ oldest is_stable pre (old_stable c) (age_stable c) /\
  oldest pending_idle pre (old_pending c) (age_pending c) /\
  oldest pending_busy pre (old_queue c) (age_queue c).

Section Sweep.
Implicit Types (e : etharp_entry) (pre l : list etharp_entry).

Lemma oldest_skip (P : etharp_entry -> Prop) pre e i age :
  oldest P pre i age -> ~ P e \/ 0 <= e_ctime e < age -> oldest P (pre ++ [e]) i age.
Proof.
  intros [(-> & -> & Hn)|(e0 & Hi & He & HP & Ha & Hf)] Hs.
  - left. split_and!; [done|done|]. apply Forall_app; split; [done|].
    constructor; [|done]. destruct Hs; [done|lia].
  - right. exists e0. split_and!; [done|by apply lookup_app_l_Some|done|done|].
    apply Forall_app; split; [done|]. constructor; [|done]. intros HP'. destruct Hs; [done|lia].
Qed.

Lemma oldest_take (P : etharp_entry -> Prop) pre e i age : oldest P pre i age -> P e -> age <= e_ctime e ->
  oldest P (pre ++ [e]) (Z.of_nat (length pre)) (e_ctime e).
Proof.
  intros Ho HP Hle. right. exists e. split_and!; [lia| |done|done|].
  - rewrite Nat2Z.id. by apply list_lookup_middle.
  - apply Forall_app; split; [|by constructor].
    destruct Ho as [(-> & -> & Hn)|(e0 & _ & _ & _ & _ & Hf)]; (eapply Forall_impl; [eassumption|]); cbn; [done|].
    intros e' He' HP'. specialize (He' HP'). lia.
Qed.

(** The two branches of the code, [if (ctime >= age)]. *)
Lemma oldest_update (P : etharp_entry -> Prop) pre e i age : oldest P pre i age -> P e -> 0 <= e_ctime e ->
  oldest P (pre ++ [e]) (if age <=? e_ctime e then Z.of_nat (length pre) else i)
    (if age <=? e_ctime e then e_ctime e else age).
Proof.
  intros Ho HP H0. destruct (Z.leb_spec age (e_ctime e)); [by eapply oldest_take|].
  apply oldest_skip; [done|]. by right.
Qed.

Lemma first_empty_skip pre e i : first_empty pre i -> i <> ARP_TABLE_SIZE \/ occupied e = true ->
  first_empty (pre ++ [e]) i.
Proof.
  intros [(-> & Hf)|(e0 & Hi & He & Hs & Hf)] Hc.
  - left. split; [done|]. apply Forall_app; split; [done|]. constructor; [|done]. by destruct Hc.
  - right. exists e0. split_and!; [done|by apply lookup_app_l_Some|done|].
    rewrite take_app_le; [done|]. apply lookup_lt_Some in He. lia.
Qed.

Lemma occupied_spec e : occupied e = negb (bool_decide (e_state e = ETHARP_STATE_EMPTY)).
Proof. done. Qed.

Lemma find_loop_ok a l : forall pre c, describes pre c -> a ∉ addrs pre -> Forall entry_ok l ->
  (length pre + length l <= 10)%nat ->
  match find_loop l (Z.of_nat (length pre)) (Some a) c with
  | inl i => 0 <= i /\ exists e, (pre ++ l) !! Z.to_nat i = Some e /\ addr_of e = Some a
  | inr c' => describes (pre ++ l) c' /\ a ∉ addrs (pre ++ l)
  end.
Proof.
  induction l as [|e l IH]; intros pre c Hd Ha Hok Hlen; cbn [find_loop]; [by rewrite app_nil_r|].
  apply Forall_cons in Hok as [He Hok]. cbn in Hlen. destruct Hd as (Dm & Ds & Dp & Dq).
  assert (Hstep : forall c', describes (pre ++ [e]) c' -> a ∉ addrs (pre ++ [e]) ->
    match find_loop l (Z.of_nat (length pre) + 1) (Some a) c' with
    | inl i => 0 <= i /\ exists e', (pre ++ e :: l) !! Z.to_nat i = Some e' /\ addr_of e' = Some a
    | inr c'' => describes (pre ++ e :: l) c'' /\ a ∉ addrs (pre ++ e :: l)
    end).
  { intros c' Hc' Ha'. specialize (IH (pre ++ [e]) c' Hc' Ha' Hok). rewrite length_app, <- app_assoc in IH.
    replace (Z.of_nat (length pre) + 1) with (Z.of_nat (length pre + length [e])) by (cbn; lia).
    apply IH. cbn. lia. }
  assert (Hadd : addr_of e <> Some a -> a ∉ addrs (pre ++ [e])).
  { intros Hne. unfold addrs. rewrite omap_app, elem_of_app. intros [?|Hin]; [done|].
    cbn in Hin. destruct (addr_of e) as [b|]; [|by apply elem_of_nil in Hin].
    apply list_elem_of_singleton in Hin. by subst. }
  destruct (bool_decide_reflect (e_state e = ETHARP_STATE_EMPTY)) as [Hs|Hs].
  - assert (Hocc : occupied e = false) by (by rewrite occupied_spec, bool_decide_true).
    assert (Hne : addr_of e <> Some a) by (unfold addr_of; by rewrite Hocc).
    assert (forall P : etharp_entry -> Prop, (P e -> e_state e <> ETHARP_STATE_EMPTY) -> ~ P e) as Hnot by naive_solver.
    assert (Hrest : oldest is_stable (pre ++ [e]) (old_stable c) (age_stable c) /\
      oldest pending_idle (pre ++ [e]) (old_pending c) (age_pending c) /\
      oldest pending_busy (pre ++ [e]) (old_queue c) (age_queue c)).
    { split_and!; (apply oldest_skip; [done|left]).
      - unfold is_stable. by rewrite Hs.
      - unfold pending_idle. rewrite Hs. naive_solver.
      - unfold pending_busy. rewrite Hs. naive_solver. }
    destruct Hrest as (R1 & R2 & R3). rewrite (bool_decide_false (e_state e <> _)) by naive_solver.
    destruct (Z.eqb_spec (empty_ c) ARP_TABLE_SIZE) as [Hm|Hm]; cbn [andb].
    + apply Hstep; [|by apply Hadd]. split_and!; [cbn|done..].
      destruct Dm as [(_ & Hf)|(e0 & Hi & He0 & _)].
      * right. exists e. split_and!; [lia|rewrite Nat2Z.id; by apply list_lookup_middle|done|].
        by rewrite Nat2Z.id, take_app_length.
      * apply lookup_lt_Some in He0. rewrite Hm in He0. unfold ARP_TABLE_SIZE in He0. lia.
    + apply Hstep; [|by apply Hadd]. split_and!; [|done..]. apply first_empty_skip; [done|by left].
  - rewrite andb_false_r. assert (Hocc : occupied e = true) by (by rewrite occupied_spec, bool_decide_false).
    rewrite (bool_decide_true (e_state e <> _)) by done.
    assert (Dm' : first_empty (pre ++ [e]) (empty_ c)) by (apply first_empty_skip; [done|by right]).
    destruct (Z.eqb_spec a (e_ipaddr e)) as [->|Hne].
    { split; [lia|]. exists e. rewrite Nat2Z.id. split; [by apply list_lookup_middle|].
      unfold addr_of. by rewrite Hocc. }
    assert (Ha' : a ∉ addrs (pre ++ [e])) by (apply Hadd; unfold addr_of; rewrite Hocc; naive_solver).
    assert (Ht : 0 <= e_ctime e) by (unfold entry_ok in He; destruct (e_state e); naive_solver lia).
    destruct (bool_decide_reflect (e_state e = ETHARP_STATE_PENDING)) as [Hp|Hp].
    + destruct (e_q e) as [q|] eqn:Hq; apply Hstep; try done.
      * assert (Hk : pending_busy e) by (split; [done|rewrite Hq; eauto]).
        pose proof (oldest_update _ _ _ _ _ Dq Hk Ht) as Hu.
        destruct (age_queue c <=? e_ctime e); split_and!; cbn; try done; (apply oldest_skip; [done|left]).
        all: unfold is_stable, pending_idle; rewrite ?Hp, ?Hq; naive_solver.
      * pose proof (oldest_update _ _ _ _ _ Dp (conj Hp Hq) Ht) as Hu.
        destruct (age_pending c <=? e_ctime e); split_and!; cbn; try done; (apply oldest_skip; [done|left]).
        all: unfold is_stable, pending_busy; rewrite ?Hp, ?Hq; first [done|intros [_ [? [=]]]].
    + apply Hstep; [|done]. assert (Hst : stable (e_state e) = true) by (by destruct (e_state e)).
      pose proof (oldest_update _ _ _ _ _ Ds Hst Ht) as Hu.
      destruct (age_stable c <=? e_ctime e); split_and!; cbn; try done; (apply oldest_skip; [done|left]).
      all: unfold pending_idle, pending_busy; naive_solver.
Qed.

Lemma describes_start : describes [] no_candidates.
Proof. split_and!; left; by split_and!. Qed.
End Sweep.

Section Find.
Context {A E : Type} `{Allocator A} `{Controller E}.
Context (custom : ptr -> heap A -> heap A).
Implicit Types (h : heap A) (s : link A E) (e : etharp_entry).

(** ** [etharp_free_entry] *)
Definition blank : etharp_entry := Entry None 0 None ethzero 0 ETHARP_STATE_EMPTY.

(** What does not move when only the table and the packet buffers do. *)
Definition same_link s s' : Prop :=
  etharp_cached_entry s' = etharp_cached_entry s /\ ucBuffer s' = ucBuffer s /\ dev s' = dev s.

(** Clearing an entry, its packet being gone. *)
Lemma clear_entry s h i e : 0 <= i -> arp_table s !! Z.to_nat i = Some e ->
  (on_entry i (with_state ETHARP_STATE_EMPTY) ;;; on_entry i (with_ctime 0) ;;; on_entry i (with_netif None) ;;;
   on_entry i (with_ipaddr 0) ;;; on_entry i (with_ethaddr ethzero)) (with_hp h s)
  = (Ret tt, with_table (<[Z.to_nat i := with_q (e_q e) blank]> (arp_table s)) (with_hp h s)).
Proof.
  intros Hi He. assert (Hlt : (Z.to_nat i < length (arp_table s))%nat) by (by eapply lookup_lt_Some).
  cstep (on_entry_at (with_hp h s) i (with_state ETHARP_STATE_EMPTY) e Hi He).
  do 3 (erewrite bind_ret by (apply on_entry_at; [done|cbn; by apply list_lookup_insert_eq]); rewrite with_table_insert).
  erewrite on_entry_at; [|done|cbn; by apply list_lookup_insert_eq]. by rewrite with_table_insert.
Qed.

(** The packet of an entry is released, then the entry is cleared. *)
Lemma free_entry_run s i e h' : 0 <= i -> arp_table s !! Z.to_nat i = Some e ->
  match e_q e with
  | Some p => exists k, pbuf_free custom (Some p) (hp s) = (Ret k, h')
  | None => h' = hp s
  end ->
  etharp_free_entry custom i s = (Ret tt, with_table (<[Z.to_nat i := blank]> (arp_table s)) (with_hp h' s)).
Proof.
  intros Hi He Hf. unfold etharp_free_entry. cstep (entry_at s i e Hi He).
  assert (Hlt : (Z.to_nat i < length (arp_table s))%nat) by (by eapply lookup_lt_Some).
  destruct (e_q e) as [p|] eqn:Hq.
  - destruct Hf as [k Hf]. rewrite bind_bind. pstep Hf.
    rewrite (bind_ret _ _ _ _ _ (on_entry_at (with_hp h' s) i (with_q None) e Hi He)).
    change (arp_table (with_hp h' s)) with (arp_table s). set (s1 := with_table _ (with_hp h' s)).
    pose proof (clear_entry s1 h' i (with_q None e) Hi ltac:(cbn; by apply list_lookup_insert_eq)) as Hc.
    change (with_hp h' s1) with s1 in Hc. rewrite Hc. unfold s1. by rewrite with_table_insert.
  - subst h'. cstep (eq_refl (ret tt s)). pose proof (clear_entry s (hp s) i e Hi He) as Hc.
    rewrite Hq in Hc. rewrite with_hp_hp in Hc |- *. exact Hc.
Qed.

(** The packet of an entry can be released. *)
Lemma packet_released s i e : arp_ok s -> arp_table s !! i = Some e -> exists h',
  match e_q e with
  | Some p => (exists k, pbuf_free custom (Some p) (hp s) = (Ret k, h')) /\
              hstep {[p]} (live (al (hp s)) ∖ {[p]}) (hp s) h'
  | None => h' = hp s
  end.
Proof.
  intros Hok He. destruct (e_q e) as [p|] eqn:Hq; [|eauto].
  pose proof (held_lookup s _ _ _ He Hq) as Hp. destruct (a_parked _ Hok p Hp) as (x & bs & Ho & _).
  destruct (owns_free custom (hp s) p (Node p x bs) [] Ho (a_heap _ Hok)) as (k & h' & Hf & Hs).
  unfold ptrs in Hs. cbn in Hs. rewrite union_empty_r_L in Hs. exists h'. split; [eauto|done].
Qed.

Lemma free_entry_ok s i e : arp_ok s -> 0 <= i -> arp_table s !! Z.to_nat i = Some e -> exists s',
  etharp_free_entry custom i s = (Ret tt, s') /\ arp_ok s' /\ keeps ∅ s s' /\ same_link s s' /\
  arp_table s' = <[Z.to_nat i := blank]> (arp_table s).
Proof.
  intros Hok Hi He. destruct (packet_released s _ e Hok He) as [h' Hf].
  exists (with_table (<[Z.to_nat i := blank]> (arp_table s)) (with_hp h' s)).
  split; [apply (free_entry_run s i e h' Hi He); destruct (e_q e); naive_solver|].
  destruct (e_q e) as [p|] eqn:Hq.
  - destruct Hf as (_ & Hs & HL & Hi'). pose proof (held_lookup s _ _ _ He Hq) as Hp. split_and!; [| |done|done].
    + eapply arp_ok_change; try done. intros r Hr Hne. apply Hs. rewrite Hq in Hne. set_solver.
    + assert (Hh : forall r, r ∈ held (<[Z.to_nat i := blank]> (arp_table s)) <-> r ∈ held (arp_table s) /\ r <> p).
      { intros r. rewrite (held_insert s _ e blank r Hok He), Hq. cbn. naive_solver. }
      unfold keeps, steps, rest. cbn. split_and!; [|done|intros r Hr _; apply Hs; set_solver].
      rewrite HL. apply set_eq. intros r. rewrite !elem_of_difference, !elem_of_list_to_set, Hh. set_solver.
  - subst h'. rewrite with_hp_hp.
    destruct (arp_ok_insert s _ e blank Hok He) as [Hok' Hk]; [done|by rewrite Hq|done|]. by split_and!.
Qed.

(** Only the packet of the entry matters. *)
Lemma free_entry_forgets s i e e' : arp_ok s -> 0 <= i -> arp_table s !! Z.to_nat i = Some e -> e_q e' = e_q e ->
  etharp_free_entry custom i (with_table (<[Z.to_nat i := e']> (arp_table s)) s) = etharp_free_entry custom i s.
Proof.
  intros Hok Hi He Hq. destruct (packet_released s _ e Hok He) as [h' Hf].
  assert (Hf' : match e_q e with Some p => exists k, pbuf_free custom (Some p) (hp s) = (Ret k, h') | None => h' = hp s end)
    by (destruct (e_q e); naive_solver).
  rewrite (free_entry_run s i e h' Hi He Hf').
  rewrite (free_entry_run (with_table (<[Z.to_nat i := e']> (arp_table s)) s) i e' h' Hi); [|apply list_lookup_insert_eq; by eapply lookup_lt_Some|by rewrite Hq].
  cbn. by rewrite list_insert_insert_eq.
Qed.

(** ** [etharp_find_entry] *)
Lemma addrs_lookup s a : arp_ok s -> a ∈ addrs (arp_table s) <->
  exists i e, 0 <= i < ARP_TABLE_SIZE /\ arp_table s !! Z.to_nat i = Some e /\ addr_of e = Some a.
Proof.
  intros Hok. unfold addrs. rewrite list_elem_of_omap. split.
  - intros (e & He & Ha). apply list_elem_of_lookup in He as [i Hi]. exists (Z.of_nat i), e.
    rewrite Nat2Z.id. split_and!; [lia| |done|done].
    apply lookup_lt_Some in Hi. rewrite (t_length _ (a_table _ Hok)) in Hi. unfold ARP_TABLE_SIZE. lia.
  - intros (i & e & _ & Hi & Ha). exists e. split; [by eapply list_elem_of_lookup_2|done].
Qed.

(** The result for an unknown address: the entry to use. *)
Definition victim (c : candidates) : Z :=
  if empty_ c <? ARP_TABLE_SIZE then empty_ c
  else if old_stable c <? ARP_TABLE_SIZE then old_stable c
  else if old_pending c <? ARP_TABLE_SIZE then old_pending c
  else old_queue c.

Lemma oldest_place P tbl i age : oldest P tbl i age -> length tbl = 10%nat ->
  (i <? ARP_TABLE_SIZE) = true -> exists e, 0 <= i < ARP_TABLE_SIZE /\ tbl !! Z.to_nat i = Some e /\ P e.
Proof.
  intros [(-> & _)|(e & Hi & He & HP & _)] Hl Hlt; [done|]. exists e. split_and!; [lia|lia|done|done].
Qed.

(** Some entry can always be used. *)
Lemma victim_exists tbl c : table_ok tbl -> describes tbl c -> empty_ c = ARP_TABLE_SIZE ->
  (old_stable c <? ARP_TABLE_SIZE) = false -> (old_pending c <? ARP_TABLE_SIZE) = false ->
  exists e, 0 <= old_queue c < ARP_TABLE_SIZE /\ tbl !! Z.to_nat (old_queue c) = Some e /\ pending_busy e.
Proof.
  intros [Hl _ _ _] (Dm & Ds & Dp & Dq) Hm Hs Hp.
  destruct Dm as [(_ & Hocc)|(e0 & Hz & He0 & _)].
  2:{ apply lookup_lt_Some in He0. rewrite Hl, Hm in He0. unfold ARP_TABLE_SIZE in He0. lia. }
  destruct Ds as [(_ & _ & Ns)|(e0 & Hz & He0 & _)].
  2:{ apply lookup_lt_Some in He0. apply Z.ltb_ge in Hs. unfold ARP_TABLE_SIZE in Hs. lia. }
  destruct Dp as [(_ & _ & Np)|(e0 & Hz & He0 & _)].
  2:{ apply lookup_lt_Some in He0. apply Z.ltb_ge in Hp. unfold ARP_TABLE_SIZE in Hp. lia. }
  destruct Dq as [(_ & _ & Nq)|(e0 & Hz & He0 & HP & _)].
  - exfalso. destruct tbl as [|e tbl]; [done|].
    apply Forall_inv in Hocc, Ns, Np, Nq. rewrite occupied_spec in Hocc. unfold is_stable, pending_idle, pending_busy in *.
    destruct (e_state e); try done; destruct (e_q e); naive_solver.
  - exists e0. apply lookup_lt_Some in He0 as Hlt. unfold ARP_TABLE_SIZE. split_and!; [done|lia|done|done].
Qed.

(** The chosen entry is given the address. *)
Lemma claim_entry s i e a : 0 <= i < ARP_TABLE_SIZE -> arp_table s !! Z.to_nat i = Some e ->
  e_state e = ETHARP_STATE_EMPTY ->
  (assert_ (i <? ARP_TABLE_SIZE) ;;; e <- entry i ;; assert_ (bool_decide (e_state e = ETHARP_STATE_EMPTY)) ;;;
   on_entry i (with_ipaddr a) ;;; on_entry i (with_ctime 0) ;;; ret i) s
  = (Ret i, with_table (<[Z.to_nat i := with_ctime 0 (with_ipaddr a e)]> (arp_table s)) s).
Proof.
  intros Hi He Hs. assert (Hlt : (Z.to_nat i < length (arp_table s))%nat) by (by eapply lookup_lt_Some).
  cstep (assert_true (i <? ARP_TABLE_SIZE) s ltac:(lia)). cstep (entry_at s i e ltac:(lia) He).
  cstep (assert_true (bool_decide (e_state e = ETHARP_STATE_EMPTY)) s ltac:(by apply bool_decide_true)).
  cstep (on_entry_at s i (with_ipaddr a) e ltac:(lia) He).
  erewrite bind_ret by (apply on_entry_at; [lia|cbn; by apply list_lookup_insert_eq]).
  by rewrite with_table_insert.
Qed.

(** What the search says about address [a]: the place of its entry, that there is none,
    or the place of an entry made empty for it. *)
Definition found s a r s' : Prop :=
  s' = s /\ 0 <= r < ARP_TABLE_SIZE /\ exists e, arp_table s !! Z.to_nat r = Some e /\ addr_of e = Some a.
Definition claimed s a r s' : Prop :=
  (a ∉ addrs (arp_table s)) /\ 0 <= r < ARP_TABLE_SIZE /\
  (exists c, describes (arp_table s) c /\ r = victim c) /\
  exists e', arp_table s' = <[Z.to_nat r := e']> (arp_table s) /\
    e_state e' = ETHARP_STATE_EMPTY /\ e_q e' = None /\ e_ipaddr e' = a /\ e_ctime e' = 0.

Lemma claim_ok s s1 i e a : arp_ok s1 -> keeps ∅ s s1 -> same_link s s1 -> 0 <= i < ARP_TABLE_SIZE ->
  arp_table s1 !! Z.to_nat i = Some e -> e_state e = ETHARP_STATE_EMPTY ->
  (arp_table s1 = arp_table s \/ exists e0, arp_table s1 = <[Z.to_nat i := e0]> (arp_table s)) ->
  a ∉ addrs (arp_table s) -> (exists c, describes (arp_table s) c /\ i = victim c) ->
  let s' := with_table (<[Z.to_nat i := with_ctime 0 (with_ipaddr a e)]> (arp_table s1)) s1 in
  arp_ok s' /\ keeps ∅ s s' /\ same_link s s' /\ claimed s a i s'.
Proof.
  intros Hok Hk Hl Hi He Hs Ht Ha Hv. assert (Hq : e_q e = None).
  { pose proof (Forall_lookup_1 _ _ _ _ (t_entries _ (a_table _ Hok)) He) as Hent.
    unfold entry_ok in Hent. by rewrite Hs in Hent. }
  destruct (arp_ok_insert s1 _ e (with_ctime 0 (with_ipaddr a e)) Hok He) as [Hok' Hk'].
  { unfold entry_ok. cbn. by rewrite Hs. }
  { done. }
  { unfold addr_of, occupied. cbn. by rewrite Hs, bool_decide_true. }
  cbv zeta. split; [done|]. split; [|split; [done|]].
  - replace (∅ : gset ptr) with (∅ ∪ ∅ : gset ptr) by set_solver. by eapply keeps_trans.
  - do 3 (split; [done|]). exists (with_ctime 0 (with_ipaddr a e)).
    split_and!; [|done..]. cbn. destruct Ht as [-> |[e0 ->]]; [done|]. by rewrite list_insert_insert_eq.
Qed.

Lemma find_entry_ok s a fl : arp_ok s -> fl = ETHARP_FLAG_TRY_HARD \/ fl = ETHARP_FLAG_FIND_ONLY ->
  exists r s', etharp_find_entry custom (Some a) fl s = (Ret r, s') /\ arp_ok s' /\ keeps ∅ s s' /\ same_link s s' /\
    (found s a r s' \/
     (fl = ETHARP_FLAG_FIND_ONLY /\ s' = s /\ r = ERR_MEM /\ (a ∉ addrs (arp_table s))) \/
     (fl = ETHARP_FLAG_TRY_HARD /\ claimed s a r s')).
Proof.
  intros Hok Hfl. pose proof (a_table _ Hok) as T. unfold etharp_find_entry, func.
  pose proof (find_loop_ok a (arp_table s) [] no_candidates describes_start) as Hf.
  rewrite (t_length _ T) in Hf. specialize (Hf (not_elem_of_nil _) (t_entries _ T) ltac:(cbn; lia)).
  change (Z.of_nat (length [])) with 0 in Hf. cstep (eq_refl (gets arp_table s)).
  destruct (find_loop (arp_table s) 0 (Some a) no_candidates) as [i|c]; cbn [app] in Hf.
  { destruct Hf as (Hi & e & He & Ha). exists i, s. split_and!; [done|done|apply keeps_refl|done|left].
    split_and!; [done|done| |eauto]. apply lookup_lt_Some in He. rewrite (t_length _ T) in He.
    unfold ARP_TABLE_SIZE. lia. }
  destruct Hf as [Hd Ha]. destruct Hfl as [-> | ->].
  2:{ exists ERR_MEM, s. split_and!; [done|done|apply keeps_refl|done|right; left]. done. }
  change (truthy (Z.land ETHARP_FLAG_TRY_HARD ETHARP_FLAG_FIND_ONLY)) with false.
  change (truthy (Z.land ETHARP_FLAG_TRY_HARD ETHARP_FLAG_TRY_HARD)) with true.
  cbn [negb orb]. rewrite andb_false_r. cstep (eq_refl (exit_if (S := link A E) false ERR_MEM s)).
  assert (Hvic : exists c', describes (arp_table s) c' /\ victim c = victim c') by eauto.
  destruct (empty_ c <? ARP_TABLE_SIZE) eqn:Hm.
  - assert (He : exists e, 0 <= empty_ c < ARP_TABLE_SIZE /\ arp_table s !! Z.to_nat (empty_ c) = Some e /\
      e_state e = ETHARP_STATE_EMPTY).
    { destruct Hd as ([(He & _)|(e & Hi & He & Hs & _)] & _); [by rewrite He in Hm|]. exists e. split_and!; [done|lia|done..]. }
    destruct He as (e & Hi & He & Hs). cstep (eq_refl (ret (empty_ c) s)).
    rewrite (claim_entry s (empty_ c) e a Hi He Hs).
    destruct (claim_ok s s (empty_ c) e a Hok (keeps_refl _ _) ltac:(done) Hi He Hs (or_introl eq_refl) Ha)
      as (Hok' & Hk' & Hl' & Hc'); [unfold victim in Hvic; by rewrite Hm in Hvic|].
    do 2 eexists. split_and!; [reflexivity|done..|]. right. right. done.
  - assert (Hch : exists e, 0 <= victim c < ARP_TABLE_SIZE /\ arp_table s !! Z.to_nat (victim c) = Some e /\
      (if old_stable c <? ARP_TABLE_SIZE then
                    e <- entry (old_stable c) ;;
                    assert_ (if e_q e is Some _ then false else true) ;;;
                    ret (old_stable c)
                  else if old_pending c <? ARP_TABLE_SIZE then ret (old_pending c)
                  else if old_queue c <? ARP_TABLE_SIZE then ret (old_queue c)
                  else exit ERR_MEM) s = (Ret (victim c), s)).
    { unfold victim. rewrite Hm. destruct (old_stable c <? ARP_TABLE_SIZE) eqn:Hs.
      { destruct Hd as (_ & Ds & _). destruct (oldest_place _ _ _ _ Ds (t_length _ T) Hs) as (e & Hi & He & HP).
        exists e. split_and!; [lia..|done|]. cstep (entry_at s (old_stable c) e ltac:(lia) He).
        pose proof (Forall_lookup_1 _ _ _ _ (t_entries _ T) He) as Hent. unfold is_stable in HP.
        unfold entry_ok in Hent. destruct (e_state e); try done; destruct Hent as (-> & _); done. }
      destruct (old_pending c <? ARP_TABLE_SIZE) eqn:Hp.
      { destruct Hd as (_ & _ & Dp & _). destruct (oldest_place _ _ _ _ Dp (t_length _ T) Hp) as (e & Hi & He & _).
        exists e. by split_and!; [lia..| |]. }
      assert (Hem : empty_ c = ARP_TABLE_SIZE).
      { destruct Hd as ([(He & _)|(e & Hi & He & _)] & _); [done|]. apply lookup_lt_Some in He.
        rewrite (t_length _ T) in He. apply Z.ltb_ge in Hm. unfold ARP_TABLE_SIZE in *. lia. }
      destruct (victim_exists _ c T Hd Hem Hs Hp) as (e & Hi & He & _).
      exists e. rewrite (proj2 (Z.ltb_lt (old_queue c) _)) by lia. by split_and!; [lia..| |]. }
    destruct Hch as (e & Hi & He & Hrun).
    destruct (free_entry_ok s (victim c) e Hok ltac:(lia) He) as (s1 & Hfree & Hok1 & Hk1 & Hl1 & Ht1).
    assert (He1 : arp_table s1 !! Z.to_nat (victim c) = Some blank).
    { rewrite Ht1. apply list_lookup_insert_eq. by eapply lookup_lt_Some. }
    rewrite bind_bind. cstep Hrun. rewrite bind_bind. cstep (assert_true (victim c <? ARP_TABLE_SIZE) s ltac:(lia)).
    rewrite bind_bind. cstep Hfree. cstep (eq_refl (ret (victim c) s1)).
    rewrite (claim_entry s1 (victim c) blank a Hi He1 eq_refl).
    destruct (claim_ok s s1 (victim c) blank a Hok1 Hk1 Hl1 Hi He1 eq_refl) as (Hok' & Hk' & Hl' & Hc');
      [right; eauto|done|done|].
    do 2 eexists. split_and!; [reflexivity|done..|]. right. right. done.
Qed.
End Find.
