(* ===== verification/EtharpSteps.v ===== *)
(** * Every operation of the ARP table keeps its invariant

    [runs X m s R Q]: from [s], [m] returns with the invariant in place, having changed
    nothing outside the table and its packets but the pbufs [X]; [R] is what else is in
    use afterwards. *)
From S2P Require Export EtharpFind.

#[local] Set Warnings "-clear-no-such-hyp".

Section Runs.
Context {A E : Type} `{Allocator A} `{Controller E}.
Implicit Types (s : link A E) (R X : gset ptr).

(** A step within one packet of the rest. *)
Lemma within_packet s (h1 : heap A) p : arp_ok s -> hstep {[p]} (live (al (hp s))) (hp s) h1 -> p ∈ rest s ->
  arp_ok (with_hp h1 s) /\ steps {[p]} (rest s) s (with_hp h1 s).
Proof.
  intros Hok (Hs & HL & Hi) Hp. split.
  - change (with_hp h1 s) with (after s h1 (ucBuffer s) (dev s)). apply arp_ok_after; [done|done|by destruct Hok|by destruct Hok|].
    intros r Hr. apply Hs. unfold rest in Hp. set_solver.
  - unfold steps, rest. cbn. rewrite HL. split_and!; [done|done|]. intros r Hr Hx. by apply Hs.
Qed.

Definition runs {B : Type} X (m : cmd (link A E) B) s R (Q : B -> link A E -> Prop) : Prop :=
  exists r s', m s = (Ret r, s') /\ arp_ok s' /\ steps X R s s' /\ Q r s'.

(** A first command that changes less. *)
Lemma runs_bind_in {B C : Type} Y X (m : cmd (link A E) B) (k : B -> cmd (link A E) C) s R1 R2 Q1 Q2 :
  runs Y m s R1 Q1 -> Y ⊆ X -> rest s ∖ Y ⊆ R1 ->
  (forall r s1, m s = (Ret r, s1) -> Q1 r s1 -> arp_ok s1 -> rest s1 = R1 -> netifs s1 = netifs s ->
     steps Y R1 s s1 -> runs X (k r) s1 R2 Q2) ->
  runs X (bind m k) s R2 Q2.
Proof.
  intros (r & s1 & Hr & Hok & Hs & HQ) HX HR Hk.
  destruct (Hk r s1 Hr HQ Hok (proj1 Hs) (proj1 (proj2 Hs)) Hs) as (r2 & s2 & Hr2 & Hok2 & Hs2 & HQ2).
  exists r2, s2. split_and!; [by cstep Hr|done| |done].
  replace X with (Y ∪ X) by set_solver. by eapply steps_trans.
Qed.

Lemma runs_bind {B C : Type} X (m : cmd (link A E) B) (k : B -> cmd (link A E) C) s R1 R2 Q1 Q2 :
  runs X m s R1 Q1 -> rest s ∖ X ⊆ R1 ->
  (forall r s1, m s = (Ret r, s1) -> Q1 r s1 -> arp_ok s1 -> rest s1 = R1 -> netifs s1 = netifs s ->
     steps X R1 s s1 -> runs X (k r) s1 R2 Q2) ->
  runs X (bind m k) s R2 Q2.
Proof. intros Hm. by eapply runs_bind_in. Qed.

Lemma runs_ret {B : Type} X s (r : B) (Q : B -> link A E -> Prop) : arp_ok s -> Q r s ->
  runs X (ret r) s (rest s) Q.
Proof. intros. exists r, s. split_and!; [done|done|apply keeps_refl|done]. Qed.

(** A first command that changes nothing. *)
Lemma runs_pure {B C : Type} X (m : cmd (link A E) B) (k : B -> cmd (link A E) C) s R r Q :
  m s = (Ret r, s) -> runs X (k r) s R Q -> runs X (bind m k) s R Q.
Proof. intros Hm. unfold runs. by rewrite (bind_ret _ _ _ _ _ Hm). Qed.

Lemma runs_weaken {B : Type} X Y (m : cmd (link A E) B) s R (Q Q' : B -> link A E -> Prop) :
  runs X m s R Q -> X ∩ rest s ⊆ Y -> (forall r s', arp_ok s' -> Q r s' -> Q' r s') -> runs Y m s R Q'.
Proof.
  intros (r & s' & Hr & Hok & Hs & HQ) HX HQ'. exists r, s'.
  split_and!; [done|done|by eapply steps_drop|by apply HQ'].
Qed.

(** The body of a function. *)
Lemma runs_func X (m : cmd (link A E) Z) s R Q : runs X m s R Q -> runs X (func m) s R Q.
Proof. intros (r & s' & Hr & Ho). exists r, s'. split; [|done]. unfold func. by rewrite Hr. Qed.

(** The same under [func], and its [return]. *)
Lemma func_pure {B : Type} X (m : cmd (link A E) B) (k : B -> cmd (link A E) Z) s R r Q :
  m s = (Ret r, s) -> runs X (func (k r)) s R Q -> runs X (func (bind m k)) s R Q.
Proof. intros Hm. unfold runs, func. by rewrite (bind_ret _ _ _ _ _ Hm). Qed.

Lemma func_bind {B : Type} X (m : cmd (link A E) B) (k : B -> cmd (link A E) Z) s R1 R2 Q1 Q2 :
  runs X m s R1 Q1 -> rest s ∖ X ⊆ R1 ->
  (forall r s1, m s = (Ret r, s1) -> Q1 r s1 -> arp_ok s1 -> rest s1 = R1 -> netifs s1 = netifs s ->
     steps X R1 s s1 -> runs X (func (k r)) s1 R2 Q2) ->
  runs X (func (bind m k)) s R2 Q2.
Proof.
  intros Hm HR Hk. destruct (runs_bind X m (fun r => func (k r)) s R1 R2 Q1 Q2 Hm HR Hk) as (r & s' & Hr & Ho).
  exists r, s'. split; [|done]. destruct Hm as (r1 & s1 & Hr1 & _). unfold func.
  rewrite (bind_ret _ _ _ _ _ Hr1) in Hr. by rewrite (bind_ret _ _ _ _ _ Hr1).
Qed.

Lemma func_exit X (c : Z) (k : unit -> cmd (link A E) Z) s (Q : Z -> link A E -> Prop) : arp_ok s -> Q c s ->
  runs X (func (bind (exit_if true c) k)) s (rest s) Q.
Proof. intros. exists c, s. split_and!; [done|done|apply keeps_refl|done]. Qed.

(** A change of one entry that keeps its packet and its address. *)
Lemma runs_on_entry i f e s : arp_ok s -> 0 <= i -> arp_table s !! Z.to_nat i = Some e ->
  entry_ok (f e) -> e_q (f e) = e_q e ->
  (forall a, addr_of (f e) = Some a -> addr_of e = Some a \/ a ∉ addrs (arp_table s)) ->
  runs ∅ (on_entry i f) s (rest s)
    (fun _ s' => s' = with_table (<[Z.to_nat i := f e]> (arp_table s)) s).
Proof.
  intros Hok Hi He Hf Hq Ha. destruct (arp_ok_insert s _ e (f e) Hok He Hf Hq Ha) as [Hok' Hk].
  do 2 eexists. split; [by apply (on_entry_at s i f e)|]. by split_and!.
Qed.
End Runs.

Section Steps.
Context {A E : Type} `{Allocator A} `{Controller E} `{!Upper A E}.
Context (custom : ptr -> heap A -> heap A).
Implicit Types (h : heap A) (s : link A E) (e : etharp_entry).

(** ** Requests *)

(** The table and the cached index are those of [s]. *)
Definition same_table s s' : Prop :=
  arp_table s' = arp_table s /\ etharp_cached_entry s' = etharp_cached_entry s.

Lemma raw_runs s nif src dst hs ips hd ipd op : arp_ok s ->
  length src = 6%nat -> length dst = 6%nat -> length hs = 6%nat -> length hd = 6%nat ->
  runs ∅ (etharp_raw custom nif src dst hs ips hd ipd op) s (rest s)
    (fun r s' => same_table s s' /\ hkeep (hp s) (hp s') /\
       frame_or_none (hp s) (eth_frame dst src ETHTYPE_ARP (arp_message op hs ips hd ipd)) (dev s) r (dev s')).
Proof.
  intros Hok. intros. destruct (etharp_raw_ok custom s nif src dst hs ips hd ipd op) as
    (r & h' & b & d & Hr & Hb & Hk & Hf); try done; try by destruct Hok.
  { by destruct (a_netifs _ Hok nif). }
  destruct (after_hkeep s h' b d Hok Hk Hb); [by eapply frame_or_none_inv, a_dev|]. exists r, (after s h' b d). by split_and!.
Qed.

Lemma request_dst_runs s nif ip hw : arp_ok s -> length hw = 6%nat ->
  let n := netifs s nif in
  runs ∅ (etharp_request_dst custom nif ip hw) s (rest s)
    (fun r s' => same_table s s' /\ hkeep (hp s) (hp s') /\
       frame_or_none (hp s) (eth_frame hw (hwaddr n) ETHTYPE_ARP
         (arp_message ARP_REQUEST (hwaddr n) (ip_addr n) ethzero ip)) (dev s) r (dev s')).
Proof.
  intros Hok Hhw. eapply runs_pure; [reflexivity|]. destruct (a_netifs _ Hok nif).
  by apply raw_runs.
Qed.

Definition request_frame (n : netif) (ip : Z) : list Z :=
  eth_frame ethbroadcast (hwaddr n) ETHTYPE_ARP (arp_message ARP_REQUEST (hwaddr n) (ip_addr n) ethzero ip).

Lemma request_runs s nif ip : arp_ok s ->
  runs ∅ (etharp_request custom nif ip) s (rest s)
    (fun r s' => same_table s s' /\ hkeep (hp s) (hp s') /\ frame_or_none (hp s) (request_frame (netifs s nif) ip) (dev s) r (dev s')).
Proof. intros Hok. by apply request_dst_runs. Qed.

Lemma free_entry_runs s i e : arp_ok s -> 0 <= i -> arp_table s !! Z.to_nat i = Some e ->
  runs ∅ (etharp_free_entry custom i) s (rest s)
    (fun _ s' => same_link s s' /\ arp_table s' = <[Z.to_nat i := blank]> (arp_table s)).
Proof.
  intros Hok Hi He. destruct (free_entry_ok custom s i e Hok Hi He) as (s' & Hr & Hok' & Hk & Hl & Ht).
  exists tt, s'. by split_and!.
Qed.

(** ** The timer *)

(** What a second does to an entry. *)
Definition tick e : etharp_entry :=
  let e' := with_ctime (e_ctime e + 1) e in
  match e_state e with
  | ETHARP_STATE_EMPTY => e
  | ETHARP_STATE_PENDING => if ARP_MAXPENDING <=? e_ctime e' then blank else e'
  | ETHARP_STATE_STABLE => if ARP_MAXAGE <=? e_ctime e' then blank else e'
  | ETHARP_STATE_STABLE_REREQUESTING_1 =>
      if ARP_MAXAGE <=? e_ctime e' then blank else with_state ETHARP_STATE_STABLE_REREQUESTING_2 e'
  | ETHARP_STATE_STABLE_REREQUESTING_2 =>
      if ARP_MAXAGE <=? e_ctime e' then blank else with_state ETHARP_STATE_STABLE e'
  end.

(** The bodies of both branches: an entry that ends, and one that stays. *)
Lemma tick_blank e : occupied e = true ->
  (ARP_MAXAGE <=? e_ctime e + 1) || (bool_decide (e_state e = ETHARP_STATE_PENDING) && (ARP_MAXPENDING <=? e_ctime e + 1)) = true ->
  tick e = blank.
Proof.
  intros Ho Hb. unfold tick. cbn [e_ctime with_ctime]. rewrite occupied_spec in Ho.
  destruct (e_state e); rewrite ?bool_decide_true, ?bool_decide_false in * by done; cbn in Ho; try done;
    rewrite ?andb_false_l, ?orb_false_r in Hb; rewrite ?Hb; try done.
  apply orb_true_iff in Hb as [Hb|Hb]; [|cbn in Hb; by rewrite Hb].
  unfold ARP_MAXAGE, ARP_MAXPENDING in *. by rewrite (proj2 (Z.leb_le _ _)) by lia.
Qed.

Lemma tick_stays e : occupied e = true -> entry_ok e ->
  (ARP_MAXAGE <=? e_ctime e + 1) || (bool_decide (e_state e = ETHARP_STATE_PENDING) && (ARP_MAXPENDING <=? e_ctime e + 1)) = false ->
  entry_ok (tick e) /\ e_q (tick e) = e_q e /\ addr_of (tick e) = addr_of e /\
  tick e = let e' := with_ctime (e_ctime e + 1) e in
           match e_state e with
           | ETHARP_STATE_STABLE_REREQUESTING_1 => with_state ETHARP_STATE_STABLE_REREQUESTING_2 e'
           | ETHARP_STATE_STABLE_REREQUESTING_2 => with_state ETHARP_STATE_STABLE e'
           | _ => e'
           end.
Proof.
  intros Ho He [Hb1 Hb2]%orb_false_iff. rewrite occupied_spec in Ho. unfold tick, entry_ok, addr_of, occupied in *.
  cbn [e_ctime with_ctime]. unfold ARP_MAXAGE, ARP_MAXPENDING in *.
  destruct (e_state e) eqn:Hs; rewrite ?bool_decide_true, ?bool_decide_false in * by done; cbn in Ho, Hb2; try done;
    rewrite ?Hb1, ?Hb2; cbn; rewrite ?Hs; cbn; split_and!; try done; try lia; naive_solver.
Qed.

Lemma tmr_entry_runs s i e : arp_ok s -> 0 <= i -> arp_table s !! Z.to_nat i = Some e ->
  runs ∅ (tmr_entry custom i) s (rest s)
    (fun _ s' => arp_table s' = <[Z.to_nat i := tick e]> (arp_table s) /\
                 etharp_cached_entry s' = etharp_cached_entry s).
Proof.
  intros Hok Hi He. pose proof (Forall_lookup_1 _ _ _ _ (t_entries _ (a_table _ Hok)) He) as Hent.
  assert (Hlt : (Z.to_nat i < length (arp_table s))%nat) by (by eapply lookup_lt_Some).
  unfold tmr_entry. eapply runs_pure; [by apply entry_at|].
  destruct (bool_decide_reflect (e_state e = ETHARP_STATE_EMPTY)) as [Hs|Hs].
  { assert (tick e = e) as -> by (unfold tick; by rewrite Hs). rewrite list_insert_id by done.
    by apply runs_ret. }
  assert (Hocc : occupied e = true) by (by rewrite occupied_spec, bool_decide_false).
  assert (Hu : u16 (e_ctime e + 1) = e_ctime e + 1).
  { unfold entry_ok, ARP_MAXAGE, ARP_MAXPENDING in Hent. apply u16_small. destruct (e_state e); naive_solver lia. }
  rewrite Hu. set (e1 := with_ctime (e_ctime e + 1) e). set (s1 := with_table (<[Z.to_nat i := e1]> (arp_table s)) s).
  assert (He1 : arp_table s1 !! Z.to_nat i = Some e1) by (by apply list_lookup_insert_eq).
  unfold runs. cstep (set_entry_at s i e e1 Hi He). cstep (entry_at s1 i e1 Hi He1).
  change (e_ctime e1) with (e_ctime e + 1). change (e_state e1) with (e_state e). change (e_netif e1) with (e_netif e).
  destruct ((ARP_MAXAGE <=? e_ctime e + 1) || _) eqn:Hend.
  { unfold s1. rewrite (free_entry_forgets custom s i e e1 Hok Hi He eq_refl), (tick_blank e Hocc Hend).
    destruct (free_entry_runs s i e Hok Hi He) as (r & s' & Hr & Hok' & Hst & (Hc & _) & Ht).
    exists r, s'. by split_and!. }
  destruct (tick_stays e Hocc Hent Hend) as (Hent' & Hq' & Ha' & Htick).
  destruct (arp_ok_insert s _ e (tick e) Hok He Hent' Hq') as [Hok' Hk']; [rewrite Ha'; auto|].
  assert (Hset : forall e2, set_entry i e2 s1 = (Ret tt, with_table (<[Z.to_nat i := e2]> (arp_table s)) s)).
  { intros e2. rewrite (set_entry_at s1 i e1 e2 Hi He1). unfold s1. by rewrite with_table_insert. }
  cbv zeta in Htick. fold e1 in Htick. destruct (e_state e) eqn:Hse; try done.
  - assert (Hn : exists n, e_netif e = Some n) by (unfold entry_ok in Hent; rewrite Hse in Hent; naive_solver).
    destruct Hn as [n ->]. assert (Hs1 : arp_ok s1 /\ keeps ∅ s s1) by (unfold s1; by rewrite <- Htick).
    destruct Hs1 as [Hok1 Hk1].
    destruct (request_runs s1 n (e_ipaddr e1) Hok1) as (r & s' & Hr & Hok2 & Hst & (Ht & Hc) & _ & _).
    cstep Hr. exists tt, s'. split_and!; [done|done| |by rewrite Ht, Htick|done].
    pose proof (keeps_trans _ _ _ _ _ Hk1 Hst) as Hk. by rewrite union_empty_r_L in Hk.
  - rewrite <- Htick in *. do 2 eexists. split; [reflexivity|]. unfold s1. rewrite Htick in *. by split_and!.
  - rewrite Hset, <- Htick. do 2 eexists. split; [reflexivity|]. by split_and!.
  - rewrite Hset, <- Htick. do 2 eexists. split; [reflexivity|]. by split_and!.
Qed.

(** ** Sweeps over the table *)
Lemma each_entry_runs (body : Z -> cmd (link A E) unit) (f : etharp_entry -> etharp_entry) :
  (forall s i e, arp_ok s -> 0 <= i -> arp_table s !! Z.to_nat i = Some e ->
     runs ∅ (body i) s (rest s) (fun _ s' => arp_table s' = <[Z.to_nat i := f e]> (arp_table s) /\
       etharp_cached_entry s' = etharp_cached_entry s)) ->
  forall n s i, arp_ok s -> 0 <= i -> Z.to_nat i = (10 - n)%nat -> (n <= 10)%nat ->
  runs ∅ (each_entry n i body) s (rest s)
    (fun _ s' => arp_table s' = take (Z.to_nat i) (arp_table s) ++ (f <$> drop (Z.to_nat i) (arp_table s)) /\
       etharp_cached_entry s' = etharp_cached_entry s).
Proof.
  intros Hbody n. induction n as [|n IH]; intros s i Hok Hi Hin Hn; cbn [each_entry].
  { apply runs_ret; [done|]. rewrite Hin, take_ge, drop_ge by (rewrite (t_length _ (a_table _ Hok)); lia).
    by rewrite app_nil_r. }
  destruct (lookup_lt_is_Some_2 (arp_table s) (Z.to_nat i)) as [e He].
  { rewrite (t_length _ (a_table _ Hok)). lia. }
  eapply runs_bind; [by apply Hbody|set_solver|]. intros _ s1 _ (Ht & Hc) Hok1 Hr1 _ _. rewrite <- Hr1.
  destruct (IH s1 (i + 1) Hok1 ltac:(lia) ltac:(lia) ltac:(lia)) as (r & s2 & Hr & Hok2 & Hs2 & Ht2 & Hc2).
  exists r, s2. split_and!; [done|done|done| |by rewrite Hc2].
  assert (Hlt : (Z.to_nat i < length (arp_table s))%nat) by (by eapply lookup_lt_Some).
  rewrite Ht2, Ht. replace (Z.to_nat (i + 1)) with (S (Z.to_nat i)) by lia.
  rewrite drop_insert_lt by lia. rewrite (drop_S _ _ _ He), fmap_cons.
  rewrite (take_S_r _ _ (f e)) by (by apply list_lookup_insert_eq). rewrite take_insert_ge by lia.
  by rewrite <- app_assoc.
Qed.

Lemma sweep_runs (body : Z -> cmd (link A E) unit) (f : etharp_entry -> etharp_entry) s :
  (forall s i e, arp_ok s -> 0 <= i -> arp_table s !! Z.to_nat i = Some e ->
     runs ∅ (body i) s (rest s) (fun _ s' => arp_table s' = <[Z.to_nat i := f e]> (arp_table s) /\
       etharp_cached_entry s' = etharp_cached_entry s)) ->
  arp_ok s -> runs ∅ (each_entry 10 0 body) s (rest s)
    (fun _ s' => arp_table s' = f <$> arp_table s /\ etharp_cached_entry s' = etharp_cached_entry s).
Proof. intros Hbody Hok. by apply (each_entry_runs body f Hbody 10 s 0 Hok). Qed.

Lemma tmr_runs s : arp_ok s -> runs ∅ (etharp_tmr custom) s (rest s)
  (fun _ s' => arp_table s' = tick <$> arp_table s /\ etharp_cached_entry s' = etharp_cached_entry s).
Proof. apply sweep_runs. intros. by apply tmr_entry_runs. Qed.

(** What the loss of an interface does to an entry. *)
Definition cleaned (n : Z) e : etharp_entry :=
  if occupied e && bool_decide (e_netif e = Some n) then blank else e.

Lemma cleanup_runs s n : arp_ok s -> runs ∅ (etharp_cleanup_netif custom n) s (rest s)
  (fun _ s' => arp_table s' = cleaned n <$> arp_table s /\ etharp_cached_entry s' = etharp_cached_entry s).
Proof.
  apply sweep_runs. clear s. intros s i e Hok Hi He. eapply runs_pure; [by apply entry_at|].
  unfold cleaned, occupied. rewrite bool_decide_not.
  destruct (negb _ && _).
  - eapply runs_weaken; [by eapply free_entry_runs|set_solver|]. intros _ s' _ ((Hc & _) & Ht). by split.
  - apply runs_ret; [done|]. by rewrite list_insert_id.
Qed.
End Steps.
