(* ===== verification/EtharpInput.v ===== *)
(** * Learning an address, and received ARP messages: [etharp_input] *)
From S2P Require Export EtharpSteps.

#[local] Set Warnings "-clear-no-such-hyp".

Section Learn.
Context {A E : Type} `{Allocator A} `{Controller E} `{!Upper A E}.
Context (custom : ptr -> heap A -> heap A).
Implicit Types (h : heap A) (s : link A E) (e : etharp_entry) (l : list node).

(** ** Packets of the caller *)
Lemma frame_runs s nif q x bs l dst src ty o : arp_ok s ->
  owns (hp s) q (Node q x bs :: l) -> ptrs (Node q x bs :: l) ⊆ rest s ->
  length src = 6%nat -> length dst = 6%nat -> tot_len x <= 65521 -> payload x = Some (q, o) ->
  runs {[q]} (ethernet_output nif q src dst ty) s (rest s) (fun r s' =>
    same_table s s' /\ (exists x' bs', owns (hp s') q (Node q x' bs' :: l)) /\
    (r, dev s') = if negb (o <? 14) && port_takes x (content (Node q x bs :: l))
                  then enet_send_frame (eth_frame dst src ty (content (Node q x bs :: l))) (dev s)
                  else (ERR_BUF, dev s)).
Proof.
  intros Hok Ho Hr Hsrc Hdst Ht Hpl.
  destruct (ethernet_output_ok s nif q x bs l dst src ty o Ho (a_heap _ Hok) (a_buffer _ Hok)) as
    (r & h' & b & d & x' & bs' & Hrun & Hb & Ho' & (Hs & HL & Hi) & Hd);
    [by destruct (a_netifs _ Hok nif)|done..|].
  exists r, (after s h' b d). split; [done|]. assert (Hq : q ∈ rest s).
  { apply Hr, (ptrs_elem (Node q x bs)). left. }
  split; [|split; [|split; [done|split; [eauto|done]]]].
  - apply arp_ok_after; [done..| |].
    + apply (f_equal snd) in Hd. cbn in Hd. rewrite Hd. pose proof (a_dev _ Hok). destruct (_ && _); [by apply send_inv|done].
    + intros p Hp. apply Hs. unfold rest in Hq. set_solver.
  - unfold steps, rest. cbn. rewrite HL. split_and!; [done|done|]. intros p Hp Hx. by apply Hs.
Qed.

Lemma release_runs s q n l : arp_ok s -> owns (hp s) q (n :: l) -> ptrs (n :: l) ⊆ rest s ->
  runs (ptrs (n :: l)) (pbufs (pbuf_free custom (Some q))) s (rest s ∖ ptrs (n :: l))
    (fun _ s' => same_table s s' /\ same_link s s').
Proof.
  intros Hok Ho Hr. destruct (owns_free custom (hp s) q n l Ho (a_heap _ Hok)) as (k & h' & Hf & Hs & HL & Hi).
  exists k, (with_hp h' s). split; [by apply pbufs_run|].
  split; [|split; [|split_and!; done]].
  - change (with_hp h' s) with (after s h' (ucBuffer s) (dev s)). apply arp_ok_after; [done|done|by destruct Hok|by destruct Hok|].
    intros p Hp. apply Hs. unfold rest in Hr. set_solver.
  - unfold steps, rest. cbn. rewrite HL. split_and!; [set_solver|done|]. intros p Hp Hx. by apply Hs.
Qed.

(** A packet that waited is sent and released. *)
Lemma send_parked_runs s nif p x bs dst : arp_ok s -> owns (hp s) p [Node p x bs] -> p ∈ rest s ->
  payload x = Some (p, 16) -> tot_len x <= 65521 -> length dst = 6%nat ->
  runs {[p]} (ethernet_output nif p (hwaddr (netifs s nif)) dst ETHTYPE_IP ;;;
              pbufs (pbuf_free custom (Some p)) ;;; ret tt) s (rest s ∖ {[p]})
    (fun _ s' => same_table s s' /\
       dev s' = (enet_send_frame (eth_frame dst (hwaddr (netifs s nif)) ETHTYPE_IP bs) (dev s)).2).
Proof.
  intros Hok Ho Hp Hpl Ht Hdst.
  assert (Hps : forall y cs, ptrs [Node p y cs] = {[p]}) by (intros; unfold ptrs; cbn; by rewrite union_empty_r_L).
  eapply runs_bind; [eapply (frame_runs s nif p x bs [] dst _ ETHTYPE_IP 16)|set_solver|]; try done.
  { rewrite Hps. set_solver. }
  { by destruct (a_netifs _ Hok nif). }
  intros r s1 _ (Ht1 & (x' & bs' & Ho') & Hd) Hok1 Hr1 _ _.
  assert (Hf : port_takes x (content [Node p x bs]) = true).
  { pose proof Ho as [(_ & _ & Hb & Htot & _) _]. change (Z.of_nat (length (content []))) with 0 in Htot.
    unfold port_takes. rewrite (proj2 (Z.eqb_eq _ _)) by lia. done. }
  rewrite Hf in Hd. change (negb (16 <? 14) && true) with true in Hd. cbv iota in Hd.
  rewrite content_cons in Hd. change (content []) with (@nil Z) in Hd. rewrite app_nil_r in Hd. cbn [n_bytes] in Hd.
  rewrite <- Hr1. rewrite <- (Hps x' bs'). eapply runs_bind; [apply (release_runs s1 p _ [] Hok1 Ho')|set_solver|].
  { rewrite Hps. set_solver. }
  intros k s2 _ (Ht2 & Hl2) Hok2 Hr2 _ _. rewrite <- Hr2. apply runs_ret; [done|].
  destruct Ht1 as [T1 C1], Ht2 as [T2 C2], Hl2 as (_ & _ & Hd2). split; [split; congruence|]. rewrite Hd2, <- Hd. done.
Qed.

(** ** The entry *)

(** Addresses that are never entered. *)
Definition unicast (n : netif) (a : Z) : bool :=
  negb (ip4_addr_isany a || ip4_addr_isbroadcast a n || ip4_addr_ismulticast a).

(** The table has learnt that [ip] is at [mac]: in the entry of [ip], or in one made free
    for it; the packet that waited for [ip] has been sent. *)
Definition learnt s s' (nif ip : Z) (mac : list Z) : Prop :=
  exists i e, 0 <= i < ARP_TABLE_SIZE /\ arp_table s !! Z.to_nat i = Some e /\
    arp_table s' = <[Z.to_nat i := Entry None ip (Some nif) mac 0 ETHARP_STATE_STABLE]> (arp_table s) /\
    ((addr_of e = Some ip /\
      match e_q e with
      | Some p => exists x bs, owns (hp s) p [Node p x bs] /\
          dev s' = (enet_send_frame (eth_frame mac (hwaddr (netifs s nif)) ETHTYPE_IP bs) (dev s)).2
      | None => dev s' = dev s
      end) \/
     ((ip ∉ addrs (arp_table s)) /\ dev s' = dev s)).

Lemma update_entry_runs s nif i e ip mac : arp_ok s -> 0 <= i -> arp_table s !! Z.to_nat i = Some e ->
  e_ipaddr e = ip -> addr_of e = Some ip \/ ip ∉ addrs (arp_table s) -> length mac = 6%nat ->
  runs ∅ (update_entry custom nif i mac) s (rest s) (fun _ s' =>
    arp_table s' = <[Z.to_nat i := Entry None ip (Some nif) mac 0 ETHARP_STATE_STABLE]> (arp_table s) /\
    etharp_cached_entry s' = etharp_cached_entry s /\
    match e_q e with
    | Some p => exists x bs, owns (hp s) p [Node p x bs] /\
        dev s' = (enet_send_frame (eth_frame mac (hwaddr (netifs s nif)) ETHTYPE_IP bs) (dev s)).2
    | None => dev s' = dev s
    end).
Proof.
  intros Hok Hi He Hip Ha Hmac. assert (Hlt : (Z.to_nat i < length (arp_table s))%nat) by (by eapply lookup_lt_Some).
  set (e2 := Entry (e_q e) ip (Some nif) mac 0 ETHARP_STATE_STABLE).
  assert (Hrun : forall k : etharp_entry -> cmd (link A E) unit,
    (on_entry i (with_state ETHARP_STATE_STABLE) ;;; on_entry i (with_netif (Some nif)) ;;;
     on_entry i (with_ethaddr mac) ;;; on_entry i (with_ctime 0) ;;; e <- entry i ;; k e) s
    = k e2 (with_table (<[Z.to_nat i := e2]> (arp_table s)) s)).
  { intros k. cstep (on_entry_at s i (with_state ETHARP_STATE_STABLE) e Hi He).
    do 3 (erewrite bind_ret by (apply on_entry_at; [done|cbn; by apply list_lookup_insert_eq]); rewrite with_table_insert).
    erewrite bind_ret by (apply entry_at; [done|cbn; by apply list_lookup_insert_eq]).
    unfold e2. by rewrite <- Hip. }
  unfold update_entry, runs. rewrite Hrun. cbn [e_q e2].
  set (e3 := Entry None ip (Some nif) mac 0 ETHARP_STATE_STABLE).
  assert (He3 : entry_ok e3) by (split_and!; [done|done|done|done|by eexists]).
  assert (Ha3 : forall a, addr_of e3 = Some a -> addr_of e = Some a \/ a ∉ addrs (arp_table s)).
  { intros a [= <-]. exact Ha. }
  destruct (e_q e) as [p|] eqn:Hq.
  - pose proof (held_lookup s _ _ _ He Hq) as Hp. destruct (a_parked _ Hok p Hp) as (x & bs & Ho & Hpl & Ht).
    set (s2 := with_table _ s). erewrite bind_ret by (apply (on_entry_at s2 i _ e2 Hi); by apply list_lookup_insert_eq).
    change (with_q None e2) with e3. unfold s2. rewrite with_table_insert. clear s2.
    set (s3 := with_table (<[Z.to_nat i := e3]> (arp_table s)) s).
    assert (Hok3 : arp_ok s3).
    { pose proof (arp_ok_change s _ e e3 (hp s) Hok He He3 (a_heap _ Hok) Ha3) as Hc. rewrite with_hp_hp in Hc.
      by apply Hc. }
    assert (Hh : forall r, r ∈ held (arp_table s3) <-> r ∈ held (arp_table s) /\ r <> p).
    { intros r. unfold s3. cbn. rewrite (held_insert s _ e e3 r Hok He), Hq. cbn. naive_solver. }
    assert (Hr3 : rest s3 = rest s ∪ {[p]}).
    { unfold rest. change (hp s3) with (hp s). apply set_eq. intros r.
      pose proof (held_live s p Hok Hp). rewrite elem_of_union, !elem_of_difference, !elem_of_list_to_set, Hh.
      destruct (decide (r = p)); set_solver. }
    destruct (send_parked_runs s3 nif p x bs mac Hok3 Ho ltac:(set_solver) Hpl Ht Hmac)
      as (r & s4 & Hr & Hok4 & Hs4 & (T4 & C4) & Hd4).
    exists r, s4. split; [exact Hr|]. split; [done|]. split; [|split; [by rewrite T4|split; [by rewrite C4|eauto]]].
    rewrite Hr3 in Hs4. assert (Hs3 : steps ∅ (rest s ∪ {[p]}) s s3) by (unfold steps; by rewrite Hr3).
    pose proof (steps_trans _ _ _ _ _ _ _ Hs3 Hs4 ltac:(set_solver)) as Hall.
    assert (Hpr : p ∉ rest s) by (unfold rest; rewrite elem_of_difference, elem_of_list_to_set; naive_solver).
    replace ((rest s ∪ {[p]}) ∖ {[p]}) with (rest s) in Hall by set_solver.
    eapply steps_drop; [exact Hall|set_solver].
  - destruct (arp_ok_insert s _ e e2 Hok He) as [Hok2 Hk2]; [exact He3|by rewrite Hq|exact Ha3|].
    do 2 eexists. split; [reflexivity|]. by split_and!.
Qed.

(** An entry of the table, seen from before the search. *)
Lemma claimed_entry s a r s' : arp_ok s -> claimed s a r s' -> exists e e',
  arp_table s !! Z.to_nat r = Some e /\ arp_table s' !! Z.to_nat r = Some e' /\
  arp_table s' = <[Z.to_nat r := e']> (arp_table s) /\
  e_state e' = ETHARP_STATE_EMPTY /\ e_q e' = None /\ e_ipaddr e' = a /\ e_ctime e' = 0 /\
  (a ∉ addrs (arp_table s')).
Proof.
  intros Hok (Ha & Hr & _ & e' & Ht & Hs & Hq & Hip & Hc). destruct (table_lookup s r Hok Hr) as [e He].
  exists e, e'. split_and!; [done| |done..|].
  - rewrite Ht. apply list_lookup_insert_eq. by eapply lookup_lt_Some.
  - rewrite Ht. eapply unknown_insert; [by destruct Hok|done|done|].
    unfold addr_of, occupied. by rewrite Hs, bool_decide_true.
Qed.

Lemma update_runs s nif ip mac fl : arp_ok s -> length mac = 6%nat ->
  fl = ETHARP_FLAG_TRY_HARD \/ fl = ETHARP_FLAG_FIND_ONLY ->
  runs ∅ (etharp_update_arp_entry custom nif ip mac fl) s (rest s) (fun r s' =>
    if unicast (netifs s nif) ip then
      (r = ERR_OK /\ etharp_cached_entry s' = etharp_cached_entry s /\ learnt s s' nif ip mac) \/
      (r = ERR_MEM /\ s' = s /\ fl = ETHARP_FLAG_FIND_ONLY /\ ip ∉ addrs (arp_table s))
    else r = ERR_ARG /\ s' = s).
Proof.
  intros Hok Hmac Hfl. unfold etharp_update_arp_entry. destruct (a_netifs _ Hok nif) as [_ Hlen].
  eapply func_pure; [reflexivity|]. eapply func_pure; [by rewrite Hlen|].
  unfold unicast. destruct (_ || _ || _); cbn [negb]; [by apply func_exit|].
  eapply func_pure; [reflexivity|].
  destruct (find_entry_ok custom s ip fl Hok Hfl) as (i & s1 & Hrun & Hok1 & Hk1 & (Hc1 & _ & Hd1) & Hcase).
  destruct Hcase as [(-> & Hi & e & He & Hae)|[(-> & -> & -> & Hun)|(-> & Hcl)]].
  - apply runs_func. eapply runs_pure; [exact Hrun|]. rewrite (proj2 (Z.ltb_ge _ _)) by lia.
    eapply runs_pure; [reflexivity|]. assert (Hip : e_ipaddr e = ip) by (unfold addr_of in Hae; destruct (occupied e); congruence).
    eapply runs_bind; [eapply update_entry_runs; [done|lia|done|done|by left|done]|set_solver|].
    intros _ s2 _ (Ht & Hc & Hd) Hok2 Hr2 _ _. rewrite <- Hr2. apply runs_ret; [done|]. left.
    split_and!; [done|done|]. exists i, e. split_and!; [lia|lia|done|done|by left].
  - eapply func_pure; [exact Hrun|]. apply func_exit; [done|]. right. by split_and!.
  - destruct (claimed_entry s ip i s1 Hok Hcl) as (e & e1 & He & He1 & Ht1 & Hs1 & Hq1 & Hip1 & _ & Hun1).
    destruct Hcl as (Hun & Hi & _). apply runs_func. eapply (runs_bind _ _ _ _ (rest s) _ (fun _ _ => True)).
    { exists i, s1. by split_and!. }
    { set_solver. }
    intros i' s1' Hrun' _ _ _ _ _. rewrite Hrun in Hrun'. injection Hrun' as <- <-.
    rewrite (proj2 (Z.ltb_ge _ _)) by lia. eapply runs_pure; [reflexivity|].
    replace (rest s) with (rest s1) by apply Hk1.
    eapply runs_bind; [eapply update_entry_runs; [done|lia|done|done|by right|done]|set_solver|].
    intros _ s2 _ (Ht & Hc & Hd) Hok2 Hr2 _ _. rewrite <- Hr2. apply runs_ret; [done|]. left.
    rewrite Hq1 in Hd. split_and!; [done|by rewrite Hc|]. exists i, e. rewrite Ht, Ht1, list_insert_insert_eq.
    split_and!; [lia|lia|done|done|right]. split; [done|]. by rewrite Hd.
Qed.
End Learn.

(** The fields of a message, as the code reads them. *)
Definition field (off n : nat) (m : list Z) : list Z := take n (drop off m).
Definition m_hwtype (m : list Z) : Z := of_le16 (field 0 2 m).
Definition m_proto (m : list Z) : Z := of_le16 (field 2 2 m).
Definition m_hwlen (m : list Z) : Z := nth 0 (field 4 1 m) 0.
Definition m_protolen (m : list Z) : Z := nth 0 (field 5 1 m) 0.
Definition m_opcode (m : list Z) : Z := of_le16 (field 6 2 m).
Definition m_shwaddr (m : list Z) : list Z := field 8 6 m.
Definition m_sipaddr (m : list Z) : Z := of_le32 (field 14 4 m).
Definition m_dipaddr (m : list Z) : Z := of_le32 (field 24 4 m).
Definition m_valid (m : list Z) : bool :=
  (m_hwtype m =? PP_HTONS HWTYPE_ETHERNET) && (m_hwlen m =? ETH_HWADDR_LEN) &&
  (m_protolen m =? 4) && (m_proto m =? PP_HTONS ETHTYPE_IP).

(** The message is for the address of the interface. *)
Definition for_us (n : netif) (m : list Z) : bool :=
  if ip4_addr_isany (ip_addr n) then false else m_dipaddr m =? ip_addr n.

Section Input.
Context {A E : Type} `{Allocator A} `{Controller E} `{!Upper A E}.
Context (custom : ptr -> heap A -> heap A).
Implicit Types (h : heap A) (s : link A E) (e : etharp_entry) (l : list node).

(** The [n] bytes in memory from the payload of [x] on, within the packet or not. *)
Definition at_payload h (p : ptr) x (n : nat) (m : list Z) : Prop := exists o a,
  payload x = Some (p, o) /\ bl h !! p = Some a /\ 0 <= o /\
  o + Z.of_nat n <= Z.of_nat (length a) /\ m = take n (drop (Z.to_nat o) a).

Lemma at_payload_read h p x n m off k : at_payload h p x n m -> (off + k <= n)%nat ->
  read_mem (payload x) (Z.of_nat off) (Z.of_nat k) h = (Ret (field off k m), h).
Proof.
  intros (o & a & Hpl & Ha & Ho & Hle & ->) Hk. unfold read_mem. rewrite Hpl.
  assert (Hb : block p h = (Ret a, h)) by (unfold block; by rewrite Ha). cstep Hb.
  rewrite read_bytes_at by lia. unfold field. do 2 f_equal. rewrite Nat2Z.id.
  rewrite skipn_firstn_comm, firstn_firstn, drop_drop. f_equal; [lia|]. f_equal. lia.
Qed.

Lemma at_payload_take h p x n m k : at_payload h p x n m -> (k <= n)%nat -> at_payload h p x k (take k m).
Proof.
  intros (o & a & Hpl & Ha & Ho & Hle & ->) Hk. exists o, a. rewrite take_take, Nat.min_l by done.
  by split_and!; [..|lia|].
Qed.

Lemma at_payload_length h p x n m : at_payload h p x n m -> length m = n.
Proof. intros (o & a & _ & _ & Ho & Hle & ->). rewrite length_take, length_drop. lia. Qed.

Lemma at_payload_steps s s' p x n m X R : at_payload (hp s) p x n m -> steps X R s s' -> p ∈ rest s -> p ∉ X ->
  at_payload (hp s') p x n m.
Proof.
  intros (o & a & Hpl & Ha & Hr) (_ & _ & K) Hp Hx. exists o, a. destruct (K p Hp Hx) as [_ Hb].
  by rewrite Hb.
Qed.

(** What happens after the table has learnt from a message. *)
Definition answered (nif : Z) (m : list Z) s s' : Prop :=
  let n := netifs s nif in
  if m_opcode m =? PP_HTONS ARP_REQUEST then
    if for_us n m then
      exists r, frame_or_none (hp s) (eth_frame (m_shwaddr m) (hwaddr n) ETHTYPE_ARP
        (arp_message ARP_REPLY (hwaddr n) (ip_addr n) (m_shwaddr m) (m_sipaddr m))) (dev s) r (dev s')
    else dev s' = dev s
  else if m_opcode m =? PP_HTONS ARP_REPLY then dev s' = dhcp_arp_reply nif (m_sipaddr m) (dev s)
  else dev s' = dev s.

Definition flag_of (n : netif) (m : list Z) : Z :=
  if for_us n m then ETHARP_FLAG_TRY_HARD else ETHARP_FLAG_FIND_ONLY.

(** A valid message: learn, then answer. *)
Definition processed (nif : Z) (m : list Z) s s' : Prop :=
  exists s1, netifs s1 = netifs s /\ answered nif m s1 s' /\ same_table s1 s' /\
    if unicast (netifs s nif) (m_sipaddr m) then
      (etharp_cached_entry s1 = etharp_cached_entry s /\ learnt s s1 nif (m_sipaddr m) (m_shwaddr m)) \/
      (s1 = s /\ for_us (netifs s nif) m = false /\ m_sipaddr m ∉ addrs (arp_table s))
    else s1 = s.

Lemma valid_check s p x m : at_payload (hp s) p x 28 m ->
  andM (is_ (read16 (payload x) 0) (PP_HTONS HWTYPE_ETHERNET))
    (andM (is_ (read8 (payload x) 4) ETH_HWADDR_LEN)
       (andM (is_ (read8 (payload x) 5) 4) (is_ (read16 (payload x) 2) (PP_HTONS ETHTYPE_IP)))) s
  = (Ret (m_valid m), s).
Proof.
  intros Hm. assert (H16 : forall off : nat, (off + 2 <= 28)%nat -> forall v,
    is_ (read16 (payload x) (Z.of_nat off)) v s = (Ret (of_le16 (field off 2 m) =? v), s)).
  { intros off Ho v. unfold is_, read16. rewrite bind_bind.
    pose proof (at_payload_read _ _ _ _ _ off 2 Hm Ho) as Hr. change (Z.of_nat 2) with 2 in Hr. pstep Hr. done. }
  assert (H8 : forall off : nat, (off + 1 <= 28)%nat -> forall v,
    is_ (read8 (payload x) (Z.of_nat off)) v s = (Ret (nth 0 (field off 1 m) 0 =? v), s)).
  { intros off Ho v. unfold is_, read8. rewrite bind_bind.
    pose proof (at_payload_read _ _ _ _ _ off 1 Hm Ho) as Hr. change (Z.of_nat 1) with 1 in Hr. pstep Hr. done. }
  unfold andM. rewrite (bind_ret _ _ _ _ _ (H16 0%nat ltac:(lia) _)). unfold m_valid, m_hwtype.
  destruct (_ =? PP_HTONS HWTYPE_ETHERNET); [|done]. cbn [andb].
  rewrite (bind_ret _ _ _ _ _ (H8 4%nat ltac:(lia) _)). unfold m_hwlen. destruct (_ =? ETH_HWADDR_LEN); [|done]. cbn [andb].
  rewrite (bind_ret _ _ _ _ _ (H8 5%nat ltac:(lia) _)). unfold m_protolen. destruct (_ =? 4); [|done]. cbn [andb].
  apply (H16 2%nat). lia.
Qed.

Lemma input_runs s p n l nif m : arp_ok s -> owns (hp s) p (n :: l) -> ptrs (n :: l) ⊆ rest s ->
  at_payload (hp s) p (n_buf n) 28 m ->
  runs (ptrs (n :: l)) (etharp_input custom p nif) s (rest s ∖ ptrs (n :: l)) (fun _ s' =>
    if m_valid m then processed nif m s s' else same_table s s' /\ dev s' = dev s).
Proof.
  intros Hok Ho Hr Hm. pose proof (owns_head _ _ _ _ Ho) as Hp.
  assert (Hpr : p ∈ rest s) by (rewrite <- Hp; apply Hr, ptrs_elem; left).
  assert (Hx : pb (hp s) !! p = Some (n_buf n)).
  { destruct Ho as [Ho _]. rewrite <- Hp. eapply packet_lookup; [exact Ho|left]. }
  unfold etharp_input. eapply runs_pure; [rewrite <- (with_hp_hp s) at 2; apply pbufs_run; by apply load_at|].
  eapply runs_pure; [by eapply valid_check|]. destruct (m_valid m) eqn:Hv; cbn [negb].
  2:{ eapply runs_bind; [by apply release_runs|set_solver|]. intros _ s1 _ (Ht & _ & _ & Hd) Hok1 Hr1 _ _.
      rewrite <- Hr1. by apply runs_ret. }
  assert (Hread : forall s' off k, hp s' = hp s -> (off + k <= 28)%nat ->
    pbufs (read_mem (payload (n_buf n)) (Z.of_nat off) (Z.of_nat k)) s' = (Ret (field off k m), s')).
  { intros s' off k Hs' Hle. rewrite <- (with_hp_hp s') at 2. apply pbufs_run. rewrite Hs'.
    by apply (at_payload_read _ p _ 28). }
  eapply runs_pure; [apply (Hread s 14%nat 4%nat); [done|lia]|]. eapply runs_pure; [apply (Hread s 24%nat 4%nat); [done|lia]|].
  eapply runs_pure; [apply (Hread s 8%nat 6%nat); [done|lia]|]. eapply runs_pure; [reflexivity|].
  change (of_le32 (field 14 4 m)) with (m_sipaddr m). change (of_le32 (field 24 4 m)) with (m_dipaddr m).
  change (field 8 6 m) with (m_shwaddr m). fold (for_us (netifs s nif) m). fold (flag_of (netifs s nif) m).
  assert (Hmac : length (m_shwaddr m) = 6%nat).
  { unfold m_shwaddr, field. rewrite length_take, length_drop, (at_payload_length _ _ _ _ _ Hm). done. }
  eapply (runs_bind_in ∅); [apply update_runs; [done|done|]|set_solver|set_solver|].
  { unfold flag_of. destruct (for_us _ m); auto. }
  intros r s1 _ Hup Hok1 Hr1 Hn1 Hs1.
  pose proof (steps_owns _ _ _ _ _ _ Hs1 Ho Hr ltac:(set_solver)) as Ho1.
  pose proof (at_payload_steps _ _ _ _ _ _ _ _ Hm Hs1 Hpr ltac:(set_solver)) as Hm1.
  eapply runs_pure.
  { unfold read16. rewrite <- (with_hp_hp s1) at 2. cstep (pbufs_run _ s1 _ _ (at_payload_read _ _ _ _ _ 6 2 Hm1 ltac:(lia))).
    reflexivity. }
  fold (m_opcode m).
  eapply (runs_bind_in ∅ _ _ _ _ (rest s1) _ (fun _ s2 => same_table s1 s2 /\ answered nif m s1 s2)).
  { unfold answered. rewrite Hn1. destruct (m_opcode m =? PP_HTONS ARP_REQUEST); [|destruct (m_opcode m =? PP_HTONS ARP_REPLY)].
    - destruct (for_us (netifs s nif) m); [|by apply runs_ret].
      destruct (a_netifs _ Hok nif). eapply runs_bind; [apply raw_runs; done|set_solver|].
      intros r2 s2 _ (Ht & _ & Hf) Hok2 Hr2 _ _. rewrite <- Hr2. apply runs_ret; [done|]. eauto.
    - eexists tt, _. split; [reflexivity|]. destruct Hok1. split; [by split; [..|apply dhcp_inv]|]. by split_and!.
    - by apply runs_ret. }
  { set_solver. } { set_solver. }
  intros _ s2 _ (Ht2 & Ha2) Hok2 Hr2 _ Hs2.
  pose proof (steps_owns _ _ _ _ _ _ Hs2 Ho1 ltac:(by rewrite Hr1) ltac:(set_solver)) as Ho2.
  rewrite <- Hr1, <- Hr2. eapply runs_bind; [apply release_runs; [done|done|by rewrite Hr2, Hr1]|set_solver|].
  intros _ s3 _ (Ht3 & _ & _ & Hd3) Hok3 Hr3 _ _. rewrite <- Hr3. apply runs_ret; [done|].
  exists s1. split; [done|]. split; [unfold answered in *; by rewrite Hd3|].
  split; [destruct Ht2, Ht3; split; congruence|].
  destruct (unicast (netifs s nif) (m_sipaddr m)); [|by destruct Hup].
  destruct Hup as [(_ & Hc & Hl)|(_ & He & Hfl & Hun)]; [by left|right].
  split_and!; [done| |done]. unfold flag_of in Hfl. by destruct (for_us _ m).
Qed.
End Input.
