(* ===== verification/EtharpSend.v ===== *)
(** * Sending through the table: [etharp_query], [etharp_output] *)
From S2P Require Export EtharpInput.

#[local] Set Warnings "-clear-no-such-hyp".

Section Send.
Context {A E : Type} `{Allocator A} `{Controller E} `{!Upper A E}.
Context (custom : ptr -> heap A -> heap A).
Implicit Types (h : heap A) (s : link A E) (e : etharp_entry) (l : list node).

(** ** The copy that waits *)
Lemma copy_needed_run h q n l k : owns h q (n :: l) -> filled l ->
  forall s, hp s = h -> copy_needed (S k) (Some q) s = (Ret (Some (tot_len (n_buf n))), s).
Proof.
  intros Ho Hf s <-. pose proof (owns_head _ _ _ _ Ho) as Hq. cbn [copy_needed].
  destruct Ho as [Hp Ho]. assert (Hx : pb (hp s) !! q = Some (n_buf n)).
  { rewrite <- Hq. eapply packet_lookup; [exact Hp|left]. }
  pstep (load_at _ _ _ Hx). rewrite <- Hq in Hp. pose proof (no_queue _ _ _ _ Hp Hf) as Hnq.
  erewrite bind_ret; [|by apply assert_true].
  apply Forall_cons in Ho as [(_ & _ & _ & Ht) _]. by destruct Ht as [-> | ->].
Qed.

(** A waiting copy of the bytes [c] at [p]. *)
Definition waits_at h (p : ptr) (c : list Z) : Prop := exists x,
  owns h p [Node p x c] /\ payload x = Some (p, 16) /\ tot_len x <= 65521.

Lemma waits_parked h p c : waits_at h p c -> parked h p.
Proof. intros (x & ?). by exists x, c. Qed.

Lemma take_over_ok s q n l : arp_ok s -> owns (hp s) q (n :: l) -> filled l -> tot_len (n_buf n) <= 65521 ->
  ptrs (n :: l) ⊆ rest s ->
  exists o s', take_over custom q s = (Ret o, s') /\ arp_ok s' /\ same_table s s' /\ same_link s s' /\
    match o with
    | None => keeps ∅ s s' /\ no_ram PBUF_LINK (Z.of_nat (length (content (n :: l)))) (hp s)
    | Some p => waits_at (hp s') p (content (n :: l)) /\ (p ∉ rest s) /\ steps ∅ (rest s ∪ {[p]}) s s'
    end.
Proof.
  intros Hok Ho Hf Ht Hsub. unfold take_over. pose proof (a_heap _ Hok) as Hi.
  rewrite (bind_ret _ _ s (S (size (pb (hp s)))) s) by (by destruct s).
  cstep (copy_needed_run _ q n l (size (pb (hp s))) Ho Hf s eq_refl).
  pose proof (owns_head _ _ _ _ Ho) as Hq. pose proof Ho as [Hp _]. rewrite <- Hq in Hp.
  pose proof (packet_tot _ _ _ _ Hp) as Htot.
  destruct (owns_alloc_ram custom PBUF_LINK 14 (tot_len (n_buf n)) (hp s) eq_refl ltac:(lia) Hi)
    as ([p|] & h1 & Hal & Hpost).
  2:{ pstep Hal. destruct (after_hkeep s h1 (ucBuffer s) (dev s) Hok) as [Hok1 Hk1];
        [by apply (hkeep_fresh _ _ ∅)|by destruct Hok|by destruct Hok|].
      exists None, (with_hp h1 s). rewrite <- Htot. split_and!; [done..|by eapply no_ram_alloc]. }
  destruct Hpost as (x & bs & Hop & Hlx & Hpl & _ & _ & Hfresh & Hs1). pstep Hal.
  assert (Hnp : p ∉ ptrs (n :: l)) by (pose proof (owns_live _ _ _ Ho Hi); set_solver).
  assert (Ho1 : owns h1 q (n :: l)) by (eapply owns_keep; [exact Ho|exact Hs1|set_solver]).
  destruct (copy_ok q n l h1 p x bs Ho1 Hf Hop Hnp ltac:(by destruct Hs1 as (_ & _ & ?)) ltac:(lia))
    as (h2 & Hc & Hop2 & Hs2). pstep Hc.
  assert (Hbs : drop (length (content (n :: l))) bs = []).
  { apply drop_ge. pose proof Hop as [(_ & _ & Hb & _) _]. apply holds_length in Hb. lia. }
  rewrite Hbs, app_nil_r in Hop2. exists (Some p), (with_hp h2 s).
  pose proof (hstep_trans _ _ _ _ _ _ _ Hs1 Hs2) as (Hs & HL & Hi2). destruct Hs1 as (_ & HL1 & _). rewrite HL1 in HL.
  split; [done|]. split; [|split; [done|split; [done|split; [|split]]]].
  - change (with_hp h2 s) with (after s h2 (ucBuffer s) (dev s)). apply arp_ok_after; [done|done|by destruct Hok|by destruct Hok|].
    intros r Hr. apply Hs. pose proof (held_live s r Hok Hr). set_solver.
  - exists x. split_and!; [done|done|]. pose proof Hop as [(_ & _ & _ & Htx & _) _].
    change (Z.of_nat (length (content []))) with 0 in Htx. lia.
  - unfold rest. set_solver.
  - unfold steps, rest. cbn. rewrite HL. split_and!; [|done|intros r Hr _; apply Hs; set_solver].
    apply set_eq. intros r. pose proof (held_live s). set_solver.
Qed.

(** The copy takes the place of an older one. *)
Lemma park_ok s i e p c : arp_ok s -> 0 <= i -> arp_table s !! Z.to_nat i = Some e ->
  e_state e = ETHARP_STATE_PENDING -> waits_at (hp s) p c -> p ∈ rest s ->
  exists s', (e <- entry i ;;
    (match e_q e with
     | Some old => pbufs (pbuf_free custom (Some old)) ;;; ret tt
     | None => ret tt
     end) ;;;
    on_entry i (with_q (Some p)) ;;;
    ret ERR_OK) s = (Ret ERR_OK, s') /\ arp_ok s' /\ steps ∅ (rest s ∖ {[p]}) s s' /\ same_link s s' /\
    arp_table s' = <[Z.to_nat i := with_q (Some p) e]> (arp_table s) /\ waits_at (hp s') p c.
Proof.
  intros Hok Hi He Hst Hw Hp. destruct (packet_released custom s _ e Hok He) as [h' Hf].
  exists (with_table (<[Z.to_nat i := with_q (Some p) e]> (arp_table s)) (with_hp h' s)). split.
  { cstep (entry_at s i e Hi He). destruct (e_q e) as [old|].
    - destruct Hf as [[k Hf] _]. rewrite bind_bind. pstep Hf. cstep (eq_refl (ret tt (with_hp h' s))).
      by rewrite (bind_ret _ _ _ _ _ (on_entry_at (with_hp h' s) i (with_q (Some p)) e Hi He)).
    - subst h'. rewrite with_hp_hp. cstep (eq_refl (ret tt s)). by rewrite (bind_ret _ _ _ _ _ (on_entry_at s i (with_q (Some p)) e Hi He)). }
  assert (Hx : forall r, r ∉ (list_to_set (option_list (e_q e)) : gset ptr) ->
    pb h' !! r = pb (hp s) !! r /\ bl h' !! r = bl (hp s) !! r).
  { intros r Hr. destruct (e_q e) as [old|]; [|by subst]. apply Hf. cbn in Hr. set_solver. }
  assert (Hhp : p ∉ held (arp_table s)) by (unfold rest in Hp; set_solver).
  assert (Hpo : p ∉ (list_to_set (option_list (e_q e)) : gset ptr)).
  { destruct (e_q e) as [old|] eqn:Hq; cbn; [|set_solver]. pose proof (held_lookup s _ _ _ He Hq). set_solver. }
  assert (Hw' : waits_at h' p c).
  { destruct Hw as (x & Ho & Hpl & Ht). exists x. split; [|done]. destruct Ho as [Ho1 Ho2]. split; [|done].
    destruct (Hx p Hpo) as [E1 E2]. apply (packet_keep _ _ (hp s)); [done|..].
    - by intros n ->%list_elem_of_singleton.
    - intros b Hb. apply list_elem_of_singleton in Hb. unfold n_block in Hb. cbn in Hb. rewrite Hpl in Hb. by injection Hb as ->. }
  assert (Hinv : alloc_inv h' /\ live (al h') = live (al (hp s)) ∖ list_to_set (option_list (e_q e))).
  { destruct (e_q e) as [old|]; cbn.
    - destruct Hf as (_ & _ & HL & Hi'). by rewrite union_empty_r_L.
    - subst h'. split; [by destruct Hok|set_solver]. }
  destruct Hinv as [Hinv HL]. split; [|split; [|split; [done|split; [done|done]]]].
  - eapply arp_ok_change; [done|done| |done| | |].
    + pose proof (Forall_lookup_1 _ _ _ _ (t_entries _ (a_table _ Hok)) He) as Hent.
      unfold entry_ok in *. cbn. by rewrite Hst in *.
    + intros a Ha. by left.
    + intros r Hr Hne. apply Hx. destruct (e_q e); cbn; set_solver.
    + intros r [= <-]. split; [by eapply waits_parked|by right].
  - assert (Hh : forall r, r ∈ held (<[Z.to_nat i := with_q (Some p) e]> (arp_table s)) <->
      r = p \/ (r ∈ held (arp_table s) /\ e_q e <> Some r)).
    { intros r. rewrite (held_insert s _ e (with_q (Some p) e) r Hok He). cbn. naive_solver. }
    unfold steps, rest. cbn. split_and!; [|done|intros r Hr _; apply Hx].
    + rewrite HL. apply set_eq. intros r. rewrite !elem_of_difference, !elem_of_list_to_set, Hh, elem_of_singleton.
      assert (Hin : r ∈ option_list (e_q e) <-> e_q e = Some r).
      { destruct (e_q e); cbn; [rewrite list_elem_of_singleton; naive_solver|by rewrite elem_of_nil]. }
      rewrite Hin. assert (Hq : e_q e = Some r -> r ∈ held (arp_table s)) by (intros Hq; by eapply held_lookup).
      destruct (decide (e_q e = Some r)); tauto.
    + destruct (e_q e) as [old|] eqn:Hq; cbn; [|set_solver]. pose proof (held_lookup s _ _ _ He Hq). set_solver.
Qed.

(** ** [etharp_query] *)

(** The packet [c] for [ip] waits: in the entry that already asks for [ip], in the place
    of an older packet and without another request; or in a new entry, claimed for it,
    for which a request has gone out if there was memory for it.  [ERR_MEM] is returned
    only if there was no memory, in [h1], for the copy. *)
Definition pends s s' (nif ip : Z) (c : list Z) (r : Z) : Prop := exists i e e' h1,
  0 <= i < ARP_TABLE_SIZE /\ arp_table s !! Z.to_nat i = Some e /\
  arp_table s' = <[Z.to_nat i := e']> (arp_table s) /\
  e_state e' = ETHARP_STATE_PENDING /\ e_ipaddr e' = ip /\ etharp_cached_entry s' = etharp_cached_entry s /\
  ((e_state e = ETHARP_STATE_PENDING /\ addr_of e = Some ip /\ e_netif e' = e_netif e /\ e_ctime e' = e_ctime e /\ dev s' = dev s /\
    h1 = hp s) \/
   ((ip ∉ addrs (arp_table s)) /\ e_netif e' = Some nif /\ e_ctime e' = 0 /\
    exists s1 r', claimed s ip i s1 /\ keeps ∅ s s1 /\ hkeep (hp s1) h1 /\
      frame_or_none (hp s1) (request_frame (netifs s nif) ip) (dev s) r' (dev s'))) /\
  ((r = ERR_OK /\ exists p, e_q e' = Some p /\ waits_at (hp s') p c) \/
   (r = ERR_MEM /\ (e_q e' = e_q e \/ e_q e' = None) /\ no_ram PBUF_LINK (Z.of_nat (length c)) h1)).

(** The frame that carries the packet [c], whose head is [x], to the address [mac]: it
    goes out if there is room for the header and the port takes the frame. *)
Definition send_to (n : netif) x (c mac : list Z) (d : E) : Z * E :=
  if (if payload x is Some (_, o) then negb (o <? 14) else false) && port_takes x c
  then enet_send_frame (eth_frame mac (hwaddr n) ETHTYPE_IP c) d
  else (ERR_BUF, d).
Definition delivered s s' (nif : Z) x (c mac : list Z) (r : Z) : Prop :=
  (r, dev s') = send_to (netifs s nif) x c mac (dev s).

(** The packet goes out in a frame to a stable entry. *)
Definition forwarded s s' (nif ip : Z) x (c : list Z) (r : Z) : Prop := exists i e,
  0 <= i < ARP_TABLE_SIZE /\ arp_table s !! Z.to_nat i = Some e /\ stable (e_state e) = true /\ e_ipaddr e = ip /\
  arp_table s' = arp_table s /\ delivered s s' nif x c (e_ethaddr e) r.

(** The last part of [etharp_query], for a pending entry. *)
Lemma pending_runs s i e q n l : arp_ok s -> owns (hp s) q (n :: l) -> filled l -> ptrs (n :: l) ⊆ rest s ->
  tot_len (n_buf n) <= 65521 -> 0 <= i -> arp_table s !! Z.to_nat i = Some e -> e_state e = ETHARP_STATE_PENDING ->
  runs ∅ (p <- take_over custom q ;;
    match p with
    | Some p =>
        e <- entry i ;;
        (match e_q e with
         | Some old => pbufs (pbuf_free custom (Some old)) ;;; ret tt
         | None => ret tt
         end) ;;;
        on_entry i (with_q (Some p)) ;;;
        ret ERR_OK
    | None => ret ERR_MEM
    end) s (rest s) (fun r s' => same_link s s' /\ owns (hp s') q (n :: l) /\
      ((r = ERR_OK /\ exists p, arp_table s' = <[Z.to_nat i := with_q (Some p) e]> (arp_table s) /\
          waits_at (hp s') p (content (n :: l))) \/
       (r = ERR_MEM /\ arp_table s' = arp_table s /\ no_ram PBUF_LINK (Z.of_nat (length (content (n :: l)))) (hp s)))).
Proof.
  intros Hok Ho Hf Hsub Ht Hi He Hst.
  destruct (take_over_ok s q n l Hok Ho Hf Ht Hsub) as ([p|] & s1 & Hr & Hok1 & (T1 & C1) & Hl1 & Hpost); unfold runs; cstep Hr.
  - destruct Hpost as (Hw & Hnp & Hs1). rewrite <- T1 in He.
    destruct (park_ok s1 i e p _ Hok1 Hi He Hst Hw) as (s2 & Hr2 & Hok2 & Hs2 & Hl2 & T2 & Hw2).
    { destruct Hs1 as (-> & _). set_solver. }
    exists ERR_OK, s2. split; [exact Hr2|]. split; [done|].
    assert (Hk : keeps ∅ s s2).
    { unfold keeps. destruct Hs1 as (R1 & N1 & K1). rewrite R1 in Hs2. unfold steps in *.
      destruct Hs2 as (R2 & N2 & K2). split_and!; [rewrite R2; set_solver|congruence|].
      intros r Hrr _. destruct (K1 r Hrr) as [<- <-]; [set_solver|]. apply K2; [rewrite R1; set_solver|set_solver]. }
    split; [exact Hk|]. split; [destruct Hl1 as (? & ? & ?), Hl2 as (? & ? & ?); split_and!; congruence|].
    split; [eapply steps_owns; [exact Hk|done|done|set_solver]|].
    left. split; [done|]. exists p. by rewrite T2, T1.
  - destruct Hpost as [Hk Hno]. exists ERR_MEM, s1. split_and!; [done|done|exact Hk|by destruct Hl1 as (? & ? & ?)..| |by right].
    eapply steps_owns; [exact Hk|done|done|set_solver].
Qed.

Lemma query_runs s nif ip q x bs l : arp_ok s -> owns (hp s) q (Node q x bs :: l) -> filled l ->
  ptrs (Node q x bs :: l) ⊆ rest s -> tot_len x <= 65521 ->
  runs {[q]} (etharp_query custom nif ip (Some q)) s (rest s) (fun r s' =>
    (exists x' bs', owns (hp s') q (Node q x' bs' :: l)) /\
    if unicast (netifs s nif) ip then
      forwarded s s' nif ip x (content (Node q x bs :: l)) r \/ pends s s' nif ip (content (Node q x bs :: l)) r
    else r = ERR_ARG /\ s' = s).
Proof.
  intros Hok Ho Hf Hsub Ht. unfold etharp_query. eapply func_pure; [reflexivity|].
  unfold unicast. rewrite <- (orb_comm (ip4_addr_isany ip)), orb_assoc.
  destruct (_ || _ || _) eqn:Hu; cbn [negb]; [apply func_exit; [done|split; eauto]|].
  eapply func_pure; [reflexivity|].
  assert (Hq : q ∈ rest s) by (apply Hsub, (ptrs_elem (Node q x bs)); left).
  destruct (find_entry_ok custom s ip ETHARP_FLAG_TRY_HARD Hok (or_introl eq_refl)) as
    (i & s1 & Hrun & Hok1 & Hk1 & (Hc1 & _ & Hd1) & Hcase).
  destruct Hcase as [(-> & Hi & e & He & Hae)|[(? & _)|(_ & Hcl)]]; [|done|].
  - eapply func_pure; [exact Hrun|]. rewrite (proj2 (Z.ltb_ge _ _)) by lia. apply runs_func.
    eapply runs_pure; [reflexivity|]. eapply runs_pure; [by apply entry_at; [lia|]|].
    assert (Hip : e_ipaddr e = ip /\ e_state e <> ETHARP_STATE_EMPTY).
    { unfold addr_of, occupied in Hae. destruct (bool_decide_reflect (e_state e = ETHARP_STATE_EMPTY)); [done|].
      by injection Hae. }
    destruct Hip as [Hip Hse]. rewrite (bool_decide_false (e_state e = ETHARP_STATE_EMPTY)) by done.
    eapply runs_pure; [reflexivity|]. eapply runs_pure; [reflexivity|]. eapply runs_pure; [reflexivity|].
    eapply runs_pure; [by apply entry_at; [lia|]|]. destruct (stable (e_state e)) eqn:Hst.
    + set (s2 := Link (arp_table s) i (netifs s) (ucBuffer s) (hp s) (dev s)).
      assert (Hok2 : arp_ok s2) by (destruct Hok; by split).
      destruct (owns_head_payload _ _ _ _ _ Ho) as (o & Hpl & _).
      pose proof (Forall_lookup_1 _ _ _ _ (t_entries _ (a_table _ Hok)) He) as Hent.
      destruct (frame_runs custom s2 nif q x bs l (e_ethaddr e) (hwaddr (netifs s nif)) ETHTYPE_IP o Hok2 Ho Hsub) as
        (r & s3 & Hr & Hok3 & Hs3 & (T3 & C3) & Ho3 & Hd3); [by destruct (a_netifs _ Hok nif)| |done|done|].
      { unfold entry_ok in Hent. destruct (e_state e); try done; naive_solver. }
      exists r, s3. split; [exact Hr|]. split; [done|]. split; [exact Hs3|]. split; [done|left].
      exists i, e. split_and!; [lia|lia|done|done|done|by rewrite T3|]. unfold delivered, send_to. by rewrite Hpl.
    + assert (Hse' : e_state e = ETHARP_STATE_PENDING) by (by destruct (e_state e)).
      rewrite bool_decide_true by done.
      eapply runs_weaken; [apply (pending_runs s i e q (Node q x bs) l); try done; lia|set_solver|].
      intros r s' _ ((Cl & _ & Dl) & Ho' & Hres). split; [eauto|right].
      destruct Hres as [(-> & p & Tp & Hw)|(-> & Tp & Hno)].
      * exists i, e, (with_q (Some p) e), (hp s). split_and!; [lia|lia|done|done|done|done|done|left; by split_and!|left; eauto].
      * exists i, e, e, (hp s). rewrite list_insert_id by (by rewrite ?Tp).
        split_and!; [lia|lia|done|done|done|done|done|left; by split_and!|right; auto].
  - destruct (claimed_entry s ip i s1 Hok Hcl) as (e & e1 & He & He1 & Ht1 & Hs1 & Hq1 & Hip1 & Hct1 & Hun1).
    destruct Hcl as (Hun & Hi & Hcl').
    assert (Ho1 : owns (hp s1) q (Node q x bs :: l)) by (eapply steps_owns; [exact Hk1|done|done|set_solver]).
    assert (Hsub1 : ptrs (Node q x bs :: l) ⊆ rest s1) by (by destruct Hk1 as (-> & _)).
    set (e2 := with_netif (Some nif) (with_state ETHARP_STATE_PENDING e1)).
    set (s2 := with_table (<[Z.to_nat i := e2]> (arp_table s1)) s1).
    assert (Hlt : (Z.to_nat i < length (arp_table s1))%nat) by (by eapply lookup_lt_Some).
    destruct (arp_ok_insert s1 _ e1 e2 Hok1 He1) as [Hok2 Hk2].
    { unfold entry_ok, e2. cbn. rewrite Hct1. split; [done|by eexists]. }
    { done. }
    { intros a [= <-]. right. cbn. by rewrite Hip1. }
    fold s2 in Hok2, Hk2. assert (Ho2 : owns (hp s2) q (Node q x bs :: l)) by done.
    destruct (request_runs custom s2 nif ip Hok2) as (r3 & s3 & Hr3 & Hok3 & Hs3 & (T3 & C3) & Hh3 & Hf3).
    assert (Ho3 : owns (hp s3) q (Node q x bs :: l)).
    { eapply steps_owns; [exact Hs3|done| |set_solver]. by destruct Hk2 as (-> & _). }
    assert (He3 : arp_table s3 !! Z.to_nat i = Some e2) by (rewrite T3; by apply list_lookup_insert_eq).
    assert (R3 : rest s3 = rest s) by (destruct Hs3 as (-> & _), Hk2 as (-> & _), Hk1 as (-> & _); done).
    assert (N2 : netifs s2 = netifs s) by (destruct Hk2 as (_ & -> & _), Hk1 as (_ & -> & _); done).
    destruct (pending_runs s3 i e2 q (Node q x bs) l Hok3 Ho3 Hf) as (r & s4 & Hr4 & Hok4 & Hs4 & Hl4 & Ho4 & Hres);
      [by rewrite R3|done|lia|done|done|].
    exists r, s4. split.
    { unfold func. cstep Hrun. rewrite (proj2 (Z.ltb_ge _ _)) by lia. cstep (eq_refl (exit_if (S := link A E) false i s1)).
      cstep (entry_at s1 i e1 ltac:(lia) He1). rewrite (bool_decide_true (e_state e1 = _)) by done.
      rewrite bind_bind. cstep (on_entry_at s1 i (with_state ETHARP_STATE_PENDING) e1 ltac:(lia) He1).
      erewrite bind_ret by (apply on_entry_at; [lia|cbn; by apply list_lookup_insert_eq]). rewrite with_table_insert.
      fold e2 s2. cbn [orb]. rewrite bind_bind. cstep Hr3. cstep (eq_refl (ret tt s3)). cstep (eq_refl (ret q s3)).
      cstep (entry_at s3 i e2 ltac:(lia) He3). change (stable (e_state e2)) with false. cbv iota.
      rewrite (bool_decide_true (e_state e2 = _)) by done. by rewrite Hr4. }
    split; [done|]. split.
    { rewrite R3 in Hs4. eapply steps_drop; [|].
      - pose proof (keeps_trans _ _ _ _ _ Hk1 Hk2) as K. assert (R2 : rest s2 = rest s) by apply K.
        rewrite R2 in Hs3. pose proof (steps_trans _ _ _ _ _ _ _ K Hs3 ltac:(set_solver)) as K3.
        exact (steps_trans _ _ _ _ _ _ _ K3 Hs4 ltac:(set_solver)).
      - set_solver. }
    split; [eauto|right]. destruct Hl4 as (Cl & _ & Dl).
    assert (Hdev : exists s1 r', claimed s ip i s1 /\ keeps ∅ s s1 /\ hkeep (hp s1) (hp s3) /\
      frame_or_none (hp s1) (request_frame (netifs s nif) ip) (dev s) r' (dev s4)).
    { exists s1, r3. split; [done|]. split; [done|]. split; [exact Hh3|]. change (hp s1) with (hp s2). rewrite Dl. rewrite <- Hd1. change (dev s1) with (dev s2). by rewrite N2 in Hf3. }
    assert (Hcs : etharp_cached_entry s4 = etharp_cached_entry s) by (rewrite Cl, C3; exact Hc1).
    assert (Htab : forall e4, <[Z.to_nat i := e4]> (arp_table s3) = <[Z.to_nat i := e4]> (arp_table s)).
    { intros e4. rewrite T3. unfold s2. cbn. by rewrite list_insert_insert_eq, Ht1, list_insert_insert_eq. }
    destruct Hres as [(-> & p & Tp & Hw)|(-> & Tp & Hno)].
    + exists i, e, (with_q (Some p) e2), (hp s3). rewrite Tp, Htab.
      split_and!; [lia|lia|done|done|done|done|done|right; by split_and!|left; eauto].
    + exists i, e, e2, (hp s3). rewrite Tp, <- Htab, list_insert_id by done.
      split_and!; [lia|lia|done|done|done|done|done|right; by split_and!|right; auto].
Qed.
End Send.
