(* ===== verification/EtharpOutput.v ===== *)
(** * [etharp_output]: a packet goes to its next hop, or waits for the address *)
From S2P Require Export EtharpSend.

#[local] Set Warnings "-clear-no-such-hyp".

Section Output.
Context {A E : Type} `{Allocator A} `{Controller E} `{!Upper A E}.
Context (custom : ptr -> heap A -> heap A).
Implicit Types (h : heap A) (s : link A E) (e : etharp_entry) (l : list node).

(** ** A frame to a known address *)
Lemma mac_runs s nif q x bs l mac : arp_ok s -> owns (hp s) q (Node q x bs :: l) ->
  ptrs (Node q x bs :: l) ⊆ rest s -> tot_len x <= 65521 -> length mac = 6%nat ->
  runs {[q]} (ethernet_output nif q (hwaddr (netifs s nif)) mac ETHTYPE_IP) s (rest s) (fun r s' =>
    same_table s s' /\ (exists x' bs', owns (hp s') q (Node q x' bs' :: l)) /\
    delivered s s' nif x (content (Node q x bs :: l)) mac r).
Proof.
  intros Hok Ho Hr Ht Hmac. destruct (owns_head_payload _ _ _ _ _ Ho) as (o & Hpl & _).
  eapply runs_weaken; [eapply (frame_runs custom s nif q x bs l)|set_solver|]; try done.
  { by destruct (a_netifs _ Hok nif). }
  intros r s' _ (Hs & Ho' & Hd). split_and!; [done|done|]. unfold delivered, send_to. by rewrite Hpl.
Qed.

(** An old entry in use is asked for again: to its address at first, to everyone later. *)
Definition refresh_frame (n : netif) e : option (list Z) :=
  if bool_decide (e_state e = ETHARP_STATE_STABLE) then
    if ARP_AGE_REREQUEST_USED_BROADCAST <=? e_ctime e then Some (request_frame n (e_ipaddr e))
    else if ARP_AGE_REREQUEST_USED_UNICAST <=? e_ctime e
    then Some (eth_frame (e_ethaddr e) (hwaddr n) ETHTYPE_ARP
                 (arp_message ARP_REQUEST (hwaddr n) (ip_addr n) ethzero (e_ipaddr e)))
    else None
  else None.

(** Entry [i] and the device after that. *)
Definition refreshed h (n : netif) (i : Z) e (tbl tbl' : list etharp_entry) (d d' : E) : Prop :=
  match refresh_frame n e with
  | None => tbl' = tbl /\ d' = d
  | Some frame => exists r, frame_or_none h frame d r d' /\
      tbl' = if r =? ERR_OK then <[Z.to_nat i := with_state ETHARP_STATE_STABLE_REREQUESTING_1 e]> tbl else tbl
  end.

(** The packet [c] goes out to the address of entry [i]. *)
Definition via_entry s s' (nif i : Z) e x (c : list Z) (r : Z) : Prop := exists d,
  refreshed (hp s) (netifs s nif) i e (arp_table s) (arp_table s') (dev s) d /\
  (r, dev s') = send_to (netifs s nif) x c (e_ethaddr e) d.

Definition refresh (nif i : Z) e : cmd (link A E) unit :=
  if bool_decide (e_state e = ETHARP_STATE_STABLE) then
    if ARP_AGE_REREQUEST_USED_BROADCAST <=? e_ctime e then
      r <- etharp_request custom nif (e_ipaddr e) ;;
      if r =? ERR_OK then on_entry i (with_state ETHARP_STATE_STABLE_REREQUESTING_1) else ret tt
    else if ARP_AGE_REREQUEST_USED_UNICAST <=? e_ctime e then
      r <- etharp_request_dst custom nif (e_ipaddr e) (e_ethaddr e) ;;
      if r =? ERR_OK then on_entry i (with_state ETHARP_STATE_STABLE_REREQUESTING_1) else ret tt
    else ret tt
  else ret tt.

(** The request, and what becomes of the entry. *)
Lemma rerequest_runs s (m : cmd (link A E) Z) i e frame : arp_ok s -> 0 <= i -> arp_table s !! Z.to_nat i = Some e ->
  stable (e_state e) = true ->
  runs ∅ m s (rest s) (fun r s' => same_table s s' /\ hkeep (hp s) (hp s') /\ frame_or_none (hp s) frame (dev s) r (dev s')) ->
  runs ∅ (r <- m ;; if r =? ERR_OK then on_entry i (with_state ETHARP_STATE_STABLE_REREQUESTING_1) else ret tt) s (rest s)
    (fun _ s' => etharp_cached_entry s' = etharp_cached_entry s /\ exists r, frame_or_none (hp s) frame (dev s) r (dev s') /\
      arp_table s' = if r =? ERR_OK then <[Z.to_nat i := with_state ETHARP_STATE_STABLE_REREQUESTING_1 e]> (arp_table s)
                     else arp_table s).
Proof.
  intros Hok Hi He Hst Hm. eapply runs_bind; [exact Hm|set_solver|].
  intros r s1 _ ((T1 & C1) & _ & Hf) Hok1 Hr1 _ _. rewrite <- Hr1.
  destruct (r =? ERR_OK) eqn:Hr; [|apply runs_ret; [done|]; split; [done|exists r; by rewrite Hr]].
  rewrite <- T1 in He. eapply runs_weaken; [apply (runs_on_entry i _ e); [done|done|done|..]|set_solver|].
  - pose proof (Forall_lookup_1 _ _ _ _ (t_entries _ (a_table _ Hok1)) He) as Hent.
    unfold entry_ok in *. cbn. by destruct (e_state e).
  - done.
  - intros a. unfold addr_of, occupied. cbn. rewrite bool_decide_false by done. destruct (e_state e); [done|auto..].
  - intros _ s' _ ->. split; [done|]. exists r. by rewrite Hr, <- T1.
Qed.

Lemma refresh_runs s nif i e : arp_ok s -> 0 <= i -> arp_table s !! Z.to_nat i = Some e ->
  stable (e_state e) = true ->
  runs ∅ (refresh nif i e) s (rest s) (fun _ s' => etharp_cached_entry s' = etharp_cached_entry s /\
    refreshed (hp s) (netifs s nif) i e (arp_table s) (arp_table s') (dev s) (dev s')).
Proof.
  intros Hok Hi He Hst. pose proof (Forall_lookup_1 _ _ _ _ (t_entries _ (a_table _ Hok)) He) as Hent.
  unfold refresh, refreshed, refresh_frame.
  destruct (bool_decide (e_state e = ETHARP_STATE_STABLE)); [|by apply runs_ret].
  destruct (_ <=? e_ctime e); [|destruct (_ <=? e_ctime e); [|by apply runs_ret]].
  - apply rerequest_runs; try done. by apply request_runs.
  - apply rerequest_runs; try done. apply request_dst_runs; [done|].
    unfold entry_ok in Hent. destruct (e_state e); naive_solver.
Qed.

Lemma output_index_runs s nif i e q x bs l : arp_ok s -> 0 <= i -> arp_table s !! Z.to_nat i = Some e ->
  stable (e_state e) = true -> owns (hp s) q (Node q x bs :: l) -> ptrs (Node q x bs :: l) ⊆ rest s ->
  tot_len x <= 65521 ->
  runs {[q]} (etharp_output_to_arp_index custom nif q i) s (rest s) (fun r s' =>
    etharp_cached_entry s' = etharp_cached_entry s /\
    (exists x' bs', owns (hp s') q (Node q x' bs' :: l)) /\
    via_entry s s' nif i e x (content (Node q x bs :: l)) r).
Proof.
  intros Hok Hi He Hst Ho Hr Ht. pose proof (Forall_lookup_1 _ _ _ _ (t_entries _ (a_table _ Hok)) He) as Hent.
  unfold etharp_output_to_arp_index. eapply runs_pure; [by apply entry_at|].
  eapply runs_pure; [by apply assert_true|]. fold (refresh nif i e).
  eapply (runs_bind_in ∅); [by apply refresh_runs|set_solver|set_solver|].
  intros _ s1 _ (C1 & Hd1) Hok1 Hr1 Hn1 Hs1. eapply runs_pure; [reflexivity|]. rewrite Hn1.
  assert (He1 : exists e', arp_table s1 !! Z.to_nat i = Some e' /\ e_ethaddr e' = e_ethaddr e).
  { unfold refreshed in Hd1. destruct (refresh_frame _ _); [|by destruct Hd1 as [-> _]; eauto].
    destruct Hd1 as (r & _ & ->). destruct (r =? ERR_OK); [|eauto].
    eexists. split; [apply list_lookup_insert_eq; by eapply lookup_lt_Some|done]. }
  destruct He1 as (e' & He1 & Hmac). eapply runs_pure; [by apply entry_at|]. rewrite Hmac.
  rewrite <- Hr1. rewrite <- Hn1. eapply runs_weaken; [eapply (mac_runs s1 nif q x bs l)|set_solver|].
  - done.
  - eapply steps_owns; [exact Hs1|done|done|set_solver].
  - by rewrite Hr1.
  - done.
  - unfold entry_ok in Hent. destruct (e_state e); naive_solver.
  - intros r s' _ ((T2 & C2) & Ho' & Hd). split_and!; [congruence|done|].
    exists (dev s1). rewrite T2. split; [done|]. unfold delivered in Hd. by rewrite Hn1 in Hd.
Qed.

(** ** [etharp_output] *)

(** The address to resolve: the destination itself, or the gateway. *)
Definition next_hop (n : netif) (ip : Z) : option Z :=
  if negb (ip4_addr_netcmp ip (ip_addr n) (netmask n)) && negb (ip4_addr_islinklocal ip)
  then if negb (ip4_addr_isany (gw n)) then Some (gw n) else None
  else Some ip.

(** Entry [e] says where [ip] is. *)
Definition knows (ip : Z) e : Prop := stable (e_state e) = true /\ e_ipaddr e = ip.

(** The packet [c] goes to the neighbour [dst], or waits for its address. *)
Definition routed s s' (nif dst : Z) x (c : list Z) (r : Z) : Prop :=
  (exists i e, 0 <= i < ARP_TABLE_SIZE /\ arp_table s !! Z.to_nat i = Some e /\ knows dst e /\
     via_entry s s' nif i e x c r) \/
  (Forall (fun e => ~ knows dst e) (arp_table s) /\
   if unicast (netifs s nif) dst then pends s s' nif dst c r else r = ERR_ARG /\ s' = s).

Definition sent s s' (nif ip : Z) x (c : list Z) (r : Z) : Prop :=
  let n := netifs s nif in
  if ip4_addr_isbroadcast ip n then same_table s s' /\ delivered s s' nif x c ethbroadcast r
  else if ip4_addr_ismulticast ip then same_table s s' /\ delivered s s' nif x c (mcastaddr ip) r
  else match next_hop n ip with
       | None => r = ERR_RTE /\ s' = s
       | Some dst => routed s s' nif dst x c r
       end.

Lemma stable_loop_ok dst : forall tbl i,
  match stable_loop tbl i dst with
  | Some j => i <= j /\ exists e, tbl !! Z.to_nat (j - i) = Some e /\ knows dst e
  | None => Forall (fun e => ~ knows dst e) tbl
  end.
Proof.
  induction tbl as [|e tbl IH]; intros i; cbn; [done|].
  destruct (stable (e_state e) && (dst =? e_ipaddr e)) eqn:Hk.
  - apply andb_true_iff in Hk as [Hs ->%Z.eqb_eq]. split; [lia|]. exists e. by rewrite Z.sub_diag.
  - assert (Hn : ~ knows dst e).
    { intros [Hs <-]. by rewrite Hs, Z.eqb_refl in Hk. }
    specialize (IH (i + 1)). destruct (stable_loop tbl (i + 1) dst) as [j|]; [|by constructor].
    destruct IH as (Hj & e' & He' & Hk'). split; [lia|]. exists e'. split; [|done].
    by replace (Z.to_nat (j - i)) with (S (Z.to_nat (j - (i + 1)))) by lia.
Qed.

(** A walk with the hint in place. *)
Lemma cached_state s i : arp_ok s -> 0 <= i < ARP_TABLE_SIZE ->
  let s1 := Link (arp_table s) i (netifs s) (ucBuffer s) (hp s) (dev s) in arp_ok s1 /\ keeps ∅ s s1.
Proof. intros [T P C N B I V] Hi. by split. Qed.

Lemma mcastaddr_length ip : length (mcastaddr ip) = 6%nat.
Proof. done. Qed.

Lemma route_runs s nif dst q x bs l : arp_ok s -> owns (hp s) q (Node q x bs :: l) -> filled l ->
  ptrs (Node q x bs :: l) ⊆ rest s -> tot_len x <= 65521 ->
  runs {[q]} (cached <- gets etharp_cached_entry ;;
    c <- entry cached ;;
    if stable (e_state c) && (dst =? e_ipaddr c)
    then etharp_output_to_arp_index custom nif q cached
    else
      l <- gets arp_table ;;
      match stable_loop l 0 dst with
      | Some i => set_cached i ;;; etharp_output_to_arp_index custom nif q i
      | None => etharp_query custom nif dst (Some q)
      end) s (rest s) (fun r s' =>
    (exists x' bs', owns (hp s') q (Node q x' bs' :: l)) /\
    routed s s' nif dst x (content (Node q x bs :: l)) r).
Proof.
  intros Hok Ho Hf Hr Ht. eapply runs_pure; [reflexivity|].
  pose proof (a_cached _ Hok) as Hc. destruct (table_lookup s _ Hok Hc) as [c Hce].
  eapply runs_pure; [apply entry_at; [lia|done]|].
  destruct (stable (e_state c) && (dst =? e_ipaddr c)) eqn:Hhit.
  { apply andb_true_iff in Hhit as [Hst Hip%Z.eqb_eq].
    eapply runs_weaken; [eapply (output_index_runs s nif _ c q x bs l); try done; lia|set_solver|].
    intros r s' _ (_ & Ho' & Hv). split; [done|left]. exists (etharp_cached_entry s), c. by split_and!; [lia|lia|..]. }
  eapply runs_pure; [reflexivity|]. pose proof (stable_loop_ok dst (arp_table s) 0) as Hl.
  destruct (stable_loop (arp_table s) 0 dst) as [i|].
  - destruct Hl as (Hi & e & He & Hk). rewrite Z.sub_0_r in He.
    assert (Hi10 : 0 <= i < ARP_TABLE_SIZE).
    { apply lookup_lt_Some in He. rewrite (t_length _ (a_table _ Hok)) in He. unfold ARP_TABLE_SIZE. lia. }
    destruct (cached_state s i Hok Hi10) as [Hok1 Hk1]. set (s1 := Link _ i _ _ _ _) in *.
    destruct (output_index_runs s1 nif i e q x bs l Hok1 Hi He (proj1 Hk) Ho Hr Ht) as (r & s2 & Hrun & Hok2 & Hs2 & _ & Ho2 & Hv).
    exists r, s2. split; [done|]. split; [done|]. split; [exact Hs2|]. split; [done|left]. exists i, e. by split_and!; [lia|lia|..].
  - eapply runs_weaken; [by apply (query_runs custom s nif dst q x bs l)|set_solver|].
    intros r s' _ (Ho' & Hq). split; [done|right]. split; [done|].
    destruct (unicast _ _); [|done]. destruct Hq as [(i & e & Hi & He & Hst & Hip & _)|Hp]; [|done].
    exfalso. rewrite Forall_forall in Hl. apply (Hl e); [by eapply list_elem_of_lookup_2|by split].
Qed.

Lemma output_runs s nif ip q x bs l : arp_ok s -> owns (hp s) q (Node q x bs :: l) -> filled l ->
  ptrs (Node q x bs :: l) ⊆ rest s -> tot_len x <= 65521 ->
  runs {[q]} (etharp_output custom nif q ip) s (rest s) (fun r s' =>
    (exists x' bs', owns (hp s') q (Node q x' bs' :: l)) /\
    sent s s' nif ip x (content (Node q x bs :: l)) r).
Proof.
  intros Hok Ho Hf Hr Ht. unfold etharp_output, sent. eapply func_pure; [reflexivity|].
  assert (Hmac : forall mac, length mac = 6%nat -> 
    runs {[q]} (func (ethernet_output nif q (hwaddr (netifs s nif)) mac ETHTYPE_IP)) s (rest s) (fun r s' =>
      (exists x' bs', owns (hp s') q (Node q x' bs' :: l)) /\
      same_table s s' /\ delivered s s' nif x (content (Node q x bs :: l)) mac r)).
  { intros mac Hm. apply runs_func. eapply runs_weaken; [by apply (mac_runs s nif q x bs l mac)|set_solver|]. naive_solver. }
  destruct (ip4_addr_isbroadcast ip (netifs s nif)); [by apply Hmac|].
  destruct (ip4_addr_ismulticast ip); [by apply Hmac|]. unfold next_hop.
  destruct (negb _ && negb _); [destruct (ip4_addr_isany (gw (netifs s nif))); cbn [negb]|].
  - exists ERR_RTE, s. split_and!; [done|done|apply keeps_refl|eauto|done|done].
  - eapply func_pure; [reflexivity|]. apply runs_func. by apply route_runs.
  - eapply func_pure; [reflexivity|]. apply runs_func. by apply route_runs.
Qed.
End Output.
