(* ===== verification/EtharpReceive.v ===== *)
(** * Received frames: [low_level_input], [ethernet_input], [ethernetif_input] *)
From S2P Require Export EtharpOutput.

#[local] Set Warnings "-clear-no-such-hyp".

Section Fill.
Context {A E : Type} `{Allocator A} `{Controller E} `{!Upper A E}.
Context (custom : ptr -> heap A -> heap A).
Implicit Types (h : heap A) (s : link A E) (l : list node).

(** No memory block grows or shrinks. *)
Definition sized h h' : Prop := forall p, length <$> bl h' !! p = length <$> bl h !! p.

Lemma write_mem_sized pl off cs h h' : write_mem pl off cs h = (Ret tt, h') -> sized h h'.
Proof.
  unfold write_mem. destruct pl as [[b o]|].
  - unfold bind, block. destruct (bl h !! b) as [a|] eqn:Hb; [|done].
    unfold write_array. destruct (_ && _) eqn:Hw; [|done]. cbn. intros [= <-] p. cbn.
    destruct (decide (p = b)) as [->|Hne]; [|by rewrite lookup_insert_ne].
    rewrite lookup_insert_eq, Hb. cbn. f_equal. apply write_list_length. lia.
  - destruct (_ =? _)%nat; [|done]. by intros [= <-].
Qed.

(** The same pbufs, with other bytes. *)
Definition same_shape l l' : Prop := n_ptr <$> l' = n_ptr <$> l /\ n_buf <$> l' = n_buf <$> l.

Lemma scatter_ok frame q : forall l2 n l1 k s, owns (hp s) q (l1 ++ l2) -> alloc_inv (hp s) ->
  (length l2 < n)%nat -> 0 <= k -> Z.of_nat (length frame) <= 1518 ->
  k + Z.of_nat (length (content l2)) = Z.of_nat (length frame) ->
  exists h' l2', scatter n (n_ptr <$> head l2) frame k s = (Ret tt, with_hp h' s) /\
    owns h' q (l1 ++ l2') /\ same_shape l2 l2' /\ content l2' = drop (Z.to_nat k) frame /\
    hstep (ptrs l2) (live (al (hp s))) (hp s) h' /\ sized (hp s) h'.
Proof.
  induction l2 as [|[p x bs] l2 IH]; intros n l1 k s Ho Hi Hn Hk Hmax Hlen.
  - change (content []) with (@nil Z) in *. exists (hp s), []. rewrite with_hp_hp, drop_ge by (cbn in Hlen; lia).
    split; [by destruct n|]. do 3 (split; [done|]). split; [by apply hstep_refl|done].
  - destruct n as [|n]; [cbn in Hn; lia|]. cbn [scatter head fmap option_fmap option_map n_ptr].
    pose proof Ho as [Hp _]. destruct (packet_mid _ _ _ _ _ Hp) as (Hx & Hb & _). cbn [n_ptr n_buf n_bytes] in *.
    pose proof (holds_length _ _ _ Hb) as Hl. rewrite content_cons, length_app in Hlen. cbn [n_bytes] in Hlen.
    pstep (load_at _ p x Hx). rewrite (proj2 (Z.leb_le _ _)) by (change ENET_FRAME_MAX_FRAMELEN with 1518; lia).
    cstep (read_bytes_at frame k (len x) s Hk ltac:(lia) ltac:(lia)).
    set (cs := take (Z.to_nat (len x)) (drop (Z.to_nat k) frame)).
    assert (Hcs : Z.of_nat (length cs) = len x) by (unfold cs; rewrite length_take, length_drop; lia).
    destruct (owns_write (hp s) q l1 p x bs l2 0 cs Ho Hi ltac:(lia) ltac:(lia)) as (h1 & Hw & Ho1 & Hs1).
    pstep Hw. assert (Hwl : write_list bs (Z.to_nat 0) cs = cs).
    { unfold write_list. change (Z.to_nat 0) with 0%nat. rewrite take_0. cbn. rewrite drop_ge by lia. apply app_nil_r. }
    rewrite Hwl in Ho1. assert (Hnx : next x = n_ptr <$> head l2).
    { pose proof (packet_suffix _ _ l1 _ Hp) as [p' (_ & _ & _ & _ & Hp2)].
      destruct l2 as [|m l2]; [done|]. exact (packet_head _ _ _ _ Hp2). }
    destruct (IH n (l1 ++ [Node p x cs]) (k + len x) (with_hp h1 s)) as (h2 & l2' & Hr & Ho2 & (Sp & Sb) & Hc & Hs2 & Hz2).
    { by rewrite <- app_assoc. } { by destruct Hs1 as (_ & _ & ?). } { cbn in Hn; lia. } { lia. } { done. } { lia. }
    rewrite Hnx. exists h2, (Node p x cs :: l2'). split; [exact Hr|]. split; [by rewrite <- app_assoc in Ho2|].
    split; [by split; cbn; rewrite ?Sp, ?Sb|]. split; [|split].
    + rewrite content_cons, Hc. cbn [n_bytes]. unfold cs. rewrite Z2Nat.inj_add, <- drop_drop by lia. apply take_drop.
    + change (ptrs (Node p x bs :: l2)) with ({[p]} ∪ ptrs l2). destruct Hs1 as (? & L1 & ?).
      change (hp (with_hp h1 s)) with h1 in Hs2. rewrite L1 in Hs2. eapply hstep_trans; [|exact Hs2]. by split_and!.
    + intros r. rewrite Hz2. exact (write_mem_sized _ _ _ _ _ Hw r).
Qed.

(** A packet in fresh pbufs of the pool, with the bytes of a frame. *)
Definition received s (p : ptr) n l (frame : list Z) : Prop :=
  owns (hp s) p (n :: l) /\ content (n :: l) = frame /\ pool_block (hp s) p 0 (n :: l) /\ pooled (n :: l).

Lemma low_level_input_ok s frame : arp_ok s -> (forall q, PBUF_FLAG_custom (stale_pbuf q) = false) ->
  0 < Z.of_nat (length frame) <= 1518 ->
  exists o s', low_level_input custom frame s = (Ret o, s') /\ arp_ok s' /\ same_table s s' /\ same_link s s' /\
    match o with
    | None => keeps ∅ s s' /\ refused custom PBUF_RAW (Z.of_nat (length frame)) PBUF_POOL (hp s)
    | Some p => exists n l, received s' p n l frame /\ ptrs (n :: l) ## live (al (hp s)) /\
        hstep (ptrs (n :: l)) (ptrs (n :: l) ∪ live (al (hp s))) (hp s) (hp s') /\
        steps ∅ (rest s ∪ ptrs (n :: l)) s s'
    end.
Proof.
  intros Hok Hst Hf. unfold low_level_input. rewrite u16_small by lia.
  destruct (owns_alloc_pool custom PBUF_RAW 0 (Z.of_nat (length frame)) (hp s) eq_refl ltac:(lia) (a_heap _ Hok) Hst)
    as ([p|] & h1 & Hal & Hpost); pstep Hal.
  2:{ destruct (after_hkeep s h1 (ucBuffer s) (dev s) Hok) as [Hok1 Hk1]; [by apply (hkeep_fresh _ _ ∅)|by destruct Hok|by destruct Hok|].
      exists None, (with_hp h1 s). split_and!; [done..|by exists h1]. }
  destruct Hpost as (l0 & Ho & Hpool & Hlen & (n & l & a & -> & Hpl & Hbl & Hla & Hln & Hfl) & Hfresh & Hs1).
  pose proof (owns_head _ _ _ _ Ho) as Hq. pose proof Ho as [Hp _].
  assert (Hx : pb h1 !! p = Some (n_buf n)) by (rewrite <- Hq; eapply packet_lookup; [exact Hp|left]).
  pstep (load_at (hp (with_hp h1 s)) p (n_buf n) Hx).
  destruct n as [p' x bs]. cbn [n_ptr] in Hq. subst p'. cbn [n_buf] in *.
  assert (Hfill : exists h2 l2, (match next x with
       | None => pbufs (write_mem (payload x) 0 frame)
       | Some _ => n <- pbufs fuel ;; scatter n (Some p) frame 0
       end) (with_hp h1 s) = (Ret tt, with_hp h2 s) /\
     owns h2 p l2 /\ same_shape (Node p x bs :: l) l2 /\ content l2 = frame /\
     hstep (ptrs (Node p x bs :: l)) (live (al h1)) h1 h2 /\ sized h1 h2).
  { pose proof Hp as (_ & _ & Hb & _ & Hp2). pose proof (holds_length _ _ _ Hb) as Hlb. cbn [n_bytes] in *.
    destruct l as [|m l].
    - cbn in Hp2. rewrite Hp2. rewrite content_cons, length_app in Hlen. change (content []) with (@nil Z) in Hlen. cbn in Hlen.
      destruct (owns_write h1 p [] p x bs [] 0 frame Ho ltac:(by destruct Hs1 as (_ & _ & ?)) ltac:(lia) ltac:(lia)) as (h2 & Hw & Ho2 & Hs2).
      exists h2, [Node p x frame]. split; [exact (pbufs_run _ (with_hp h1 s) _ _ Hw)|].
      assert (Hwl : write_list bs (Z.to_nat 0) frame = frame).
      { unfold write_list. change (Z.to_nat 0) with 0%nat. rewrite take_0. cbn. rewrite drop_ge by lia. apply app_nil_r. }
      cbn [app] in Ho2. rewrite Hwl in Ho2. split; [done|]. split; [done|]. split; [|split; [|by eapply write_mem_sized]].
      + rewrite content_cons. apply app_nil_r.
      + eapply hstep_weaken; [exact Hs2|]. unfold ptrs. cbn. set_solver.
    - rewrite (packet_head _ _ _ _ Hp2). rewrite (bind_ret _ _ _ (S (size (pb h1))) (with_hp h1 s)) by done.
      pose proof (packet_size _ _ _ Hp).
      destruct (scatter_ok frame p (Node p x bs :: m :: l) (S (size (pb h1))) [] 0 (with_hp h1 s)) as
        (h2 & l2 & Hr & Ho2 & Hsh & Hc & Hs2 & Hz2); [done|by destruct Hs1 as (_ & _ & ?)|lia|lia|lia|lia|].
      exists h2, l2. split; [exact Hr|]. by repeat (split; [done|]). }
  destruct Hfill as (h2 & l2 & Hr & Ho2 & (Sp & Sb) & Hc & Hs2 & Hz2). rewrite (bind_ret _ _ _ _ _ Hr).
  destruct l2 as [|n2 l2]; [done|]. cbn in Sp, Sb. injection Sp as Sp1 Sp2. injection Sb as Sb1 Sb2.
  assert (Hps : ptrs (Node p x bs :: l) = ptrs (n2 :: l2)) by (unfold ptrs; cbn; by rewrite Sp1, Sp2).
  rewrite Hps in *. pose proof (hstep_trans _ _ _ _ _ _ _ Hs1 Hs2) as (Hs & HL & Hi2).
  destruct Hs1 as (_ & HL1 & _). rewrite HL1 in HL.
  exists (Some p), (with_hp h2 s). split; [done|]. split; [|split; [done|split; [done|]]].
  - change (with_hp h2 s) with (after s h2 (ucBuffer s) (dev s)). apply arp_ok_after; [done|done|by destruct Hok|by destruct Hok|].
    intros r Hr'. apply Hs. pose proof (held_live s r Hok Hr'). set_solver.
  - exists n2, l2. split; [split; [done|split; [done|split]]|split].
    + specialize (Hz2 p). rewrite Hbl in Hz2. cbn in Hz2. destruct (bl h2 !! p) as [a2|] eqn:Ha2; [|done].
      injection Hz2 as Hz2. exists n2, l2, a2. rewrite Sb1. cbn [hp with_hp]. rewrite Hc, Hln.
      destruct Hfl as [Hfl Hfill]. split_and!; [done|done|done|lia|by rewrite Hlen|done|].
      apply (Forall_fmap n_buf (fun b => 0 < len b)). rewrite Sb2. by apply Forall_fmap.
    + unfold pooled, pool_node in *. apply (Forall_fmap n_buf (fun b => type b = PBUF_POOL)).
      rewrite fmap_cons, Sb1, Sb2. apply Forall_cons in Hpool as [(? & _) Hpool]. constructor; [done|].
      apply Forall_fmap. eapply Forall_impl; [exact Hpool|]. by intros ? (? & _).
    + done.
    + split.
      { eapply hstep_weaken; [by split|set_solver]. }
      unfold steps, rest. cbn. rewrite HL. split_and!; [|done|intros r Hr' _; apply Hs; set_solver].
      apply set_eq. intros r. pose proof (held_live s). set_solver.
Qed.
End Fill.

Section Dispatch.
Context {A E : Type} `{Allocator A} `{Controller E} `{!Upper A E}.
Context (custom : ptr -> heap A -> heap A).
Implicit Types (h : heap A) (s : link A E) (l : list node).

(** ** [ethernet_input] *)

(** The flags of the first pbuf. *)
Lemma owns_flags h q x bs l v : owns h q (Node q x bs :: l) -> alloc_inv h ->
  PBUF_FLAG_custom (with_flags v x) = false ->
  let h1 := set_pb (<[q := with_flags v x]> (pb h)) h in
  owns h1 q (Node q (with_flags v x) bs :: l) /\ hstep {[q]} (live (al h)) h h1.
Proof.
  intros [Hp Ho] [I1 I2] Hc. pose proof (packet_NoDup _ _ _ Hp) as Hnd.
  cbn in Hnd. apply NoDup_cons in Hnd as [Hnd _].
  destruct Hp as (_ & Hx & Hb & Ht & Hp). split; [split|].
  - split_and!; [done|apply lookup_insert_eq|done|done|].
    apply (packet_keep l _ h); [done| |done]. intros n Hn. cbn. rewrite lookup_insert_ne; [done|].
    intros ->. apply Hnd, list_elem_of_fmap. eauto.
  - apply Forall_cons in Ho as [(Hb1 & Hr & _ & Hty) Ho]. by constructor.
  - unfold hstep, alloc_inv. cbn. rewrite dom_insert. assert (q ∈ live (al h)) by (apply I1, elem_of_dom; eauto).
    split_and!; [|done|set_solver|done]. intros r Hr. by rewrite lookup_insert_ne by set_solver.
Qed.

(** A change of the first pbuf, whose memory stays as it is. *)
Definition reflagged s (p : ptr) x bs l s' : Prop := exists h1 x1,
  s' = with_hp h1 s /\ owns h1 p (Node p x1 bs :: l) /\ hstep {[p]} (live (al (hp s))) (hp s) h1 /\
  bl h1 = bl (hp s) /\ payload x1 = payload x /\ len x1 = len x /\ tot_len x1 = tot_len x /\
  type x1 = type x.

Lemma mark_ok s p x bs l f : owns (hp s) p (Node p x bs :: l) -> alloc_inv (hp s) -> flags x = 0 ->
  f = PBUF_FLAG_LLMCAST \/ f = PBUF_FLAG_LLBCAST -> exists s',
  pbufs (update p (fun x => with_flags (Z.lor (flags x) f) x)) s = (Ret tt, s') /\ reflagged s p x bs l s'.
Proof.
  intros Ho Hi Hfl Hf. pose proof Ho as [(_ & Hx & _) _].
  destruct (owns_flags (hp s) p x bs l (Z.lor (flags x) f) Ho Hi) as (Ho1 & Hs1).
  { unfold PBUF_FLAG_custom. cbn. rewrite Hfl. by destruct Hf as [-> | ->]. }
  eexists. split.
  { apply pbufs_run. by rewrite (update_at _ _ x _ Hx). }
  do 2 eexists. split; [done|]. by repeat (split; [done|]).
Qed.

Lemma reflagged_id s p x bs l : owns (hp s) p (Node p x bs :: l) -> alloc_inv (hp s) -> reflagged s p x bs l s.
Proof.
  intros. exists (hp s), x. split; [by rewrite with_hp_hp|]. split; [done|]. split; [by apply hstep_refl|done].
Qed.

Definition f_type (frame : list Z) : Z := of_le16 (field 12 2 frame).

(** The frames the interface hands to a protocol. *)
Definition frame_for (ty : Z) (n : netif) (frame : list Z) : bool :=
  (SIZEOF_ETH_HDR <? Z.of_nat (length frame)) && (f_type frame =? PP_HTONS ty) &&
  truthy (Z.land (nflags n) NETIF_FLAG_ETHARP).

(** [s0] is [s] but for the first pbuf of the packet at [p]. *)
Definition seen s (p : ptr) s0 : Prop :=
  same_table s s0 /\ netifs s0 = netifs s /\ dev s0 = dev s /\ hstep {[p]} (live (al (hp s))) (hp s) (hp s0).

(** The ARP message in a frame; what is missing in a short frame is what the buffer held. *)
Definition message_of (frame m : list Z) : Prop :=
  length m = 28%nat /\ take (length frame - 14) m = take 28 (drop 14 frame).

Definition learns_from (nif : Z) (frame : list Z) (p : ptr) s s' : Prop := exists s0 m,
  seen s p s0 /\ message_of frame m /\
  if m_valid m then processed nif m s0 s' else same_table s0 s' /\ dev s' = dev s0.

(** IP, with the interfaces [ns], takes a packet [c] with [takes c], in pbufs of the pool,
    behind its Ethernet header in the first buffer and the rest of that within reach, and
    returns with the invariant and the interfaces as they were.  [stack_ip_ok] of
    [IpSafe] proves it of [ip4_input]. *)
Definition ip_ok (takes : list Z -> Prop) (ns : Z -> netif) : Prop := forall s p n l m nif, arp_ok s -> netifs s = ns -> owns (hp s) p (n :: l) -> ptrs (n :: l) ⊆ rest s ->
  pooled (n :: l) -> at_payload (hp s) p (n_buf n) 1502 m -> payload (n_buf n) = Some (p, 14) ->
  0 < len (n_buf n) -> tot_len (n_buf n) <= 1500 ->
  filled l -> bytes (content (n :: l)) -> takes (content (n :: l)) ->
  exists s', ip4_input p nif s = (Ret tt, s') /\ arp_ok s' /\ netifs s' = netifs s.

Lemma received_filled s p n l frame : received s p n l frame -> filled l.
Proof. by intros (_ & _ & (n' & l' & a & [= <- <-] & _ & _ & _ & _ & _ & Hf) & _). Qed.

(** The frame as the first pbuf has it. *)
Lemma received_bytes s p n l frame : received s p n l frame -> Z.of_nat (length frame) <= 1518 ->
  exists x bs a, n = Node p x bs /\ payload x = Some (p, 0) /\ bl (hp s) !! p = Some a /\ length a = 1516%nat /\
    flags x = 0 /\ len x = Z.min (Z.of_nat (length frame)) 1516 /\ tot_len x = Z.of_nat (length frame) /\
    bs = take (length bs) a /\ Z.of_nat (length bs) = len x /\ bs = take (length bs) frame.
Proof.
  intros (Ho & Hc & (n' & l' & a & [= <- <-] & Hpl & Ha & Hla & Hln & Hfl & _) & _) Hmax.
  pose proof (owns_head _ _ _ _ Ho) as Hq. destruct n as [p' x bs]. cbn [n_ptr] in Hq. subst p'.
  destruct Ho as [(_ & _ & Hb & Ht & _) _]. pose proof (holds_length _ _ _ Hb) as Hl. cbn [n_buf n_bytes] in *.
  rewrite Hc in Hln. pose proof BUFSIZE as HB. rewrite HB in Hla, Hln.
  exists x, bs, a. rewrite Z.sub_0_r in Hln. split_and!; try done; try lia.
  - rewrite <- Hc, content_cons, length_app. cbn [n_bytes]. lia.
  - destruct Hb as (b & o & a' & Hpl' & Ha' & _ & _ & _ & ->). rewrite Hpl in Hpl'. injection Hpl' as <- <-.
    rewrite Ha in Ha'. injection Ha' as <-. rewrite drop_0, length_take. f_equal. lia.
  - rewrite <- Hc, content_cons. cbn [n_bytes]. by rewrite take_app_length.
Qed.

Lemma message_bytes_of (a frame : list Z) k : length a = 1516%nat -> (k <= 1516)%nat -> (k <= length frame)%nat ->
  take k a = take k frame -> k = length frame \/ (42 <= k)%nat -> message_of frame (take 28 (drop 14 a)).
Proof.
  intros Ha Hk Hf Heq Hc. split; [rewrite length_take, length_drop; lia|].
  assert (H42 : forall n, (n <= k)%nat -> take n a = take n frame).
  { intros n Hn. apply (f_equal (take n)) in Heq. rewrite !take_take in Heq. by rewrite Nat.min_l in Heq. }
  assert (Hsub : forall n (b : list Z), take n (drop 14 b) = drop 14 (take (14 + n) b)).
  { intros n b. by rewrite take_drop_commute. }
  destruct Hc as [-> |Hc].
  - rewrite take_take, Nat.min_comm, <- take_take. rewrite !(Hsub _ a), !(Hsub _ frame).
    destruct (decide (14 <= length frame)%nat) as [Hl|Hl].
    + replace (14 + (length frame - 14))%nat with (length frame) by lia. rewrite Heq, firstn_all.
      by rewrite Hsub.
    + replace (length frame - 14)%nat with 0%nat by lia. rewrite (drop_ge (take _ a)), (drop_ge (take _ frame));
        rewrite ?length_take; [done|lia|lia].
  - rewrite take_take, Nat.min_r by lia. rewrite !Hsub. by rewrite H42.
Qed.

(** The packet is taken by nobody. *)
Lemma drop_ok s s1 p x bs l : arp_ok s1 -> owns (hp s1) p (Node p x bs :: l) -> ptrs (Node p x bs :: l) ⊆ rest s ->
  steps {[p]} (rest s) s s1 -> same_table s s1 -> dev s1 = dev s ->
  exists s', (pbufs (pbuf_free custom (Some p)) ;;; ret ERR_OK) s1 = (Ret ERR_OK, s') /\ arp_ok s' /\
    netifs s' = netifs s /\ steps (ptrs (Node p x bs :: l)) (rest s ∖ ptrs (Node p x bs :: l)) s s' /\
    same_table s s' /\ dev s' = dev s.
Proof.
  intros Hok Ho Hsub Hs (T1 & C1) Hd. assert (Hr1 : rest s1 = rest s) by apply Hs.
  destruct (release_runs custom s1 p (Node p x bs) l Hok Ho ltac:(by rewrite Hr1)) as
    (k & s' & Hr & Hok' & Hs' & (T2 & C2) & (_ & _ & D2)).
  exists s'. split; [by cstep Hr|]. split; [done|]. rewrite Hr1 in Hs'.
  pose proof (steps_trans _ _ _ _ _ _ _ Hs Hs' ltac:(set_solver)) as Hall.
  split; [by destruct Hall as (_ & -> & _)|]. split; [|split; [split; congruence|congruence]].
  eapply steps_drop; [exact Hall|]. pose proof (ptrs_elem (Node p x bs) (Node p x bs :: l) ltac:(left)) as Hp.
  cbn in Hp. set_solver.
Qed.
End Dispatch.
