(* ===== verification/EtharpDispatch.v ===== *)
(** * The dispatch of received frames, and what an ARP message of one host does at another *)
From S2P Require Export EtharpReceive TextThms.

#[local] Set Warnings "-clear-no-such-hyp".

Section Dispatch.
Context {A E : Type} `{Allocator A} `{Controller E} `{!Upper A E}.
Context (custom : ptr -> heap A -> heap A).
Implicit Types (h : heap A) (s : link A E) (l : list node).

(** The flags of the packet from the destination address. *)
Definition mark (p : ptr) (dest : list Z) : cmd (link A E) unit :=
  if truthy (Z.land (nth 0 dest 0) 1) then
    if nth 0 dest 0 =? LL_IP4_MULTICAST_ADDR_0 then
      if (nth 1 dest 0 =? LL_IP4_MULTICAST_ADDR_1) && (nth 2 dest 0 =? LL_IP4_MULTICAST_ADDR_2)
      then pbufs (update p (fun x => with_flags (Z.lor (flags x) PBUF_FLAG_LLMCAST) x))
      else ret tt
    else if bool_decide (dest = ethbroadcast)
    then pbufs (update p (fun x => with_flags (Z.lor (flags x) PBUF_FLAG_LLBCAST) x))
    else ret tt
  else ret tt.

Lemma mark_dest_ok s p x bs l dest : owns (hp s) p (Node p x bs :: l) -> alloc_inv (hp s) -> flags x = 0 ->
  exists s', mark p dest s = (Ret tt, s') /\ reflagged s p x bs l s'.
Proof.
  intros Ho Hi Hf. unfold mark. repeat case_match; eauto using mark_ok, reflagged_id.
Qed.

(** The Ethernet header is taken off. *)
Lemma pull_ok s p x bs l a : owns (hp s) p (Node p x bs :: l) -> alloc_inv (hp s) ->
  payload x = Some (p, 0) -> bl (hp s) !! p = Some a -> length a = 1516%nat -> 14 < len x -> tot_len x <= 65535 ->
  exists h1 x1, (if len x <? SIZEOF_ETH_HDR then ret 1 else pbufs (pbuf_header p (- SIZEOF_ETH_HDR))) s
    = (Ret 0, with_hp h1 s) /\ owns h1 p (Node p x1 (drop 14 bs) :: l) /\
  hstep {[p]} (live (al (hp s))) (hp s) h1 /\ at_payload h1 p x1 1502 (drop 14 a) /\
  x1 = moved 14 x.
Proof.
  intros Ho Hi Hpl Ha Hla Hl Ht. change SIZEOF_ETH_HDR with 14. rewrite (proj2 (Z.ltb_ge _ _)) by lia.
  destruct (header_pull (hp s) p x bs l 14 Ho Hi ltac:(lia) ltac:(lia) Ht) as (h1 & Hr & Ho1 & Hs1 & Hb1).
  exists h1, (moved 14 x). split; [by apply pbufs_run|]. split; [done|]. split; [done|].
  split; [|done].
  exists 14, a. split; [cbn; by rewrite Hpl|]. rewrite Hb1, Hla. split_and!; [done|done|lia|].
  rewrite take_ge; [done|]. rewrite length_drop. change (Z.to_nat 14) with 14%nat. lia.
Qed.

Lemma frame_for_long ty n frame : frame_for ty n frame = true -> (14 <? Z.of_nat (length frame)) = true.
Proof. unfold frame_for. change SIZEOF_ETH_HDR with 14. by destruct (14 <? _). Qed.

Definition frame_taken s s' (nif : Z) (frame : list Z) p l : Prop :=
  frame_for ETHTYPE_IP (netifs s nif) frame = false ->
  steps (ptrs l) (rest s ∖ ptrs l) s s' /\
  if frame_for ETHTYPE_ARP (netifs s nif) frame then learns_from nif frame p s s'
  else same_table s s' /\ dev s' = dev s.

(** What follows the marking of the packet. *)
Definition dispatch (p : ptr) (nif : Z) x (type_ : Z) : cmd (link A E) Z :=
  let free_and_return := pbufs (pbuf_free custom (Some p)) ;;; ret ERR_OK in
  n <- gets (fun s => netifs s nif) ;;
  let arp_netif := truthy (Z.land (nflags n) NETIF_FLAG_ETHARP) in
  if type_ =? PP_HTONS ETHTYPE_IP then
    if negb arp_netif then free_and_return else
    r <- (if len x <? SIZEOF_ETH_HDR then ret 1 else pbufs (pbuf_header p (- SIZEOF_ETH_HDR))) ;;
    if truthy r then free_and_return else ip4_input p nif ;;; ret ERR_OK
  else if type_ =? PP_HTONS ETHTYPE_ARP then
    if negb arp_netif then free_and_return else
    r <- (if len x <? SIZEOF_ETH_HDR then ret 1 else pbufs (pbuf_header p (- SIZEOF_ETH_HDR))) ;;
    if truthy r then free_and_return else etharp_input custom p nif ;;; ret ERR_OK
  else free_and_return.

(** The type is read and the packet is marked. *)
Lemma ethernet_marked s p x bs l frame nif : arp_ok s -> received s p (Node p x bs) l frame ->
  Z.of_nat (length frame) <= 1518 -> 14 < len x ->
  exists s1, ethernet_input custom p nif s = dispatch p nif x (f_type frame) s1 /\ reflagged s p x bs l s1.
Proof.
  intros Hok Hrec Hmax Hlong. pose proof Hrec as (Ho & _).
  destruct (received_bytes s p _ l frame Hrec Hmax) as
    (x' & bs' & a & [= <- <-] & Hpl & Ha & Hla & Hfl & Hlx & Htx & Hbsa & Hlb & Hbsf).
  pose proof (a_heap _ Hok) as Hi. pose proof Ho as [(_ & Hx & Hb & _) _].
  unfold ethernet_input. pstep (load_at _ p x Hx).
  change (len x <=? SIZEOF_ETH_HDR) with (len x <=? 14). rewrite (proj2 (Z.leb_gt _ _)) by lia.
  assert (H14 : forall off k, (off + k <= 14)%nat -> take k (drop off bs) = field off k frame).
  { intros off k Hk. unfold field. rewrite Hbsf. rewrite !take_drop_commute, take_take. f_equal. f_equal. lia. }
  unfold read16. rewrite bind_bind. pstep (read_mem_at _ x bs 12 2 Hb ltac:(lia) ltac:(lia) ltac:(lia)).
  change (Z.to_nat 2) with 2%nat; change (Z.to_nat 12) with 12%nat; rewrite (H14 12%nat 2%nat) by lia. cstep (eq_refl (ret (of_le16 (field 12 2 frame)) s)).
  pstep (read_mem_at _ x bs 0 6 Hb ltac:(lia) ltac:(lia) ltac:(lia)).
  set (dest := take _ _). fold (mark p dest).
  destruct (mark_dest_ok s p x bs l dest Ho Hi Hfl) as (s1 & Hr1 & Hrf). cstep Hr1. by exists s1.
Qed.

(** The packet as the protocol gets it: without the Ethernet header, the rest as it was. *)
Definition handed s (p : ptr) x (bs : list Z) l (m : list Z) s2 : Prop := exists x2,
  arp_ok s2 /\ steps {[p]} (rest s) s s2 /\ seen s p s2 /\
  owns (hp s2) p (Node p x2 (drop 14 bs) :: l) /\ at_payload (hp s2) p x2 1502 m /\
  type x2 = type x /\ len x2 = len x - 14 /\ tot_len x2 = tot_len x - 14 /\ payload x2 = Some (p, 14).

Lemma header_off s p x bs l a s1 : arp_ok s -> reflagged s p x bs l s1 -> p ∈ rest s ->
  payload x = Some (p, 0) -> bl (hp s) !! p = Some a -> length a = 1516%nat -> 14 < len x -> tot_len x <= 65535 ->
  arp_ok s1 /\ steps {[p]} (rest s) s s1 /\ same_table s s1 /\ dev s1 = dev s /\
  (exists x1, owns (hp s1) p (Node p x1 bs :: l)) /\
  exists s2, (if len x <? SIZEOF_ETH_HDR then ret 1 else pbufs (pbuf_header p (- SIZEOF_ETH_HDR))) s1 = (Ret 0, s2) /\
    handed s p x bs l (drop 14 a) s2.
Proof.
  intros Hok (h1 & x1 & -> & Ho1 & Hs1 & Hb1 & Hp1 & Hl1 & Ht1 & Hty1) Hp Hpl Ha Hla Hlong Htl.
  destruct (within_packet s h1 p Hok Hs1 Hp) as [Hok1 Hst1].
  destruct (pull_ok (with_hp h1 s) p x1 bs l a Ho1 (a_heap _ Hok1)) as (h2 & x2 & Hr2 & Ho2 & Hs2 & Hm & Hx2);
    [by rewrite Hp1|by cbn; rewrite Hb1|done|lia|lia|].
  destruct (within_packet (with_hp h1 s) h2 p Hok1 Hs2) as [Hok2 Hst2]; [by destruct Hst1 as (-> & _)|].
  assert (Hrest1 : rest (with_hp h1 s) = rest s) by apply Hst1. rewrite Hrest1 in Hst2.
  pose proof (steps_trans _ _ _ _ _ _ _ Hst1 Hst2 ltac:(set_solver)) as Hst.
  assert (Hseen : hstep {[p]} (live (al (hp s))) (hp s) h2).
  { apply (hstep_weaken ({[p]} ∪ {[p]})); [|set_solver]. eapply hstep_trans; [exact Hs1|].
    destruct Hs1 as (_ & L1 & _). change (hp (with_hp h1 s)) with h1 in Hs2. by rewrite L1 in Hs2. }
  split; [done|]. split; [done|]. split; [done|]. split; [done|]. split; [by exists x1|].
  rewrite Hl1 in Hr2. exists (with_hp h2 (with_hp h1 s)). split; [done|]. exists x2. split; [done|].
  split; [eapply steps_drop; [exact Hst|set_solver]|]. split; [by repeat (split; [done|])|].
  split; [done|]. split; [done|]. subst x2. cbn. by rewrite Hl1, Ht1, Hp1, Hpl.
Qed.

(** A packet of a known type is handed to its protocol. *)
Lemma ethernet_handed s p x bs l frame nif : arp_ok s -> received s p (Node p x bs) l frame ->
  ptrs (Node p x bs :: l) ⊆ rest s -> Z.of_nat (length frame) <= 1518 ->
  exists m, bs = take (length bs) frame /\ Z.of_nat (length bs) = Z.min (Z.of_nat (length frame)) 1516 /\
    take (length bs - 14) m = take (length bs - 14) (drop 14 frame) /\ message_of frame (take 28 m) /\
  forall ty, frame_for ty (netifs s nif) frame = true -> ty = ETHTYPE_IP \/ ty = ETHTYPE_ARP ->
  exists s2, ethernet_input custom p nif s =
      ((if ty =? ETHTYPE_IP then ip4_input p nif else etharp_input custom p nif) ;;; ret ERR_OK) s2 /\
    handed s p x bs l m s2.
Proof.
  intros Hok Hrec Hsub Hmax.
  destruct (received_bytes s p _ l frame Hrec Hmax) as
    (x' & bs' & a & [= <- <-] & Hpl & Ha & Hla & Hfl & Hlx & Htx & Hbsa & Hlb & Hbsf).
  exists (drop 14 a). split; [done|]. split; [lia|]. split.
  { rewrite <- !skipn_firstn_comm. by rewrite <- Hbsa, <- Hbsf. }
  split; [apply (message_bytes_of a frame (length bs)); [done|lia|lia|by rewrite <- Hbsa, <- Hbsf|lia]|].
  intros ty Hfor Hty. assert (Hp : p ∈ rest s) by (apply Hsub, (ptrs_elem (Node p x bs)); left).
  unfold frame_for in Hfor. apply andb_true_iff in Hfor as [Hfor Hf]. apply andb_true_iff in Hfor as [Hlen Ht].
  change SIZEOF_ETH_HDR with 14 in Hlen. apply Z.eqb_eq in Ht.
  destruct (ethernet_marked s p x bs l frame nif Hok Hrec Hmax ltac:(lia)) as (s1 & Hr & Hrf).
  destruct (header_off s p x bs l a s1 Hok Hrf Hp Hpl Ha Hla ltac:(lia) ltac:(lia)) as (_ & (_ & Hn & _) & _ & _ & _ & s2 & Hr2 & Hh).
  exists s2. split; [|done]. rewrite Hr. unfold dispatch. cstep (eq_refl (gets (fun s => netifs s nif) s1)).
  rewrite Hn, Hf, Ht. destruct Hty as [-> | ->]; cbn [negb].
  - rewrite Z.eqb_refl. by cstep Hr2.
  - change (PP_HTONS ETHTYPE_ARP =? PP_HTONS ETHTYPE_IP) with false. change (ETHTYPE_ARP =? ETHTYPE_IP) with false.
    rewrite Z.eqb_refl. by cstep Hr2.
Qed.

(** The largest frame, without the checksum that the controller takes off. *)
Definition ETH_FRAME_MAX := 1514.

(** The packets that IP takes. *)
Context (takes : list Z -> Prop).

(** The frames for IP are made of octets, and IP takes their packets. *)
Definition for_ip (ns : Z -> netif) (nif : Z) (frame : list Z) : Prop :=
  frame_for ETHTYPE_IP (ns nif) frame = true ->
  bytes frame /\ Z.of_nat (length frame) <= ETH_FRAME_MAX /\ takes (drop 14 frame) /\ ip_ok takes ns.

Lemma ethernet_input_ok s p n l frame nif : for_ip (netifs s) nif frame -> arp_ok s -> received s p n l frame -> ptrs (n :: l) ⊆ rest s ->
  Z.of_nat (length frame) <= 1518 ->
  exists s', ethernet_input custom p nif s = (Ret ERR_OK, s') /\ arp_ok s' /\ netifs s' = netifs s /\
    frame_taken s s' nif frame p (n :: l).
Proof.
  intros Hip Hok Hrec Hsub Hmax. pose proof Hrec as (Ho & Hcont & _ & Hpool).
  destruct (received_bytes s p n l frame Hrec Hmax) as
    (x & bs & a & -> & Hpl & Ha & Hla & Hfl & Hlx & Htx & Hbsa & Hlb & Hbsf).
  assert (Hp : p ∈ rest s) by (apply Hsub, (ptrs_elem (Node p x bs)); left). unfold frame_taken.
  assert (Hfin : forall s1 (x1 : pbuf), arp_ok s1 -> owns (hp s1) p (Node p x1 bs :: l) -> steps {[p]} (rest s) s s1 ->
    same_table s s1 -> dev s1 = dev s -> frame_for ETHTYPE_ARP (netifs s nif) frame = false ->
    exists s', (pbufs (pbuf_free custom (Some p)) ;;; ret ERR_OK) s1 = (Ret ERR_OK, s') /\ arp_ok s' /\
      netifs s' = netifs s /\ frame_taken s s' nif frame p (Node p x bs :: l)).
  { intros s1 x1 Hok1 Ho1 Hs1 Ht1 Hd1 Hno. destruct (drop_ok custom s s1 p x1 bs l Hok1 Ho1) as (s' & Hr & Hrest); try done.
    exists s'. split; [done|]. unfold frame_taken. rewrite Hno. naive_solver. }
  destruct (Z.leb_spec (len x) 14) as [Hshort|Hlong].
  { pose proof Ho as [(_ & Hx & _) _]. unfold ethernet_input. pstep (load_at _ p x Hx).
    change (len x <=? SIZEOF_ETH_HDR) with (len x <=? 14). rewrite (proj2 (Z.leb_le _ _)) by lia.
    apply (Hfin s x); try done. unfold frame_for. change SIZEOF_ETH_HDR with 14.
    by rewrite (proj2 (Z.ltb_ge _ _)) by lia. }
  destruct (ethernet_handed s p x bs l frame nif Hok Hrec Hsub Hmax) as (m & _ & _ & _ & Hmsg & Hgo).
  destruct (frame_for ETHTYPE_IP (netifs s nif) frame) eqn:HIP; [|destruct (frame_for ETHTYPE_ARP (netifs s nif) frame) eqn:HARP].
  - destruct (Hgo _ HIP ltac:(by left)) as (s2 & -> & x2 & Hok2 & Hst & Hseen & Ho2 & Hm & Hty2 & Hl2 & Ht2 & Hp2).
    destruct (Hip HIP) as (Hby & Hlen & Htk & Htake). change ETH_FRAME_MAX with 1514 in Hlen.
    rewrite Z.eqb_refl. assert (Hrest2 : rest s2 = rest s) by apply Hst. apply Forall_cons in Hpool as [Hpx Hpl'].
    destruct (Htake s2 p (Node p x2 (drop 14 bs)) l m nif Hok2 ltac:(by destruct Hst as (_ & Hn2 & _)) Ho2) as (s3 & Hr3 & Hok3 & Hn3).
    { by rewrite Hrest2. } { constructor; [cbn in *; congruence|done]. } { done. } { done. } { cbn; lia. } { cbn; lia. } { by eapply received_filled. }
    { rewrite content_cons in Hcont |- *. cbn [n_bytes] in *. rewrite <- drop_app_le, Hcont by lia. by apply Forall_drop. }
    { rewrite content_cons in Hcont |- *. cbn [n_bytes] in *. by rewrite <- drop_app_le, Hcont by lia. }
    cstep Hr3. exists s3. split; [done|]. split; [done|]. split; [|done]. destruct Hst as (_ & Hn2 & _). congruence.
  - destruct (Hgo _ HARP ltac:(by right)) as (s2 & -> & x2 & Hok2 & Hst & Hseen & Ho2 & Hm & Hty2 & Hl2 & Ht2 & _).
    change (ETHTYPE_ARP =? ETHTYPE_IP) with false. assert (Hrest2 : rest s2 = rest s) by apply Hst.
    pose proof (at_payload_take _ _ _ _ _ 28 Hm ltac:(lia)) as Hm28.
    destruct (input_runs custom s2 p (Node p x2 (drop 14 bs)) l nif _ Hok2 Ho2 ltac:(by rewrite Hrest2) Hm28)
      as (r & s3 & Hr3 & Hok3 & Hs3 & Hpost).
    cstep Hr3. exists s3. rewrite Hrest2 in Hs3.
    pose proof (steps_trans _ _ _ _ _ _ _ Hst Hs3 ltac:(set_solver)) as Hall.
    split; [done|]. split; [done|]. split; [by destruct Hall as (_ & -> & _)|]. intros _. split.
    + eapply steps_drop; [exact Hall|]. pose proof (ptrs_elem (Node p x bs) (Node p x bs :: l) ltac:(left)). cbn in *. set_solver.
    + exists s2, (take 28 m). by split; [done|split].
  - destruct (ethernet_marked s p x bs l frame nif Hok Hrec Hmax ltac:(lia)) as (s1 & -> & Hrf).
    destruct (header_off s p x bs l a s1 Hok Hrf Hp Hpl Ha Hla ltac:(lia) ltac:(lia)) as
      (Hok1 & Hst1 & Ht1 & Hd1 & (x1 & Ho1) & _).
    unfold dispatch. cstep (eq_refl (gets (fun s => netifs s nif) s1)). pose proof Hst1 as (_ & -> & _).
    assert (Hlen : (SIZEOF_ETH_HDR <? Z.of_nat (length frame)) = true) by (change SIZEOF_ETH_HDR with 14; lia).
    pose proof (Hfin s1 x1 Hok1 Ho1 Hst1 Ht1 Hd1 eq_refl) as Hf. unfold frame_taken in Hf. rewrite HIP, HARP in Hf.
    unfold frame_for in HIP, HARP. rewrite Hlen in HIP, HARP. cbn [andb] in HIP, HARP.
    destruct (f_type frame =? PP_HTONS ETHTYPE_IP); [|destruct (f_type frame =? PP_HTONS ETHTYPE_ARP)];
      cbn [andb] in HIP, HARP; rewrite ?HIP, ?HARP; cbn [negb]; exact Hf.
Qed.

(** ** [ethernetif_input] *)

(** The frames the controller delivers. *)
Definition wire_frame (frame : list Z) : Prop := 0 < Z.of_nat (length frame) <= 1518.

Definition deliverable (ns : Z -> netif) (nif : Z) (frame : list Z) : Prop :=
  wire_frame frame /\ for_ip ns nif frame.

Lemma ethernetif_input_ok nif : (forall q, PBUF_FLAG_custom (stale_pbuf q) = false) ->
  forall frames s, arp_ok s -> Forall (deliverable (netifs s) nif) frames ->
  exists s', ethernetif_input custom frames nif s = (Ret tt, s') /\ arp_ok s' /\ netifs s' = netifs s /\
    (Forall (fun f => frame_for ETHTYPE_IP (netifs s nif) f = false) frames -> keeps ∅ s s').
Proof.
  intros Hst frames. induction frames as [|frame frames IH]; intros s Hok Hw; cbn [ethernetif_input].
  { exists s. split_and!; [done|done|done|]. intros _. apply keeps_refl. }
  apply Forall_cons in Hw as [[Hf Hfb] Hw].
  destruct (low_level_input_ok custom s frame Hok Hst Hf) as (o & s1 & Hr & Hok1 & Ht1 & Hl1 & Hpost). cstep Hr.
  destruct o as [p|].
  2:{ destruct Hpost as [Hk _]. exists s1. split_and!; [done|done|by destruct Hk as (_ & -> & _)|done]. }
  destruct Hpost as (n & l & Hrec & Hfresh0 & _ & Hs1).
  assert (Hfresh : ptrs (n :: l) ## rest s) by (unfold rest; set_solver). assert (Hr1 : rest s1 = rest s ∪ ptrs (n :: l)) by apply Hs1.
  assert (Hns : netifs s1 = netifs s) by apply Hs1.
  destruct (ethernet_input_ok s1 p n l frame nif ltac:(by rewrite Hns) Hok1 Hrec ltac:(set_solver) ltac:(unfold wire_frame in Hf; lia)) as
    (s2 & Hr2 & Hok2 & Hn2 & Hout). cstep Hr2. rename Hns into Hn1. cbn [Z.eqb negb]. cstep (eq_refl (ret tt s2)).
  destruct (IH s2 Hok2) as (s3 & Hr3 & Hok3 & Hn3 & Hk3); [by rewrite Hn2, Hn1|]. exists s3.
  split_and!; [done|done|congruence|]. intros [Hno Hall]%Forall_cons. rewrite Hn2, Hn1 in Hk3. specialize (Hk3 Hall).
  destruct Hout as [Hs2 _]; [by rewrite Hn1|]. rewrite Hr1 in Hs2.
  replace ((rest s ∪ ptrs (n :: l)) ∖ ptrs (n :: l)) with (rest s) in Hs2 by set_solver.
  pose proof (steps_trans _ _ _ _ _ _ _ Hs1 Hs2 ltac:(set_solver)) as H12.
  assert (Hr2' : rest s2 = rest s) by apply H12. unfold keeps in Hk3. rewrite Hr2' in Hk3.
  pose proof (steps_trans _ _ _ _ _ _ _ H12 Hk3 ltac:(set_solver)) as H13.
  eapply steps_drop; [exact H13|set_solver].
Qed.
End Dispatch.

(** ** Messages *)
Lemma of_le16_le16 v : 0 <= v < 65536 -> of_le16 (le16 v) = v.
Proof.
  intros Hv. unfold of_le16, le16. cbn [nth]. unfold u8. rewrite Z.shiftr_div_pow2 by lia.
  Z.to_euclidean_division_equations; lia.
Qed.

Lemma of_le32_addr a : 0 <= a < 2 ^ 32 -> of_le32 (addr_bytes a) = a.
Proof.
  intros Ha. destruct (addr_bytes_word a Ha) as (b0 & b1 & b2 & b3 & -> & _ & _ & _ & _ & ->). done.
Qed.

(** The fields of a message are what it was made from. *)
Lemma message_fields op hs ips hd ipd : 0 <= op < 65536 -> length hs = 6%nat -> length hd = 6%nat ->
  0 <= ips < 2 ^ 32 -> 0 <= ipd < 2 ^ 32 ->
  let m := arp_message op hs ips hd ipd in
  length m = 28%nat /\ m_valid m = true /\ m_opcode m = lwip_htons op /\ m_shwaddr m = hs /\
  m_sipaddr m = ips /\ m_dipaddr m = ipd.
Proof.
  intros Hop Hhs Hhd Hips Hipd.
  assert (Hr : 0 <= lwip_htons op < 65536) by (rewrite lwip_htons_arith, <- PP_HTONS_arith; apply PP_HTONS_range).
  do 7 (destruct hs as [|? hs]; [try done|]); [|done].
  do 7 (destruct hd as [|? hd]; [try done|]); [|done]. cbv zeta. split_and!.
  - done.
  - done.
  - by apply of_le16_le16.
  - done.
  - by apply of_le32_addr.
  - by apply of_le32_addr.
Qed.

(** A message is read from a frame that holds it, padded or not. *)
Lemma message_in_frame dst src (m m' pad : list Z) : length dst = 6%nat -> length src = 6%nat -> length m = 28%nat ->
  message_of (eth_frame dst src ETHTYPE_ARP m ++ pad) m' -> m' = m.
Proof.
  intros Hd Hs Hm [Hl Heq]. unfold eth_frame in Heq.
  do 7 (destruct dst as [|? dst]; [try done|]); [|done]. do 7 (destruct src as [|? src]; [try done|]); [|done].
  match type of Heq with take ?k _ = take 28 ?b => change b with (m ++ pad) in Heq; set (k' := k) in Heq end.
  rewrite take_app_le, (firstn_all2 m) in Heq by lia. rewrite firstn_all2 in Heq; [done|].
  unfold k'. rewrite !length_app. cbn [length le16]. lia.
Qed.

(** The frame is an ARP frame. *)
Lemma frame_is_arp n dst src (m pad : list Z) : length dst = 6%nat -> length src = 6%nat -> (0 < length m)%nat ->
  truthy (Z.land (nflags n) NETIF_FLAG_ETHARP) = true ->
  frame_for ETHTYPE_IP n (eth_frame dst src ETHTYPE_ARP m ++ pad) = false /\
  frame_for ETHTYPE_ARP n (eth_frame dst src ETHTYPE_ARP m ++ pad) = true.
Proof.
  intros Hd Hs Hm Hf. unfold frame_for. rewrite Hf.
  assert (Ht : f_type (eth_frame dst src ETHTYPE_ARP m ++ pad) = PP_HTONS ETHTYPE_ARP).
  { do 7 (destruct dst as [|? dst]; [try done|]); [|done]. do 7 (destruct src as [|? src]; [try done|]); done. }
  rewrite Ht. rewrite (proj2 (Z.ltb_lt _ _)); [done|].
  unfold eth_frame. rewrite !length_app. cbn [le16 length]. change SIZEOF_ETH_HDR with 14. lia.
Qed.

Section Talk.
Context {A E : Type} `{Allocator A} `{Controller E} `{!Upper A E}.
Context (custom : ptr -> heap A -> heap A).
Implicit Types (h : heap A) (s t : link A E) (l : list node).

(** ** Uniqueness *)
Lemma owns_one h p x bs y cs : owns h p [Node p x bs] -> owns h p [Node p y cs] -> bs = cs.
Proof.
  intros [(_ & X1 & (b & o & a & P1 & B1 & _ & _ & _ & ->) & _) _] [(_ & X2 & (b' & o' & a' & P2 & B2 & _ & _ & _ & ->) & _) _].
  congruence.
Qed.

Lemma address_place tbl i j e e' a : table_ok tbl -> tbl !! i = Some e -> tbl !! j = Some e' ->
  addr_of e = Some a -> addr_of e' = Some a -> i = j.
Proof.
  intros [_ _ Hn _] Hi Hj Ha Ha'. destruct (decide (i = j)) as [|Hne]; [done|]. exfalso.
  unfold addrs in Hn. rewrite (omap_split _ tbl i e Hi), Ha in Hn. cbn in Hn.
  apply NoDup_cons in Hn as [Hn _]. apply Hn, list_elem_of_omap. exists e'. split; [|done].
  apply list_elem_of_lookup. destruct (decide (j < i)%nat).
  - exists j. by rewrite list_lookup_delete_lt.
  - exists (j - 1)%nat. rewrite list_lookup_delete_ge by lia. by replace (S (j - 1)) with j by lia.
Qed.

(** ** One frame *)

(** What was learnt in a state is learnt in one that has the same table and packets. *)
Lemma learnt_before t s s' nif ip mac : arp_ok t -> same_table t s -> netifs s = netifs t -> dev s = dev t ->
  (forall p, p ∈ live (al (hp t)) -> pb (hp s) !! p = pb (hp t) !! p /\ bl (hp s) !! p = bl (hp t) !! p) ->
  learnt s s' nif ip mac -> learnt t s' nif ip mac.
Proof.
  intros Hok (Ht & _) Hn Hd Hk (i & e & Hi & He & Hs' & Hcase). rewrite Ht in *. exists i, e.
  split_and!; [lia|lia|done|done|]. rewrite Hd, Hn in Hcase. destruct Hcase as [(Ha & Hq)|?]; [left|by right].
  split; [done|]. destruct (e_q e) as [p|] eqn:Hqe; [|done]. destruct Hq as (x & bs & Ho & Hdev).
  destruct (a_parked _ Hok p (held_lookup t _ _ _ He Hqe)) as (y & cs & Hoy & Hpl & _).
  pose proof (Hk p (held_live t p Hok (held_lookup t _ _ _ He Hqe))) as [K1 K2].
  assert (Hoy' : owns (hp s) p [Node p y cs]).
  { destruct Hoy as [Hp Hown]. split; [|done]. apply (packet_keep _ _ (hp t)); [done|..].
    - by intros m ->%list_elem_of_singleton.
    - intros b Hb. apply list_elem_of_singleton in Hb. unfold n_block in Hb. cbn in Hb. rewrite Hpl in Hb.
      by injection Hb as ->. }
  pose proof (owns_one _ _ _ _ _ _ Ho Hoy') as ->. eauto.
Qed.

(** The interface receives one ARP frame with a valid message. *)
Lemma arp_frame_ok t nif frame m : (forall q, PBUF_FLAG_custom (stale_pbuf q) = false) ->
  arp_ok t -> wire_frame frame -> frame_for ETHTYPE_IP (netifs t nif) frame = false ->
  frame_for ETHTYPE_ARP (netifs t nif) frame = true -> (forall m', message_of frame m' -> m' = m) ->
  m_valid m = true -> unicast (netifs t nif) (m_sipaddr m) = true ->
  for_us (netifs t nif) m = true \/ m_sipaddr m ∈ addrs (arp_table t) ->
  exists t', ethernetif_input custom [frame] nif t = (Ret tt, t') /\ arp_ok t' /\ keeps ∅ t t' /\
    ((refused custom PBUF_RAW (Z.of_nat (length frame)) PBUF_POOL (hp t) /\ same_table t t' /\ dev t' = dev t) \/
     (exists t1, learnt t t1 nif (m_sipaddr m) (m_shwaddr m) /\ netifs t1 = netifs t /\ same_table t1 t' /\
        etharp_cached_entry t1 = etharp_cached_entry t /\ answered nif m t1 t')).
Proof.
  intros Hst Hok Hw Hno Harp Hm Hv Hu Hfor.
  assert (Hws : Forall (deliverable (A := A) (fun _ => True) (netifs t) nif) [frame]).
  { constructor; [|done]. split; [done|]. intros Hip. by rewrite Hno in Hip. }
  destruct (ethernetif_input_ok custom (fun _ => True) nif Hst [frame] t Hok Hws) as (t' & Hr & Hok' & _ & Hk).
  exists t'. split; [done|]. split; [done|]. split; [apply Hk; by constructor|]. clear Hk. cbn [ethernetif_input] in Hr.
  destruct (low_level_input_ok custom t frame Hok Hst Hw) as (o & t0 & Hr0 & Hok0 & Ht0 & (_ & _ & Hd0) & Hpost).
  rewrite (bind_ret _ _ _ _ _ Hr0) in Hr. destruct o as [p|].
  2:{ injection Hr as <-. left. by destruct Hpost. }
  destruct Hpost as (n & l & Hrec & Hfresh & Hh0 & Hs0).
  assert (Hn0 : netifs t0 = netifs t) by apply Hs0.
  destruct (ethernet_input_ok custom (fun _ => True) t0 p n l frame nif ltac:(intros Hip; by rewrite Hn0, Hno in Hip) Hok0 Hrec) as (t2 & Hr2 & _ & _ & Hout);
    [destruct Hs0 as (-> & _); set_solver|unfold wire_frame in Hw; lia|].
  rewrite (bind_ret _ _ _ _ _ Hr2) in Hr. cbn [Z.eqb negb ret bind] in Hr. injection Hr as <-.
  destruct Hout as [_ Hout]; [by rewrite Hn0|]. rewrite Hn0, Harp in Hout.
  destruct Hout as (s1 & m' & (Ht1 & Hn1 & Hd1 & Hh1) & Hm' & Hproc). apply Hm in Hm' as ->. rewrite Hv in Hproc.
  destruct Hproc as (t1 & Hnt1 & Hans & Hst1 & Hl). rewrite Hn1, Hn0, Hu in Hl.
  assert (Hts : same_table t s1) by (destruct Ht0, Ht1; split; congruence). right. exists t1.
  pose proof (owns_head _ _ _ _ (proj1 Hrec)) as Hq.
  assert (Hp : p ∈ ptrs (n :: l)) by (rewrite <- Hq; apply ptrs_elem; left).
  destruct Hl as [(Hc & Hl)|(-> & Hf & Hun)].
  - split; [|split; [congruence|split; [done|split; [destruct Hts; congruence|done]]]].
    apply (learnt_before t s1); try done; [congruence|congruence|].
    intros r Hr'. destruct Hh0 as (K0 & _), Hh1 as (K1 & _). destruct (K1 r) as [-> ->]; [set_solver|].
    apply K0. set_solver.
  - exfalso. destruct Hfor as [Hfor|Hfor]; [congruence|]. apply Hun. by destruct Hts as [-> _].
Qed.
End Talk.
