(* ===== verification/EtharpThms.v ===== *)
(** * Address resolution: the properties

    The invariant over every sequence of events, the two halves of a resolution, the
    choice of an entry, the life of an entry, the frame a packet goes out in. *)
From S2P Require Export EtharpDispatch.

#[local] Set Warnings "-clear-no-such-hyp".

Section Life.
Implicit Types (e : etharp_entry).

(** How long an entry lives without an event. *)
Definition lifetime e : Z :=
  if bool_decide (e_state e = ETHARP_STATE_PENDING) then ARP_MAXPENDING else ARP_MAXAGE.

(** [e'] is [e], [k] seconds older. *)
Definition older (k : Z) e e' : Prop :=
  occupied e' = true /\ e_ipaddr e' = e_ipaddr e /\ e_q e' = e_q e /\ e_ethaddr e' = e_ethaddr e /\
  e_ctime e' = e_ctime e + k /\ lifetime e' = lifetime e.

Lemma tick_older e : occupied e = true -> entry_ok e ->
  if lifetime e <=? e_ctime e + 1 then tick e = blank else entry_ok (tick e) /\ older 1 e (tick e).
Proof.
  intros Ho He.
  assert (Hend : (ARP_MAXAGE <=? e_ctime e + 1)
    || (bool_decide (e_state e = ETHARP_STATE_PENDING) && (ARP_MAXPENDING <=? e_ctime e + 1))
    = (lifetime e <=? e_ctime e + 1)).
  { unfold lifetime, ARP_MAXAGE, ARP_MAXPENDING. destruct (bool_decide _); cbn [andb]; lia. }
  destruct (lifetime e <=? e_ctime e + 1) eqn:Hl; [by apply tick_blank|].
  destruct (tick_stays e Ho He Hend) as (Hok & Hq & Ha & Ht). split; [done|].
  assert (Hocc : occupied (tick e) = true).
  { unfold addr_of in Ha. rewrite Ho in Ha. by destruct (occupied (tick e)). }
  unfold older. rewrite Hq. split; [done|]. rewrite Ht. unfold lifetime.
  destruct (e_state e) eqn:Hs; cbn; rewrite ?Hs; by split_and!.
Qed.

Lemma iter_tick_blank n : Nat.iter n tick blank = blank.
Proof. induction n as [|n IH]; [done|]. by rewrite Nat.iter_succ, IH. Qed.

Lemma iter_tick e n : occupied e = true -> entry_ok e -> e_ctime e < lifetime e ->
  if lifetime e <=? e_ctime e + Z.of_nat n then Nat.iter n tick e = blank
  else entry_ok (Nat.iter n tick e) /\ older (Z.of_nat n) e (Nat.iter n tick e).
Proof.
  intros Ho He Hc. induction n as [|n IH].
  { rewrite (proj2 (Z.leb_gt _ _)) by lia. split; [done|]. unfold older. cbn. by split_and!; [..|lia|]. }
  rewrite Nat.iter_succ. set (en := Nat.iter n tick e) in *. destruct (Z.leb_spec (lifetime e) (e_ctime e + Z.of_nat n)).
  { rewrite IH. rewrite (proj2 (Z.leb_le _ _)) by lia. done. }
  destruct IH as (Hok & Hocc & Hip & Hq & Hm & Hct & Hlt). pose proof (tick_older en Hocc Hok) as Ht.
  rewrite Hlt, Hct in Ht. replace (e_ctime e + Z.of_nat n + 1) with (e_ctime e + Z.of_nat (S n)) in Ht by lia.
  destruct (_ <=? _); [done|]. destruct Ht as (Hok' & Ho' & Hip' & Hq' & Hm' & Hct' & Hl').
  split; [done|]. unfold older. split_and!; congruence || (rewrite Hct', Hct; lia) || done.
Qed.

Lemma entry_young e : occupied e = true -> entry_ok e -> e_ctime e < lifetime e.
Proof.
  unfold occupied, entry_ok, lifetime. intros Ho He.
  destruct (e_state e) eqn:Hs; cbn in Ho |- *; try done; naive_solver lia.
Qed.

Lemma iter_fmap n (tbl : list etharp_entry) : Nat.iter n (fmap tick) tbl = Nat.iter n tick <$> tbl.
Proof.
  induction n as [|n IH]; [by rewrite list_fmap_id|]. by rewrite Nat.iter_succ, IH, <- list_fmap_compose.
Qed.
End Life.

Section Thms.
Context {A E : Type} `{Allocator A} `{Controller E} `{!Upper A E}.
Context (custom : ptr -> heap A -> heap A).
Implicit Types (h : heap A) (s t : link A E) (e : etharp_entry) (l : list node).

(** ** Sequences of events *)
Inductive event : Type :=
  | Tick
  | Cleanup (nif : Z)
  | Input (nif : Z) (frames : list (list Z))
  | Output (nif : Z) (q : ptr) (ip : Z).

Definition handle (ev : event) : cmd (link A E) unit :=
  match ev with
  | Tick => etharp_tmr custom
  | Cleanup nif => etharp_cleanup_netif custom nif
  | Input nif frames => ethernetif_input custom frames nif
  | Output nif q ip => etharp_output custom nif q ip ;;; ret tt
  end.

Section Events.
Context (takes : list Z -> Prop).

(** The frames are no longer than Ethernet allows and made of octets, and IP takes those
    that are for it; a packet to send is the sender's own. *)
Definition allowed s (ev : event) : Prop :=
  match ev with
  | Input nif frames => Forall (fun f => 0 < Z.of_nat (length f) <= ETH_FRAME_MAX /\ bytes f /\
      (frame_for ETHTYPE_IP (netifs s nif) f = true -> takes (drop 14 f))) frames
  | Output _ q _ => exists x bs l, owns (hp s) q (Node q x bs :: l) /\ filled l /\
      ptrs (Node q x bs :: l) ⊆ rest s /\ tot_len x <= 65521
  | _ => True
  end.

Definition without_ip s (ev : event) : Prop :=
  match ev with
  | Input nif frames => Forall (fun f => frame_for ETHTYPE_IP (netifs s nif) f = false) frames
  | _ => True
  end.

(** Whatever events come: each one is handled, and what is in use afterwards is what the
    others have and the packets that wait in the table. *)
Fixpoint safe (evs : list event) s : Prop :=
  match evs with
  | [] => True
  | ev :: evs => allowed s ev -> exists s', handle ev s = (Ret tt, s') /\ arp_ok s' /\ netifs s' = netifs s /\
      (without_ip s ev -> live (al (hp s')) = rest s ∪ list_to_set (held (arp_table s'))) /\ safe evs s'
  end.

Lemma live_rest s : arp_ok s -> live (al (hp s)) = rest s ∪ list_to_set (held (arp_table s)).
Proof.
  intros Hok. unfold rest. apply set_eq. intros p. rewrite elem_of_union, elem_of_difference, elem_of_list_to_set.
  pose proof (held_live s p Hok). destruct (decide (p ∈ held (arp_table s))); tauto.
Qed.

Lemma handle_ok s ev : ip_ok (A := A) (E := E) takes (netifs s) -> (forall q, PBUF_FLAG_custom (stale_pbuf q) = false) ->
  arp_ok s -> allowed s ev -> exists s', handle ev s = (Ret tt, s') /\ arp_ok s' /\ netifs s' = netifs s /\
  (without_ip s ev -> rest s' = rest s).
Proof.
  intros Hip Hst Hok Hal.
  assert (Hruns : forall (m : cmd (link A E) unit) X Q, runs X m s (rest s) Q -> exists s', m s = (Ret tt, s') /\
    arp_ok s' /\ netifs s' = netifs s /\ (without_ip s ev -> rest s' = rest s)).
  { intros m X Q ([] & s' & Hr & Hok' & (HR & Hn & _) & _). exists s'. by split_and!. }
  destruct ev as [|nif|nif frames|nif q ip]; cbn [handle allowed] in *.
  - eapply Hruns. by apply tmr_runs.
  - eapply Hruns. by apply cleanup_runs.
  - assert (Hd : Forall (deliverable (A := A) (E := E) takes (netifs s) nif) frames).
    { eapply Forall_impl; [exact Hal|]. unfold deliverable, wire_frame, for_ip, ETH_FRAME_MAX. intros f (Hl & Hb & Htk). split; [lia|]. intros Hf. split_and!; [done|lia|by apply Htk|exact Hip]. }
    destruct (ethernetif_input_ok custom takes nif Hst frames s Hok Hd) as (s' & Hr & Hok' & Hn & Hk).
    exists s'. split_and!; [done|done|done|]. intros Hno. by destruct (Hk Hno).
  - destruct Hal as (x & bs & l & Ho & Hf & Hsub & Ht). eapply (Hruns _ {[q]}).
    eapply runs_bind; [by apply (output_runs custom s nif ip q x bs l)|set_solver|].
    intros r s1 _ _ Hok1 Hr1 _ _. rewrite <- Hr1. by apply (runs_ret _ _ _ (fun _ _ => True)).
Qed.

(** Any sequence of events is safe if IP takes the packets it gets. *)
Lemma session_safe evs s : ip_ok (A := A) (E := E) takes (netifs s) -> (forall q, PBUF_FLAG_custom (stale_pbuf q) = false) ->
  arp_ok s -> safe evs s.
Proof.
  intros Hip Hst. revert s Hip. induction evs as [|ev evs IH]; intros s Hip Hok; [done|]. intros Hal.
  destruct (handle_ok s ev Hip Hst Hok Hal) as (s' & Hr & Hok' & Hn & Hrest).
  exists s'. split_and!; [done|done|done| |by apply IH; [rewrite Hn|]]. intros Hno. rewrite (live_rest s' Hok'). by rewrite Hrest.
Qed.

End Events.

(** ** Resolving an address *)

(** The answer of an interface to a host that asked for it. *)
Definition reply_frame (n : netif) (mac : list Z) (ip : Z) : list Z :=
  eth_frame mac (hwaddr n) ETHTYPE_ARP (arp_message ARP_REPLY (hwaddr n) (ip_addr n) mac ip).

Lemma arp_frame_length dst src (m pad : list Z) : length dst = 6%nat -> length src = 6%nat -> length m = 28%nat ->
  (length pad <= 1476)%nat -> wire_frame (eth_frame dst src ETHTYPE_ARP m ++ pad).
Proof.
  intros. unfold wire_frame, eth_frame. rewrite !length_app. cbn [le16 length]. lia.
Qed.

(** A request for its address, as [etharp_request] makes it at another host, padded or
    not: the interface enters the asking host's address in its table, sends the packet
    that waited for it if there is one, and answers with a reply; only without memory
    does nothing change, or does the reply fail. *)
Theorem arp_request_answered t nif n0 pad :
  (forall q, PBUF_FLAG_custom (stale_pbuf q) = false) -> arp_ok t ->
  let n := netifs t nif in
  truthy (Z.land (nflags n) NETIF_FLAG_ETHARP) = true -> 0 < ip_addr n < 2 ^ 32 ->
  length (hwaddr n0) = 6%nat -> 0 <= ip_addr n0 < 2 ^ 32 -> unicast n (ip_addr n0) = true ->
  (length pad <= 1476)%nat ->
  let frame := request_frame n0 (ip_addr n) ++ pad in
  exists t', ethernetif_input custom [frame] nif t = (Ret tt, t') /\ arp_ok t' /\ keeps ∅ t t' /\
    ((refused custom PBUF_RAW (Z.of_nat (length frame)) PBUF_POOL (hp t) /\ same_table t t' /\ dev t' = dev t) \/
     exists t1 r, learnt t t1 nif (ip_addr n0) (hwaddr n0) /\ same_table t1 t' /\
       frame_or_none (hp t1) (reply_frame n (hwaddr n0) (ip_addr n0)) (dev t1) r (dev t')).
Proof.
  intros Hst Hok n Hfl Hn Hmac Hip0 Hu Hpad. unfold request_frame.
  destruct (message_fields ARP_REQUEST (hwaddr n0) (ip_addr n0) ethzero (ip_addr n) ltac:(by split) Hmac eq_refl Hip0 ltac:(lia))
    as (Hl & Hv & Hop & Hsh & Hsi & Hdi). set (m := arp_message _ _ _ _ _) in *.
  destruct (frame_is_arp n ethbroadcast (hwaddr n0) m pad eq_refl Hmac ltac:(lia) Hfl) as [Hno Harp].
  assert (Hus : for_us n m = true).
  { unfold for_us, ip4_addr_isany. rewrite (proj2 (Z.eqb_neq _ _)) by lia. rewrite Hdi. apply Z.eqb_refl. }
  destruct (arp_frame_ok custom t nif (eth_frame ethbroadcast (hwaddr n0) ETHTYPE_ARP m ++ pad) m Hst Hok)
    as (t' & Hr & Hok' & Hk & Hcase); try done.
  - by apply arp_frame_length.
  - intros m' Hm'. by apply (message_in_frame ethbroadcast (hwaddr n0) m m' pad).
  - by rewrite Hsi.
  - by left.
  - exists t'. split_and!; [done|done|done|]. destruct Hcase as [|(t1 & Hlrn & Hn1 & Ht & _ & Hans)]; [by left|right].
    rewrite Hsi, Hsh in Hlrn. unfold answered in Hans. rewrite Hn1, Hop in Hans. fold n in Hans.
    rewrite Hus, Hsi, Hsh in Hans. change (lwip_htons ARP_REQUEST =? PP_HTONS ARP_REQUEST) with true in Hans.
    destruct Hans as (r & Hf). exists t1, r. by split_and!.
Qed.

(** C10: The reply of the interface [n1] to the request of ours, padded or not, while the
    packet [c] waits for its address: the entry becomes stable with the address, the
    waiting packet goes out in a frame to it, with its bytes unchanged, and its memory
    is released.  Nothing changes only if [pbuf_alloc] finds no memory for the frame that
    arrives. *)
Theorem arp_reply_delivers s nif n1 i e p c pad :
  (forall q, PBUF_FLAG_custom (stale_pbuf q) = false) -> arp_ok s ->
  let n := netifs s nif in
  truthy (Z.land (nflags n) NETIF_FLAG_ETHARP) = true -> 0 <= ip_addr n < 2 ^ 32 ->
  length (hwaddr n1) = 6%nat -> 0 <= ip_addr n1 < 2 ^ 32 -> unicast n (ip_addr n1) = true ->
  arp_table s !! i = Some e -> e_state e = ETHARP_STATE_PENDING -> e_ipaddr e = ip_addr n1 ->
  e_q e = Some p -> waits_at (hp s) p c -> (length pad <= 1476)%nat ->
  let frame := reply_frame n1 (hwaddr n) (ip_addr n) ++ pad in
  exists s', ethernetif_input custom [frame] nif s = (Ret tt, s') /\ arp_ok s' /\ keeps ∅ s s' /\
    ((refused custom PBUF_RAW (Z.of_nat (length frame)) PBUF_POOL (hp s) /\ same_table s s' /\ dev s' = dev s) \/
     (arp_table s' = <[i := Entry None (ip_addr n1) (Some nif) (hwaddr n1) 0 ETHARP_STATE_STABLE]> (arp_table s) /\
      (p ∉ live (al (hp s'))) /\
      dev s' = dhcp_arp_reply nif (ip_addr n1)
        (enet_send_frame (eth_frame (hwaddr n1) (hwaddr n) ETHTYPE_IP c) (dev s)).2)).
Proof.
  intros Hst Hok n Hfl Hn Hmac Hip1 Hu He Hse Hae Hq Hw Hpad. unfold reply_frame.
  destruct (a_netifs _ Hok nif) as [Hhw _]. fold n in Hhw.
  destruct (message_fields ARP_REPLY (hwaddr n1) (ip_addr n1) (hwaddr n) (ip_addr n) ltac:(by split) Hmac Hhw Hip1 Hn)
    as (Hl & Hv & Hop & Hsh & Hsi & Hdi). set (m := arp_message _ _ _ _ _) in *.
  destruct (frame_is_arp n (hwaddr n) (hwaddr n1) m pad Hhw Hmac ltac:(lia) Hfl) as [Hno Harp].
  assert (Hadr : addr_of e = Some (ip_addr n1)) by (unfold addr_of, occupied; by rewrite Hse, Hae).
  assert (Hin : ip_addr n1 ∈ addrs (arp_table s)).
  { apply list_elem_of_omap. exists e. split; [by eapply list_elem_of_lookup_2|done]. }
  destruct (arp_frame_ok custom s nif (eth_frame (hwaddr n) (hwaddr n1) ETHTYPE_ARP m ++ pad) m Hst Hok)
    as (s' & Hr & Hok' & Hk & Hcase); try done.
  - by apply arp_frame_length.
  - intros m' Hm'. by apply (message_in_frame (hwaddr n) (hwaddr n1) m m' pad).
  - by rewrite Hsi.
  - right. by rewrite Hsi.
  - exists s'. split_and!; [done|done|done|]. destruct Hcase as [|(s1 & Hlrn & Hn1 & (Ht & _) & _ & Hans)]; [by left|right].
    rewrite Hsi, Hsh in Hlrn. unfold answered in Hans. rewrite Hop, Hsi in Hans.
    change (lwip_htons ARP_REPLY =? PP_HTONS ARP_REQUEST) with false in Hans.
    change (lwip_htons ARP_REPLY =? PP_HTONS ARP_REPLY) with true in Hans. cbv iota in Hans.
    destruct Hlrn as (j & e2 & Hj & He2 & Hs1 & Hlc). destruct Hlc as [(Ha2 & Hd)|(Hno2 & _)]; [|done].
    pose proof (address_place _ _ _ _ _ _ (a_table _ Hok) He2 He Ha2 Hadr) as Hji. rewrite Hji in *.
    rewrite He in He2. injection He2 as <-. rewrite Hq in Hd. destruct Hd as (x & bs & Ho & Hd).
    destruct Hw as (y & Hoy & _ & _). pose proof (owns_one _ _ _ _ _ _ Ho Hoy) as ->.
    assert (Hs' : arp_table s' = <[i := Entry None (ip_addr n1) (Some nif) (hwaddr n1) 0 ETHARP_STATE_STABLE]> (arp_table s))
      by congruence. split; [done|]. split; [|by rewrite Hans, Hd].
    rewrite (live_rest s' Hok'), elem_of_union, elem_of_list_to_set, Hs'. destruct Hk as (-> & _).
    rewrite (held_insert s i e _ p Hok He), Hq. pose proof (held_lookup s i e p He Hq).
    unfold rest. rewrite elem_of_difference, elem_of_list_to_set. naive_solver.
Qed.

(** An ARP message reads back as it was written: opcode, addresses, and the fields that
    make it valid. *)
Theorem arp_message_roundtrip op hs ips hd ipd : 0 <= op < 65536 -> length hs = 6%nat -> length hd = 6%nat ->
  0 <= ips < 2 ^ 32 -> 0 <= ipd < 2 ^ 32 ->
  let m := arp_message op hs ips hd ipd in
  length m = 28%nat /\ m_valid m = true /\ m_opcode m = lwip_htons op /\ m_shwaddr m = hs /\
  m_sipaddr m = ips /\ m_dipaddr m = ipd.
Proof. apply message_fields. Qed.

(** ** Entries *)

(** C24: The search for an address: the place of its entry, and the state unchanged; else,
    with [ETHARP_FLAG_FIND_ONLY], an error; else an entry for it: the first empty one, or
    the one recycled in the order oldest stable, oldest pending without a packet, oldest
    pending, whose packet is released. *)
Theorem etharp_find_entry_correct s a fl : arp_ok s -> fl = ETHARP_FLAG_TRY_HARD \/ fl = ETHARP_FLAG_FIND_ONLY ->
  exists r s', etharp_find_entry custom (Some a) fl s = (Ret r, s') /\ arp_ok s' /\ keeps ∅ s s' /\ same_link s s' /\
    (found s a r s' \/
     (fl = ETHARP_FLAG_FIND_ONLY /\ s' = s /\ r = ERR_MEM /\ (a ∉ addrs (arp_table s))) \/
     (fl = ETHARP_FLAG_TRY_HARD /\ claimed s a r s')).
Proof. apply find_entry_ok. Qed.

(** [n] seconds. *)
Fixpoint ticks (n : nat) : cmd (link A E) unit :=
  match n with
  | O => ret tt
  | S n => ticks n ;;; etharp_tmr custom
  end.

Lemma ticks_runs n s : arp_ok s -> runs ∅ (ticks n) s (rest s) (fun _ s' =>
  arp_table s' = Nat.iter n (fmap tick) (arp_table s) /\ etharp_cached_entry s' = etharp_cached_entry s).
Proof.
  intros Hok. induction n as [|n IH]; [by apply runs_ret|]. cbn [ticks].
  eapply runs_bind; [exact IH|set_solver|]. intros _ s1 _ (Ht & Hc) Hok1 Hr1 _ _. rewrite <- Hr1.
  eapply runs_weaken; [by apply tmr_runs|set_solver|]. intros _ s2 _ (Ht2 & Hc2). by rewrite Nat.iter_succ, Ht2, Ht, Hc2.
Qed.

(** C23: Entries end in time: after [n] seconds without other events a pending entry older
    than [ARP_MAXPENDING] and a stable one older than [ARP_MAXAGE] are empty, with the
    packet released; every other entry is as before, [n] seconds older. *)
Theorem arp_entries_expire n s : arp_ok s -> exists s', ticks n s = (Ret tt, s') /\ arp_ok s' /\ keeps ∅ s s' /\
  forall i e, arp_table s !! i = Some e -> occupied e = true -> exists e', arp_table s' !! i = Some e' /\
    if lifetime e <=? e_ctime e + Z.of_nat n then e' = blank else older (Z.of_nat n) e e'.
Proof.
  intros Hok. destruct (ticks_runs n s Hok) as ([] & s' & Hr & Hok' & Hk & Ht & _).
  exists s'. split_and!; [done|done|exact Hk|]. intros i e He Ho.
  pose proof (Forall_lookup_1 _ _ _ _ (t_entries _ (a_table _ Hok)) He) as Hent.
  exists (Nat.iter n tick e). rewrite Ht, iter_fmap, list_lookup_fmap, He. split; [done|].
  pose proof (iter_tick e n Ho Hent (entry_young e Ho Hent)) as Hi. destruct (_ <=? _); [done|by destruct Hi].
Qed.

(** ** Packets *)

(** C22: A packet to send: to everyone, to a group, to the neighbour that has the address or
    the gateway, through the entry that knows it; or it waits in a copy for the address,
    in the place of an older one; and the sender keeps its packet.  A request for the
    address goes out when its entry is new; when the entry is pending already, nothing is
    sent (the comment of etharp_query says a request is; see the findings). *)
Theorem etharp_output_correct s nif ip q x bs l : arp_ok s -> owns (hp s) q (Node q x bs :: l) -> filled l ->
  ptrs (Node q x bs :: l) ⊆ rest s -> tot_len x <= 65521 ->
  exists r s', etharp_output custom nif q ip s = (Ret r, s') /\ arp_ok s' /\ keeps {[q]} s s' /\
    (exists x' bs', owns (hp s') q (Node q x' bs' :: l)) /\
    sent s s' nif ip x (content (Node q x bs :: l)) r.
Proof.
  intros Hok Ho Hf Hs Ht. destruct (output_runs custom s nif ip q x bs l Hok Ho Hf Hs Ht) as (r & s' & Hr & Hok' & Hk & Hq).
  by exists r, s'.
Qed.

(** A frame that the controller delivers: the pbufs it is received in are released again
    unless IP takes them; an ARP frame is processed, a short one together with what the
    buffer held before (its length is not checked); others leave no trace. *)
Theorem ethernet_input_correct takes s p n l frame nif :
  for_ip (A := A) takes (netifs s) nif frame -> arp_ok s -> received s p n l frame ->
  ptrs (n :: l) ⊆ rest s -> Z.of_nat (length frame) <= 1518 ->
  exists s', ethernet_input custom p nif s = (Ret ERR_OK, s') /\ arp_ok s' /\ netifs s' = netifs s /\
    frame_taken s s' nif frame p (n :: l).
Proof. apply ethernet_input_ok. Qed.

(** C37: The frame given to the driver: the addresses, the type and the bytes of the packet.
    It is given if there is room for the header in front, and the packet is a single
    pbuf, whatever its length, or a chain whose frame is shorter than the 1518 bytes of
    the port's buffer; else the result is [ERR_BUF], and nothing is sent.  A single pbuf
    is not checked against the size of a frame (see the findings). *)
Theorem ethernet_output_correct s nif q x bs l dst src ty o :
  owns (hp s) q (Node q x bs :: l) -> alloc_inv (hp s) -> length (ucBuffer s) = 1518%nat ->
  hwaddr_len (netifs s nif) = 6 -> length src = 6%nat -> length dst = 6%nat ->
  tot_len x <= 65521 -> payload x = Some (q, o) ->
  exists r h' b d x' bs', ethernet_output nif q src dst ty s = (Ret r, after s h' b d) /\
    length b = 1518%nat /\ owns h' q (Node q x' bs' :: l) /\
    hstep {[q]} (live (al (hp s))) (hp s) h' /\
    (r, d) = if negb (o <? 14) && port_takes x (content (Node q x bs :: l))
             then enet_send_frame (eth_frame dst src ty (content (Node q x bs :: l))) (dev s)
             else (ERR_BUF, dev s).
Proof. apply ethernet_output_ok. Qed.

(** ** Packets that can not wait *)

(** The walk ends at the first pbuf that is not [PBUF_ROM]. *)
Lemma copy_needed_mixed m l2 l1 : forall q n s, packet (hp s) (Some q) (l1 ++ m :: l2) -> filled (l1 ++ m :: l2) ->
  Forall (fun k => type (n_buf k) = PBUF_ROM) l1 -> type (n_buf m) <> PBUF_ROM -> (length l1 < n)%nat ->
  copy_needed n (Some q) s = (Ret (Some (tot_len (n_buf m))), s).
Proof.
  induction l1 as [|k l1 IH]; intros q n s Hp Hf Hrom Hm Hn; (destruct n as [|n]; [cbn in Hn; lia|]); cbn [copy_needed app] in *.
  - apply Forall_cons in Hf as [_ Hf]. pose proof (no_queue _ _ _ _ Hp Hf) as Hnq.
    destruct m as [q' x bs], Hp as ([= ->] & Hx & _). cbn [n_buf] in *. pstep (load_at _ _ _ Hx).
    erewrite bind_ret by (by apply assert_true).
    by rewrite (proj2 (Z.eqb_neq _ _)).
  - apply Forall_cons in Hf as [_ Hf]. pose proof (no_queue _ _ _ _ Hp Hf) as Hnq.
    apply Forall_cons in Hrom as [Hk Hrom]. destruct k as [q' x bs], Hp as ([= ->] & Hx & _ & _ & Hp). cbn [n_buf] in *.
    pstep (load_at _ _ _ Hx).
    erewrite bind_ret by (by apply assert_true).
    rewrite Hk, Z.eqb_refl. cbn [negb].
    destruct (next x) as [q1|]; [|destruct l1 as [|[]], m; by destruct Hp].
    apply IH; try done. cbn in Hn. lia.
Qed.

(** A packet whose first pbuf is [PBUF_ROM] and a later one is not never waits for its
    address: the copy is allocated with the length from that later pbuf on, which is too
    small for the packet, and the check of [pbuf_copy] stops the system; only without memory
    for the copy does it go on, and drops the packet. *)
Theorem mixed_packet_stops s q k l1 m l2 : arp_ok s ->
  packet (hp s) (Some q) ((k :: l1) ++ m :: l2) -> filled ((k :: l1) ++ m :: l2) ->
  Forall (fun k => type (n_buf k) = PBUF_ROM) (k :: l1) -> type (n_buf m) <> PBUF_ROM ->
  0 <= tot_len (n_buf m) <= 65535 -> tot_len (n_buf m) < tot_len (n_buf k) ->
  exists o h1, pbuf_alloc custom PBUF_LINK (tot_len (n_buf m)) PBUF_RAM (hp s) = (Ret o, h1) /\
  match o with
  | Some _ => (take_over custom q s).1 = Fault
  | None => exists s', take_over custom q s = (Ret None, s') /\ arp_ok s' /\ keeps ∅ s s' /\ same_table s s'
  end.
Proof.
  intros Hok Hp Hf Hrom Hm Ht Hlt. unfold take_over. pose proof (a_heap _ Hok) as Hi.
  assert (Hsz : (length (k :: l1) < S (size (pb (hp s))))%nat).
  { pose proof (packet_size _ _ _ Hp) as Hs. rewrite length_app in Hs. cbn [length] in *. lia. }
  rewrite (bind_ret _ _ s (S (size (pb (hp s)))) s) by (by destruct s).
  cstep (copy_needed_mixed m l2 (k :: l1) q _ s Hp Hf Hrom Hm Hsz).
  destruct (owns_alloc_ram custom PBUF_LINK 14 (tot_len (n_buf m)) (hp s) eq_refl Ht Hi) as ([p|] & h1 & Hal & Hpost).
  2:{ exists None, h1. split; [done|]. pstep Hal. exists (with_hp h1 s).
      destruct (after_hkeep s h1 (ucBuffer s) (dev s) Hok) as [Hok' Hk']; [by apply (hkeep_fresh _ _ ∅)|by destruct Hok|by destruct Hok|].
      by split_and!. }
  exists (Some p), h1. split; [done|]. pstep Hal. destruct Hpost as (x & bs & Ho & Hlx & _ & _ & _ & Hfresh & Hs1).
  pose proof Ho as [(_ & Hx & _ & Htx & _) _]. change (Z.of_nat (length (content []))) with 0 in Htx.
  assert (Hq : pb h1 !! q = Some (n_buf k)).
  { pose proof (packet_head _ _ _ _ Hp) as [= Hk]. pose proof (packet_lookup _ _ _ k Hp ltac:(left)) as Hlk.
    rewrite Hk. destruct Hs1 as (K & _). destruct (K (n_ptr k)) as [-> _]; [|done].
    destruct Hi as [I1 _]. intros Hkp%elem_of_singleton. apply Hfresh, I1, elem_of_dom. rewrite <- Hkp. eauto. }
  assert (Hc : pbuf_copy (Some p) (Some q) h1 = (Fault, h1)).
  { unfold pbuf_copy. rewrite (bind_ret (LWIP_ERROR _) _ h1 tt h1) by done. cstep (load_at _ _ _ Hx). cstep (load_at _ _ _ Hq).
    unfold bind. by rewrite (proj2 (Z.leb_gt _ _)) by lia. }
  unfold bind, pbufs. change (hp (with_hp h1 s)) with h1. by rewrite Hc.
Qed.
End Thms.
