(* ===== verification/EtharpRuns.v ===== *)
(** * Concrete runs of the theorems on address resolution

    Two hosts with the allocator of [PbufRuns], a controller that logs the frames it
    sends, and an IP that drops every packet: one host holds a packet for the other. *)
From S2P Require Export EtharpThms PbufRuns.

#[local] Set Warnings "-clear-no-such-hyp".

#[export] Instance log : Controller (list (list Z)) := {|
  enet_tx frame d := Some (d ++ [frame]);
  xEventGroupWaitBits d := d;
  tx_pending _ := 0%nat;
  tx_progress frame d Hn := ltac:(done);
  dev_inv _ := True;
  tx_inv _ _ _ _ _ := I;
  wait_inv _ _ := I
|}.

#[export] Instance dropping : Upper pool (list (list Z)) := {|
  ip4_input p _ := pbufs (pbuf_free no_custom (Some p)) ;;; ret tt;
  dhcp_arp_reply _ _ d := d;
  dhcp_inv _ _ _ Hd := Hd
|}.

Lemma pool_stale : forall q, PBUF_FLAG_custom (stale_pbuf q) = false.
Proof. done. Qed.

(** ** The hosts: 192.168.1.1 and 192.168.1.2 *)
Definition our_mac := [2; 0; 0; 0; 0; 1].
Definition peer_mac := [2; 0; 0; 0; 0; 2].
Definition our_if := Netif our_mac 6 0x0101A8C0 0x00FFFFFF 0x6401A8C0 0x0F 1500.
Definition peer_if := Netif peer_mac 6 0x0201A8C0 0x00FFFFFF 0x6401A8C0 0x0F 1500.

(** One packet waits for the peer, another is the application's. *)
Definition waiting := Pbuf None (Some (1%positive, 16)) 3 3 PBUF_RAM 0 1.
Definition outgoing := Pbuf None (Some (2%positive, 16)) 4 4 PBUF_RAM 0 1.
Definition store : heap pool := Heap
  (list_to_map [(1%positive, waiting); (2%positive, outgoing)])
  (list_to_map [(1%positive, replicate 16 0 ++ [7; 8; 9]); (2%positive, replicate 16 0 ++ [1; 2; 3; 4])])
  (Pool 3 (list_to_set [1%positive; 2%positive])).
Definition asking := Entry (Some 1%positive) 0x0201A8C0 (Some 0) ethzero 1 ETHARP_STATE_PENDING.
Definition us : link pool (list (list Z)) :=
  Link (asking :: replicate 9 blank) 0 (fun _ => our_if) (replicate 1518 0) store [].
Definition peer : link pool (list (list Z)) :=
  Link (replicate 10 blank) 0 (fun _ => peer_if) (replicate 1518 0) (Heap ∅ ∅ (Pool 3 ∅)) [].

Lemma store_inv : alloc_inv store.
Proof.
  split; intros q Hq%elem_of_dom; destruct Hq as [x Hx]; apply elem_of_list_to_map_2 in Hx;
    apply elem_of_list_to_set; repeat (apply elem_of_cons in Hx as [[= -> _]|Hx]; [set_solver|]);
    by apply elem_of_nil in Hx.
Qed.

Lemma store_owns q x bs : (q = 1%positive /\ x = waiting /\ bs = [7; 8; 9]) \/
  (q = 2%positive /\ x = outgoing /\ bs = [1; 2; 3; 4]) -> owns store q [Node q x bs].
Proof.
  intros [(-> & -> & ->)|(-> & -> & ->)]; (split; [packet_tac|]); repeat constructor; by left.
Qed.

Lemma empty_table_ok : table_ok (replicate 10 blank).
Proof. split; [done|by repeat constructor|by constructor|by constructor]. Qed.

Lemma peer_ok : arp_ok peer.
Proof.
  split; cbn; try done; [exact empty_table_ok|by intros p Hp%elem_of_nil].
Qed.

Lemma us_waits : waits_at (hp us) 1 [7; 8; 9].
Proof. exists waiting. split; [apply store_owns; by left|done]. Qed.

Lemma us_ok : arp_ok us.
Proof.
  split; try done.
  - split; [done| |cbn; repeat constructor; set_solver|cbn; repeat constructor; set_solver].
    constructor; [by split; [|eexists]|by repeat constructor].
  - intros p Hp. apply list_elem_of_singleton in Hp as ->. apply (waits_parked _ _ [7; 8; 9]), us_waits.
Qed.

Lemma us_rest : ptrs [Node 2 outgoing [1; 2; 3; 4]] ⊆ rest us.
Proof. apply (bool_decide_unpack _). vm_compute. exact I. Qed.

Lemma us_filled : filled [].
Proof. constructor. Qed.

(** The hosts answer each other: the packet that waits reaches the peer. *)
Example exchange :
  match ethernetif_input no_custom [request_frame our_if 0x0201A8C0] 0 peer with
  | (Ret tt, peer') => match ethernetif_input no_custom (dev peer') 0 us with
      | (Ret tt, us') => dev us' = [eth_frame peer_mac our_mac ETHTYPE_IP [7; 8; 9]]
      | _ => False
      end
  | _ => False
  end.
Proof. vm_compute. reflexivity. Qed.

(** ** Witnesses *)
Lemma arp_request_answered_witness :
  exists t', ethernetif_input no_custom [request_frame our_if 0x0201A8C0 ++ replicate 18 0] 0 peer = (Ret tt, t') /\
    arp_ok t' /\ keeps ∅ peer t' /\
    ((refused no_custom PBUF_RAW 60 PBUF_POOL (hp peer) /\ same_table peer t' /\ dev t' = dev peer) \/
     exists t1 r, learnt peer t1 0 0x0101A8C0 our_mac /\ same_table t1 t' /\
       frame_or_none (hp t1) (reply_frame peer_if our_mac 0x0101A8C0) (dev t1) r (dev t')).
Proof.
  apply (arp_request_answered no_custom peer 0 our_if (replicate 18 0) pool_stale peer_ok);
    first [reflexivity|range_tac|cbn; lia].
Defined.

Lemma arp_reply_delivers_witness :
  exists s', ethernetif_input no_custom [reply_frame peer_if our_mac 0x0101A8C0 ++ replicate 18 0] 0 us = (Ret tt, s') /\
    arp_ok s' /\ keeps ∅ us s' /\
    ((refused no_custom PBUF_RAW 60 PBUF_POOL (hp us) /\ same_table us s' /\ dev s' = dev us) \/
     (arp_table s' = <[0%nat := Entry None 0x0201A8C0 (Some 0) peer_mac 0 ETHARP_STATE_STABLE]> (arp_table us) /\
      (1%positive ∉ live (al (hp s'))) /\
      dev s' = dhcp_arp_reply 0 0x0201A8C0
        (enet_send_frame (eth_frame peer_mac our_mac ETHTYPE_IP [7; 8; 9]) (dev us)).2)).
Proof.
  apply (arp_reply_delivers no_custom us 0 peer_if 0 asking 1%positive [7; 8; 9] (replicate 18 0)
           pool_stale us_ok); first [reflexivity|exact us_waits|range_tac|cbn; lia].
Defined.

Lemma arp_message_roundtrip_witness :
  let m := arp_message ARP_REQUEST our_mac 0x0101A8C0 ethzero 0x0201A8C0 in
  length m = 28%nat /\ m_valid m = true /\ m_opcode m = lwip_htons ARP_REQUEST /\ m_shwaddr m = our_mac /\
  m_sipaddr m = 0x0101A8C0 /\ m_dipaddr m = 0x0201A8C0.
Proof. apply (arp_message_roundtrip ARP_REQUEST our_mac 0x0101A8C0 ethzero 0x0201A8C0); first [reflexivity|range_tac]. Defined.

Lemma etharp_find_entry_correct_witness :
  exists r s', etharp_find_entry no_custom (Some 0x0301A8C0) ETHARP_FLAG_TRY_HARD us = (Ret r, s') /\
    arp_ok s' /\ keeps ∅ us s' /\ same_link us s' /\
    (found us 0x0301A8C0 r s' \/
     (ETHARP_FLAG_TRY_HARD = ETHARP_FLAG_FIND_ONLY /\ s' = us /\ r = ERR_MEM /\ (0x0301A8C0 ∉ addrs (arp_table us))) \/
     (ETHARP_FLAG_TRY_HARD = ETHARP_FLAG_TRY_HARD /\ claimed us 0x0301A8C0 r s')).
Proof. apply (etharp_find_entry_correct no_custom us 0x0301A8C0 _ us_ok). by left. Defined.

Lemma arp_entries_expire_witness : exists s', ticks no_custom 4 us = (Ret tt, s') /\ arp_ok s' /\ keeps ∅ us s' /\
  forall i e, arp_table us !! i = Some e -> occupied e = true -> exists e', arp_table s' !! i = Some e' /\
    if lifetime e <=? e_ctime e + Z.of_nat 4 then e' = blank else older (Z.of_nat 4) e e'.
Proof. apply (arp_entries_expire no_custom 4 us us_ok). Defined.

Lemma etharp_output_correct_witness :
  exists r s', etharp_output no_custom 0 2 0x0201A8C0 us = (Ret r, s') /\ arp_ok s' /\ keeps {[2%positive]} us s' /\
    (exists x' bs', owns (hp s') 2 [Node 2 x' bs']) /\ sent us s' 0 0x0201A8C0 outgoing [1; 2; 3; 4] r.
Proof.
  apply (etharp_output_correct no_custom us 0 0x0201A8C0 2 outgoing [1; 2; 3; 4] [] us_ok);
    [apply store_owns; by right|exact us_filled|exact us_rest|vm_compute; congruence].
Defined.

Lemma ethernet_output_correct_witness : exists r h' b d x' bs',
  ethernet_output 0 2 our_mac peer_mac ETHTYPE_IP us = (Ret r, after us h' b d) /\
    length b = 1518%nat /\ owns h' 2 [Node 2 x' bs'] /\ hstep {[2%positive]} (live (al (hp us))) (hp us) h' /\
    (r, d) = enet_send_frame (eth_frame peer_mac our_mac ETHTYPE_IP [1; 2; 3; 4]) (dev us).
Proof.
  apply (ethernet_output_correct us 0 2 outgoing [1; 2; 3; 4] [] peer_mac our_mac ETHTYPE_IP 16);
    first [reflexivity|exact store_inv|vm_compute; congruence|apply store_owns; by right].
Defined.

(** A frame of 22 bytes in a buffer of the pool. *)
Definition short_frame := eth_frame our_mac peer_mac ETHTYPE_ARP [0; 1; 8; 0; 6; 4; 0; 1].
Definition inbuf := Pbuf None (Some (2%positive, 0)) 22 22 PBUF_POOL 0 1.
Definition inbox : heap pool := Heap
  (list_to_map [(2%positive, inbuf)]) (list_to_map [(2%positive, short_frame ++ replicate 1494 0x55)])
  (Pool 3 (list_to_set [2%positive])).
Definition reader : link pool (list (list Z)) :=
  Link (replicate 10 blank) 0 (fun _ => our_if) (replicate 1518 0) inbox [].

Lemma reader_ok : arp_ok reader.
Proof.
  split; cbn; try done; [exact empty_table_ok|by intros p Hp%elem_of_nil].
Qed.

Lemma reader_received : received reader 2 (Node 2 inbuf short_frame) [] short_frame.
Proof.
  split; [split; [packet_tac|]|split; [done|split; [|by repeat constructor]]].
  - constructor; [|constructor]. split_and!; [done|done|done|by right].
  - do 3 eexists. split; [done|]. vm_compute. by repeat split.
Qed.

Lemma ethernet_input_correct_witness :
  exists s', ethernet_input no_custom 2 0 reader = (Ret ERR_OK, s') /\ arp_ok s' /\ netifs s' = netifs reader /\
    frame_taken reader s' 0 short_frame 2 [Node 2 inbuf short_frame].
Proof.
  apply (ethernet_input_correct no_custom (fun _ => True) reader 2 _ [] short_frame 0 ltac:(done) reader_ok reader_received);
    [apply (bool_decide_unpack _); vm_compute; exact I|vm_compute; congruence].
Defined.

(** The entry learnt from it is made of what the buffer held before. *)
Example short_frame_learnt :
  match ethernet_input no_custom 2 0 (Link (arp_table reader) 0 (fun _ => Netif our_mac 6 0x55555555 0x00FFFFFF 0 0x0F 1500)
      (replicate 1518 0) inbox []) with
  | (Ret 0, s') => arp_table s' !! 0%nat = Some (Entry None 0x55555555 (Some 0) (replicate 6 0x55) 0 ETHARP_STATE_STABLE)
  | _ => False
  end.
Proof. vm_compute. reflexivity. Qed.

(** A constant header in front of bytes in RAM. *)
Definition rom := Pbuf (Some 2%positive) (Some (3%positive, 0)) 6 2 PBUF_ROM 0 1.
Definition mixed_store : heap pool := Heap
  (list_to_map [(3%positive, rom); (2%positive, outgoing)])
  (list_to_map [(3%positive, [5; 6]); (2%positive, replicate 16 0 ++ [1; 2; 3; 4])])
  (Pool 3 (list_to_set [3%positive; 2%positive])).
Definition mixed : link pool (list (list Z)) :=
  Link (replicate 10 blank) 0 (fun _ => our_if) (replicate 1518 0) mixed_store [].

Lemma mixed_ok : arp_ok mixed.
Proof.
  split; cbn; try done; [exact empty_table_ok|by intros p Hp%elem_of_nil].
Qed.

Lemma mixed_packet : packet (hp mixed) (Some 3%positive) ([Node 3 rom [5; 6]] ++ [Node 2 outgoing [1; 2; 3; 4]]).
Proof. packet_tac. Qed.

Lemma mixed_packet_stops_witness : exists o h1,
  pbuf_alloc no_custom PBUF_LINK 4 PBUF_RAM (hp mixed) = (Ret o, h1) /\
  match o with
  | Some _ => (take_over no_custom 3 mixed).1 = Fault
  | None => exists s', take_over no_custom 3 mixed = (Ret None, s') /\ arp_ok s' /\ keeps ∅ mixed s' /\ same_table mixed s'
  end.
Proof.
  apply (mixed_packet_stops no_custom mixed 3 (Node 3 rom [5; 6]) [] (Node 2 outgoing [1; 2; 3; 4]) [] mixed_ok mixed_packet);
    [by repeat constructor|by repeat constructor|done|range_tac|done].
Defined.
