(* ===== verification/Udp.v ===== *)
(** * UDP control blocks: [lwip/src/core/udp.c]

    The blocks ([struct udp_pcb]) live in a pool of six elements ([memp.c]); those that are
    bound are linked through [next] from [udp_pcbs].  This file has the operations on the
    blocks; [UdpIo] has the datagrams. *)
From S2P Require Export Etharp.

Definition UDP_LOCAL_PORT_RANGE_START := 0xc000.
Definition UDP_LOCAL_PORT_RANGE_END := 0xffff.
Definition UDP_TTL := 255.
Definition UDP_FLAGS_NOCHKSUM := 0x01.
Definition UDP_FLAGS_CONNECTED := 0x04.
Definition IPADDR_ANY := 0.
Definition IPADDR_BROADCAST := 0xffffffff.
Definition ERR_USE := -8.

(** [struct udp_pcb]; a callback is the number of the function. *)
Record udp_pcb := UdpPcb {
  local_ip : Z;
  remote_ip : Z;
  so_options : Z;          (* u8_t *)
  tos : Z;                 (* u8_t *)
  ttl : Z;                 (* u8_t *)
  u_next : option ptr;
  u_flags : Z;             (* u8_t *)
  local_port : Z;          (* u16_t, host byte order *)
  remote_port : Z;         (* u16_t, host byte order *)
  recv : option Z;
  recv_arg : Z
}.

Definition with_local_ip v x := UdpPcb v (remote_ip x) (so_options x) (tos x) (ttl x) (u_next x)
  (u_flags x) (local_port x) (remote_port x) (recv x) (recv_arg x).
Definition with_remote_ip v x := UdpPcb (local_ip x) v (so_options x) (tos x) (ttl x) (u_next x)
  (u_flags x) (local_port x) (remote_port x) (recv x) (recv_arg x).
Definition with_u_next v x := UdpPcb (local_ip x) (remote_ip x) (so_options x) (tos x) (ttl x) v
  (u_flags x) (local_port x) (remote_port x) (recv x) (recv_arg x).
Definition with_u_flags v x := UdpPcb (local_ip x) (remote_ip x) (so_options x) (tos x) (ttl x) (u_next x)
  v (local_port x) (remote_port x) (recv x) (recv_arg x).
Definition with_local_port v x := UdpPcb (local_ip x) (remote_ip x) (so_options x) (tos x) (ttl x) (u_next x)
  (u_flags x) v (remote_port x) (recv x) (recv_arg x).
Definition with_remote_port v x := UdpPcb (local_ip x) (remote_ip x) (so_options x) (tos x) (ttl x) (u_next x)
  (u_flags x) (local_port x) v (recv x) (recv_arg x).
Definition with_recv f a x := UdpPcb (local_ip x) (remote_ip x) (so_options x) (tos x) (ttl x) (u_next x)
  (u_flags x) (local_port x) (remote_port x) f a.

(** [memset(pcb, 0, sizeof(struct udp_pcb))] *)
Definition zero_pcb : udp_pcb := UdpPcb 0 0 0 0 0 None 0 0 0 None 0.

(** The module's variables, the blocks in use, and the pool's list of free elements. *)
Record udp_state := UdpState {
  pcbs : gmap ptr udp_pcb;
  udp_pcbs : option ptr;
  udp_port : Z;            (* u16_t *)
  memp_udp_pcb : list ptr
}.

#[local] Abbreviation M := (cmd udp_state).

Definition pcb_at (p : ptr) : M udp_pcb := fun u =>
  match pcbs u !! p with Some x => (Ret x, u) | None => (Fault, u) end.
Definition on_pcb (p : ptr) (f : udp_pcb -> udp_pcb) : M unit :=
  x <- pcb_at p ;;
  modify (fun u => UdpState (<[p := f x]> (pcbs u)) (udp_pcbs u) (udp_port u) (memp_udp_pcb u)).
Definition set_udp_pcbs (p : option ptr) : M unit := modify (fun u =>
  UdpState (pcbs u) p (udp_port u) (memp_udp_pcb u)).
Definition set_udp_port (v : Z) : M unit := modify (fun u =>
  UdpState (pcbs u) (udp_pcbs u) v (memp_udp_pcb u)).

(** The number of blocks bounds every walk along a list without a cycle. *)
Definition pcb_fuel : M nat := gets (fun u => S (size (pcbs u))).

(** [for (pcb = udp_pcbs; pcb != NULL; pcb = pcb->next) { if (found) break; }] *)
Fixpoint walk (n : nat) (p : option ptr) (found : ptr -> udp_pcb -> bool) : M (option ptr) :=
  match p with
  | None => ret None
  | Some q =>
    match n with
    | O => diverge
    | S n => x <- pcb_at q ;; if found q x then ret (Some q) else walk n (u_next x) found
    end
  end.
Definition first_pcb (found : ptr -> udp_pcb -> bool) : M (option ptr) :=
  n <- pcb_fuel ;; p <- gets udp_pcbs ;; walk n p found.

(** ** [udp_new_port] *)

(** [n] is the number of ports found in use; each round tries one more. *)
Fixpoint again (k : nat) (n : Z) : M Z :=
  match k with
  | O => diverge
  | S k =>
      old <- gets udp_port ;;
      set_udp_port (u16 (old + 1)) ;;;
      (if old =? UDP_LOCAL_PORT_RANGE_END then set_udp_port UDP_LOCAL_PORT_RANGE_START else ret tt) ;;;
      port <- gets udp_port ;;
      used <- first_pcb (fun _ x => local_port x =? port) ;;
      match used with
      | Some _ =>
          let n := u16 (n + 1) in
          if UDP_LOCAL_PORT_RANGE_END - UDP_LOCAL_PORT_RANGE_START <? n then ret 0 else again k n
      | None => ret port
      end
  end.
Definition PORTS : nat := Z.to_nat (UDP_LOCAL_PORT_RANGE_END - UDP_LOCAL_PORT_RANGE_START + 1).
Definition udp_new_port : M Z := again PORTS 0.

(** ** Life of a block *)
Definition udp_new : M (option ptr) :=
  l <- gets memp_udp_pcb ;;
  match l with
  | [] => ret None
  | p :: l =>
      modify (fun u => UdpState (<[p := zero_pcb]> (pcbs u)) (udp_pcbs u) (udp_port u) l) ;;;
      on_pcb p (fun x => UdpPcb (local_ip x) (remote_ip x) (so_options x) (tos x) UDP_TTL (u_next x)
        (u_flags x) (local_port x) (remote_port x) (recv x) (recv_arg x)) ;;;
      ret (Some p)
  end.

Definition memp_free (p : ptr) : M unit := modify (fun u =>
  UdpState (delete p (pcbs u)) (udp_pcbs u) (udp_port u) (p :: memp_udp_pcb u)).

Definition udp_remove (pcb : ptr) : M unit :=
  head <- gets udp_pcbs ;;
  (if bool_decide (head = Some pcb) then
     x <- pcb_at pcb ;; set_udp_pcbs (u_next x)
   else
     q <- first_pcb (fun _ x => bool_decide (u_next x = Some pcb)) ;;
     match q with
     | Some q => x <- pcb_at pcb ;; on_pcb q (with_u_next (u_next x))
     | None => ret tt
     end) ;;;
  memp_free pcb.

(** [pcb->next = udp_pcbs; udp_pcbs = pcb;] *)
Definition to_front (pcb : ptr) : M unit :=
  head <- gets udp_pcbs ;; on_pcb pcb (with_u_next head) ;;; set_udp_pcbs (Some pcb).

(** ** [udp_bind], [udp_connect], [udp_disconnect], [udp_recv] *)
Definition udp_bind (pcb : option ptr) (ipaddr : option Z) (port : Z) : M Z := func (
  let ipaddr := default IPADDR_ANY ipaddr in
  pcb <- (match pcb with None => exit ERR_VAL | Some p => ret p end) ;;
  ipcb <- first_pcb (fun ipcb _ => bool_decide (pcb = ipcb)) ;;
  port <- (if port =? 0 then
             port <- udp_new_port ;; exit_if (port =? 0) ERR_USE ;;; ret port
           else
             ipcb <- first_pcb (fun ipcb x =>
               negb (bool_decide (pcb = ipcb)) && ((local_port x =? port) && (local_ip x =? ipaddr))) ;;
             exit_if (if ipcb is Some _ then true else false) ERR_USE ;;;
             ret port) ;;
  on_pcb pcb (with_local_ip ipaddr) ;;;
  on_pcb pcb (with_local_port port) ;;;
  (if ipcb is Some _ then ret tt else to_front pcb) ;;;
  ret ERR_OK).

Definition udp_connect (pcb : option ptr) (ipaddr : option Z) (port : Z) : M Z := func (
  match pcb, ipaddr with
  | Some pcb, Some ipaddr =>
      x <- pcb_at pcb ;;
      (if local_port x =? 0 then
         err <- udp_bind (Some pcb) (Some (local_ip x)) (local_port x) ;;
         exit_if (negb (err =? ERR_OK)) err
       else ret tt) ;;;
      on_pcb pcb (with_remote_ip ipaddr) ;;;
      on_pcb pcb (with_remote_port port) ;;;
      on_pcb pcb (fun x => with_u_flags (Z.lor (u_flags x) UDP_FLAGS_CONNECTED) x) ;;;
      ipcb <- first_pcb (fun ipcb _ => bool_decide (pcb = ipcb)) ;;
      exit_if (if ipcb is Some _ then true else false) ERR_OK ;;;
      to_front pcb ;;;
      ret ERR_OK
  | _, _ => exit ERR_VAL
  end).

Definition udp_disconnect (pcb : ptr) : M unit :=
  on_pcb pcb (with_remote_ip IPADDR_ANY) ;;;
  on_pcb pcb (with_remote_port 0) ;;;
  on_pcb pcb (fun x => with_u_flags (Z.land (u_flags x) (u8 (Z.lnot UDP_FLAGS_CONNECTED))) x).

Definition udp_recv (pcb : ptr) (recv : option Z) (recv_arg : Z) : M unit :=
  on_pcb pcb (with_recv recv recv_arg).

(** ** [udp_netif_ip_addr_changed] *)
Fixpoint changed_loop (n : nat) (upcb : option ptr) (old_addr new_addr : Z) : M unit :=
  match upcb with
  | None => ret tt
  | Some p =>
    match n with
    | O => diverge
    | S n =>
        x <- pcb_at p ;;
        (if local_ip x =? old_addr then on_pcb p (with_local_ip new_addr) else ret tt) ;;;
        changed_loop n (u_next x) old_addr new_addr
    end
  end.
Definition udp_netif_ip_addr_changed (old_addr new_addr : Z) : M unit :=
  if negb (ip4_addr_isany old_addr) && negb (ip4_addr_isany new_addr) then
    n <- pcb_fuel ;; p <- gets udp_pcbs ;; changed_loop n p old_addr new_addr
  else ret tt.

(** ** The search of [udp_input] *)

(** What the packet says: addresses in network order, ports in host order. *)
Record packet_to := PacketTo {
  src_addr : Z;
  src_port : Z;
  dest_addr : Z;
  dest_port : Z;
  broadcast : bool;
  inp_netmask : Z
}.

Definition udp_input_local_match (pcb : udp_pcb) (k : packet_to) : bool :=
  if broadcast k then
    ip4_addr_isany (local_ip pcb) || (dest_addr k =? IPADDR_BROADCAST)
    || ip4_addr_netcmp (local_ip pcb) (dest_addr k) (inp_netmask k)
  else ip4_addr_isany (local_ip pcb) || (local_ip pcb =? dest_addr k).

(** The loop over the list: the first block connected to the sender, which moves to the
    front, or else the first unconnected one. *)
Fixpoint input_loop (n : nat) (pcb prev uncon_pcb : option ptr) (k : packet_to) : M (option ptr) :=
  match pcb with
  | None => ret uncon_pcb
  | Some p =>
    match n with
    | O => diverge
    | S n =>
        x <- pcb_at p ;;
        if (local_port x =? dest_port k) && udp_input_local_match x k then
          let uncon_pcb :=
            if (Z.land (u_flags x) UDP_FLAGS_CONNECTED =? 0) && (if uncon_pcb is None then true else false)
            then Some p else uncon_pcb in
          if (remote_port x =? src_port k)
             && (ip4_addr_isany (remote_ip x) || (remote_ip x =? src_addr k)) then
            (match prev with
             | Some prev => on_pcb prev (with_u_next (u_next x)) ;;; to_front p
             | None => ret tt
             end) ;;;
            ret (Some p)
          else input_loop n (u_next x) (Some p) uncon_pcb k
        else input_loop n (u_next x) (Some p) uncon_pcb k
    end
  end.
Definition udp_demux (k : packet_to) : M (option ptr) :=
  n <- pcb_fuel ;; p <- gets udp_pcbs ;; input_loop n p None None k.
