(* ===== verification/UdpFacts.v ===== *)
(** * The list of UDP control blocks, and what each operation on a block does to it *)
From S2P Require Export Udp.

#[local] Set Warnings "-clear-no-such-hyp".

Implicit Types (u : udp_state) (x y : udp_pcb) (p q r : ptr) (l : list ptr) (m : gmap ptr udp_pcb).

(** ** Linked lists of blocks *)

(** From [a], the blocks [l] are linked, and the last one points to [b]. *)
Fixpoint lseg m (a : option ptr) l (b : option ptr) : Prop :=
  match l with
  | [] => a = b
  | p :: l => a = Some p /\ exists x, m !! p = Some x /\ lseg m (u_next x) l b
  end.

Lemma lseg_app m l1 : forall a l2 b,
  lseg m a (l1 ++ l2) b <-> exists c, lseg m a l1 c /\ lseg m c l2 b.
Proof.
  induction l1 as [|p l1 IH]; intros a l2 b; cbn.
  - split; [eauto|]. by intros (c & -> & ?).
  - setoid_rewrite IH. naive_solver.
Qed.

Lemma lseg_in m a l b p : lseg m a l b -> p ∈ l -> exists x, m !! p = Some x.
Proof.
  revert a. induction l as [|q l IH]; intros a Hl Hp; [by apply elem_of_nil in Hp|].
  destruct Hl as (_ & x & Hx & Hl). apply elem_of_cons in Hp as [->|Hp]; [eauto|by eapply IH].
Qed.

(** A change elsewhere, or of other fields. *)
Lemma lseg_frame m m' l : forall a b, lseg m a l b ->
  (forall p x, p ∈ l -> m !! p = Some x -> exists y, m' !! p = Some y /\ u_next y = u_next x) -> lseg m' a l b.
Proof.
  induction l as [|p l IH]; intros a b Hl Hf; [done|]. destruct Hl as (-> & x & Hx & Hl). split; [done|].
  destruct (Hf p x ltac:(left) Hx) as (y & Hy & Hn). exists y. split; [done|]. rewrite Hn.
  apply IH; [done|]. intros q z Hq. apply Hf. by right.
Qed.

Lemma lseg_other m a l b p y : lseg m a l b -> p ∉ l -> lseg (<[p := y]> m) a l b.
Proof.
  intros Hl Hp. eapply lseg_frame; [done|]. intros q x Hq Hx. exists x. split; [|done].
  rewrite lookup_insert_ne; [done|]. by intros ->.
Qed.

Lemma lseg_same m a l b p x y : lseg m a l b -> m !! p = Some x -> u_next y = u_next x ->
  lseg (<[p := y]> m) a l b.
Proof.
  intros Hl Hp Hn. eapply lseg_frame; [done|]. intros q z Hq Hz. destruct (decide (q = p)) as [->|Hne].
  - exists y. rewrite lookup_insert_eq. split; [done|]. congruence.
  - exists z. by rewrite lookup_insert_ne.
Qed.

Lemma lseg_size m a l b : lseg m a l b -> NoDup l -> (length l <= size m)%nat.
Proof.
  intros Hl Hn. rewrite <- (size_dom (D := gset ptr)), <- (size_list_to_set (C := gset ptr) l) by done.
  apply subseteq_size. intros p Hp%elem_of_list_to_set. destruct (lseg_in _ _ _ _ _ Hl Hp) as [x Hx].
  apply elem_of_dom. eauto.
Qed.

(** ** The invariant *)

(** No two blocks of the list are bound to the same address and port. *)
Definition exclusive m l : Prop := forall p q x y, p ∈ l -> q ∈ l -> m !! p = Some x -> m !! q = Some y ->
  local_port x = local_port y -> local_ip x = local_ip y -> p = q.

Definition MEMP_NUM_UDP_PCB : nat := 6.

(** [l] is the list: exactly the blocks that are bound. *)
Record udp_ok u l : Prop := {
  o_list : lseg (pcbs u) (udp_pcbs u) l None;
  o_nodup : NoDup l;
  o_ports : forall p x, pcbs u !! p = Some x -> 0 <= local_port x <= 65535 /\ (local_port x <> 0 <-> p ∈ l);
  o_port : UDP_LOCAL_PORT_RANGE_START <= udp_port u <= UDP_LOCAL_PORT_RANGE_END;
  o_exclusive : exclusive (pcbs u) l;
  o_pool : NoDup (memp_udp_pcb u);
  o_free : forall p, p ∈ memp_udp_pcb u -> pcbs u !! p = None;
  o_size : (size (pcbs u) + length (memp_udp_pcb u) = MEMP_NUM_UDP_PCB)%nat
}.

(** ** Walks *)
Definition hit m (found : ptr -> udp_pcb -> bool) p : bool :=
  match m !! p with Some x => found p x | None => false end.

Lemma walk_ok u found : forall l n a, lseg (pcbs u) a l None -> (length l < n)%nat ->
  walk n a found u = (Ret (find (hit (pcbs u) found) l), u).
Proof.
  induction l as [|p l IH]; intros n a Hl Hn.
  - cbn in Hl. subst a. by destruct n.
  - destruct n as [|n]; [cbn in Hn; lia|]. destruct Hl as (-> & x & Hx & Hl). cbn [walk find].
    assert (Hp : pcb_at p u = (Ret x, u)) by (unfold pcb_at; by rewrite Hx). cstep Hp.
    unfold hit at 1. rewrite Hx. destruct (found p x); [done|]. apply IH; [done|cbn in Hn; lia].
Qed.

Lemma first_pcb_ok u l found : udp_ok u l ->
  first_pcb found u = (Ret (find (hit (pcbs u) found) l), u).
Proof.
  intros Hok. unfold first_pcb. cstep (eq_refl (pcb_fuel u)). cstep (eq_refl (gets udp_pcbs u)).
  apply walk_ok; [by destruct Hok|]. pose proof (lseg_size _ _ _ _ (o_list _ _ Hok) (o_nodup _ _ Hok)). lia.
Qed.

Lemma on_pcb_at u p f x : pcbs u !! p = Some x ->
  on_pcb p f u = (Ret tt, UdpState (<[p := f x]> (pcbs u)) (udp_pcbs u) (udp_port u) (memp_udp_pcb u)).
Proof. intros Hp. unfold on_pcb, bind, pcb_at. by rewrite Hp. Qed.

Lemma find_self m l p x : p ∈ l -> m !! p = Some x -> find (hit m (fun q _ => bool_decide (p = q))) l = Some p.
Proof.
  intros Hp Hx. destruct (find _ l) as [q|] eqn:Hf.
  - apply find_some in Hf as [_ Hq]. unfold hit in Hq. destruct (m !! q); [|done].
    apply bool_decide_eq_true in Hq. by subst.
  - pose proof (find_none _ _ Hf p ltac:(by apply list_elem_of_In)) as Hh. unfold hit in Hh. rewrite Hx in Hh.
    by rewrite bool_decide_true in Hh.
Qed.

Lemma find_self_none m l p : p ∉ l -> find (hit m (fun q _ => bool_decide (p = q))) l = None.
Proof.
  intros Hp. destruct (find _ l) as [q|] eqn:Hf; [|done]. apply find_some in Hf as [Hq Hh].
  unfold hit in Hh. destruct (m !! q); [|done]. apply bool_decide_eq_true in Hh. subst. by apply list_elem_of_In in Hq.
Qed.

(** ** Changes of one block *)
Definition with_pcb p y u : udp_state := UdpState (<[p := y]> (pcbs u)) (udp_pcbs u) (udp_port u) (memp_udp_pcb u).

Lemma with_pcb_with_pcb p y z u : with_pcb p z (with_pcb p y u) = with_pcb p z u.
Proof. unfold with_pcb. cbn. by rewrite insert_insert_eq. Qed.

Lemma on_pcb_in u p f x : pcbs u !! p = Some x -> on_pcb p f u = (Ret tt, with_pcb p (f x) u).
Proof. apply on_pcb_at. Qed.

Lemma on_pcb_again u p f y : on_pcb p f (with_pcb p y u) = (Ret tt, with_pcb p (f y) u).
Proof. rewrite (on_pcb_in _ _ _ y); [by rewrite with_pcb_with_pcb|apply lookup_insert_eq]. Qed.

(** The part of the invariant a changed block must respect. *)
Definition alone m l p y : Prop := forall q z, q ∈ l -> q <> p -> m !! q = Some z ->
  local_port z = local_port y -> local_ip z <> local_ip y.

Lemma alone_insert m l p y : exclusive m l -> alone m l p y -> exclusive (<[p := y]> m) (p :: l).
Proof.
  intros He Ha q r x z Hq Hr. rewrite !elem_of_cons in *.
  destruct (decide (q = p)) as [->|Hqp]; destruct (decide (r = p)) as [->|Hrp];
    rewrite ?lookup_insert_eq, ?lookup_insert_ne by done; try done.
  - intros [= <-] Hz Hp Hip. exfalso. apply (Ha r z); naive_solver.
  - intros Hx [= <-] Hp Hip. exfalso. apply (Ha q x); naive_solver.
  - intros Hx Hz. apply He; naive_solver.
Qed.

Lemma exclusive_sub m l l' : exclusive m l -> (forall p, p ∈ l' -> p ∈ l) -> exclusive m l'.
Proof. intros He Hl p q x y Hp Hq. apply He; auto. Qed.

Lemma free_insert u l p x y : udp_ok u l -> pcbs u !! p = Some x ->
  (forall q, q ∈ memp_udp_pcb u -> <[p := y]> (pcbs u) !! q = None) /\
  (size (<[p := y]> (pcbs u)) + length (memp_udp_pcb u) = MEMP_NUM_UDP_PCB)%nat.
Proof.
  intros Hok Hp. split.
  - intros q Hq. pose proof (o_free _ _ Hok q Hq). rewrite lookup_insert_ne; [done|]. naive_solver.
  - rewrite map_size_insert_Some by eauto. by destruct Hok.
Qed.

(** A block of the list, or an unbound one that stays unbound. *)
Lemma udp_ok_set u l p x y : udp_ok u l -> pcbs u !! p = Some x -> u_next y = u_next x ->
  0 <= local_port y <= 65535 -> (local_port y <> 0 <-> p ∈ l) -> (p ∈ l -> alone (pcbs u) l p y) ->
  udp_ok (with_pcb p y u) l.
Proof.
  intros Hok Hp Hn Hr Hl Ha. destruct (free_insert u l p x y Hok Hp) as [Hf Hs].
  pose proof Hok as [L N P R X PN PF S]. split; try done; cbn.
  - by eapply lseg_same.
  - intros q z. destruct (decide (q = p)) as [->|Hne].
    + rewrite lookup_insert_eq. intros [= <-]. by split.
    + rewrite lookup_insert_ne by done. apply P.
  - destruct (decide (p ∈ l)) as [Hin|Hout].
    + eapply exclusive_sub; [by apply alone_insert; [|apply Ha]|]. intros q. rewrite elem_of_cons. auto.
    + intros q r a b Hq Hr'. rewrite !lookup_insert_ne by (by intros ->). by apply X.
Qed.

(** The fields that matter to the list are the same. *)
Lemma udp_ok_same u l p x y : udp_ok u l -> pcbs u !! p = Some x -> u_next y = u_next x ->
  local_port y = local_port x -> local_ip y = local_ip x -> udp_ok (with_pcb p y u) l.
Proof.
  intros Hok Hp Hn Hport Hip. destruct (o_ports _ _ Hok p x Hp) as [Hr Hl]. rewrite <- Hport in Hr, Hl.
  eapply udp_ok_set; try done. intros Hin q z Hq Hne Hz Hpz Hipz. apply Hne.
  eapply (o_exclusive _ _ Hok); [done..| |]; congruence.
Qed.

(** An unbound block becomes the first of the list. *)
Lemma udp_ok_cons u l p x y : udp_ok u l -> pcbs u !! p = Some x -> p ∉ l -> u_next y = udp_pcbs u ->
  0 < local_port y <= 65535 -> alone (pcbs u) l p y ->
  udp_ok (UdpState (<[p := y]> (pcbs u)) (Some p) (udp_port u) (memp_udp_pcb u)) (p :: l).
Proof.
  intros Hok Hp Hout Hn Hr Ha. destruct (free_insert u l p x y Hok Hp) as [Hf Hs].
  pose proof Hok as [L N P R X PN PF S]. split; try done; cbn.
  - split; [done|]. exists y. rewrite lookup_insert_eq, Hn. split; [done|]. by apply lseg_other.
  - by constructor.
  - intros q z. rewrite elem_of_cons. destruct (decide (q = p)) as [->|Hne].
    + rewrite lookup_insert_eq. intros [= <-]. split; [lia|]. split; [auto|lia].
    + rewrite lookup_insert_ne by done. intros Hz. destruct (P q z Hz) as [? HP]. split; [done|]. rewrite HP. naive_solver.
  - by apply alone_insert.
Qed.

Lemma to_front_at u p x : pcbs u !! p = Some x -> to_front p u =
  (Ret tt, UdpState (<[p := with_u_next (udp_pcbs u) x]> (pcbs u)) (Some p) (udp_port u) (memp_udp_pcb u)).
Proof. intros Hp. unfold to_front. cstep (eq_refl (gets udp_pcbs u)). by cstep (on_pcb_in u p _ x Hp). Qed.
