(* ===== verification/UdpOps.v ===== *)
(** * What each operation on a UDP control block does *)
From S2P Require Export UdpFacts.

#[local] Set Warnings "-clear-no-such-hyp".

Implicit Types (u : udp_state) (x y : udp_pcb) (p q : ptr) (l : list ptr) (m : gmap ptr udp_pcb).

(** ** [udp_new_port] *)
Definition with_port v u : udp_state := UdpState (pcbs u) (udp_pcbs u) v (memp_udp_pcb u).

Definition next_port (v : Z) : Z := if v =? UDP_LOCAL_PORT_RANGE_END then UDP_LOCAL_PORT_RANGE_START else v + 1.

Definition in_use m l (v : Z) : Prop := exists p x, p ∈ l /\ m !! p = Some x /\ local_port x = v.

Definition dynamic (v : Z) : Prop := UDP_LOCAL_PORT_RANGE_START <= v <= UDP_LOCAL_PORT_RANGE_END.

Lemma next_port_dynamic v : dynamic v -> dynamic (next_port v).
Proof.
  unfold dynamic, next_port, UDP_LOCAL_PORT_RANGE_START, UDP_LOCAL_PORT_RANGE_END.
  destruct (Z.eqb_spec v 0xffff); lia.
Qed.

(** The port that is tried after [v], [i] times. *)
Definition nth_port (i : nat) (v : Z) : Z := Nat.iter i next_port v.

Lemma nth_port_dynamic i v : dynamic v -> dynamic (nth_port i v).
Proof. intros Hv. induction i as [|i IH]; [done|]. by apply next_port_dynamic. Qed.

Lemma nth_port_formula i v : dynamic v -> nth_port i v = 0xc000 + (v - 0xc000 + Z.of_nat i) mod 0x4000.
Proof.
  intros Hv. induction i as [|i IH].
  - cbn. unfold dynamic, UDP_LOCAL_PORT_RANGE_START, UDP_LOCAL_PORT_RANGE_END in Hv. rewrite Z.mod_small; lia.
  - change (nth_port (S i) v) with (next_port (nth_port i v)). rewrite IH. unfold next_port, UDP_LOCAL_PORT_RANGE_START, UDP_LOCAL_PORT_RANGE_END.
    replace (v - 0xc000 + Z.of_nat (S i)) with ((v - 0xc000 + Z.of_nat i) + 1) by lia.
    generalize (v - 0xc000 + Z.of_nat i). intros z.
    destruct (Z.eqb_spec (0xc000 + z mod 0x4000) 0xffff); Z.to_euclidean_division_equations; lia.
Qed.

Lemma PORTS_Z : Z.of_nat PORTS = 0x4000.
Proof. unfold PORTS. by rewrite Z2Nat.id. Qed.

Lemma nth_port_all v w : dynamic v -> dynamic w -> exists i, (1 <= i <= PORTS)%nat /\ nth_port i v = w.
Proof.
  unfold dynamic, UDP_LOCAL_PORT_RANGE_START, UDP_LOCAL_PORT_RANGE_END. intros Hv Hw.
  exists (Z.to_nat (if w <=? v then w - v + 0x4000 else w - v)).
  pose proof PORTS_Z. rewrite nth_port_formula by done.
  destruct (Z.leb_spec w v); (split; [lia|]); rewrite Z2Nat.id by lia.
  - replace (v - 0xc000 + (w - v + 0x4000)) with (w - 0xc000 + 1 * 0x4000) by lia. rewrite Z.mod_add, Z.mod_small; lia.
  - replace (v - 0xc000 + (w - v)) with (w - 0xc000) by lia. rewrite Z.mod_small; lia.
Qed.

Lemma udp_ok_port u l v : udp_ok u l -> dynamic v -> udp_ok (with_port v u) l.
Proof. intros [L N P R X PN PF S] Hv. by split. Qed.

Lemma find_port m l v : match find (hit m (fun _ x => local_port x =? v)) l with
  | Some _ => in_use m l v
  | None => forall a b, lseg m a l b -> ~ in_use m l v
  end.
Proof.
  destruct (find _ l) as [p|] eqn:Hf.
  - apply find_some in Hf as [Hp Hh]. unfold hit in Hh. destruct (m !! p) as [x|] eqn:Hx; [|done].
    exists p, x. rewrite list_elem_of_In. split_and!; [done|done|lia].
  - intros a b _ (p & x & Hp & Hx & Hv). pose proof (find_none _ _ Hf p ltac:(by apply list_elem_of_In)) as Hh.
    unfold hit in Hh. rewrite Hx in Hh. lia.
Qed.

(** One round, and the rounds that are left. *)
Lemma again_ok l : forall k n u, udp_ok u l -> 0 <= n -> n + Z.of_nat k = 0x4000 -> (0 < k)%nat ->
  exists r i, again k n u = (Ret r, with_port (nth_port i (udp_port u)) u) /\
    (forall j, (1 <= j < i)%nat -> in_use (pcbs u) l (nth_port j (udp_port u))) /\
    if r =? 0 then i = k /\ in_use (pcbs u) l (nth_port i (udp_port u))
    else r = nth_port i (udp_port u) /\ (1 <= i <= k)%nat /\ ~ in_use (pcbs u) l r.
Proof.
  induction k as [|k IH]; intros n u Hok Hn Hk Hpos; [lia|]. cbn [again].
  cstep (eq_refl (gets udp_port u)). cstep (eq_refl (set_udp_port (u16 (udp_port u + 1)) u)).
  pose proof (o_port _ _ Hok) as Hr. pose proof (next_port_dynamic _ Hr) as Hd.
  set (v := next_port (udp_port u)) in *. set (u1 := with_port v u).
  assert (Hok1 : udp_ok u1 l) by by apply udp_ok_port.
  assert (Hset : (if udp_port u =? UDP_LOCAL_PORT_RANGE_END then set_udp_port UDP_LOCAL_PORT_RANGE_START else ret tt)
            (UdpState (pcbs u) (udp_pcbs u) (u16 (udp_port u + 1)) (memp_udp_pcb u)) = (Ret tt, u1)).
  { unfold u1, v, next_port, with_port. destruct (Z.eqb_spec (udp_port u) UDP_LOCAL_PORT_RANGE_END); [done|].
    unfold UDP_LOCAL_PORT_RANGE_START, UDP_LOCAL_PORT_RANGE_END in *. by rewrite u16_small by lia. }
  cstep Hset. cstep (eq_refl (gets udp_port u1)). change (udp_port u1) with v.
  cstep (first_pcb_ok u1 l _ Hok1). pose proof (find_port (pcbs u) l v) as Hf.
  change (pcbs u1) with (pcbs u). destruct (find _ l) as [p|].
  - rewrite u16_small by lia.
    assert (HE : UDP_LOCAL_PORT_RANGE_END - UDP_LOCAL_PORT_RANGE_START = 0x3fff) by done. rewrite HE.
    destruct (Z.ltb_spec 0x3fff (n + 1)) as [Hend|Hend].
    + assert (k = O) as -> by lia. exists 0, 1%nat. split; [done|]. split; [intros; lia|]. by split.
    + destruct (IH (n + 1) u1 Hok1) as (r & i & Hr1 & Hu & Hcase); [lia|lia|lia|].
      assert (Hi : forall j, nth_port j (udp_port u1) = nth_port (S j) (udp_port u)).
      { intros j. unfold nth_port. by rewrite Nat.iter_succ_r. }
      exists r, (S i). rewrite Hr1, Hi. split; [done|]. split.
      * intros [|[|j]] Hj; [lia|done|]. rewrite <- Hi. apply Hu. lia.
      * rewrite <- Hi. destruct (r =? 0); [naive_solver|]. destruct Hcase as (-> & ? & ?). split_and!; [done|lia|lia|done].
  - exists v, 1%nat. split; [done|]. split; [intros; lia|]. 
    unfold dynamic, UDP_LOCAL_PORT_RANGE_START in Hd. rewrite (proj2 (Z.eqb_neq _ _)) by lia.
    split_and!; [done|lia|lia|]. eapply Hf. apply Hok.
Qed.

(** The list is far shorter than the range. *)
Lemma udp_ok_length u l : udp_ok u l -> (length l <= 6)%nat.
Proof.
  intros Hok. pose proof (lseg_size _ _ _ _ (o_list _ _ Hok) (o_nodup _ _ Hok)).
  pose proof (o_size _ _ Hok) as Hs. unfold MEMP_NUM_UDP_PCB in Hs. lia.
Qed.

Lemma ports_not_all u l k : udp_ok u l -> (6 < k)%nat ->
  ~ (forall i, (i < k)%nat -> in_use (pcbs u) l (0xc000 + Z.of_nat i)).
Proof.
  intros Hok Hk Hall. pose proof (udp_ok_length _ _ Hok) as Hl.
  set (port_of := fun p => match pcbs u !! p with Some x => local_port x | None => 0 end).
  assert (Hincl : incl ((fun i => 0xc000 + Z.of_nat i) <$> seq 0 k) (port_of <$> l)).
  { intros v. rewrite <- !list_elem_of_In. intros (i & -> & Hi)%list_elem_of_fmap. apply elem_of_seq in Hi.
    destruct (Hall i ltac:(lia)) as (p & x & Hp & Hx & Hv). apply list_elem_of_fmap. exists p.
    unfold port_of. by rewrite Hx, Hv. }
  apply NoDup_incl_length in Hincl.
  - rewrite !length_fmap, length_seq in Hincl. lia.
  - apply NoDup_ListNoDup, NoDup_fmap; [intros i j; lia|apply NoDup_seq].
Qed.

Lemma new_port_ok u l : udp_ok u l -> exists i,
  let r := nth_port i (udp_port u) in
  udp_new_port u = (Ret r, with_port r u) /\ dynamic r /\ ~ in_use (pcbs u) l r /\
  forall j, (1 <= j < i)%nat -> in_use (pcbs u) l (nth_port j (udp_port u)).
Proof.
  intros Hok. pose proof (o_port _ _ Hok) as Hd. unfold udp_new_port.
  pose proof PORTS_Z.
  destruct (again_ok l PORTS 0 u Hok) as (r & i & Hr & Hu & Hcase); [lia|lia|lia|].
  destruct (Z.eqb_spec r 0) as [->|Hr0].
  - exfalso. destruct Hcase as [-> Hlast]. apply (ports_not_all u l PORTS Hok ltac:(lia)). intros j Hj.
    destruct (nth_port_all (udp_port u) (0xc000 + Z.of_nat j) Hd) as (i & Hi & <-).
    { unfold dynamic, UDP_LOCAL_PORT_RANGE_START, UDP_LOCAL_PORT_RANGE_END. lia. }
    destruct (decide (i = PORTS)) as [->|Hne]; [done|apply Hu; lia].
  - destruct Hcase as (-> & Hi & Hfree). exists i. split; [done|]. split; [by apply nth_port_dynamic|by split].
Qed.

(** ** [udp_bind] *)

(** Another block of the list has this address and port. *)
Definition taken m l p (ip port : Z) : Prop := exists q x,
  q ∈ l /\ q <> p /\ m !! q = Some x /\ local_port x = port /\ local_ip x = ip.

(** The blocks without their links. *)
Definition unlinked x : udp_pcb := with_u_next None x.
Definition fields m : gmap ptr udp_pcb := unlinked <$> m.
#[local] Arguments fields : simpl never.

Lemma fields_insert m p y : fields (<[p := y]> m) = <[p := unlinked y]> (fields m).
Proof. apply fmap_insert. Qed.

Lemma fields_lookup m p z : fields m !! p = Some z -> exists y, m !! p = Some y /\ unlinked y = z.
Proof. unfold fields. rewrite lookup_fmap. destruct (m !! p) as [y|]; [|done]. intros [= <-]. by exists y. Qed.

Lemma fields_relink m p x nx : m !! p = Some x -> fields (<[p := with_u_next nx x]> m) = fields m.
Proof.
  intros Hp. rewrite fields_insert. apply insert_id. unfold fields. by rewrite lookup_fmap, Hp.
Qed.

(** The list with [p] on it. *)
Definition listed p l : list ptr := if bool_decide (p ∈ l) then l else p :: l.

(** The block is [y] up to its link, it is on the list, and nothing else has changed but,
    maybe, the last port tried. *)
Definition placed u l p y u' : Prop :=
  udp_ok u' (listed p l) /\ memp_udp_pcb u' = memp_udp_pcb u /\
  fields (pcbs u') = <[p := unlinked y]> (fields (pcbs u)).

Definition bind_tail p (ipaddr port : Z) (ipcb : option ptr) : cmd udp_state Z :=
  on_pcb p (with_local_ip ipaddr) ;;;
  on_pcb p (with_local_port port) ;;;
  (if ipcb is Some _ then ret tt else to_front p) ;;;
  ret ERR_OK.

Lemma bind_tail_ok u l p x ip port ipcb : udp_ok u l -> pcbs u !! p = Some x -> 0 < port <= 65535 ->
  ~ taken (pcbs u) l p ip port -> ipcb = find (hit (pcbs u) (fun q _ => bool_decide (p = q))) l ->
  exists u', bind_tail p ip port ipcb u = (Ret ERR_OK, u') /\
    placed u l p (with_local_port port (with_local_ip ip x)) u' /\ udp_port u' = udp_port u.
Proof.
  intros Hok Hp Hr Hno ->. unfold bind_tail. cstep (on_pcb_in u p _ x Hp). cstep (on_pcb_again u p (with_local_port port) (with_local_ip ip x)).
  set (y := with_local_port port (with_local_ip ip x)).
  assert (Ha : alone (pcbs u) l p y).
  { intros q z Hq Hne Hz Hpz Hiz. apply Hno. exists q, z. by split_and!. }
  unfold placed, listed. destruct (bool_decide_reflect (p ∈ l)) as [Hin|Hout].
  - rewrite (find_self _ _ _ x Hin Hp). cstep (eq_refl (ret tt (with_pcb p y u))).
    exists (with_pcb p y u). split; [done|]. split; [|done]. split; [|split; [done|apply fields_insert]].
    eapply udp_ok_set; try done; cbn; [lia|]. split; [done|]. lia.
  - rewrite (find_self_none _ _ _ Hout). cstep (to_front_at (with_pcb p y u) p y ltac:(apply lookup_insert_eq)).
    eexists. split; [reflexivity|]. cbn. rewrite insert_insert_eq. split; [|done]. split; [|split; [done|by rewrite fields_insert]].
    by eapply udp_ok_cons.
Qed.

Lemma find_taken u l p (ip port : Z) : udp_ok u l ->
  match find (hit (pcbs u) (fun ipcb x =>
           negb (bool_decide (p = ipcb)) && ((local_port x =? port) && (local_ip x =? ip)))) l with
  | Some _ => taken (pcbs u) l p ip port
  | None => ~ taken (pcbs u) l p ip port
  end.
Proof.
  intros Hok. destruct (find _ l) as [q|] eqn:Hf.
  - apply find_some in Hf as [Hq Hh]. unfold hit in Hh. destruct (pcbs u !! q) as [x|] eqn:Hx; [|done].
    apply andb_true_iff in Hh as [Hne Hh]. apply andb_true_iff in Hh as [? ?]. apply negb_true_iff, bool_decide_eq_false in Hne.
    exists q, x. rewrite list_elem_of_In. split_and!; [done|congruence|done|lia|lia].
  - intros (q & x & Hq & Hne & Hx & Hport & Hip).
    pose proof (find_none _ _ Hf q ltac:(by apply list_elem_of_In)) as Hh. unfold hit in Hh.
    rewrite Hx, bool_decide_false in Hh by congruence. cbn in Hh. lia.
Qed.

Lemma bind_ok u l p x ip port : udp_ok u l -> pcbs u !! p = Some x -> 0 <= port <= 65535 ->
  exists r u', udp_bind (Some p) ip port u = (Ret r, u') /\
    ((r = ERR_OK /\ exists port',
        (if port =? 0 then dynamic port' /\ ~ in_use (pcbs u) l port'
         else port' = port /\ ~ taken (pcbs u) l p (default IPADDR_ANY ip) port) /\
        placed u l p (with_local_port port' (with_local_ip (default IPADDR_ANY ip) x)) u') \/
     (r = ERR_USE /\ port <> 0 /\ taken (pcbs u) l p (default IPADDR_ANY ip) port /\ u' = u)).
Proof.
  intros Hok Hp Hr. unfold udp_bind, func. set (ip' := default IPADDR_ANY ip). cstep (eq_refl (ret p u)).
  cstep (first_pcb_ok u l (fun q _ => bool_decide (p = q)) Hok). set (ipcb := find _ l).
  destruct (Z.eqb_spec port 0) as [->|Hport].
  - destruct (new_port_ok u l Hok) as (i & Hnew & Hd & Hfree & _). rewrite !bind_bind. cstep Hnew.
    set (v := nth_port i (udp_port u)) in *. rewrite bind_bind.
    assert (Hv0 : (v =? 0) = false) by (unfold dynamic, UDP_LOCAL_PORT_RANGE_START in Hd; lia). rewrite Hv0.
    cstep (eq_refl (exit_if false ERR_USE (with_port v u))). cstep (eq_refl (ret v (with_port v u))).
    destruct (bind_tail_ok (with_port v u) l p x ip' v ipcb) as (u' & Hb & (Hok' & Hm & Hpl) & _).
    { by apply udp_ok_port. } { done. }
    { unfold dynamic, UDP_LOCAL_PORT_RANGE_START, UDP_LOCAL_PORT_RANGE_END in Hd. lia. }
    { intros (q & z & Hq & _ & Hz & Hpz & _). apply Hfree. by exists q, z. } { done. }
    unfold bind_tail in Hb. rewrite Hb. exists ERR_OK, u'. split; [done|left]. split; [done|]. exists v.
    split; [by split|]. by split_and!.
  - rewrite bind_bind. cstep (first_pcb_ok u l _ Hok). pose proof (find_taken u l p ip' port Hok) as Hf.
    destruct (find (hit (pcbs u) (fun ipcb x => negb _ && _)) l).
    + exists ERR_USE, u. split; [done|right]. by split_and!.
    + rewrite bind_bind. cstep (eq_refl (exit_if false ERR_USE u)). cstep (eq_refl (ret port u)).
      destruct (bind_tail_ok u l p x ip' port ipcb) as (u' & Hb & Hpl & _); try done; [lia|].
      unfold bind_tail in Hb. rewrite Hb. exists ERR_OK, u'. split; [done|left]. split; [done|]. by exists port.
Qed.

(** ** [udp_connect], [udp_disconnect], [udp_recv] *)
Definition connected ip port x : udp_pcb :=
  with_u_flags (Z.lor (u_flags x) UDP_FLAGS_CONNECTED) (with_remote_port port (with_remote_ip ip x)).
Definition disconnected x : udp_pcb :=
  with_u_flags (Z.land (u_flags x) (u8 (Z.lnot UDP_FLAGS_CONNECTED))) (with_remote_port 0 (with_remote_ip IPADDR_ANY x)).

Lemma disconnect_ok u l p x : udp_ok u l -> pcbs u !! p = Some x ->
  udp_disconnect p u = (Ret tt, with_pcb p (disconnected x) u) /\ udp_ok (with_pcb p (disconnected x) u) l.
Proof.
  intros Hok Hp. split; [|by eapply udp_ok_same]. unfold udp_disconnect. cstep (on_pcb_in u p _ x Hp).
  cstep (on_pcb_again u p (with_remote_port 0) (with_remote_ip IPADDR_ANY x)).
  exact (on_pcb_again u p _ (with_remote_port 0 (with_remote_ip IPADDR_ANY x))).
Qed.

Lemma recv_ok u l p x f a : udp_ok u l -> pcbs u !! p = Some x ->
  udp_recv p f a u = (Ret tt, with_pcb p (with_recv f a x) u) /\ udp_ok (with_pcb p (with_recv f a x) u) l.
Proof. intros Hok Hp. split; [by apply on_pcb_in|by eapply udp_ok_same]. Qed.

(** The port a block is bound to when it connects. *)
Definition connect_port m l x (port : Z) : Prop :=
  if local_port x =? 0 then dynamic port /\ ~ in_use m l port else port = local_port x.

Lemma connect_bind u l p x : udp_ok u l -> pcbs u !! p = Some x -> exists port u1 y,
  (if local_port x =? 0 then
     err <- udp_bind (Some p) (Some (local_ip x)) (local_port x) ;;
     exit_if (negb (err =? ERR_OK)) err
   else ret tt) u = (Ret tt, u1) /\ connect_port (pcbs u) l x port /\ udp_ok u1 (listed p l) /\
  memp_udp_pcb u1 = memp_udp_pcb u /\ pcbs u1 !! p = Some y /\ unlinked y = unlinked (with_local_port port x) /\
  fields (pcbs u1) = <[p := unlinked y]> (fields (pcbs u)).
Proof.
  intros Hok Hp. unfold connect_port. destruct (o_ports _ _ Hok p x Hp) as [Hr Hl].
  destruct (Z.eqb_spec (local_port x) 0) as [H0|H0].
  - destruct (bind_ok u l p x (Some (local_ip x)) (local_port x) Hok Hp Hr) as (r & u1 & Hb & [(-> & v & Hv & Hok1 & Hm & Hf)|Hno]).
    + cstep Hb. rewrite H0 in Hv. cbn in Hv.
      assert (Hz : unlinked (with_local_port v (with_local_ip (local_ip x) x)) = unlinked (with_local_port v x)) by by destruct x.
      change (default IPADDR_ANY (Some (local_ip x))) with (local_ip x) in Hf. rewrite Hz in Hf.
      destruct (fields_lookup (pcbs u1) p (unlinked (with_local_port v x))) as (y & Hy & Hyz).
      { rewrite Hf. apply lookup_insert_eq. }
      exists v, u1, y. rewrite Hyz. by split_and!; [done|apply Hv|apply Hv|..].
    + naive_solver.
  - exists (local_port x), u, x. assert (Hin : p ∈ l) by by apply Hl.
    assert (Hx : unlinked x = unlinked (with_local_port (local_port x) x)) by by destruct x.
    unfold listed. rewrite bool_decide_true by done. split_and!; try done.
    rewrite insert_id; [done|]. unfold fields. by rewrite lookup_fmap, Hp.
Qed.

Lemma listed_in p l : p ∈ listed p l.
Proof. unfold listed. destruct (bool_decide_reflect (p ∈ l)); [done|left]. Qed.

Lemma connect_ok u l p x ip port : udp_ok u l -> pcbs u !! p = Some x -> exists port' u',
  udp_connect (Some p) (Some ip) port u = (Ret ERR_OK, u') /\ connect_port (pcbs u) l x port' /\
  placed u l p (connected ip port (with_local_port port' x)) u'.
Proof.
  intros Hok Hp. destruct (connect_bind u l p x Hok Hp) as (port' & u1 & y & Hb & Hport & Hok1 & Hm & Hy & Hyx & Hf).
  exists port', (with_pcb p (connected ip port y) u1).
  assert (Hok2 : udp_ok (with_pcb p (connected ip port y) u1) (listed p l)) by by eapply udp_ok_same.
  split.
  - unfold udp_connect, func. assert (Hpx : pcb_at p u = (Ret x, u)) by (unfold pcb_at; by rewrite Hp). cstep Hpx. cstep Hb.
    cstep (on_pcb_in u1 p (with_remote_ip ip) y Hy).
    cstep (on_pcb_again u1 p (with_remote_port port) (with_remote_ip ip y)).
    cstep (on_pcb_again u1 p (fun x => with_u_flags (Z.lor (u_flags x) UDP_FLAGS_CONNECTED) x)
             (with_remote_port port (with_remote_ip ip y))).
    fold (connected ip port y). cstep (first_pcb_ok _ _ (fun q _ => bool_decide (p = q)) Hok2).
    erewrite (find_self _ _ p); [done|apply listed_in|apply lookup_insert_eq].
  - split; [done|]. split; [done|]. split; [done|]. cbn [pcbs with_pcb]. rewrite fields_insert, Hf, insert_insert_eq. f_equal.
    apply (f_equal (fun z => unlinked (connected ip port z))) in Hyx. exact Hyx.
Qed.

(** ** [udp_new] *)
Definition new_pcb : udp_pcb := UdpPcb 0 0 0 0 UDP_TTL None 0 0 0 None 0.

Lemma new_ok u l : udp_ok u l -> match memp_udp_pcb u with
  | [] => udp_new u = (Ret None, u)
  | p :: pool => let u' := UdpState (<[p := new_pcb]> (pcbs u)) (udp_pcbs u) (udp_port u) pool in
      udp_new u = (Ret (Some p), u') /\ pcbs u !! p = None /\ udp_ok u' l
  end.
Proof.
  intros [L N P R X PN PF S]. destruct (memp_udp_pcb u) as [|p pool] eqn:Hpool;
    unfold udp_new; cstep (eq_refl (gets memp_udp_pcb u)); rewrite Hpool; [done|].
  assert (Hp : pcbs u !! p = None) by (apply PF; left). split; [|split; [done|]].
  - cstep (eq_refl (modify (fun u => UdpState (<[p := zero_pcb]> (pcbs u)) (udp_pcbs u) (udp_port u) pool) u)).
    set (u1 := UdpState (<[p := zero_pcb]> (pcbs u)) (udp_pcbs u) (udp_port u) pool).
    rewrite (bind_ret _ _ _ _ _ (on_pcb_in u1 p _ zero_pcb ltac:(apply lookup_insert_eq))).
    unfold with_pcb, u1. cbn. by rewrite insert_insert_eq.
  - assert (Hout : p ∉ l) by (intros Hin; destruct (lseg_in _ _ _ _ _ L Hin) as [x Hx]; congruence).
    apply NoDup_cons in PN as [Hpp PN]. split; try done; cbn.
    + by apply lseg_other.
    + intros q z. destruct (decide (q = p)) as [->|Hne].
      * rewrite lookup_insert_eq. intros [= <-]. cbn. split; [lia|]. split; [lia|done].
      * rewrite lookup_insert_ne by done. apply P.
    + intros q r a b Hq Hr. rewrite !lookup_insert_ne by (by intros ->). by apply X.
    + intros q Hq. rewrite lookup_insert_ne by (by intros ->). apply PF. by right.
    + rewrite map_size_insert_None by done. cbn in S. lia.
Qed.
