(* ===== verification/UdpPcbThms.v ===== *)
(** * UDP control blocks: removal, the search of [udp_input], and every sequence of calls *)
From S2P Require Export UdpOps.

#[local] Set Warnings "-clear-no-such-hyp".

Implicit Types (u : udp_state) (x y : udp_pcb) (p q : ptr) (l : list ptr) (m : gmap ptr udp_pcb).

(** ** The block in front of another *)
Lemma lseg_next m l1 q p l2 : forall a b, lseg m a (l1 ++ q :: p :: l2) b ->
  exists x y, m !! q = Some x /\ u_next x = Some p /\ m !! p = Some y /\ lseg m (u_next y) l2 b.
Proof. intros a b (c & _ & _ & x & Hx & Hn & y & Hy & Hl)%lseg_app. by exists x, y. Qed.

(** [prev->next = pcb->next] *)
Lemma lseg_cut m l1 q p l2 a b x y : lseg m a (l1 ++ q :: p :: l2) b -> NoDup (l1 ++ q :: p :: l2) ->
  m !! q = Some x -> m !! p = Some y -> lseg (<[q := with_u_next (u_next y) x]> m) a (l1 ++ q :: l2) b.
Proof.
  intros (c & H1 & -> & x' & Hx & Hn & y' & Hy & Hl)%lseg_app Hnd Hq Hp. rewrite Hx in Hq. injection Hq as ->.
  rewrite Hy in Hp. injection Hp as ->. apply NoDup_app in Hnd as (_ & Hd & [Hq _]%NoDup_cons).
  apply lseg_app. exists (Some q). split.
  - apply lseg_other; [done|]. intros Hin. apply (Hd q Hin). left.
  - split; [done|]. eexists. rewrite lookup_insert_eq. split; [done|]. cbn. apply lseg_other; [done|]. set_solver.
Qed.

Lemma find_pred m l1 q p l2 : forall a, lseg m a (l1 ++ q :: p :: l2) None -> NoDup (l1 ++ q :: p :: l2) ->
  find (hit m (fun _ x => bool_decide (u_next x = Some p))) (l1 ++ q :: p :: l2) = Some q.
Proof.
  induction l1 as [|r l1 IH]; intros a Hl Hnd.
  - destruct Hl as (_ & x & Hx & Hn & _). cbn. unfold hit at 1. by rewrite Hx, bool_decide_true.
  - cbn [app find]. destruct Hl as (_ & x & Hx & Hl). unfold hit at 1. rewrite Hx.
    apply NoDup_cons in Hnd as [Hr Hnd]. rewrite bool_decide_false; [by eapply IH|].
    intros Hn. rewrite Hn in Hl.
    destruct l1 as [|r' l1]; destruct Hl as [[= ->] _].
    + apply NoDup_cons in Hnd as [Hnd _]. set_solver.
    + apply NoDup_cons in Hnd as [Hnd _]. set_solver.
Qed.

Lemma find_pred_none m l p : forall a, lseg m a l None -> p ∉ l ->
  find (hit m (fun _ x => bool_decide (u_next x = Some p))) l = None.
Proof.
  induction l as [|r l IH]; intros a Hl Hp; [done|]. destruct Hl as (_ & x & Hx & Hl). cbn [find].
  unfold hit at 1. rewrite Hx. rewrite bool_decide_false; [eapply IH; [done|set_solver]|].
  intros Hn. rewrite Hn in Hl. destruct l as [|r' l]; [done|]. destruct Hl as [[= ->] _]. set_solver.
Qed.

(** ** [udp_remove] *)
Definition without p l : list ptr := filter (fun q => q <> p) l.

Lemma without_out p l : p ∉ l -> without p l = l.
Proof.
  induction l as [|q l IH]; intros Hp; [done|]. unfold without in *. rewrite filter_cons.
  rewrite decide_True by set_solver. rewrite IH by set_solver. done.
Qed.

Lemma without_mid p l1 l2 : NoDup (l1 ++ p :: l2) -> without p (l1 ++ p :: l2) = l1 ++ l2.
Proof.
  intros (_ & Hd & [Hp _]%NoDup_cons)%NoDup_app. unfold without. rewrite filter_app, filter_cons.
  rewrite decide_False by auto. f_equal; apply without_out; [|done]. intros Hin. apply (Hd p Hin). left.
Qed.

(** Stores that differ in links only. *)
Lemma fields_same m m' p x : fields m' = fields m -> m' !! p = Some x ->
  exists y, m !! p = Some y /\ local_port y = local_port x /\ local_ip y = local_ip x.
Proof.
  intros Hf Hx. destruct (fields_lookup m p (unlinked x)) as (y & Hy & Hyx).
  { rewrite <- Hf. unfold fields. by rewrite lookup_fmap, Hx. }
  exists y. split; [done|]. by destruct x, y; injection Hyx.
Qed.

Lemma fields_dom m m' : fields m' = fields m -> dom m' = dom m.
Proof. intros Hf. apply (f_equal (dom (D := gset ptr))) in Hf. unfold fields in Hf. by rewrite !dom_fmap_L in Hf. Qed.

Lemma fields_size m m' : fields m' = fields m -> size m' = size m.
Proof. intros Hf%fields_dom. by rewrite <- !(size_dom (D := gset ptr)), Hf. Qed.

(** The same blocks, linked in another order. *)
Lemma udp_ok_relink u l m' head l' : udp_ok u l -> l' ≡ₚ l -> lseg m' head l' None -> fields m' = fields (pcbs u) ->
  udp_ok (UdpState m' head (udp_port u) (memp_udp_pcb u)) l'.
Proof.
  intros [L N P R X PN PF S] Hl Hs Hf. split; cbn; try done.
  - by rewrite Hl.
  - intros q z (z' & Hz & <- & _)%(fields_same (pcbs u)); [|done]. rewrite Hl. by apply P.
  - intros q r y z. rewrite Hl. intros Hq Hr (y' & Hy & <- & <-)%(fields_same (pcbs u)); [|done].
    intros (z' & Hz & <- & <-)%(fields_same (pcbs u)); [|done]. by apply X.
  - intros q Hq%PF. apply not_elem_of_dom. rewrite (fields_dom (pcbs u)) by done. by apply not_elem_of_dom.
  - by rewrite (fields_size (pcbs u)).
Qed.

(** The list without [p], when [p] has left the store. *)
Lemma udp_ok_free u l p x m' head : udp_ok u l -> pcbs u !! p = Some x ->
  lseg m' head (without p l) None -> fields m' = fields (pcbs u) ->
  udp_ok (UdpState (delete p m') head (udp_port u) (p :: memp_udp_pcb u)) (without p l).
Proof.
  intros [L N P R X PN PF S] Hp Hl Hf.
  assert (Hin : forall q, q ∈ without p l <-> q ∈ l /\ q <> p).
  { intros q. unfold without. rewrite list_elem_of_filter. naive_solver. }
  assert (Hm : forall q z, m' !! q = Some z -> exists y, pcbs u !! q = Some y /\
    local_port y = local_port z /\ local_ip y = local_ip z) by (intros; by eapply fields_same).
  split; cbn.
  - eapply lseg_frame; [done|]. intros q z Hq Hz. exists z. rewrite lookup_delete_ne; [done|]. apply Hin in Hq. naive_solver.
  - by apply NoDup_filter.
  - intros q z. rewrite lookup_delete_Some. intros [Hne (z' & Hz' & <- & _)%Hm].
    destruct (P q z' Hz') as [? HP]. split; [done|]. rewrite HP, Hin. naive_solver.
  - done.
  - intros q r y z [Hq Hqp]%Hin [Hr Hrp]%Hin. rewrite !lookup_delete_ne by done.
    intros (y' & Hy & <- & <-)%Hm (z' & Hz & <- & <-)%Hm. by apply X.
  - constructor; [|done]. intros Hpp. apply PF in Hpp. congruence.
  - intros q. destruct (decide (q = p)) as [->|Hne]; [intros _; apply lookup_delete_eq|].
    rewrite elem_of_cons. intros [?|Hq]; [done|]. rewrite lookup_delete_ne by done.
    apply not_elem_of_dom. rewrite (fields_dom (pcbs u)) by done. by apply not_elem_of_dom, PF.
  - rewrite map_size_delete, (fields_size (pcbs u)) by done.
    assert (Hp' : is_Some (m' !! p)).
    { apply (elem_of_dom (D := gset ptr)). rewrite (fields_dom (pcbs u)) by done. apply elem_of_dom. eauto. }
    destruct Hp' as [z Hz]. rewrite Hz.
    assert (size (pcbs u) <> 0%nat) by (intros He%map_size_empty_inv; by rewrite He, lookup_empty in Hp).
    lia.
Qed.

Lemma remove_ok u l p x : udp_ok u l -> pcbs u !! p = Some x -> exists u',
  udp_remove p u = (Ret tt, u') /\ udp_ok u' (without p l) /\
  fields (pcbs u') = delete p (fields (pcbs u)) /\ memp_udp_pcb u' = p :: memp_udp_pcb u /\ udp_port u' = udp_port u.
Proof.
  intros Hok Hp. pose proof (o_list _ _ Hok) as L. pose proof (o_nodup _ _ Hok) as N.
  assert (Hfin : forall m' head, lseg m' head (without p l) None -> fields m' = fields (pcbs u) ->
    exists u', memp_free p (UdpState m' head (udp_port u) (memp_udp_pcb u)) = (Ret tt, u') /\ udp_ok u' (without p l) /\
      fields (pcbs u') = delete p (fields (pcbs u)) /\ memp_udp_pcb u' = p :: memp_udp_pcb u /\ udp_port u' = udp_port u).
  { intros m' head Hl Hf. eexists. split; [reflexivity|]. split; [by apply (udp_ok_free u l p x)|].
    split; [|done]. cbn. unfold fields in *. by rewrite fmap_delete, Hf. }
  assert (Hx : pcb_at p u = (Ret x, u)) by (unfold pcb_at; by rewrite Hp).
  unfold udp_remove. cstep (eq_refl (gets udp_pcbs u)).
  destruct (bool_decide_reflect (udp_pcbs u = Some p)) as [Hh|Hh].
  - rewrite bind_bind. cstep Hx. cstep (eq_refl (set_udp_pcbs (u_next x) u)). apply Hfin; [|done].
    rewrite Hh in L. destruct l as [|q l]; [done|]. destruct L as ([= <-] & x' & Hx' & L).
    rewrite Hp in Hx'. injection Hx' as <-. by rewrite (without_mid p [] l N : without p (p :: l) = l).
  - rewrite bind_bind. cstep (first_pcb_ok u l (fun _ x => bool_decide (u_next x = Some p)) Hok).
    destruct (decide (p ∈ l)) as [Hin|Hout].
    + apply list_elem_of_split in Hin as (l1 & l2 & ->).
      destruct l1 as [|q l1 _] using rev_ind; [by destruct L|]. rewrite <- app_assoc in *. cbn [app] in *.
      destruct (lseg_next _ _ _ _ _ _ _ L) as (y & x' & Hq & _ & Hx' & _). rewrite Hp in Hx'. injection Hx' as <-.
      rewrite (find_pred _ _ _ _ _ _ L N). rewrite bind_bind. cstep Hx. rewrite (bind_ret _ _ _ _ _ (on_pcb_in u q _ y Hq)).
      apply Hfin; cbn; [|by apply fields_relink].
      assert (HE : l1 ++ q :: p :: l2 = (l1 ++ [q]) ++ p :: l2) by (by rewrite <- app_assoc).
      rewrite HE in N |- *. rewrite (without_mid _ _ _ N), <- app_assoc. rewrite <- HE in N. by eapply lseg_cut.
    + rewrite (find_pred_none _ _ _ _ L Hout). cstep (eq_refl (ret tt u)). destruct u. apply Hfin; [|done].
      by rewrite (without_out _ _ Hout).
Qed.

(** ** The search of [udp_input] *)
Definition meant (k : packet_to) x : bool := (local_port x =? dest_port k) && udp_input_local_match x k.
Definition from_peer (k : packet_to) x : bool :=
  (remote_port x =? src_port k) && (ip4_addr_isany (remote_ip x) || (remote_ip x =? src_addr k)).
Definition unconnected x : bool := Z.land (u_flags x) UDP_FLAGS_CONNECTED =? 0.

(** The first block that fits with its sender, and the first that takes any sender. *)
Definition perfect m (k : packet_to) l : option ptr := find (hit m (fun _ x => meant k x && from_peer k x)) l.
Definition taker m (k : packet_to) l : option ptr := find (hit m (fun _ x => meant k x && unconnected x)) l.
Definition chosen m k l : option ptr := if perfect m k l is Some p then Some p else taker m k l.
Definition reordered m k l : list ptr := if perfect m k l is Some p then p :: without p l else l.

Lemma find_app {B} (f : B -> bool) (l1 l2 : list B) :
  find f (l1 ++ l2) = if find f l1 is Some b then Some b else find f l2.
Proof. induction l1 as [|b l1 IH]; cbn; [done|]. by destruct (f b). Qed.

(** The block [p] moves from behind [q] to the front. *)
Lemma move_ok u l1 q p l2 y x : udp_ok u (l1 ++ q :: p :: l2) -> pcbs u !! q = Some y -> pcbs u !! p = Some x ->
  exists u', (on_pcb q (with_u_next (u_next x)) ;;; to_front p) u = (Ret tt, u') /\
    udp_ok u' (p :: l1 ++ q :: l2) /\ fields (pcbs u') = fields (pcbs u) /\
    udp_port u' = udp_port u /\ memp_udp_pcb u' = memp_udp_pcb u.
Proof.
  intros Hok Hq Hp. pose proof Hok as [L N P R X PN PF S].
  pose proof (lseg_cut _ _ _ _ _ _ _ y x L N Hq Hp) as L1.
  assert (HE : l1 ++ q :: p :: l2 = (l1 ++ [q]) ++ p :: l2) by (by rewrite <- app_assoc).
  assert (HE2 : l1 ++ q :: l2 = (l1 ++ [q]) ++ l2) by (by rewrite <- app_assoc).
  assert (Hperm : p :: l1 ++ q :: l2 ≡ₚ l1 ++ q :: p :: l2).
  { rewrite HE, HE2. by rewrite Permutation_middle. }
  assert (Hpq : p <> q).
  { intros ->. apply NoDup_app in N as (_ & _ & [N _]%NoDup_cons). apply N. left. }
  set (m1 := <[q := with_u_next (u_next x) y]> (pcbs u)). set (u1 := UdpState m1 (udp_pcbs u) (udp_port u) (memp_udp_pcb u)).
  assert (Hp1 : pcbs u1 !! p = Some x) by (cbn; unfold m1; by rewrite lookup_insert_ne).
  cstep (on_pcb_in u q _ y Hq). change (with_pcb q _ u) with u1. rewrite (to_front_at u1 p x Hp1).
  eexists. split; [reflexivity|]. cbn [pcbs udp_port memp_udp_pcb udp_pcbs u1].
  assert (Hf : fields (<[p := with_u_next (udp_pcbs u) x]> m1) = fields (pcbs u)).
  { rewrite fields_relink by done. by apply fields_relink. }
  split; [|done]. apply (udp_ok_relink u (l1 ++ q :: p :: l2)); try done.
  split; [done|]. eexists. rewrite lookup_insert_eq. split; [done|]. cbn. apply lseg_other; [done|].
  rewrite <- Hperm in N. by apply NoDup_cons in N as [? _].
Qed.

Lemma input_loop_ok u k : forall l2 l1 n, udp_ok u (l1 ++ l2) -> perfect (pcbs u) k l1 = None -> (length l2 < n)%nat ->
  exists u', input_loop n (head l2) (last l1) (taker (pcbs u) k l1) k u = (Ret (chosen (pcbs u) k (l1 ++ l2)), u') /\
    udp_ok u' (reordered (pcbs u) k (l1 ++ l2)) /\ fields (pcbs u') = fields (pcbs u) /\
    udp_port u' = udp_port u /\ memp_udp_pcb u' = memp_udp_pcb u.
Proof.
  induction l2 as [|p l2 IH]; intros l1 n Hok Hno Hn.
  { rewrite app_nil_r in *. unfold chosen, reordered. rewrite Hno. exists u. by destruct n. }
  destruct n as [|n]; [cbn in Hn; lia|]. pose proof (o_list _ _ Hok) as L.
  apply lseg_app in L as (c & _ & -> & x & Hp & L2). cbn [input_loop head].
  assert (Hpx : pcb_at p u = (Ret x, u)) by (unfold pcb_at; by rewrite Hp). cstep Hpx.
  assert (Hh : u_next x = head l2) by (destruct l2; [done|by destruct L2]).
  specialize (IH (l1 ++ [p]) n ltac:(by rewrite <- app_assoc)).
  rewrite <- app_assoc in IH. cbn [app] in IH. rewrite last_snoc, <- Hh in IH.
  unfold perfect, taker in IH. rewrite !find_app in IH. fold (perfect (pcbs u) k l1) (taker (pcbs u) k l1) in IH.
  rewrite Hno in IH. cbn [find] in IH. unfold hit in IH. rewrite Hp in IH. unfold meant, from_peer, unconnected in IH.
  destruct ((local_port x =? dest_port k) && udp_input_local_match x k) eqn:Hm; cbn [andb] in IH.
  - assert (Hunc : (if (Z.land (u_flags x) UDP_FLAGS_CONNECTED =? 0) && (if taker (pcbs u) k l1 is None then true else false)
        then Some p else taker (pcbs u) k l1) =
      if taker (pcbs u) k l1 is Some b then Some b
      else if Z.land (u_flags x) UDP_FLAGS_CONNECTED =? 0 then Some p else None).
    { destruct (taker (pcbs u) k l1), (_ =? 0); done. }
    rewrite Hunc. destruct ((remote_port x =? src_port k) && _) eqn:Hf; [|by apply IH; [|cbn in Hn; lia]].
    assert (Hperf : perfect (pcbs u) k (l1 ++ p :: l2) = Some p).
    { unfold perfect. rewrite find_app. fold (perfect (pcbs u) k l1). rewrite Hno. cbn [find]. unfold hit. rewrite Hp.
      unfold meant, from_peer. by rewrite Hm, Hf. }
    unfold chosen, reordered. rewrite Hperf. destruct l1 as [|q l1 _] using rev_ind.
    + cbn [last app]. cstep (eq_refl (ret tt u)). exists u. split; [done|]. split; [|done].
      by rewrite (without_mid p [] l2 (o_nodup _ _ Hok) : without p (p :: l2) = l2).
    + rewrite last_snoc. rewrite without_mid by apply Hok. rewrite <- app_assoc in Hok |- *. cbn [app] in *.
      destruct (lseg_next _ _ _ _ _ _ _ (o_list _ _ Hok)) as (y & _ & Hq & _).
      destruct (move_ok u l1 q p l2 y x Hok Hq Hp) as (u' & Hr & Ho). cstep Hr. by exists u'.
  - destruct (taker (pcbs u) k l1); apply IH; try done; cbn in Hn; lia.
Qed.

Lemma demux_ok u l k : udp_ok u l -> exists u',
  udp_demux k u = (Ret (chosen (pcbs u) k l), u') /\ udp_ok u' (reordered (pcbs u) k l) /\
  fields (pcbs u') = fields (pcbs u) /\ udp_port u' = udp_port u /\ memp_udp_pcb u' = memp_udp_pcb u.
Proof.
  intros Hok. unfold udp_demux. cstep (eq_refl (pcb_fuel u)). cstep (eq_refl (gets udp_pcbs u)).
  pose proof (lseg_size _ _ _ _ (o_list _ _ Hok) (o_nodup _ _ Hok)).
  assert (Hh : udp_pcbs u = head l) by (pose proof (o_list _ _ Hok) as L; destruct l; [done|by destruct L]).
  rewrite Hh. apply (input_loop_ok u k l [] _ Hok eq_refl). lia.
Qed.

(** ** [udp_netif_ip_addr_changed] *)
Definition readdressed (old new : Z) x : udp_pcb := if local_ip x =? old then with_local_ip new x else x.

(** The blocks of the list have the new address. *)
Definition readdress (old new : Z) l m : gmap ptr udp_pcb :=
  map_imap (fun p x => Some (if bool_decide (p ∈ l) then readdressed old new x else x)) m.

Lemma readdress_lookup old new l m p : readdress old new l m !! p =
  (fun x => if bool_decide (p ∈ l) then readdressed old new x else x) <$> m !! p.
Proof. unfold readdress. rewrite map_lookup_imap. by destruct (m !! p). Qed.

Lemma changed_loop_ok old new : forall l n a u, lseg (pcbs u) a l None -> NoDup l -> (length l < n)%nat ->
  changed_loop n a old new u =
    (Ret tt, UdpState (readdress old new l (pcbs u)) (udp_pcbs u) (udp_port u) (memp_udp_pcb u)).
Proof.
  induction l as [|p l IH]; intros n a u Hl Hnd Hn.
  - cbn in Hl. subst a. assert (Hid : readdress old new [] (pcbs u) = pcbs u).
    { apply map_eq. intros q. rewrite readdress_lookup. by destruct (pcbs u !! q). }
    rewrite Hid. by destruct n, u.
  - destruct n as [|n]; [cbn in Hn; lia|]. destruct Hl as (-> & x & Hx & Hl). cbn [changed_loop].
    apply NoDup_cons in Hnd as [Hp Hnd].
    assert (Hpx : pcb_at p u = (Ret x, u)) by (unfold pcb_at; by rewrite Hx). cstep Hpx.
    assert (Hstep : (if local_ip x =? old then on_pcb p (with_local_ip new) else ret tt) u =
      (Ret tt, with_pcb p (readdressed old new x) u)).
    { unfold readdressed. destruct (_ =? _); [by apply on_pcb_in|]. unfold with_pcb. rewrite insert_id by done. by destruct u. }
    cstep Hstep. rewrite (IH n (u_next x)).
    + unfold with_pcb. cbn. do 2 f_equal. apply map_eq. intros q. rewrite !readdress_lookup.
      destruct (decide (q = p)) as [->|Hne].
      * rewrite lookup_insert_eq, Hx. cbn. rewrite bool_decide_false by done. by rewrite bool_decide_true by left.
      * rewrite lookup_insert_ne by done. destruct (pcbs u !! q); [|done]. cbn. f_equal.
        assert (bool_decide (q ∈ p :: l) = bool_decide (q ∈ l)) as ->; [|done]. apply bool_decide_ext. set_solver.
    + by apply lseg_other.
    + done.
    + cbn in Hn. lia.
Qed.

Lemma changed_ok u l old new : udp_ok u l ->
  (forall p x, p ∈ l -> pcbs u !! p = Some x -> local_ip x <> new) -> exists u',
  udp_netif_ip_addr_changed old new u = (Ret tt, u') /\ udp_ok u' l /\ memp_udp_pcb u' = memp_udp_pcb u /\
  udp_port u' = udp_port u /\
  pcbs u' = if ip4_addr_isany old || ip4_addr_isany new then pcbs u else readdress old new l (pcbs u).
Proof.
  intros Hok Hnew. unfold udp_netif_ip_addr_changed. rewrite <- negb_orb.
  destruct (ip4_addr_isany old || ip4_addr_isany new); cbn [negb]; [by exists u|].
  cstep (eq_refl (pcb_fuel u)). cstep (eq_refl (gets udp_pcbs u)). pose proof Hok as [L N P R X PN PF S].
  pose proof (lseg_size _ _ _ _ L N). eexists. split; [apply (changed_loop_ok old new l); [done|done|lia]|].
  split; [|done].
  assert (Hget : forall p y, readdress old new l (pcbs u) !! p = Some y -> exists x, pcbs u !! p = Some x /\
    local_port x = local_port y /\ u_next x = u_next y /\ (p ∈ l -> local_ip y = if local_ip x =? old then new else local_ip x)).
  { intros p y. rewrite readdress_lookup. destruct (pcbs u !! p) as [x|]; [|done]. cbn. intros [= <-].
    exists x. split; [done|]. unfold readdressed. case_bool_decide; destruct (local_ip x =? old); naive_solver. }
  split; cbn; try done.
  - eapply lseg_frame; [done|]. intros p x Hp Hx. eexists. rewrite readdress_lookup, Hx. cbn. split; [done|].
    rewrite bool_decide_true by done. unfold readdressed. by destruct (_ =? _).
  - intros p y (x & Hx & <- & _)%Hget. by apply P.
  - intros p q y z Hp Hq (x & Hx & Hpx & _ & Hix)%Hget (w & Hw & Hpw & _ & Hiw)%Hget Hport Hip.
    rewrite (Hix Hp), (Hiw Hq) in Hip. apply (X p q x w); try done; [congruence|].
    pose proof (Hnew p x Hp Hx). pose proof (Hnew q w Hq Hw).
    destruct (Z.eqb_spec (local_ip x) old), (Z.eqb_spec (local_ip w) old); congruence.
  - intros p Hp%PF. rewrite readdress_lookup. by rewrite Hp.
  - rewrite <- S. f_equal. rewrite <- !(size_dom (D := gset ptr)). f_equal. apply set_eq. intros p.
    rewrite !elem_of_dom, readdress_lookup. by rewrite fmap_is_Some.
Qed.


(** ** Sessions *)
Inductive call : Type :=
  | New
  | Remove (p : ptr)
  | Bind (p : ptr) (ip : option Z) (port : Z)
  | Connect (p : ptr) (ip port : Z)
  | Disconnect (p : ptr)
  | Recv (p : ptr) (f : option Z) (a : Z)
  | Address (old new : Z)
  | Datagram (k : packet_to).

Definition issue (c : call) : cmd udp_state unit :=
  match c with
  | New => udp_new ;;; ret tt
  | Remove p => udp_remove p
  | Bind p ip port => udp_bind (Some p) ip port ;;; ret tt
  | Connect p ip port => udp_connect (Some p) (Some ip) port ;;; ret tt
  | Disconnect p => udp_disconnect p
  | Recv p f a => udp_recv p f a
  | Address old new => udp_netif_ip_addr_changed old new
  | Datagram k => udp_demux k ;;; ret tt
  end.

(** What the callers owe: a block from [udp_new] that is not removed yet, 16-bit ports, and
    a new address of an interface that no block is bound to. *)
Definition allowed u (c : call) : Prop :=
  match c with
  | New | Datagram _ => True
  | Remove p | Connect p _ _ | Disconnect p | Recv p _ _ => is_Some (pcbs u !! p)
  | Bind p _ port => is_Some (pcbs u !! p) /\ 0 <= port <= 65535
  | Address _ new => forall p x, pcbs u !! p = Some x -> local_port x <> 0 -> local_ip x <> new
  end.

(** After [memp_init] and [udp_init]. *)
Definition boot (pool : list ptr) : udp_state := UdpState ∅ None UDP_LOCAL_PORT_RANGE_START pool.

Inductive reached (pool : list ptr) : udp_state -> Prop :=
  | reached_boot : reached pool (boot pool)
  | reached_call u c u' : reached pool u -> allowed u c -> issue c u = (Ret tt, u') -> reached pool u'.

Lemma boot_ok pool : NoDup pool -> length pool = MEMP_NUM_UDP_PCB -> udp_ok (boot pool) [].
Proof.
  intros Hn Hl. split; try done; cbn. constructor.
Qed.

Lemma issue_ok u l c : udp_ok u l -> allowed u c -> exists u' l', issue c u = (Ret tt, u') /\ udp_ok u' l'.
Proof.
  intros Hok Hc. destruct c as [|p|p ip port|p ip port|p|p f a|old new|k]; cbn [issue allowed] in *.
  - pose proof (new_ok u l Hok) as Hn. destruct (memp_udp_pcb u) as [|p pool].
    + cstep Hn. by exists u, l.
    + destruct Hn as (Hn & _ & Hok'). cstep Hn. eauto.
  - destruct Hc as [x Hx]. destruct (remove_ok u l p x Hok Hx) as (u' & Hr & Hok' & _). eauto.
  - destruct Hc as [[x Hx] Hp]. destruct (bind_ok u l p x ip port Hok Hx Hp) as (r & u' & Hr & [(_ & v & _ & Hok' & _)|(_ & _ & _ & ->)]);
      cstep Hr; eauto.
  - destruct Hc as [x Hx]. destruct (connect_ok u l p x ip port Hok Hx) as (v & u' & Hr & _ & Hok' & _). cstep Hr. eauto.
  - destruct Hc as [x Hx]. destruct (disconnect_ok u l p x Hok Hx). eauto.
  - destruct Hc as [x Hx]. destruct (recv_ok u l p x f a Hok Hx). eauto.
  - destruct (changed_ok u l old new Hok) as (u' & Hr & Hok' & _); [|eauto].
    intros p x Hp Hx. eapply Hc; [done|]. by apply (o_ports _ _ Hok p x Hx).
  - destruct (demux_ok u l k Hok) as (u' & Hr & Hok' & _). cstep Hr. eauto.
Qed.

Lemma reached_ok pool u : NoDup pool -> length pool = MEMP_NUM_UDP_PCB -> reached pool u -> exists l, udp_ok u l.
Proof.
  intros Hn Hl Hu. induction Hu as [|u c u' _ [l Hok] Hc Hr].
  - exists []. by apply boot_ok.
  - destruct (issue_ok u l c Hok Hc) as (u2 & l2 & Hr2 & Hok2). rewrite Hr in Hr2. injection Hr2 as <-. eauto.
Qed.

(** C5: From the start of the stack, over any sequence of allowed calls of udp_new, udp_remove,
    udp_bind, udp_connect, udp_disconnect, udp_recv, udp_netif_ip_addr_changed and of
    searches of udp_input, each call returns without a bad access; the list is sound and
    holds exactly the bound blocks, no two blocks are bound to the same address and port,
    and each of the six elements of the pool is in use or free.  A call is allowed on a
    block in use, with a 16-bit port; udp_netif_ip_addr_changed only with a new address
    that no bound block has yet, because it does not check: with another one two blocks
    can share address and port (readdressed_blocks_clash). *)
Theorem udp_blocks_safe pool u c : NoDup pool -> length pool = MEMP_NUM_UDP_PCB -> reached pool u -> allowed u c ->
  exists u' l, issue c u = (Ret tt, u') /\ lseg (pcbs u') (udp_pcbs u') l None /\ NoDup l /\
    (forall p x, pcbs u' !! p = Some x -> (local_port x <> 0 <-> p ∈ l)) /\
    exclusive (pcbs u') l /\
    (size (pcbs u') + length (memp_udp_pcb u') = MEMP_NUM_UDP_PCB)%nat.
Proof.
  intros Hn Hl Hu Hc. destruct (reached_ok pool u Hn Hl Hu) as [l Hok].
  destruct (issue_ok u l c Hok Hc) as (u' & l' & Hr & [L N P R X PN PF S]).
  exists u', l'. split_and!; try done. intros p x Hx. by apply (P p x Hx).
Qed.

(** C16: udp_bind on every branch: port 0 gets a dynamic port no block uses, and never fails;
    a given port is refused with ERR_USE, changing nothing, exactly when another block of
    the list has the same address and port; otherwise the block has the address and the
    port and is on the list, once, and nothing else changes. *)
Theorem udp_bind_correct u l p x ip port : udp_ok u l -> pcbs u !! p = Some x -> 0 <= port <= 65535 ->
  exists r u', udp_bind (Some p) ip port u = (Ret r, u') /\
    (r = ERR_USE /\ u' = u \/ r = ERR_OK /\ exists port',
       placed u l p (with_local_port port' (with_local_ip (default IPADDR_ANY ip) x)) u' /\
       (port = 0 -> dynamic port' /\ ~ in_use (pcbs u) l port') /\ (port <> 0 -> port' = port)) /\
    (r = ERR_USE <-> port <> 0 /\ taken (pcbs u) l p (default IPADDR_ANY ip) port).
Proof.
  intros Hok Hx Hp. destruct (bind_ok u l p x ip port Hok Hx Hp) as (r & u' & Hr & Hcase).
  exists r, u'. split; [done|]. destruct Hcase as [(-> & v & Hv & Hpl)|(-> & Hne & Ht & ->)]; [|naive_solver].
  destruct (Z.eqb_spec port 0) as [->|Hne]; (split; [|naive_solver]); right; split; try done; exists v; naive_solver.
Qed.

(** C17: udp_new_port always ends with a dynamic port that no block uses: the first one after
    the last port tried, round the range, since at most six blocks can hold ports. *)
Theorem udp_new_port_correct u l : udp_ok u l -> exists i,
  let port := nth_port i (udp_port u) in
  udp_new_port u = (Ret port, with_port port u) /\
  UDP_LOCAL_PORT_RANGE_START <= port <= UDP_LOCAL_PORT_RANGE_END /\
  (forall p x, p ∈ l -> pcbs u !! p = Some x -> local_port x <> port) /\
  forall j, (1 <= j < i)%nat -> in_use (pcbs u) l (nth_port j (udp_port u)).
Proof.
  intros Hok. destruct (new_port_ok u l Hok) as (i & Hr & Hd & Hfree & Hu). exists i. cbv zeta.
  split; [done|]. split; [exact Hd|]. split; [|done]. intros p x Hp Hx Heq. apply Hfree. by exists p, x.
Qed.

(** C15: the search of udp_input returns a block that is bound to the destination and either
    connected to the sender or unconnected; one of the first kind whenever there is one,
    and none only when there is neither.  It changes nothing but the order of the list,
    where a block connected to the sender comes to the front. *)
Theorem udp_demux_correct u l k : udp_ok u l -> exists r u' l', udp_demux k u = (Ret r, u') /\
  match r with
  | Some p => exists x, p ∈ l /\ pcbs u !! p = Some x /\ meant k x = true /\
      (from_peer k x = true /\ head l' = Some p \/ unconnected x = true /\ l' = l)
  | None => forall p x, p ∈ l -> pcbs u !! p = Some x -> meant k x = true -> from_peer k x = false /\ unconnected x = false
  end /\
  (forall p x, p ∈ l -> pcbs u !! p = Some x -> meant k x = true -> from_peer k x = true ->
     exists q y, r = Some q /\ pcbs u !! q = Some y /\ from_peer k y = true) /\
  udp_ok u' l' /\ l' ≡ₚ l /\ fields (pcbs u') = fields (pcbs u).
Proof.
  intros Hok. destruct (demux_ok u l k Hok) as (u' & Hr & Hok' & Hf & _). exists (chosen (pcbs u) k l), u', (reordered (pcbs u) k l).
  split; [done|]. assert (Hnone : forall f, find (hit (pcbs u) f) l = None -> forall p x, p ∈ l -> pcbs u !! p = Some x -> f p x = false).
  { intros f Hn p x Hp Hx. pose proof (find_none _ _ Hn p ltac:(by apply list_elem_of_In)) as Hh. unfold hit in Hh. by rewrite Hx in Hh. }
  assert (Hsome : forall f p, find (hit (pcbs u) f) l = Some p -> exists x, p ∈ l /\ pcbs u !! p = Some x /\ f p x = true).
  { intros f p Hs. apply find_some in Hs as [Hp Hh]. unfold hit in Hh. destruct (pcbs u !! p) as [x|]; [|done].
    exists x. by rewrite list_elem_of_In. }
  unfold chosen, reordered in *. destruct (perfect (pcbs u) k l) as [p|] eqn:Hp.
  - destruct (Hsome _ _ Hp) as (x & Hin & Hx & [Hm Hfp]%andb_true_iff).
    split; [exists x; naive_solver|]. split; [intros; by exists p, x|]. split; [done|]. split; [|done].
    apply list_elem_of_split in Hin as (l1 & l2 & ->). rewrite without_mid by apply Hok. apply Permutation_middle.
  - pose proof (Hnone _ Hp) as Hno. split; [|split; [|done]].
    + destruct (taker (pcbs u) k l) as [p|] eqn:Ht.
      * destruct (Hsome _ _ Ht) as (x & Hin & Hx & [Hm Hun]%andb_true_iff). exists x. naive_solver.
      * intros p x Hin Hx Hm. pose proof (Hno p x Hin Hx) as H1. pose proof (Hnone _ Ht p x Hin Hx) as H2. cbn in H1, H2.
        by rewrite Hm in H1, H2.
    + intros p x Hin Hx Hm Hfp. pose proof (Hno p x Hin Hx) as H1. cbn in H1. by rewrite Hm, Hfp in H1.
Qed.
