(* ===== verification/UdpTypes.v ===== *)
(** * UDP control blocks: every field stays within its C type *)
From S2P Require Export UdpPcbThms.

#[local] Set Warnings "-clear-no-such-hyp".

Implicit Types (u : udp_state) (x y : udp_pcb) (p q : ptr).

(** ** Types *)
Definition is_u8 (v : Z) : Prop := 0 <= v < 2 ^ 8.
Definition is_u16 (v : Z) : Prop := 0 <= v < 2 ^ 16.
Definition is_u32 (v : Z) : Prop := 0 <= v < 2 ^ 32.

Record typed_pcb x : Prop := {
  t_local_ip : is_u32 (local_ip x);
  t_remote_ip : is_u32 (remote_ip x);
  t_so_options : is_u8 (so_options x);
  t_tos : is_u8 (tos x);
  t_ttl : is_u8 (ttl x);
  t_flags : is_u8 (u_flags x);
  t_local_port : is_u16 (local_port x);
  t_remote_port : is_u16 (remote_port x)
}.

Definition typed u : Prop := (forall p x, pcbs u !! p = Some x -> typed_pcb x) /\ is_u16 (udp_port u).

(** A command keeps the types, and its value has its own. *)
Definition well {B : Type} (m : cmd udp_state B) (Q : B -> Prop) : Prop :=
  forall u, typed u -> typed (m u).2 /\ forall a, (m u).1 = Ret a -> Q a.

Lemma well_ret {B} (a : B) (Q : B -> Prop) : Q a -> well (ret a) Q.
Proof. intros Ha u Hu. split; [done|]. by intros b [= <-]. Qed.

Lemma well_bind {B C} (m : cmd udp_state B) (k : B -> cmd udp_state C) Q R :
  well m Q -> (forall a, Q a -> well (k a) R) -> well (bind m k) R.
Proof.
  intros Hm Hk u Hu. unfold bind. destruct (Hm u Hu) as [H1 H2]. destruct (m u) as [[a| | |] u1]; cbn in *; try done.
  by apply (Hk a (H2 a eq_refl)).
Qed.

Lemma well_gets {B} (f : udp_state -> B) (Q : B -> Prop) : (forall u, typed u -> Q (f u)) -> well (gets f) Q.
Proof. intros Hf u Hu. split; [done|]. intros a [= <-]. by apply Hf. Qed.

Lemma well_stop {B} (m : cmd udp_state B) Q : (forall u, (m u).2 = u /\ forall a, (m u).1 <> Ret a) -> well m Q.
Proof. intros Hm u Hu. destruct (Hm u) as [-> Hn]. split; [done|]. intros a Ha. by destruct (Hn a). Qed.

Lemma well_func (m : cmd udp_state Z) Q : well m Q -> well (func m) (fun _ => True).
Proof. intros Hm u Hu. destruct (Hm u Hu) as [H1 _]. unfold func. by destruct (m u) as [[]]. Qed.

Lemma well_any {B} (m : cmd udp_state B) (Q : B -> Prop) : well m Q -> well m (fun _ => True).
Proof. intros Hm u Hu. by split; [apply Hm|]. Qed.

Lemma well_pcb_at p : well (pcb_at p) typed_pcb.
Proof.
  intros u Hu. unfold pcb_at. destruct (pcbs u !! p) as [x|] eqn:Hp; (split; [done|]); [|done].
  intros y [= <-]. by eapply Hu.
Qed.

Lemma typed_insert u p x a n l : typed u -> typed_pcb x -> is_u16 n -> typed (UdpState (<[p := x]> (pcbs u)) a n l).
Proof.
  intros [Hu _] Hx Hn. split; [cbn|done]. intros q y [[<- <-]|[_ Hq]]%lookup_insert_Some; [done|by eapply Hu].
Qed.

Lemma well_on_pcb p f : (forall x, typed_pcb x -> typed_pcb (f x)) -> well (on_pcb p f) (fun _ => True).
Proof.
  intros Hf. eapply well_bind; [apply well_pcb_at|]. intros x Hx u Hu. split; [|done].
  apply typed_insert; [done|by apply Hf|apply Hu].
Qed.

Lemma well_set_pcbs a : well (set_udp_pcbs a) (fun _ => True).
Proof. done. Qed.

Lemma well_set_port v : is_u16 v -> well (set_udp_port v) (fun _ => True).
Proof. intros Hv u [Hu _]. by split. Qed.

Lemma well_exit_if b (c : Z) : well (exit_if b c) (fun _ => True).
Proof. intros u Hu. by destruct b. Qed.

Lemma well_walk n : forall (a : option ptr) f, well (walk n a f) (fun _ => True).
Proof.
  induction n as [|n IH]; intros a f; destruct a as [q|]; cbn [walk]; try (by apply well_ret).
  - by apply well_stop.
  - eapply well_bind; [apply well_pcb_at|]. intros x _. destruct (f q x); [by apply well_ret|apply IH].
Qed.

Lemma well_first f : well (first_pcb f) (fun _ => True).
Proof.
  unfold first_pcb. eapply well_bind; [by apply (well_gets _ (fun _ => True))|]. intros n _.
  eapply well_bind; [by apply (well_gets _ (fun _ => True))|]. intros p _. apply well_walk.
Qed.


(** ** The operations *)
Lemma well_to_front p : well (to_front p) (fun _ => True).
Proof.
  unfold to_front. eapply well_bind; [by apply (well_gets _ (fun _ => True))|]. intros a _.
  eapply well_bind; [apply well_on_pcb; by intros x []|]. intros _ _. apply well_set_pcbs.
Qed.

Lemma well_again k : forall n, well (again k n) is_u16.
Proof.
  induction k as [|k IH]; intros n; cbn [again]; [by apply well_stop|].
  eapply well_bind; [apply (well_gets _ is_u16); by intros u []|]. intros old Hold.
  eapply well_bind; [apply well_set_port; apply u16_range|]. intros _ _.
  eapply well_bind; [destruct (old =? _); [apply well_set_port; by vm_compute|by apply well_ret]|]. intros _ _.
  eapply well_bind; [apply (well_gets _ is_u16); by intros u []|]. intros port Hport.
  eapply well_bind; [apply well_first|]. intros [q|] _; [|by apply well_ret].
  destruct (_ <? _); [by apply well_ret|apply IH].
Qed.

Lemma well_udp_bind (p : option ptr) ip port : is_u32 (default IPADDR_ANY ip) -> is_u16 port -> well (udp_bind p ip port) (fun _ => True).
Proof.
  intros Hip Hport. unfold udp_bind. eapply (well_func _ (fun _ => True)).
  eapply (well_bind _ _ (fun _ => True)); [destruct p; [by apply well_ret|by apply well_stop]|]. intros q _.
  eapply well_bind; [apply well_first|]. intros ipcb _.
  eapply (well_bind _ _ is_u16).
  { destruct (port =? 0).
    - eapply well_bind; [apply well_again|]. intros v Hv. eapply well_bind; [apply well_exit_if|]. intros _ _. by apply well_ret.
    - eapply well_bind; [apply well_first|]. intros r _. eapply well_bind; [apply well_exit_if|]. intros _ _. by apply well_ret. }
  intros v Hv. eapply well_bind; [apply well_on_pcb; by intros x []|]. intros _ _.
  eapply well_bind; [apply well_on_pcb; by intros x []|]. intros _ _.
  eapply well_bind; [destruct ipcb; [by apply (well_ret _ (fun _ => True))|apply well_to_front]|]. intros _ _. by apply well_ret.
Qed.

Lemma flags_u8 a b : is_u8 a -> is_u8 b -> is_u8 (Z.lor a b) /\ is_u8 (Z.land a b).
Proof.
  unfold is_u8. intros Ha Hb. assert (Hs : forall v, 0 <= v < 2 ^ 8 -> v = Z.land v (Z.ones 8)) by (intros; rewrite Z.land_ones by lia; by rewrite Z.mod_small).
  assert (Hr : forall v, v = Z.land v (Z.ones 8) -> 0 <= v < 2 ^ 8) by (intros v ->; rewrite Z.land_ones by lia; apply Z.mod_pos_bound; lia).
  rewrite (Hs a Ha), (Hs b Hb). split; apply Hr; rewrite <- ?Z.land_lor_distr_l, <- !Z.land_assoc, ?Z.land_diag; done.
Qed.

Lemma well_udp_connect p ip port : is_u32 ip -> is_u16 port -> well (udp_connect (Some p) (Some ip) port) (fun _ => True).
Proof.
  intros Hip Hport. unfold udp_connect. eapply (well_func _ (fun _ => True)).
  eapply well_bind; [apply well_pcb_at|]. intros x Hx.
  eapply (well_bind _ _ (fun _ => True)).
  { destruct (local_port x =? 0); [|by apply well_ret].
    eapply well_bind; [apply well_udp_bind; apply Hx|]. intros r _. apply well_exit_if. }
  intros _ _. eapply well_bind; [apply well_on_pcb; by intros z []|]. intros _ _.
  eapply well_bind; [apply well_on_pcb; by intros z []|]. intros _ _.
  eapply well_bind; [apply well_on_pcb|].
  { intros z []. split; try done. by apply flags_u8. }
  intros _ _. eapply well_bind; [apply well_first|]. intros r _. eapply well_bind; [apply well_exit_if|]. intros _ _.
  eapply well_bind; [apply well_to_front|]. intros _ _. by apply well_ret.
Qed.

Lemma well_changed n : forall (a : option ptr) old new, is_u32 new -> well (changed_loop n a old new) (fun _ => True).
Proof.
  induction n as [|n IH]; intros a old new Hn; destruct a as [q|]; cbn [changed_loop]; try (by apply well_ret); [by apply well_stop|].
  eapply well_bind; [apply well_pcb_at|]. intros x _.
  eapply (well_bind _ _ (fun _ => True)); [destruct (_ =? _); [apply well_on_pcb; by intros z []|by apply well_ret]|].
  intros _ _. by apply IH.
Qed.

Lemma well_input n : forall (a prev un : option ptr) k, well (input_loop n a prev un k) (fun _ => True).
Proof.
  induction n as [|n IH]; intros a prev un k; destruct a as [q|]; cbn [input_loop]; try (by apply well_ret); [by apply well_stop|].
  eapply well_bind; [apply well_pcb_at|]. intros x _. destruct (_ && _); [|apply IH].
  destruct (_ && _); [|apply IH]. eapply (well_bind _ _ (fun _ => True)).
  { destruct prev; [|by apply well_ret]. eapply well_bind; [apply well_on_pcb; by intros z []|]. intros _ _. apply well_to_front. }
  intros _ _. by apply well_ret.
Qed.

Lemma well_udp_new : well udp_new (fun _ => True).
Proof.
  unfold udp_new. eapply well_bind; [by apply (well_gets _ (fun _ => True))|]. intros [|p l] _; [by apply well_ret|].
  eapply (well_bind _ _ (fun _ => True)).
  { intros u Hu. split; [|done]. apply typed_insert; [done|by vm_compute|apply Hu]. }
  intros _ _. eapply well_bind; [apply well_on_pcb; by intros x []|]. intros _ _. by apply well_ret.
Qed.

Lemma well_udp_remove p : well (udp_remove p) (fun _ => True).
Proof.
  unfold udp_remove. eapply well_bind; [by apply (well_gets _ (fun _ => True))|]. intros a _.
  eapply (well_bind _ _ (fun _ => True)).
  - destruct (bool_decide _).
    + eapply well_bind; [apply well_pcb_at|]. intros x _. apply well_set_pcbs.
    + eapply well_bind; [apply well_first|]. intros [q|] _; [|by apply well_ret].
      eapply well_bind; [apply well_pcb_at|]. intros x _. apply well_on_pcb. by intros z [].
  - intros _ _ u [Hu Hn]. split; [|done]. split; [cbn|done]. intros q x [_ Hq]%lookup_delete_Some. by eapply Hu.
Qed.

(** ** Sessions *)

(** Arguments of the types of the parameters. *)
Definition typed_call (c : call) : Prop :=
  match c with
  | Bind _ ip port => is_u32 (default IPADDR_ANY ip) /\ is_u16 port
  | Connect _ ip port => is_u32 ip /\ is_u16 port
  | Address old new => is_u32 old /\ is_u32 new
  | New | Remove _ | Disconnect _ | Recv _ _ _ | Datagram _ => True
  end.

Fixpoint issues (l : list call) u : udp_state :=
  match l with [] => u | c :: l => issues l (issue c u).2 end.

Lemma issue_typed c : typed_call c -> well (issue c) (fun _ => True).
Proof.
  destruct c as [|p|p ip port|p ip port|p|p f a|old new|k]; cbn [issue typed_call]; intros Hc.
  - eapply well_bind; [apply well_udp_new|]. intros; by apply well_ret.
  - apply well_udp_remove.
  - eapply well_bind; [apply well_udp_bind; apply Hc|]. intros; by apply well_ret.
  - eapply well_bind; [apply well_udp_connect; apply Hc|]. intros; by apply well_ret.
  - unfold udp_disconnect. eapply well_bind; [apply well_on_pcb; by intros z []|]. intros _ _.
    eapply well_bind; [apply well_on_pcb; by intros z []|]. intros _ _. apply well_on_pcb. intros z []. split; try done. by apply flags_u8.
  - apply well_on_pcb. by intros z [].
  - unfold udp_netif_ip_addr_changed. destruct (_ && _); [|by apply well_ret].
    eapply well_bind; [by apply (well_gets _ (fun _ => True))|]. intros n _.
    eapply well_bind; [by apply (well_gets _ (fun _ => True))|]. intros p _. apply well_changed, Hc.
  - eapply (well_bind _ _ (fun _ => True)); [|intros; by apply well_ret]. unfold udp_demux.
    eapply well_bind; [by apply (well_gets _ (fun _ => True))|]. intros n _.
    eapply well_bind; [by apply (well_gets _ (fun _ => True))|]. intros p _. apply well_input.
Qed.

(** C18: Over any sequence of calls with arguments of the types of their parameters, whatever the
    pointers, every field of every UDP control block stays within its C type: addresses 32
    bits, ports 16, flags, options, ttl and tos 8; and so does the last port tried. *)
Theorem udp_blocks_typed pool l : Forall typed_call l -> typed (issues l (boot pool)).
Proof.
  intros Hl. assert (Hb : typed (boot pool)) by (split; [intros p x Hx; cbn in Hx; by rewrite lookup_empty in Hx|by vm_compute]).
  revert Hb. generalize (boot pool). induction Hl as [|c l Hc _ IH]; intros u Hu; [done|].
  apply IH, (issue_typed c Hc u Hu).
Qed.

(** A session of typed calls. *)
Lemma udp_blocks_typed_witness : typed (issues [New; Bind 1%positive None 5005; Connect 1%positive 0x0201A8C0 7] (boot [1%positive])).
Proof. apply (udp_blocks_typed [1%positive]). repeat constructor; vm_compute; congruence. Defined.
