(* ===== verification/Ip4.v ===== *)
(** * IPv4 output: [lwip/src/core/ipv4/ip4.c]

    The part of the state above the link layer: the UDP module, the interfaces in the order
    of [netif_list], the identification counter, and what the packet being received says
    ([ip_data]).  The fragmentation and reassembly of [ip4_frag.c], TCP, DHCP and the
    receive callbacks of the applications are the class [Peers]. *)
From S2P Require Export Chksum UdpFacts.

Definition IP_HLEN := 20.
Definition IP_PROTO_ICMP := 1.
Definition IP_PROTO_UDP := 17.
Definition IP_PROTO_TCP := 6.
Definition NETIF_FLAG_UP := 0x01.
Definition NETIF_FLAG_LINK_UP := 0x04.

(** [struct ip_globals] *)
Record ip_globals := IpGlobals {
  current_netif : option Z;
  current_input_netif : option Z;
  current_ip4_header : option (ptr * Z);
  current_ip_header_tot_len : Z;
  current_iphdr_src : Z;
  current_iphdr_dest : Z
}.

Record stack (D : Type) := Stack {
  udp : udp_state;
  ip_id : Z;                   (* u16_t *)
  netif_list : list Z;
  netif_default : option Z;
  ip_data : ip_globals;
  phy : D
}.
Arguments Stack {D} _ _ _ _ _ _.
Arguments udp {D} _.
Arguments ip_id {D} _.
Arguments netif_list {D} _.
Arguments netif_default {D} _.
Arguments ip_data {D} _.
Arguments phy {D} _.

Definition with_udp {D} v (t : stack D) := Stack v (ip_id t) (netif_list t) (netif_default t) (ip_data t) (phy t).
Definition with_ip_id {D} v (t : stack D) := Stack (udp t) v (netif_list t) (netif_default t) (ip_data t) (phy t).
Definition with_ip_data {D} v (t : stack D) := Stack (udp t) (ip_id t) (netif_list t) (netif_default t) v (phy t).
Definition with_phy {D} (v : D) (t : stack D) := Stack (udp t) (ip_id t) (netif_list t) (netif_default t) (ip_data t) v.

(** The controller is below the stack. *)
Definition stack_inv {D} `{Controller D} (t : stack D) : Prop :=
  dev_inv (phy t) /\ exists l, udp_ok (udp t) l.

#[export] Instance stack_controller {D} `{Controller D} : Controller (stack D).
Proof.
  refine {|
    enet_tx frame t := (fun d => with_phy d t) <$> enet_tx frame (phy t);
    xEventGroupWaitBits t := with_phy (xEventGroupWaitBits (phy t)) t;
    tx_pending t := tx_pending (phy t);
    dev_inv := stack_inv |}.
  - intros frame t Hn. apply (tx_progress frame). by destruct (enet_tx frame (phy t)).
  - intros frame t t' [Hp Hu]. destruct (enet_tx frame (phy t)) as [d|] eqn:Htx; [|done].
    cbn. intros [= <-]. split; [by eapply tx_inv|done].
  - intros t [Hp Hu]. split; [by apply wait_inv|done].
Defined.

(** The parts next to IP and UDP: the arguments of [udp_recv_fn] are the function and its
    argument, the block, the packet, the sender's address and port. *)
Class Peers (A D : Type) `{Controller D} := {
  ip4_frag : ptr -> Z -> Z -> cmd (link A (stack D)) Z;
  ip4_reass : ptr -> cmd (link A (stack D)) (option ptr);
  tcp_input : ptr -> Z -> cmd (link A (stack D)) unit;
  udp_recv_fn : Z -> Z -> ptr -> ptr -> Z -> Z -> cmd (link A (stack D)) unit;
  dhcp_reply : Z -> Z -> stack D -> stack D;
  dhcp_reply_inv : forall netif_ a t, stack_inv t -> stack_inv (dhcp_reply netif_ a t)
}.

Section Ip4.
Context {A D : Type} `{Allocator A} `{Controller D} `{!Peers A D}.
Context (custom : ptr -> heap A -> heap A) (block_addr : ptr -> Z).
#[local] Abbreviation M := (cmd (link A (stack D))).

(** A call of the UDP module on its blocks. *)
Definition blocks {X : Type} (m : cmd udp_state X) : M X := fun s =>
  let '(r, u) := m (udp (dev s)) in
  (r, Link (arp_table s) (etharp_cached_entry s) (netifs s) (ucBuffer s) (hp s) (with_udp u (dev s))).

Definition netif_is_up (n : netif) : bool := truthy (Z.land (nflags n) NETIF_FLAG_UP).
Definition netif_is_link_up (n : netif) : bool := truthy (Z.land (nflags n) NETIF_FLAG_LINK_UP).

(** ** [ip4_route] *)
Fixpoint route_loop (l : list Z) (netifs : Z -> netif) (dest : Z) : option Z :=
  match l with
  | [] => None
  | i :: l =>
      let n := netifs i in
      if (netif_is_up n && netif_is_link_up n && negb (ip4_addr_isany (ip_addr n)))
         && (ip4_addr_netcmp dest (ip_addr n) (netmask n)
             || ((Z.land (nflags n) NETIF_FLAG_BROADCAST =? 0) && (dest =? gw n)))
      then Some i else route_loop l netifs dest
  end.

Definition ip4_route (dest : Z) : M (option Z) :=
  l <- gets (fun s => netif_list (dev s)) ;;
  ns <- gets netifs ;;
  match route_loop l ns dest with
  | Some i => ret (Some i)
  | None =>
      d <- gets (fun s => netif_default (dev s)) ;;
      match d with
      | None => ret None
      | Some i =>
          let n := ns i in
          if negb (netif_is_up n) || negb (netif_is_link_up n) || ip4_addr_isany (ip_addr n)
          then ret None else ret (Some i)
      end
  end.

(** [inet_chksum(ptr, len)] *)
Definition chksum_at (pl : option (ptr * Z)) (n : Z) : M Z :=
  bs <- pbufs (read_mem pl 0 n) ;; ret (inet_chksum (payload_addr block_addr pl) bs).

(** [++ip_id] *)
Definition next_ip_id : M Z :=
  id <- gets (fun s => ip_id (dev s)) ;; on_dev (with_ip_id (u16 (id + 1))) ;;; ret id.

(** ** The checksum of the header, summed up while the fields are written

    [CHECKSUM_GEN_IP_INLINE] is 1.  The addresses and the two words are read back from the
    header, 32 and 16 bits wide. *)
Definition inline_chksum (total id src dest ttl tos proto : Z) : Z :=
  let dest := of_le32 (addr_bytes dest) in
  let src := of_le32 (addr_bytes src) in
  let v_hl := u8 (Z.lor (Z.shiftl 4 4) (IP_HLEN / 4)) in
  let chk_sum := PP_HTONS (Z.lor proto (Z.shiftl ttl 8)) in
  let chk_sum := u32 (chk_sum + Z.land dest 0xffff) in
  let chk_sum := u32 (chk_sum + Z.shiftr dest 16) in
  let chk_sum := u32 (chk_sum + PP_HTONS (Z.lor tos (Z.shiftl v_hl 8))) in
  let chk_sum := u32 (chk_sum + lwip_htons total) in
  let chk_sum := u32 (chk_sum + lwip_htons id) in
  let chk_sum := u32 (chk_sum + Z.land src 0xffff) in
  let chk_sum := u32 (chk_sum + Z.shiftr src 16) in
  let chk_sum := u32 (Z.shiftr chk_sum 16 + Z.land chk_sum 0xffff) in
  let chk_sum := u32 (Z.shiftr chk_sum 16 + chk_sum) in
  u16 (Z.lnot chk_sum).

(** ** [ip4_output_if_src], [ip4_output_if], [ip4_output]

    [dest] is [None] for [LWIP_IP_HDRINCL], [src] for a null pointer; the [output] function
    of the interfaces is [etharp_output]. *)
Definition ip4_header (p : ptr) (src : option Z) (dest ttl tos proto : Z) : M unit :=
  x <- pbufs (load p) ;;
  let iphdr := payload x in
  assert_ (IP_HLEN <=? len x) ;;;
  pbufs (write_mem iphdr 8 [ttl]) ;;;
  pbufs (write_mem iphdr 9 [proto]) ;;;
  pbufs (write_mem iphdr 16 (addr_bytes dest)) ;;;
  pbufs (write_mem iphdr 0 [u8 (Z.lor (Z.shiftl 4 4) (IP_HLEN / 4))]) ;;;
  pbufs (write_mem iphdr 1 [tos]) ;;;
  pbufs (write_mem iphdr 2 (le16 (lwip_htons (tot_len x)))) ;;;
  pbufs (write_mem iphdr 6 (le16 0)) ;;;
  id <- next_ip_id ;;
  pbufs (write_mem iphdr 4 (le16 (lwip_htons id))) ;;;
  pbufs (write_mem iphdr 12 (addr_bytes (default IPADDR_ANY src))) ;;;
  pbufs (write_mem iphdr 10 (le16 (inline_chksum (tot_len x) id (default IPADDR_ANY src) dest ttl tos proto))).

(** Fragments, or the one packet. *)
Definition ip4_send (p : ptr) (dest netif_ : Z) : M Z :=
  x <- pbufs (load p) ;;
  n <- gets (fun s => netifs s netif_) ;;
  if truthy (mtu n) && (mtu n <? tot_len x)
  then ip4_frag p netif_ dest
  else etharp_output custom netif_ p dest.

Definition ip4_output_if_src (p : ptr) (src dest : option Z) (ttl tos proto netif_ : Z) : M Z := func (
  x <- pbufs (load p) ;;
  assert_ (ref x =? 1) ;;;
  dest <- (match dest with
           | Some dest =>
               r <- pbufs (pbuf_header p IP_HLEN) ;;
               exit_if (truthy r) ERR_BUF ;;;
               ip4_header p src dest ttl tos proto ;;;
               ret dest
           | None =>
               bs <- pbufs (read_mem (payload x) 16 4) ;;
               ret (of_le32 bs)
           end) ;;
  ip4_send p dest netif_).

Definition ip4_output_if (p : ptr) (src dest : option Z) (ttl tos proto netif_ : Z) : M Z :=
  n <- gets (fun s => netifs s netif_) ;;
  let src_used :=
    if (if dest is Some _ then true else false) && (if src is Some a then ip4_addr_isany a else true)
    then Some (ip_addr n) else src in
  ip4_output_if_src p src_used dest ttl tos proto netif_.

Definition ip4_output (p : ptr) (src : option Z) (dest ttl tos proto : Z) : M Z :=
  x <- pbufs (load p) ;;
  assert_ (ref x =? 1) ;;;
  netif_ <- ip4_route dest ;;
  match netif_ with
  | None => ret ERR_RTE
  | Some netif_ => ip4_output_if p src (Some dest) ttl tos proto netif_
  end.
End Ip4.
