(* ===== verification/Icmp.v ===== *)
(** * ICMP: [lwip/src/core/ipv4/icmp.c] *)
From S2P Require Export Ip4.

Definition ICMP_ER := 0.
Definition ICMP_DUR := 3.
Definition ICMP_ECHO := 8.
Definition ICMP_TE := 11.
Definition ICMP_DUR_PROTO := 2.
Definition ICMP_DUR_PORT := 3.
Definition ICMP_TTL := 255.
Definition ICMP_DEST_UNREACH_DATASIZE := 8.
Definition SIZEOF_ICMP_ECHO_HDR := 8.

Section Icmp.
Context {A D : Type} `{Allocator A} `{Controller D} `{!Peers A D}.
Context (custom : ptr -> heap A -> heap A) (block_addr : ptr -> Z).
#[local] Abbreviation M := (cmd (link A (stack D))).

(** ** [icmp_send_response] *)
Definition icmp_send_response (p : ptr) (type_ code : Z) : M unit :=
  q <- pbufs (pbuf_alloc custom PBUF_IP (SIZEOF_ICMP_ECHO_HDR + IP_HLEN + ICMP_DEST_UNREACH_DATASIZE) PBUF_RAM) ;;
  match q with
  | None => ret tt
  | Some q =>
      y <- pbufs (load q) ;;
      assert_ (SIZEOF_ICMP_ECHO_HDR + IP_HLEN + ICMP_DEST_UNREACH_DATASIZE <=? len y) ;;;
      x <- pbufs (load p) ;;
      let iphdr := payload x in
      let icmphdr := payload y in
      pbufs (write_mem icmphdr 0 [type_]) ;;;
      pbufs (write_mem icmphdr 1 [code]) ;;;
      pbufs (write_mem icmphdr 4 (le16 0)) ;;;
      pbufs (write_mem icmphdr 6 (le16 0)) ;;;
      bs <- pbufs (read_mem iphdr 0 (IP_HLEN + ICMP_DEST_UNREACH_DATASIZE)) ;;
      pbufs (write_mem icmphdr SIZEOF_ICMP_ECHO_HDR bs) ;;;
      src <- pbufs (read_mem iphdr 12 4) ;;
      let iphdr_src := of_le32 src in
      netif_ <- ip4_route iphdr_src ;;
      (match netif_ with
       | Some netif_ =>
           pbufs (write_mem icmphdr 2 (le16 0)) ;;;
           sum <- chksum_at block_addr icmphdr (len y) ;;
           pbufs (write_mem icmphdr 2 (le16 sum)) ;;;
           ip4_output_if custom q None (Some iphdr_src) ICMP_TTL 0 IP_PROTO_ICMP netif_ ;;;
           ret tt
       | None => ret tt
       end) ;;;
      pbufs (pbuf_free custom (Some q)) ;;;
      ret tt
  end.

Definition icmp_dest_unreach (p : ptr) (t : Z) : M unit := icmp_send_response p ICMP_DUR t.
Definition icmp_time_exceeded (p : ptr) (t : Z) : M unit := icmp_send_response p ICMP_TE t.

(** ** [icmp_input] *)
Definition drop_packet (p : ptr) : M unit := pbufs (pbuf_free custom (Some p)) ;;; ret tt.

(** A copy with room for the link header, when the packet has none: [None] is the jump to
    [icmperr]. *)
Definition echo_copy (p : ptr) (hlen : Z) (iphdr_in : option (ptr * Z)) : M (option ptr) :=
  x <- pbufs (load p) ;;
  r <- pbufs (pbuf_alloc custom PBUF_LINK (u16 (tot_len x + hlen)) PBUF_RAM) ;;
  match r with
  | None => ret None
  | Some r =>
      y <- pbufs (load r) ;;
      if len y <? hlen + SIZEOF_ICMP_ECHO_HDR then pbufs (pbuf_free custom (Some r)) ;;; ret None else
      bs <- pbufs (read_mem iphdr_in 0 hlen) ;;
      pbufs (write_mem (payload y) 0 bs) ;;;
      e <- pbufs (pbuf_header r (- hlen)) ;;
      assert_ (negb (truthy e)) ;;;
      err <- pbufs (pbuf_copy (Some r) (Some p)) ;;
      if negb (err =? ERR_OK) then pbufs (pbuf_free custom (Some r)) ;;; ret None else
      pbufs (pbuf_free custom (Some p)) ;;;
      ret (Some r)
  end.

(** The answer: the addresses switched, the type set and the checksum adjusted. *)
Definition echo_answer (p : ptr) (hlen src dst inp : Z) : M unit :=
  x <- pbufs (load p) ;;
  let iecho := payload x in
  e <- pbufs (pbuf_header p hlen) ;;
  if truthy e then ret tt else
  x <- pbufs (load p) ;;
  let iphdr := payload x in
  pbufs (write_mem iphdr 12 (addr_bytes src)) ;;;
  pbufs (write_mem iphdr 16 (addr_bytes dst)) ;;;
  pbufs (write_mem iecho 0 [ICMP_ER]) ;;;
  chksum <- read16 iecho 2 ;;
  (if PP_HTONS (0xffff - Z.shiftl ICMP_ECHO 8) <? chksum
   then pbufs (write_mem iecho 2 (le16 (chksum + (PP_HTONS (Z.shiftl ICMP_ECHO 8) + 1))))
   else pbufs (write_mem iecho 2 (le16 (chksum + PP_HTONS (Z.shiftl ICMP_ECHO 8))))) ;;;
  pbufs (write_mem iphdr 8 [ICMP_TTL]) ;;;
  pbufs (write_mem iphdr 10 (le16 0)) ;;;
  sum <- chksum_at block_addr iphdr hlen ;;
  pbufs (write_mem iphdr 10 (le16 sum)) ;;;
  ip4_output_if custom p (Some src) None ICMP_TTL 0 IP_PROTO_ICMP inp ;;;
  ret tt.

Definition icmp_input (p : ptr) (inp : Z) : M unit :=
  d <- gets (fun s => ip_data (dev s)) ;;
  v_hl <- read8 (current_ip4_header d) 0 ;;
  let hlen := Z.land v_hl 0x0f * 4 in
  if hlen <? IP_HLEN then drop_packet p else
  x <- pbufs (load p) ;;
  if len x <? 4 then drop_packet p else
  type_ <- read8 (payload x) 0 ;;
  if type_ =? ICMP_ECHO then
    let src := current_iphdr_dest d in
    if ip4_addr_ismulticast src then drop_packet p else
    i <- (match current_netif d with Some i => ret i | None => fault end) ;;
    n <- gets (fun s => netifs s i) ;;
    if ip4_addr_isbroadcast src n then drop_packet p else
    if tot_len x <? SIZEOF_ICMP_ECHO_HDR then drop_packet p else
    sum <- pbufs (inet_chksum_pbuf block_addr (Some p)) ;;
    if negb (sum =? 0) then drop_packet p else
    let room := hlen + PBUF_LINK_HLEN + PBUF_LINK_ENCAPSULATION_HLEN in
    e <- pbufs (pbuf_header p room) ;;
    q <- (if truthy e then echo_copy p hlen (current_ip4_header d)
          else e <- pbufs (pbuf_header p (- room)) ;; assert_ (negb (truthy e)) ;;; ret (Some p)) ;;
    match q with
    | None => drop_packet p
    | Some q => echo_answer q hlen src (current_iphdr_src d) inp ;;; drop_packet q
    end
  else drop_packet p.
End Icmp.
