(* ===== verification/UdpIo.v ===== *)
(** * UDP datagrams: [udp_input] and the sending functions of [lwip/src/core/udp.c] *)
From S2P Require Export Icmp.

Definition UDP_HLEN := 8.

Section UdpIo.
Context {A D : Type} `{Allocator A} `{Controller D} `{!Peers A D}.
Context (custom : ptr -> heap A -> heap A) (block_addr : ptr -> Z).
#[local] Abbreviation M := (cmd (link A (stack D))).

(** ** [udp_input] *)

(** No block takes the datagram: the sender is told, unless everyone was meant. *)
Definition udp_unreach (p : ptr) (bcast : bool) : M unit :=
  d <- gets (fun s => ip_data (dev s)) ;;
  (if negb bcast && negb (ip4_addr_ismulticast (current_iphdr_dest d)) then
     pbufs (pbuf_header_force p (s16 (current_ip_header_tot_len d + UDP_HLEN))) ;;;
     icmp_dest_unreach custom block_addr p ICMP_DUR_PORT
   else ret tt) ;;;
  drop_packet custom p.

(** The datagram is for us: its checksum is verified when it has one, and the callback
    takes the packet. *)
Definition udp_for_us (p : ptr) (pcb : option ptr) (chksum : Z) (k : packet_to) : M unit :=
  x <- pbufs (load p) ;;
  sum <- (if negb (chksum =? 0)
          then pbufs (ip_chksum_pseudo block_addr (Some p) IP_PROTO_UDP (tot_len x) (src_addr k) (dest_addr k))
          else ret 0) ;;
  if negb (sum =? 0) then drop_packet custom p else
  e <- pbufs (pbuf_header p (- UDP_HLEN)) ;;
  assert_ (negb (truthy e)) ;;;
  match pcb with
  | Some pcb =>
      y <- blocks (pcb_at pcb) ;;
      match recv y with
      | Some f => udp_recv_fn f (recv_arg y) pcb p (src_addr k) (src_port k)
      | None => drop_packet custom p
      end
  | None => udp_unreach p (broadcast k)
  end.

Definition udp_input (p : ptr) (inp : Z) : M unit :=
  x <- pbufs (load p) ;;
  if len x <? UDP_HLEN then drop_packet custom p else
  let udphdr := payload x in
  d <- gets (fun s => ip_data (dev s)) ;;
  i <- (match current_netif d with Some i => ret i | None => fault end) ;;
  n <- gets (fun s => netifs s i) ;;
  ninp <- gets (fun s => netifs s inp) ;;
  src <- read16 udphdr 0 ;;
  dest <- read16 udphdr 2 ;;
  let k := PacketTo (current_iphdr_src d) (lwip_htons src) (current_iphdr_dest d) (lwip_htons dest)
             (ip4_addr_isbroadcast (current_iphdr_dest d) n) (netmask ninp) in
  pcb <- blocks (udp_demux k) ;;
  let for_us := if pcb is Some _ then true else ip_addr ninp =? dest_addr k in
  if for_us then
    chksum <- read16 udphdr 6 ;;
    udp_for_us p pcb chksum k
  else drop_packet custom p.

(** ** [udp_sendto_if_src] *)

(** The packet with room for the UDP header: [p] itself, or a new pbuf chained in front. *)
Definition udp_add_header (p : ptr) : M (option ptr) :=
  e <- pbufs (pbuf_header p UDP_HLEN) ;;
  if truthy e then
    q <- pbufs (pbuf_alloc custom PBUF_IP UDP_HLEN PBUF_RAM) ;;
    match q with
    | None => ret None
    | Some q =>
        x <- pbufs (load p) ;;
        (if negb (tot_len x =? 0) then pbufs (pbuf_chain (Some q) (Some p)) else ret tt) ;;;
        ret (Some q)
    end
  else ret (Some p).

(** The header's fields, the checksum last: 0 would mean that there is none. *)
Definition udp_fill_header (q : ptr) (pcb : udp_pcb) (src_ip dst_ip dst_port : Z) : M unit :=
  x <- pbufs (load q) ;;
  assert_ (UDP_HLEN <=? len x) ;;;
  let udphdr := payload x in
  pbufs (write_mem udphdr 0 (le16 (lwip_htons (local_port pcb)))) ;;;
  pbufs (write_mem udphdr 2 (le16 (lwip_htons dst_port))) ;;;
  pbufs (write_mem udphdr 6 (le16 0)) ;;;
  pbufs (write_mem udphdr 4 (le16 (lwip_htons (tot_len x)))) ;;;
  if Z.land (u_flags pcb) UDP_FLAGS_NOCHKSUM =? 0 then
    sum <- pbufs (ip_chksum_pseudo block_addr (Some q) IP_PROTO_UDP (tot_len x) src_ip dst_ip) ;;
    pbufs (write_mem udphdr 6 (le16 (if sum =? 0 then 0xffff else sum)))
  else ret tt.

Definition udp_sendto_if_src (pcb : option ptr) (p : ptr) (dst_ip : option Z) (dst_port netif_ : Z)
    (src_ip : Z) : M Z := func (
  match pcb, dst_ip with
  | Some pcb, Some dst_ip =>
      y <- blocks (pcb_at pcb) ;;
      (if local_port y =? 0 then
         err <- blocks (udp_bind (Some pcb) (Some (local_ip y)) (local_port y)) ;;
         exit_if (negb (err =? ERR_OK)) err
       else ret tt) ;;;
      q <- udp_add_header p ;;
      q <- (match q with None => exit ERR_MEM | Some q => ret q end) ;;
      y <- blocks (pcb_at pcb) ;;
      udp_fill_header q y src_ip dst_ip dst_port ;;;
      err <- ip4_output_if_src custom q (Some src_ip) (Some dst_ip) (ttl y) (tos y) IP_PROTO_UDP netif_ ;;
      (if negb (bool_decide (q = p)) then pbufs (pbuf_free custom (Some q)) ;;; ret tt else ret tt) ;;;
      ret err
  | _, _ => exit ERR_VAL
  end).

(** ** [udp_sendto_if], [udp_sendto], [udp_send] *)
Definition udp_sendto_if (pcb : option ptr) (p : ptr) (dst_ip : option Z) (dst_port netif_ : Z) : M Z := func (
  match pcb, dst_ip with
  | Some q, Some _ =>
      y <- blocks (pcb_at q) ;;
      n <- gets (fun s => netifs s netif_) ;;
      src_ip <- (if ip4_addr_isany (local_ip y) || ip4_addr_ismulticast (local_ip y) then ret (ip_addr n)
                 else exit_if (negb (local_ip y =? ip_addr n)) ERR_RTE ;;; ret (local_ip y)) ;;
      udp_sendto_if_src pcb p dst_ip dst_port netif_ src_ip
  | _, _ => exit ERR_VAL
  end).

Definition udp_sendto (pcb : option ptr) (p : ptr) (dst_ip : option Z) (dst_port : Z) : M Z := func (
  match pcb, dst_ip with
  | Some _, Some dst =>
      netif_ <- ip4_route dst ;;
      match netif_ with
      | None => exit ERR_RTE
      | Some netif_ => udp_sendto_if pcb p dst_ip dst_port netif_
      end
  | _, _ => exit ERR_VAL
  end).

Definition udp_send (pcb : option ptr) (p : ptr) : M Z := func (
  match pcb with
  | None => exit ERR_VAL
  | Some q =>
      y <- blocks (pcb_at q) ;;
      udp_sendto pcb p (Some (remote_ip y)) (remote_port y)
  end).
End UdpIo.
