(* ===== verification/IpInput.v ===== *)
(** * IPv4 input: [ip4_input] of [lwip/src/core/ipv4/ip4.c] *)
From S2P Require Export UdpIo.

Definition IP_OFFMASK := 0x1fff.
Definition IP_MF := 0x2000.
Definition DHCP_CLIENT_PORT := 68.
Definition IP_LOOPBACKNET := 127.

(** [ip_data] when no packet is being received *)
Definition idle_ip_data : ip_globals := IpGlobals None None None 0 IPADDR_ANY IPADDR_ANY.

Definition ip4_addr_isloopback (a : Z) : bool :=
  Z.land a (PP_HTONL 0xff000000) =? PP_HTONL (Z.shiftl IP_LOOPBACKNET 24).

Section IpInput.
Context {A D : Type} `{Allocator A} `{Controller D} `{!Peers A D}.
Context (custom : ptr -> heap A -> heap A) (block_addr : ptr -> Z).
#[local] Abbreviation M := (cmd (link A (stack D))).

(** ** The interface a packet is for *)
Definition accepts (n : netif) (dest : Z) : bool :=
  (netif_is_up n && negb (ip4_addr_isany (ip_addr n)))
  && ((dest =? ip_addr n) || ip4_addr_isbroadcast dest n).

(** The loop after its first round: the interfaces of [netif_list] but [inp]. *)
Fixpoint accept_loop (l : list Z) (netifs : Z -> netif) (inp dest : Z) : option Z :=
  match l with
  | [] => None
  | i :: l =>
      if i =? inp then
        match l with
        | [] => None
        | j :: l => if accepts (netifs j) dest then Some j else accept_loop l netifs inp dest
        end
      else if accepts (netifs i) dest then Some i else accept_loop l netifs inp dest
  end.

Definition accepting_netif (inp dest : Z) : M (option Z) :=
  ns <- gets netifs ;;
  l <- gets (fun s => netif_list (dev s)) ;;
  let n := ns inp in
  ret (if ip4_addr_ismulticast dest then
         if netif_is_up n && negb (ip4_addr_isany (ip_addr n)) then Some inp else None
       else if accepts n dest then Some inp
       else if ip4_addr_isloopback dest then None
       else accept_loop l ns inp dest).

(** ** To the protocol *)
Definition ip4_deliver (p : ptr) (inp netif_ : Z) (iphdr : option (ptr * Z)) (iphdr_hlen dest : Z) : M unit :=
  pbufs (pbuf_header p (- iphdr_hlen)) ;;;
  proto <- read8 iphdr 9 ;;
  if proto =? IP_PROTO_UDP then udp_input custom block_addr p inp
  else if proto =? IP_PROTO_TCP then tcp_input p inp
  else if proto =? IP_PROTO_ICMP then icmp_input custom block_addr p inp
  else
    n <- gets (fun s => netifs s netif_) ;;
    (if negb (ip4_addr_isbroadcast dest n) && negb (ip4_addr_ismulticast dest) then
       pbufs (pbuf_header_force p iphdr_hlen) ;;;
       pbufs (update p (with_payload iphdr)) ;;;
       icmp_dest_unreach custom block_addr p ICMP_DUR_PROTO
     else ret tt) ;;;
    drop_packet custom p.

(** The packet is for interface [netif_]: fragments are put together first. *)
Definition ip4_accepted (p : ptr) (inp netif_ : Z) (iphdr : option (ptr * Z)) (iphdr_hlen : Z) : M unit :=
  offset <- read16 iphdr 6 ;;
  q <- (if negb (Z.land offset (PP_HTONS (Z.lor IP_OFFMASK IP_MF)) =? 0)
        then ip4_reass p else ret (Some p)) ;;
  match q with
  | None => ret tt
  | Some p =>
      x <- pbufs (load p) ;;
      let iphdr := payload x in
      d <- gets (fun s => ip_data (dev s)) ;;
      v_hl <- read8 iphdr 0 ;;
      on_dev (with_ip_data (IpGlobals (Some netif_) (Some inp) iphdr (Z.land v_hl 0x0f * 4)
                              (current_iphdr_src d) (current_iphdr_dest d))) ;;;
      ip4_deliver p inp netif_ iphdr iphdr_hlen (current_iphdr_dest d) ;;;
      on_dev (with_ip_data idle_ip_data)
  end.

(** What is left when the header is sound: the addresses, and who the packet is for. *)
Definition ip4_addressed (p : ptr) (inp : Z) (iphdr : option (ptr * Z)) (iphdr_hlen : Z) : M unit :=
  dest <- pbufs (read_mem iphdr 16 4) ;;
  src <- pbufs (read_mem iphdr 12 4) ;;
  d <- gets (fun s => ip_data (dev s)) ;;
  let dest := of_le32 dest in
  let src := of_le32 src in
  on_dev (with_ip_data (IpGlobals (current_netif d) (current_input_netif d) (current_ip4_header d)
                          (current_ip_header_tot_len d) src dest)) ;;;
  netif_ <- accepting_netif inp dest ;;
  dhcp <- (match netif_ with
           | Some _ => ret false
           | None =>
               proto <- read8 iphdr 9 ;;
               if proto =? IP_PROTO_UDP then
                 port <- read16 iphdr (iphdr_hlen + 2) ;;
                 ret (port =? PP_HTONS DHCP_CLIENT_PORT)
               else ret false
           end) ;;
  let netif_ := if dhcp then Some inp else netif_ in
  let check_ip_src := negb dhcp in
  n <- gets (fun s => netifs s inp) ;;
  if check_ip_src && negb (ip4_addr_isany src)
     && (ip4_addr_isbroadcast src n || ip4_addr_ismulticast src)
  then drop_packet custom p else
  match netif_ with
  | None => drop_packet custom p
  | Some netif_ => ip4_accepted p inp netif_ iphdr iphdr_hlen
  end.

(** ** [ip4_input] *)
Definition ip4_input_ (p : ptr) (inp : Z) : M unit :=
  x <- pbufs (load p) ;;
  let iphdr := payload x in
  v_hl <- read8 iphdr 0 ;;
  if negb (Z.shiftr v_hl 4 =? 4) then drop_packet custom p else
  let iphdr_hlen := Z.land v_hl 0x0f * 4 in
  iphdr_len <- read16 iphdr 2 ;;
  let iphdr_len := lwip_htons iphdr_len in
  (if iphdr_len <? tot_len x then pbufs (pbuf_realloc custom p iphdr_len) else ret tt) ;;;
  x <- pbufs (load p) ;;
  if (len x <? iphdr_hlen) || (tot_len x <? iphdr_len) || (iphdr_hlen <? IP_HLEN) then drop_packet custom p else
  sum <- chksum_at block_addr iphdr iphdr_hlen ;;
  if negb (sum =? 0) then drop_packet custom p else
  ip4_addressed p inp iphdr iphdr_hlen.

(** What the link layer asks of the layers above. *)
#[export] Instance stack_upper : Upper A (stack D) := {|
  ip4_input := ip4_input_;
  dhcp_arp_reply := dhcp_reply;
  dhcp_inv := dhcp_reply_inv
|}.
End IpInput.
