(* ===== verification/IpOut.v ===== *)
(** * IPv4 headers, and datagrams on their way out: [ip4_output_if_src] *)
From S2P Require Export ChksumThms EtharpDispatch IpInput EtharpOutput.

#[local] Set Warnings "-clear-no-such-hyp".

(** ** Checksums of bytes at an address *)
Lemma inet_chksum_ok addr bs : bytes bs -> Z.of_nat (length bs) <= 0x20000 ->
  inet_chksum addr bs = 65535 - lwip_htons (rfc1071 bs).
Proof.
  intros Hb Hl. unfold inet_chksum. rewrite chksum_2_ok by done. apply lnot_ok.
  rewrite htons_rfc1071 by done. by apply ones_complement_bound.
Qed.

Definition octet (b : Z) : Prop := 0 <= b < 256.

Lemma le16_bytes v : bytes (le16 v).
Proof. repeat constructor; apply u8_range. Qed.

Lemma addr_bytes_bytes a : bytes (addr_bytes a).
Proof. repeat constructor; apply u8_range. Qed.

(** ** The IPv4 header (RFC 791), without options *)
Definition ip_fields (total id src dest ttl tos proto chksum : Z) : list Z :=
  [0x45; tos] ++ le16 (lwip_htons total) ++ le16 (lwip_htons id) ++ le16 0 ++ [ttl; proto] ++
  le16 chksum ++ addr_bytes src ++ addr_bytes dest.

(** Its checksum makes the sum of the header come out right. *)
Definition ip_header (total id src dest ttl tos proto : Z) : list Z :=
  ip_fields total id src dest ttl tos proto
    (65535 - lwip_htons (rfc1071 (ip_fields total id src dest ttl tos proto 0))).

Lemma ip_fields_bytes total id src dest ttl tos proto chksum : octet ttl -> octet tos -> octet proto ->
  bytes (ip_fields total id src dest ttl tos proto chksum).
Proof.
  intros. unfold ip_fields. repeat apply Forall_app_2; try apply le16_bytes; try apply addr_bytes_bytes.
  all: repeat constructor; unfold octet in *; lia.
Qed.

Lemma ip_fields_length total id src dest ttl tos proto chksum :
  length (ip_fields total id src dest ttl tos proto chksum) = 20%nat.
Proof. done. Qed.

(** The receiver's check of the header. *)
Lemma ip_header_verifies addr total id src dest ttl tos proto : octet ttl -> octet tos -> octet proto ->
  inet_chksum addr (ip_header total id src dest ttl tos proto) = 0.
Proof.
  intros Ht Hs Hp. rewrite inet_chksum_ok; [|by apply ip_fields_bytes|done].
  unfold ip_header. set (c := 65535 - lwip_htons (rfc1071 (ip_fields total id src dest ttl tos proto 0))).
  pose proof (ip_fields_bytes total id src dest ttl tos proto 0 Ht Hs Hp) as Hb.
  assert (Hc : 0 <= c <= 65535).
  { unfold c. rewrite (htons_rfc1071 _ Hb). pose proof (ones_complement_bound _ Hb). lia. }
  pose proof (fill_word ([0x45; tos] ++ le16 (lwip_htons total) ++ le16 (lwip_htons id) ++ le16 0 ++ [ttl; proto])
    (addr_bytes src ++ addr_bytes dest)) as Hf. cbv zeta in Hf.
  destruct Hf as [_ Hf].
  - repeat apply Forall_app_2; try apply le16_bytes; repeat constructor; unfold octet in *; lia.
  - apply Forall_app_2; apply addr_bytes_bytes.
  - done.
  - rewrite <- !app_assoc in Hf.
    assert (Hle : forall v, 0 <= v <= 65535 -> le16 v = [v mod 256; v / 256]).
    { intros v Hv. unfold le16, u8. rewrite Z.shiftr_div_pow2 by lia. change (2 ^ 8) with 256. do 2 f_equal.
      rewrite Z.mod_small; [done|]. Z.to_euclidean_division_equations; lia. }
    unfold ip_fields at 1. rewrite (Hle c Hc). unfold c, ip_fields.
    exact Hf.
Qed.

(** ** The inline checksum is the sum of the header *)

(** The two words of an address in the header. *)
Lemma addr_words a : exists b0 b1 b2 b3, addr_bytes a = [b0; b1; b2; b3] /\ bytes [b0; b1; b2; b3] /\
  Z.land (of_le32 (addr_bytes a)) 0xffff = b0 + 256 * b1 /\ Z.shiftr (of_le32 (addr_bytes a)) 16 = b2 + 256 * b3.
Proof.
  pose proof (addr_bytes_bytes a) as Hb. unfold addr_bytes in *. eexists _, _, _, _. split; [reflexivity|]. split; [exact Hb|].
  apply Forall_cons in Hb as [H0 [H1 [H2 [H3 _]%Forall_cons]%Forall_cons]%Forall_cons].
  revert H0 H1 H2 H3. unfold of_le32. cbn [nth].
  generalize (u8 a), (u8 (Z.shiftr a 8)), (u8 (Z.shiftr a 16)), (u8 (Z.shiftr a 24)).
  intros b0 b1 b2 b3 H0 H1 H2 H3. unfold word_of. rewrite land_ffff, Z.shiftr_div_pow2 by lia.
  split; Z.to_euclidean_division_equations; lia.
Qed.

Lemma word_pair v : 0 <= v <= 65535 -> exists b0 b1, le16 v = [b0; b1] /\ v = b0 + 256 * b1.
Proof.
  intros Hv. eexists _, _. split; [reflexivity|]. unfold u8. rewrite Z.shiftr_div_pow2 by lia.
  Z.to_euclidean_division_equations; lia.
Qed.

Lemma le_val_word b0 b1 bs y : bytes (b0 :: b1 :: bs) -> (bytes bs -> eqv (le_val bs) y) ->
  eqv (le_val (b0 :: b1 :: bs)) (b0 + 256 * b1 + y).
Proof.
  intros Hb Hy. rewrite (le_val_pair _ _ _ Hb). apply Forall_cons in Hb as [H0 [H1 Hb]%Forall_cons].
  apply eqv_add; [apply eqv_refl; lia|by apply Hy].
Qed.

Lemma swapped_pair b0 b1 : 0 <= b0 < 256 -> 0 <= b1 < 256 -> PP_HTONS (Z.lor b1 (Z.shiftl b0 8)) = b0 + 256 * b1.
Proof.
  intros H0 H1. rewrite Z.lor_comm, lor_shiftl_add, PP_HTONS_arith by lia. Z.to_euclidean_division_equations; lia.
Qed.

Lemma fold_inline c x : 0 <= c < 2 ^ 31 -> eqv c x ->
  let c1 := u32 (Z.shiftr c 16 + Z.land c 0xffff) in
  u16 (Z.lnot (u32 (Z.shiftr c1 16 + c1))) = 65535 - ones_complement x.
Proof.
  intros Hc He c1. pose proof (FOLD_eqv c x ltac:(lia) He) as He1. pose proof (FOLD_range c ltac:(lia)) as Hr1.
  change (u32 (FOLD_U32T c)) with c1 in *.
  pose proof (FOLD_eqv c1 x ltac:(lia) He1) as He2. pose proof (FOLD_range2 c1 ltac:(lia)) as Hr2.
  rewrite <- (eqv_ones_complement _ _ He2) by lia. rewrite FOLD_U32T_arith, Z.shiftr_div_pow2 in * by lia.
  change (2 ^ 16) with 65536. rewrite !u32_small in * by (Z.to_euclidean_division_equations; lia).
  unfold u16, Z.lnot. Z.to_euclidean_division_equations; lia.
Qed.

Lemma inline_chksum_ok total id src dest ttl tos proto : octet ttl -> octet tos -> octet proto ->
  inline_chksum total id src dest ttl tos proto =
    65535 - lwip_htons (rfc1071 (ip_fields total id src dest ttl tos proto 0)).
Proof.
  intros Ht Hs Hp. pose proof (ip_fields_bytes total id src dest ttl tos proto 0 Ht Hs Hp) as Hb.
  rewrite (htons_rfc1071 _ Hb). unfold octet in *. unfold inline_chksum.
  destruct (addr_words src) as (s0 & s1 & s2 & s3 & Es & Hsb & -> & ->).
  destruct (addr_words dest) as (d0 & d1 & d2 & d3 & Ed & Hdb & -> & ->).
  destruct (word_pair (lwip_htons total)) as (t0 & t1 & Et & ->). { pose proof (u16_range (PP_HTONS total)). unfold lwip_htons. lia. }
  destruct (word_pair (lwip_htons id)) as (i0 & i1 & Ei & ->). { pose proof (u16_range (PP_HTONS id)). unfold lwip_htons. lia. }
  rewrite (swapped_pair ttl proto) by lia.
  change (PP_HTONS (Z.lor tos (Z.shiftl (u8 (Z.lor (Z.shiftl 4 4) (IP_HLEN / 4))) 8))) with (PP_HTONS (Z.lor tos (Z.shiftl 0x45 8))).
  rewrite (swapped_pair 0x45 tos) by lia.
  unfold ip_fields in *. rewrite Es, Ed, Et, Ei in *. change (le16 0) with [0; 0] in *. cbn [app] in *.
  match goal with |- context [Z.land ?c 0xffff] => set (acc := c) end.
  assert (Hacc : acc = (t0 + 256 * t1) + (i0 + 256 * i1) + (ttl + 256 * proto) + (0x45 + 256 * tos)
    + (s0 + 256 * s1) + (s2 + 256 * s3) + (d0 + 256 * d1) + (d2 + 256 * d3)).
  { unfold acc. clear acc. unfold bytes in *. rewrite !Forall_cons in *.
    repeat match goal with |- context [u32 ?x] =>
      lazymatch x with context [u32 _] => fail | _ => rewrite (u32_small x) by lia end end. lia. }
  apply fold_inline.
  - rewrite Hacc. unfold bytes in *. rewrite !Forall_cons in *. lia.
  - symmetry. rewrite Hacc. clear Hacc acc.
    match goal with |- eqv _ ?y => assert (Hy : y = (0x45 + 256 * tos) + ((t0 + 256 * t1) + ((i0 + 256 * i1) + ((0 + 256 * 0) +
      ((ttl + 256 * proto) + ((0 + 256 * 0) + ((s0 + 256 * s1) + ((s2 + 256 * s3) + ((d0 + 256 * d1) + ((d2 + 256 * d3) + 0)))))))))) by lia; rewrite Hy; clear Hy end.
    revert Hb. repeat (intros Hb'; apply le_val_word; [exact Hb'|clear Hb']). intros _. by apply eqv_refl.
Qed.

(** ** Writing the header *)

(** The fields, in the order in which they are written, over what the buffer held. *)
Lemma header_fields bs total id src dest ttl tos proto c : (20 <= length bs)%nat ->
  write_list (write_list (write_list (write_list (write_list (write_list (write_list (write_list (write_list
    (write_list bs 8 [ttl]) 9 [proto]) 16 (addr_bytes dest)) 0 [u8 (Z.lor (Z.shiftl 4 4) (IP_HLEN / 4))]) 1 [tos])
    2 (le16 (lwip_htons total))) 6 (le16 0)) 4 (le16 (lwip_htons id))) 12 (addr_bytes src)) 10 (le16 c)
  = ip_fields total id src dest ttl tos proto c ++ drop 20 bs.
Proof. intros Hl. do 20 (destruct bs as [|? bs]; [cbn in Hl; lia|]). done. Qed.

Section Header.
Context {A D : Type} `{Allocator A} `{Controller D} `{!Peers A D}.
Context (custom : ptr -> heap A -> heap A) (block_addr : ptr -> Z).
Implicit Types (h : heap A) (s : link A (stack D)) (l : list node).

(** [s] with other packet buffers and another stack. *)
Definition with_stack h t s : link A (stack D) := after s h (ucBuffer s) t.

Definition counted s : stack D := with_ip_id (u16 (ip_id (dev s) + 1)) (dev s).

Lemma load_head h q n l : owns h q (n :: l) -> load q h = (Ret (n_buf n), h).
Proof.
  intros Ho. apply load_at. pose proof (owns_head _ _ _ _ Ho) as <-. destruct Ho as [Hp _].
  eapply packet_lookup; [exact Hp|left].
Qed.

Lemma chksum_at_ok s h x bs q l n : owns h q (Node q x bs :: l) -> bytes (take (Z.to_nat n) bs) ->
  0 <= n <= len x -> n <= 0x20000 -> hp s = h ->
  chksum_at block_addr (payload x) n s = (Ret (65535 - lwip_htons (rfc1071 (take (Z.to_nat n) bs))), s).
Proof.
  intros [(_ & _ & Hb & _) _] Hby Hn Hmax Hh. unfold chksum_at. subst h.
  pstep (read_mem_at _ x bs 0 n Hb ltac:(lia) ltac:(lia) ltac:(lia)).
  change (Z.to_nat 0) with 0%nat. rewrite drop_0.
  rewrite inet_chksum_ok by (done || (rewrite length_take; lia)). done.
Qed.

Lemma ip4_header_ok s q x bs l src dest ttl tos proto :
  owns (hp s) q (Node q x bs :: l) -> alloc_inv (hp s) -> 20 <= len x -> octet ttl -> octet tos -> octet proto ->
  exists h', ip4_header q src dest ttl tos proto s = (Ret tt, with_stack h' (counted s) s) /\
    owns h' q (Node q x (ip_header (tot_len x) (ip_id (dev s)) (default IPADDR_ANY src) dest ttl tos proto
                         ++ drop 20 bs) :: l) /\
    hstep {[q]} (live (al (hp s))) (hp s) h'.
Proof.
  intros Ho Hi Hl Httl Htos Hproto. destruct (owns_head_payload _ _ _ _ _ Ho) as (_ & _ & _ & _ & Hlb & _).
  unfold ip4_header. pstep (load_head _ _ _ _ Ho). cbn [n_buf].
  change IP_HLEN with 20. rewrite (bind_ret _ _ s tt s) by (apply assert_true; lia).
  pose proof (conj (hstep_refl {[q]} _ Hi) Ho) as Hc.
  destruct (write_since _ _ _ _ _ _ 8 [ttl] Hc) as (h1 & Hw & Hc1); [lia|cbn; lia|]. pstep Hw.
  destruct (write_since _ _ _ _ _ _ 9 [proto] Hc1) as (h2 & Hw2 & Hc2); [lia|cbn; lia|]. pstep Hw2.
  destruct (write_since _ _ _ _ _ _ 16 (addr_bytes dest) Hc2) as (h3 & Hw3 & Hc3); [lia|cbn; lia|]. pstep Hw3.
  destruct (write_since _ _ _ _ _ _ 0 [u8 (Z.lor (Z.shiftl 4 4) (20 / 4))] Hc3) as (h4 & Hw4 & Hc4); [lia|cbn; lia|]. pstep Hw4.
  destruct (write_since _ _ _ _ _ _ 1 [tos] Hc4) as (h5 & Hw5 & Hc5); [lia|cbn; lia|]. pstep Hw5.
  destruct (write_since _ _ _ _ _ _ 2 (le16 (lwip_htons (tot_len x))) Hc5) as (h6 & Hw6 & Hc6); [lia|cbn; lia|]. pstep Hw6.
  destruct (write_since _ _ _ _ _ _ 6 (le16 0) Hc6) as (h7 & Hw7 & Hc7); [lia|cbn; lia|]. pstep Hw7.
  assert (Hid : next_ip_id (with_hp h7 s) = (Ret (ip_id (dev s)), with_stack h7 (counted s) s)) by done. cstep Hid.
  destruct (write_since _ _ _ _ _ _ 4 (le16 (lwip_htons (ip_id (dev s)))) Hc7) as (h8 & Hw8 & Hc8); [lia|cbn; lia|]. pstep Hw8.
  destruct (write_since _ _ _ _ _ _ 12 (addr_bytes (default IPADDR_ANY src)) Hc8) as (h9 & Hw9 & Hc9); [lia|cbn; lia|]. pstep Hw9.
  rewrite inline_chksum_ok by done.
  set (c := 65535 - lwip_htons (rfc1071 (ip_fields (tot_len x) (ip_id (dev s)) (default IPADDR_ANY src) dest ttl tos proto 0))).
  destruct (write_since _ _ _ _ _ _ 10 (le16 c) Hc9) as (h10 & Hw10 & Hs10 & Ho10); [lia|cbn; lia|].
  cbn [hp with_stack after] in Ho10. exists h10. split; [exact (pbufs_run _ _ _ _ Hw10)|]. split; [|done].
  unfold ip_header. rewrite <- header_fields by lia. exact Ho10.
Qed.

(** A step within one packet of the rest, and another stack. *)
Lemma with_stack_ok s h1 t p : arp_ok s -> hstep {[p]} (live (al (hp s))) (hp s) h1 -> p ∈ rest s -> stack_inv t ->
  arp_ok (with_stack h1 t s) /\ steps {[p]} (rest s) s (with_stack h1 t s).
Proof.
  intros Hok (Hs & HL & Hi) Hp Ht. split.
  - apply arp_ok_after; [done|done|by destruct Hok|done|]. intros r Hr. apply Hs. unfold rest in Hp. set_solver.
  - unfold steps, rest. cbn. rewrite HL. split_and!; [done|done|]. intros r Hr Hx. by apply Hs.
Qed.

Lemma stack_ok s : arp_ok s -> stack_inv (dev s).
Proof. by intros []. Qed.

(** The packet [q] with its IP header, and the counter moved on. *)
Definition headed s (q : ptr) x bs l (hdr : list Z) s1 : Prop :=
  arp_ok s1 /\ steps {[q]} (rest s) s s1 /\ same_table s s1 /\ dev s1 = counted s /\
  owns (hp s1) q (Node q (moved (-20) x) (hdr ++ bs) :: l).

Lemma ip4_output_headed s q x bs l o src dest ttl tos proto nif : arp_ok s ->
  owns (hp s) q (Node q x bs :: l) -> q ∈ rest s -> payload x = Some (q, o) -> tot_len x <= 65501 ->
  octet ttl -> octet tos -> octet proto ->
  if o <? 20 then ip4_output_if_src custom q src (Some dest) ttl tos proto nif s = (Ret ERR_BUF, s)
  else exists s1, headed s q x bs l (ip_header (tot_len x + 20) (ip_id (dev s)) (default IPADDR_ANY src) dest ttl tos proto) s1 /\
    ip4_output_if_src custom q src (Some dest) ttl tos proto nif s = func (ip4_send custom q dest nif) s1.
Proof.
  intros Hok Ho Hq Hpl Ht Httl Htos Hproto. pose proof (a_heap _ Hok) as Hi.
  destruct (owns_head_payload _ _ _ _ _ Ho) as (_ & _ & _ & _ & Hlb & _).
  pose proof Ho as [_ [(_ & Hrf & _) _]%Forall_cons]. cbn [n_buf] in Hrf.
  pose proof (header_push (hp s) q x bs l o 20 Ho Hi Hpl ltac:(lia) ltac:(lia)) as Hh.
  assert (Hopen : forall k : Z -> cmd (link A (stack D)) Z,
    (x0 <- pbufs (load q) ;; assert_ (ref x0 =? 1) ;;; r <- pbufs (pbuf_header q IP_HLEN) ;; k r) s =
    (r <- pbufs (pbuf_header q IP_HLEN) ;; k r) s).
  { intros k. pstep (load_head _ _ _ _ Ho). cbn [n_buf]. by rewrite (bind_ret _ _ s tt s) by (apply assert_true; lia). }
  assert (Hrun : ip4_output_if_src custom q src (Some dest) ttl tos proto nif s =
    func (r <- pbufs (pbuf_header q IP_HLEN) ;;
          dest <- (exit_if (truthy r) ERR_BUF ;;; ip4_header q src dest ttl tos proto ;;; ret dest) ;;
          ip4_send custom q dest nif) s).
  { unfold ip4_output_if_src, func. rewrite <- (Hopen (fun r => dest <- _ ;; _)).
    pstep (load_head _ _ _ _ Ho). pstep (load_head _ _ _ _ Ho). cbn [n_buf].
    rewrite !(bind_ret _ _ s tt s) by (apply assert_true; lia). by rewrite bind_bind. }
  rewrite Hrun. clear Hrun Hopen. change IP_HLEN with 20. destruct (o <? 20).
  { unfold func. by pstep Hh. }
  destruct Hh as (hb & h1 & Hr & Hlhb & Ho1 & Hs1 & _). set (x1 := moved (-20) x) in *.
  destruct (within_packet s h1 q Hok Hs1 Hq) as [Hok1 Hst1].
  destruct (ip4_header_ok (with_hp h1 s) q x1 (hb ++ bs) l src dest ttl tos proto Ho1 (a_heap _ Hok1)) as
    (h2 & Hr2 & Ho2 & Hs2); [cbn; lia|done|done|done|].
  assert (Hl1 : live (al (hp (with_hp h1 s))) = live (al h1)) by done.
  destruct (with_stack_ok (with_hp h1 s) h2 (counted s) q Hok1 Hs2) as [Hok2 Hst2].
  { by destruct Hst1 as (-> & _). } { pose proof (stack_ok _ Hok) as [? ?]. by split. }
  change (counted (with_hp h1 s)) with (counted s) in *. exists (with_stack h2 (counted s) (with_hp h1 s)). split.
  - split; [done|]. split.
    { assert (Hrest1 : rest (with_hp h1 s) = rest s) by apply Hst1. rewrite Hrest1 in Hst2.
      pose proof (steps_trans _ _ _ _ _ _ _ Hst1 Hst2 ltac:(set_solver)) as Hst. eapply steps_drop; [exact Hst|set_solver]. }
    split; [done|]. split; [done|]. cbn [hp with_stack after].
    rewrite drop_app_length' in Ho2 by done. replace (tot_len x1) with (tot_len x + 20) in Ho2 by (cbn; lia). exact Ho2.
  - unfold func. pstep Hr. change (truthy 0) with false. rewrite bind_bind. cstep (eq_refl (exit_if (S := link A (stack D)) false ERR_BUF (with_hp h1 s))).
    rewrite bind_bind. cstep Hr2. done.
Qed.
End Header.

(** An IPv4 datagram, without options. *)
Definition datagram (id src dest ttl tos proto : Z) (c : list Z) : list Z :=
  ip_header (Z.of_nat (length c) + 20) id src dest ttl tos proto ++ c.

Section IpOut.
Context {A D : Type} `{Allocator A} `{Controller D} `{!Peers A D}.
Context (custom : ptr -> heap A -> heap A) (block_addr : ptr -> Z).
Implicit Types (h : heap A) (s : link A (stack D)) (l : list node).

(** [s] with one datagram more counted: what is sent is sent from such a state. *)
Definition numbered s s1 : Prop := same_table s s1 /\ netifs s1 = netifs s /\ dev s1 = counted s.

(** The interface takes a packet of [n] bytes in one piece. *)
Definition one_piece (n : netif) (k : Z) : Prop := mtu n = 0 \/ k <= mtu n.

Lemma ip4_send_runs s nif dest q x bs l : arp_ok s -> owns (hp s) q (Node q x bs :: l) -> filled l ->
  ptrs (Node q x bs :: l) ⊆ rest s -> tot_len x <= 65521 -> one_piece (netifs s nif) (tot_len x) ->
  runs {[q]} (ip4_send custom q dest nif) s (rest s) (fun r s' =>
    (exists x' bs', owns (hp s') q (Node q x' bs' :: l)) /\
    sent s s' nif dest x (content (Node q x bs :: l)) r).
Proof.
  intros Hok Ho Hf Hr Ht Hm. unfold ip4_send.
  eapply runs_pure; [by rewrite (pbufs_run _ s _ _ (load_head _ _ _ _ Ho)), with_hp_hp|].
  eapply runs_pure; [reflexivity|]. cbn [n_buf].
  assert (truthy (mtu (netifs s nif)) && (mtu (netifs s nif) <? tot_len x) = false) as ->.
  { destruct Hm as [->|Hm]; [done|]. rewrite (proj2 (Z.ltb_ge _ _)) by done. apply andb_false_r. }
  by apply output_runs.
Qed.

(** What becomes of a datagram with the payload [c], from a packet with the head [x]. *)
Definition goes_out s s' (nif src dest ttl tos proto : Z) x (c : list Z) (r : Z) : Prop := exists s1,
  numbered s s1 /\
  sent s1 s' nif dest (moved (-20) x) (datagram (ip_id (dev s)) src dest ttl tos proto c) r.

Lemma ip4_output_runs s q x bs l o src dest ttl tos proto nif : arp_ok s ->
  owns (hp s) q (Node q x bs :: l) -> filled l -> ptrs (Node q x bs :: l) ⊆ rest s ->
  payload x = Some (q, o) -> tot_len x <= 65501 -> one_piece (netifs s nif) (tot_len x + 20) ->
  octet ttl -> octet tos -> octet proto ->
  runs {[q]} (ip4_output_if_src custom q src (Some dest) ttl tos proto nif) s (rest s) (fun r s' =>
    (exists x' bs', owns (hp s') q (Node q x' bs' :: l)) /\
    if o <? 20 then r = ERR_BUF /\ s' = s
    else goes_out s s' nif (default IPADDR_ANY src) dest ttl tos proto x (content (Node q x bs :: l)) r).
Proof.
  intros Hok Ho Hf Hsub Hpl Ht Hm Httl Htos Hproto.
  assert (Hq : q ∈ rest s) by (apply Hsub, (ptrs_elem (Node q x bs)); left).
  pose proof (ip4_output_headed custom block_addr s q x bs l o src dest ttl tos proto nif Hok Ho Hq Hpl Ht Httl Htos Hproto) as Hout.
  destruct (o <? 20). { exists ERR_BUF, s. split_and!; [done|done|apply keeps_refl|eauto|done|done]. }
  destruct Hout as (s1 & (Hok1 & Hs1 & Ht1 & Hd1 & Ho1) & Hrun).
  pose proof (owns_head_payload _ _ _ _ _ Ho) as (_ & _ & _ & _ & _ & Htot).
  assert (Hr1 : rest s1 = rest s) by apply Hs1. assert (Hn1 : netifs s1 = netifs s) by apply Hs1.
  assert (Hm1 : one_piece (netifs s1 nif) (tot_len (moved (-20) x))).
  { rewrite Hn1. cbn. by replace (tot_len x - -20) with (tot_len x + 20) by lia. }
  pose proof (ip4_send_runs s1 nif dest q (moved (-20) x) _ l Hok1 Ho1 Hf ltac:(by rewrite Hr1) ltac:(cbn; lia) Hm1) as Hsend.
  apply runs_func in Hsend as (r & s' & Hr & Hok' & Hs' & Ho' & Hsent).
  exists r, s'. split; [by rewrite Hrun|]. split; [done|]. rewrite Hr1 in Hs'. split.
  { eapply steps_drop; [exact (steps_trans _ _ _ _ _ _ _ Hs1 Hs' ltac:(set_solver))|set_solver]. }
  split; [done|]. exists s1. split; [done|]. rewrite Htot in Hsent.
  rewrite content_cons in *. unfold datagram. cbn [n_bytes] in *. by rewrite app_assoc.
Qed.
End IpOut.
