(* ===== verification/UdpOut.v ===== *)
(** * Datagrams on their way out: [udp_sendto_if_src] *)
From S2P Require Export IpOut UdpOps.

#[local] Set Warnings "-clear-no-such-hyp".

(** ** The UDP header (RFC 768) *)
Definition udp_fields (sport dport n chksum : Z) : list Z :=
  le16 (lwip_htons sport) ++ le16 (lwip_htons dport) ++ le16 (lwip_htons n) ++ le16 chksum.

(** What the receiver computes over the datagram [u]. *)
Definition udp_sum (src dst : Z) (u : list Z) : Z :=
  65535 - lwip_htons (rfc1071 (pseudo_header IP_PROTO_UDP (Z.of_nat (length u)) src dst ++ u)).

(** A sum of 0 is sent as 0xffff. *)
Definition udp_chksum (src dst sport dport : Z) (c : list Z) : Z :=
  let sum := udp_sum src dst (udp_fields sport dport (Z.of_nat (length c) + 8) 0 ++ c) in
  if sum =? 0 then 0xffff else sum.

Definition udp_datagram (nochksum : bool) (src dst sport dport : Z) (c : list Z) : list Z :=
  udp_fields sport dport (Z.of_nat (length c) + 8)
    (if nochksum then 0 else udp_chksum src dst sport dport c) ++ c.

Definition ip_address (a : Z) : Prop := 0 <= a < 2 ^ 32.

Lemma udp_fields_bytes sport dport n chksum : bytes (udp_fields sport dport n chksum).
Proof. repeat apply Forall_app_2; apply le16_bytes. Qed.

Lemma le_val_fill a w b : le_val (a ++ w ++ b) =
  le_val (a ++ replicate (length w) 0 ++ b) + 256 ^ Z.of_nat (length a) * le_val w.
Proof.
  induction a as [|x a IH]; [|cbn [app le_val length]; rewrite IH, Nat2Z.inj_succ, Z.pow_succ_r by lia; lia].
  change (256 ^ Z.of_nat (length [])) with 1. rewrite Z.mul_1_l. cbn [app].
  induction w as [|y w IHw]; cbn; lia.
Qed.

Lemma word_bytes v : 0 <= v <= 65535 -> le16 v = [v mod 256; v / 256].
Proof.
  intros Hv. unfold le16, u8. rewrite Z.shiftr_div_pow2 by lia. change (2 ^ 8) with 256. do 2 f_equal.
  rewrite Z.mod_small; [done|]. Z.to_euclidean_division_equations; lia.
Qed.

(** The receiver's check of a datagram with a checksum. *)
Lemma udp_datagram_verifies src dst sport dport c : ip_address src -> ip_address dst -> bytes c ->
  Z.of_nat (length c) + 8 < 65536 ->
  udp_chksum src dst sport dport c <> 0 /\ udp_sum src dst (udp_datagram false src dst sport dport c) = 0.
Proof.
  intros Hs Hd Hc Hl. unfold udp_chksum. set (n := Z.of_nat (length c) + 8) in *.
  set (a := pseudo_header IP_PROTO_UDP n src dst ++ le16 (lwip_htons sport) ++ le16 (lwip_htons dport) ++ le16 (lwip_htons n)).
  assert (Hlen : forall v, Z.of_nat (length (udp_fields sport dport n v ++ c)) = n) by (intros; rewrite length_app; cbn; lia).
  assert (Hsum : forall v, udp_sum src dst (udp_fields sport dport n v ++ c) = 65535 - lwip_htons (rfc1071 (a ++ le16 v ++ c))).
  { intros v. unfold udp_sum. rewrite Hlen. unfold a, udp_fields. by rewrite <- !app_assoc. }
  assert (Ha : bytes a).
  { apply Forall_app_2; [apply pseudo_header_bytes; done || lia|]. repeat apply Forall_app_2; apply le16_bytes. }
  assert (Hb : forall v, bytes (a ++ le16 v ++ c)).
  { intros v. apply Forall_app_2; [done|]. apply Forall_app_2; [apply le16_bytes|done]. }
  pose proof (Hb 0) as H0.
  unfold udp_datagram, udp_chksum. fold n. rewrite !(Hsum 0).
  change (le16 0) with [0; 0] in *. set (sum := 65535 - _).
  assert (Hr : 0 <= sum <= 65535).
  { unfold sum. rewrite (htons_rfc1071 _ H0). pose proof (ones_complement_bound _ H0). lia. }
  destruct (Z.eqb_spec sum 0) as [Hz|Hz]; (split; [lia|]); cbv iota; rewrite Hsum.
  - apply rfc1071_zero; [apply Hb|]. rewrite word_bytes by lia.
    apply (rfc1071_zero _ H0) in Hz as [Hpos [k Hk]]. change [65535 mod 256; 65535 / 256] with [255; 255].
    rewrite le_val_fill. change (replicate (length [255; 255]) 0) with [0; 0]. rewrite Hk.
    change (le_val [255; 255]) with 65535. rewrite Hk in Hpos.
    assert (0 <= 256 ^ Z.of_nat (length a)) by (apply Z.pow_nonneg; lia). split; [lia|].
    exists (k + 256 ^ Z.of_nat (length a)). lia.
  - rewrite (word_bytes sum) by done. exact (proj2 (fill_word a c Ha Hc eq_refl)).
Qed.

Section UdpOut.
Context {A D : Type} `{Allocator A} `{Controller D} `{!Peers A D}.
Context (custom : ptr -> heap A -> heap A) (block_addr : ptr -> Z).
Implicit Types (h : heap A) (s : link A (stack D)) (l : list node).

(** [s] with other blocks. *)
Definition with_blocks u s : link A (stack D) := after s (hp s) (ucBuffer s) (with_udp u (dev s)).

Lemma blocks_run {X : Type} (m : cmd udp_state X) s r u : m (udp (dev s)) = (r, u) ->
  blocks m s = (r, with_blocks u s).
Proof. intros Hm. unfold blocks. by rewrite Hm. Qed.

Lemma with_blocks_id s : with_blocks (udp (dev s)) s = s.
Proof. by destruct s as [? ? ? ? ? []]. Qed.

Lemma udp_fields_written hb bs sport dport n : length hb = 8%nat ->
  write_list (write_list (write_list (write_list (hb ++ bs) 0 (le16 (lwip_htons sport))) 2 (le16 (lwip_htons dport)))
    6 (le16 0)) 4 (le16 (lwip_htons n)) = udp_fields sport dport n 0 ++ bs.
Proof. intros Hl. do 9 (destruct hb as [|? hb]; [try done|]); done. Qed.

(** The fields of the header at the front of [q]. *)
Lemma udp_fill_ok s q x hb bs l y src dst dport : owns (hp s) q (Node q x (hb ++ bs) :: l) -> alloc_inv (hp s) ->
  length hb = 8%nat -> tot_len x < 65536 -> bytes (bs ++ content l) -> ip_address src -> ip_address dst ->
  exists h' hdr, udp_fill_header block_addr q y src dst dport s = (Ret tt, with_hp h' s) /\
    hstep {[q]} (live (al (hp s))) (hp s) h' /\ owns h' q (Node q x (hdr ++ bs) :: l) /\ length hdr = 8%nat /\
    hdr ++ bs ++ content l = udp_datagram (negb (Z.land (u_flags y) UDP_FLAGS_NOCHKSUM =? 0)) src dst (local_port y) dport
      (bs ++ content l).
Proof.
  intros Ho Hi Hhb Ht Hby Hsrc Hdst. destruct (owns_head_payload _ _ _ _ _ Ho) as (_ & _ & _ & _ & Hlb & Htot).
  rewrite length_app in Hlb. rewrite !length_app in Htot. unfold udp_fill_header. pstep (load_head _ _ _ _ Ho). cbn [n_buf].
  change UDP_HLEN with 8. rewrite (bind_ret _ _ s tt s) by (apply assert_true; lia).
  pose proof (conj (hstep_refl {[q]} _ Hi) Ho) as Hc.
  destruct (write_since _ _ _ _ _ _ 0 (le16 (lwip_htons (local_port y))) Hc) as (h1 & Hw & Hc1); [lia|cbn; lia|]. pstep Hw.
  destruct (write_since _ _ _ _ _ _ 2 (le16 (lwip_htons dport)) Hc1) as (h2 & Hw2 & Hc2); [lia|cbn; lia|]. pstep Hw2.
  destruct (write_since _ _ _ _ _ _ 6 (le16 0) Hc2) as (h3 & Hw3 & Hc3); [lia|cbn; lia|]. pstep Hw3.
  destruct (write_since _ _ _ _ _ _ 4 (le16 (lwip_htons (tot_len x))) Hc3) as (h4 & Hw4 & Hs4 & Ho4); [lia|cbn; lia|]. pstep Hw4.
  change (with_hp h4 _) with (with_hp h4 s). set (s4 := with_hp h4 s).
  change (Z.to_nat 0) with 0%nat in Ho4. change (Z.to_nat 2) with 2%nat in Ho4. change (Z.to_nat 6) with 6%nat in Ho4.
  change (Z.to_nat 4) with 4%nat in Ho4. rewrite (udp_fields_written hb) in Ho4 by done.
  assert (Hn : Z.of_nat (length (bs ++ content l)) + 8 = tot_len x) by (rewrite length_app; lia).
  unfold udp_datagram, udp_chksum. rewrite !Hn. destruct (Z.eqb_spec (Z.land (u_flags y) UDP_FLAGS_NOCHKSUM) 0) as [Hck|Hck]; cbn [negb].
  2:{ exists h4, (udp_fields (local_port y) dport (tot_len x) 0). split; [done|]. by split_and!. }
  pose proof Ho4 as [Hp4 _].
  assert (Hcont : content (Node q x (udp_fields (local_port y) dport (tot_len x) 0 ++ bs) :: l) =
    udp_fields (local_port y) dport (tot_len x) 0 ++ bs ++ content l) by (rewrite content_cons; cbn [n_bytes]; by rewrite <- app_assoc).
  pose proof (chksum_pseudo_ok block_addr _ _ h4 IP_PROTO_UDP (tot_len x) src dst Hp4) as Hsum. rewrite Hcont in Hsum.
  assert (Hl8 : Z.of_nat (length (udp_fields (local_port y) dport (tot_len x) 0 ++ bs ++ content l)) = tot_len x)
    by (rewrite length_app; cbn; lia).
  specialize (Hsum ltac:(apply Forall_app_2; [apply udp_fields_bytes|done]) ltac:(lia) Hsrc Hdst ltac:(done) ltac:(lia)).
  unfold ip_chksum_pseudo. pstep Hsum. unfold udp_sum. rewrite Hl8. set (sum := 65535 - _).
  destruct (write_since _ _ _ _ _ _ 6 (le16 (if sum =? 0 then 0xffff else sum)) (conj Hs4 Ho4)) as (h5 & Hw5 & Hs5 & Ho5); [lia|cbn; lia|].
  cbv beta. change (with_hp h4 s4) with s4. rewrite (pbufs_run _ s4 _ _ Hw5). exists h5, (udp_fields (local_port y) dport (tot_len x) (if sum =? 0 then 0xffff else sum)).
  by split_and!.
Qed.

(** The block has a port, one of its own if need be. *)
Lemma sendto_bound s ul pcb y : arp_ok s -> udp_ok (udp (dev s)) ul -> pcbs (udp (dev s)) !! pcb = Some y ->
  exists port u1 y1,
  (if local_port y =? 0 then
     err <- blocks (udp_bind (Some pcb) (Some (local_ip y)) (local_port y)) ;;
     exit_if (negb (err =? ERR_OK)) err
   else ret tt) s = (Ret tt, with_blocks u1 s) /\
  connect_port (pcbs (udp (dev s))) ul y port /\ udp_ok u1 (listed pcb ul) /\
  pcbs u1 !! pcb = Some y1 /\ unlinked y1 = unlinked (with_local_port port y) /\
  fields (pcbs u1) = <[pcb := unlinked y1]> (fields (pcbs (udp (dev s)))) /\ arp_ok (with_blocks u1 s).
Proof.
  intros Hok Hu Hy. destruct (connect_bind _ ul pcb y Hu Hy) as (port & u1 & y1 & Hb & Hport & Hu1 & _ & Hy1 & Hyy & Hf).
  exists port, u1, y1. assert (Hok1 : arp_ok (with_blocks u1 s)).
  { destruct Hok as [T P C N B I [V _]]. split; try done. by split; [|eauto]. }
  split; [|by split_and!]. destruct (local_port y =? 0); [|by injection Hb as <-; rewrite with_blocks_id].
  unfold bind in Hb |- *. unfold blocks. destruct (udp_bind _ _ _ _) as [[r| | |] u'].
  all: cbn [exit_if] in Hb |- *; try done. destruct (negb (r =? ERR_OK)); cbn in Hb |- *; [done|]. by injection Hb as ->.
Qed.

(** The packet [q] with the UDP header [hdr] in front. *)
Definition udp_headed s q x bs l (hdr : list Z) s1 : Prop :=
  arp_ok s1 /\ steps {[q]} (rest s) s s1 /\ same_table s s1 /\ dev s1 = dev s /\
  owns (hp s1) q (Node q (moved (-8) x) (hdr ++ bs) :: l).

Lemma udp_header_ok s q x bs l o u1 pcb y src dst dport (k : ptr -> udp_pcb -> cmd (link A (stack D)) Z) :
  arp_ok s -> owns (hp s) q (Node q x bs :: l) ->
  q ∈ rest s -> payload x = Some (q, o) -> 8 <= o -> tot_len x <= 65493 -> bytes (content (Node q x bs :: l)) ->
  ip_address src -> ip_address dst -> udp (dev s) = u1 -> pcbs u1 !! pcb = Some y ->
  let c := content (Node q x bs :: l) in
  exists s1 hdr, (r <- udp_add_header custom q ;;
           r <- (match r with None => exit ERR_MEM | Some r => ret r end) ;;
           y <- blocks (pcb_at pcb) ;;
           udp_fill_header block_addr r y src dst dport ;;; k r y) s = k q y s1 /\
    udp_headed s q x bs l hdr s1 /\
    hdr ++ c = udp_datagram (negb (Z.land (u_flags y) UDP_FLAGS_NOCHKSUM =? 0)) src dst (local_port y) dport c.
Proof.
  intros Hok Ho Hq Hpl Hroom Ht Hby Hsrc Hdst Hu1 Hy c.
  pose proof (header_push (hp s) q x bs l o 8 Ho (a_heap _ Hok) Hpl ltac:(lia) ltac:(lia)) as Hh.
  rewrite (proj2 (Z.ltb_ge _ _)) in Hh by lia. destruct Hh as (hb & h1 & Hr & Hlhb & Ho1 & Hs1 & _).
  destruct (within_packet s h1 q Hok Hs1 Hq) as [Hok1 Hst1]. set (s1 := with_hp h1 s) in *.
  destruct (udp_fill_ok s1 q (moved (-8) x) hb bs l y src dst dport Ho1 (a_heap _ Hok1) Hlhb) as
    (h2 & hdr & Hfill & Hs2 & Ho2 & Hlh & Hdg); [cbn; lia|by rewrite content_cons in Hby|done|done|].
  destruct (within_packet s1 h2 q Hok1 Hs2) as [Hok2 Hst2]; [by destruct Hst1 as (-> & _)|].
  assert (Hrest : rest s1 = rest s) by apply Hst1. rewrite Hrest in Hst2.
  exists (with_hp h2 s1), hdr. split; [|split; [|exact Hdg]].
  - unfold udp_add_header. rewrite bind_bind. change UDP_HLEN with 8. pstep Hr. change (truthy 0) with false. cbv iota.
    cstep (eq_refl (ret (Some q) s1)). cstep (eq_refl (ret q s1)).
    assert (Hp : blocks (pcb_at pcb) s1 = (Ret y, s1)).
    { rewrite <- (with_blocks_id s1) at 2. apply blocks_run. change (udp (dev s1)) with (udp (dev s)). rewrite Hu1.
      unfold pcb_at. by rewrite Hy. }
    cstep Hp. by cstep Hfill.
  - split; [done|]. split; [|by split_and!].
    eapply steps_drop; [exact (steps_trans _ _ _ _ _ _ _ Hst1 Hst2 ltac:(set_solver))|set_solver].
Qed.
(** From [s0], where the block is bound to [port]: the datagram goes out, or there is no
    room for the IP header and the UDP header stays in the packet. *)
Definition udp_sent s s0 s' (nif src dst : Z) y (port dport : Z) q x bs l (o r : Z) : Prop :=
  let c := content (Node q x bs :: l) in
  let u := udp_datagram (negb (Z.land (u_flags y) UDP_FLAGS_NOCHKSUM =? 0)) src dst port dport c in
  if o <? 28 then r = ERR_BUF /\ same_table s s' /\ dev s' = dev s0 /\
    exists bs', owns (hp s') q (Node q (moved (-8) x) bs' :: l) /\ bs' ++ content l = u
  else (exists x' bs', owns (hp s') q (Node q x' bs' :: l)) /\
    goes_out s0 s' nif src dst (ttl y) (tos y) IP_PROTO_UDP (moved (-8) x) u r.

(** The block has been bound if it was not. *)
Definition bound s ul pcb y (port : Z) s0 : Prop := exists u1 y1,
  s0 = with_blocks u1 s /\ connect_port (pcbs (udp (dev s))) ul y port /\ udp_ok u1 (listed pcb ul) /\
  pcbs u1 !! pcb = Some y1 /\ unlinked y1 = unlinked (with_local_port port y) /\
  fields (pcbs u1) = <[pcb := unlinked y1]> (fields (pcbs (udp (dev s)))).

Lemma udp_sendto_runs s ul pcb y q x bs l o src dst dport nif : arp_ok s ->
  udp_ok (udp (dev s)) ul -> pcbs (udp (dev s)) !! pcb = Some y -> octet (ttl y) -> octet (tos y) ->
  owns (hp s) q (Node q x bs :: l) -> filled l -> ptrs (Node q x bs :: l) ⊆ rest s ->
  payload x = Some (q, o) -> 8 <= o -> tot_len x <= 65493 -> one_piece (netifs s nif) (tot_len x + 28) ->
  bytes (content (Node q x bs :: l)) -> ip_address src -> ip_address dst ->
  exists port s0, bound s ul pcb y port s0 /\
  runs {[q]} (udp_sendto_if_src custom block_addr (Some pcb) q (Some dst) dport nif src) s (rest s) (fun r s' =>
    udp_sent s s0 s' nif src dst y port dport q x bs l o r).
Proof.
  intros Hok Hu Hy Httl Htos Ho Hf Hsub Hpl Hroom Ht Hm Hby Hsrc Hdst.
  destruct (sendto_bound s ul pcb y Hok Hu Hy) as (port & u1 & y1 & Hb & Hport & Hu1 & Hy1 & Hyy & Hfl & Hok0).
  exists port, (with_blocks u1 s). split; [exists u1, y1; by split_and!|]. set (s0 := with_blocks u1 s) in *.
  assert (Hq : q ∈ rest s) by (apply Hsub, (ptrs_elem (Node q x bs)); left).
  assert (Hpcb : blocks (pcb_at pcb) s = (Ret y, s)).
  { rewrite <- (with_blocks_id s) at 2. apply blocks_run. unfold pcb_at. by rewrite Hy. }
  set (last := fun (r : ptr) (y : udp_pcb) =>
    err <- ip4_output_if_src custom r (Some src) (Some dst) (ttl y) (tos y) IP_PROTO_UDP nif ;;
    (if negb (bool_decide (r = q)) then pbufs (pbuf_free custom (Some r)) ;;; ret tt else ret tt) ;;; ret err).
  destruct (udp_header_ok s0 q x bs l o u1 pcb y1 src dst dport last Hok0 Ho Hq Hpl Hroom Ht Hby Hsrc Hdst eq_refl Hy1)
    as (s1 & hdr & Hrun & (Hok1 & Hs1 & Ht1 & Hd1 & Ho1) & Hdg).
  assert (Hyf : ttl y1 = ttl y /\ tos y1 = tos y /\ u_flags y1 = u_flags y /\ local_port y1 = port).
  { clear -Hyy. destruct y1, y. injection Hyy. by intros. }
  destruct Hyf as (Ett & Eto & Efl & Epo). rewrite Efl, Epo in Hdg.
  assert (Hr1 : rest s1 = rest s) by apply Hs1. assert (Hn1 : netifs s1 = netifs s) by apply Hs1.
  pose proof (owns_head_payload _ _ _ _ _ Ho) as (_ & _ & _ & _ & Hlb & Htot).
  destruct (ip4_output_runs custom block_addr s1 q (moved (-8) x) (hdr ++ bs) l (o - 8) (Some src) dst (ttl y) (tos y) IP_PROTO_UDP nif)
    as (r & s2 & Hr & Hok2 & Hs2 & Ho2 & Hout); try done.
  { by rewrite Hr1. } { cbn. by rewrite Hpl. } { cbn. lia. }
  { rewrite Hn1. cbn. by replace (tot_len x - -8 + 20) with (tot_len x + 28) by lia. }
  exists r, s2. split; [|split; [done|]].
  - unfold udp_sendto_if_src, func. cstep Hpcb. cstep Hb.
    match type of Hrun with ?m s0 = _ => match goal with |- context [?m' s0] => assert (Hm' : m' s0 = m s0) by done end end.
    rewrite Hm', Hrun. unfold last. rewrite Ett, Eto. cstep Hr. by rewrite bool_decide_true.
  - rewrite Hr1 in Hs2. split.
    { eapply steps_drop; [exact (steps_trans _ _ _ _ _ _ _ Hs1 Hs2 ltac:(set_solver))|set_solver]. }
    unfold udp_sent. replace (o - 8 <? 20) with (o <? 28) in Hout by (destruct (Z.ltb_spec o 28), (Z.ltb_spec (o - 8) 20); done || lia).
    assert (Hc : content (Node q (moved (-8) x) (hdr ++ bs) :: l) = hdr ++ content (Node q x bs :: l)).
    { rewrite !content_cons. cbn [n_bytes]. by rewrite app_assoc. }
    rewrite Hc, Hdg in Hout. destruct (o <? 28).
    + destruct Hout as [-> ->]. split; [done|]. split; [done|]. split; [done|]. exists (hdr ++ bs). split; [done|].
      rewrite <- Hdg, content_cons. cbn [n_bytes]. by rewrite app_assoc.
    + split; [done|]. destruct Hout as (s3 & (Ht3 & Hn3 & Hd3) & Hsent). rewrite Hd1 in Hsent. exists s3. split; [|done].
      destruct Ht1 as [Ta Tb], Ht3 as [Ua Ub]. unfold numbered, same_table, counted in *. rewrite Hd3, Hd1.
      change (netifs s0) with (netifs s). split_and!; congruence.
Qed.
End UdpOut.
