(* ===== verification/IpHold.v ===== *)
(** * Holding a packet: reads, writes and headers of the packet one is about to give away *)
From S2P Require Export EtharpOutput EtharpInput EtharpReceive PbufRead.

#[local] Set Warnings "-clear-no-such-hyp".

(** The 16-bit field of [u] at [off], in host order. *)
Definition be16 (off : nat) (u : list Z) : Z := lwip_htons (of_le16 (field off 2 u)).

Lemma field_app off k a b : (off + k <= length a)%nat -> field off k (a ++ b) = field off k a.
Proof.
  intros Hl. unfold field. rewrite drop_app_le by lia. rewrite take_app_le; [done|]. rewrite length_drop. lia.
Qed.

Section Reads.
Context {A E : Type} `{Allocator A} `{Controller E}.
Implicit Types (h : heap A) (s : link A E) (l : list node).

(** Reads of the first pbuf of a packet, and of what it was when its payload started
    elsewhere in the same block. *)
Lemma read_at s x bs off k : holds (bl (hp s)) x bs -> Z.of_nat (off + k) <= len x ->
  pbufs (read_mem (payload x) (Z.of_nat off) (Z.of_nat k)) s = (Ret (field off k bs), s).
Proof.
  intros Hh Hl. rewrite (pbufs_run _ s _ _ (read_mem_at _ x bs (Z.of_nat off) (Z.of_nat k) Hh ltac:(lia) ltac:(lia) ltac:(lia))), with_hp_hp.
  by rewrite !Nat2Z.id.
Qed.

Lemma read16_at s x bs (off : nat) : holds (bl (hp s)) x bs -> Z.of_nat (off + 2) <= len x ->
  read16 (payload x) (Z.of_nat off) s = (Ret (of_le16 (field off 2 bs)), s).
Proof. intros Hh Hl. unfold read16. by cstep (read_at s x bs off 2 Hh Hl). Qed.

Lemma read8_at s x bs (off : nat) : holds (bl (hp s)) x bs -> Z.of_nat (off + 1) <= len x ->
  read8 (payload x) (Z.of_nat off) s = (Ret (nth 0 (field off 1 bs) 0), s).
Proof. intros Hh Hl. unfold read8. by cstep (read_at s x bs off 1 Hh Hl). Qed.

Lemma owns_holds h q x bs l : owns h q (Node q x bs :: l) -> holds (bl h) x bs.
Proof. by intros [(_ & _ & Hh & _) _]. Qed.

(** The holder of the packet [Node p x bs :: l] is about to give it away. *)
Definition holder s (p : ptr) x bs l : Prop :=
  arp_ok s /\ owns (hp s) p (Node p x bs :: l) /\ ptrs (Node p x bs :: l) ⊆ rest s.

(** [s'] differs from [s] within the pbuf [p] only. *)
Definition within s (p : ptr) s' : Prop :=
  arp_ok s' /\ steps {[p]} (rest s) s s' /\ same_table s s' /\ hstep {[p]} (live (al (hp s))) (hp s) (hp s').

Lemma pull_runs s p x bs l k : holder s p x bs l -> 0 < k <= 32767 -> k <= len x -> tot_len x <= 65535 -> exists s',
  pbufs (pbuf_header p (- k)) s = (Ret 0, s') /\ holder s' p (moved k x) (drop (Z.to_nat k) bs) l /\
  within s p s' /\ dev s' = dev s /\ bl (hp s') = bl (hp s).
Proof.
  intros (Hok & Ho & Hsub) Hk Hl Ht.
  destruct (header_pull (hp s) p x bs l k Ho (a_heap _ Hok) Hk Hl Ht) as (h1 & Hr & Ho1 & Hs1 & Hb1).
  assert (Hp : p ∈ rest s) by (apply Hsub, (ptrs_elem (Node p x bs)); left).
  destruct (within_packet s h1 p Hok Hs1 Hp) as [Hok1 Hst1]. exists (with_hp h1 s).
  split; [by apply pbufs_run|]. split; [|by split_and!]. split; [done|]. split; [done|].
  assert (Hr1 : rest (with_hp h1 s) = rest s) by apply Hst1. by rewrite Hr1.
Qed.
End Reads.

Section Only.
Context {A E : Type} `{Allocator A} `{Controller E}.
Implicit Types (s : link A E) (l : list node) (X : gset ptr).

(** From [s] to [s'], only the memory [X] was used or released, and not the ARP table. *)
Definition only X s s' : Prop :=
  same_table s s' /\ netifs s' = netifs s /\ rest s ∖ X ⊆ rest s' /\ rest s' ⊆ rest s /\
  forall q, q ∈ rest s -> q ∉ X -> pb (hp s') !! q = pb (hp s) !! q /\ bl (hp s') !! q = bl (hp s) !! q.

Lemma only_refl X s : only X s s.
Proof. unfold only. split_and!; [done..|set_solver|done|done]. Qed.

Lemma only_trans X s s1 s2 : only X s s1 -> only X s1 s2 -> only X s s2.
Proof.
  intros ([T1 C1] & N1 & R1 & Q1 & K1) ([T2 C2] & N2 & R2 & Q2 & K2). unfold only, same_table.
  split_and!; [congruence..|set_solver|set_solver|]. intros q Hq Hx. destruct (K1 q Hq Hx) as [<- <-]. apply K2; set_solver.
Qed.

Lemma steps_only X R s s' : steps X R s s' -> same_table s s' -> rest s ∖ X ⊆ R -> R ⊆ rest s -> only X s s'.
Proof. intros (<- & N & K) T H1 H2. done. Qed.

Lemma only_weaken X Y s s' : only X s s' -> X ⊆ Y -> only Y s s'.
Proof. intros (T & N & R & Q & K) HX. split; [done|]. split; [done|]. split; [set_solver|]. split; [done|]. intros q Hq Hx. apply K; [done|set_solver]. Qed.

Lemma within_only s p s' : within s p s' -> only {[p]} s s'.
Proof. intros (_ & Hs & Ht & _). apply (steps_only _ _ _ _ Hs Ht); set_solver. Qed.
End Only.


(** ** Writes and headers *)
Section Hold.
Context {A E : Type} `{Allocator A} `{Controller E}.
Implicit Types (h : heap A) (s : link A E) (l : list node) (X : gset ptr).

Lemma holder_in s p x bs l : holder s p x bs l -> p ∈ rest s.
Proof. intros (_ & _ & Hsub). apply Hsub, (ptrs_elem (Node p x bs)). left. Qed.

Lemma within_trans s p s1 s2 : within s p s1 -> within s1 p s2 -> within s p s2.
Proof.
  intros (_ & S1 & [T1 C1] & H1) (O2 & S2 & [T2 C2] & H2). assert (R1 : rest s1 = rest s) by apply S1. rewrite R1 in S2.
  destruct H1 as (K1 & L1 & I1). rewrite L1 in H2. split; [done|]. split.
  { eapply steps_drop; [exact (steps_trans _ _ _ _ _ _ _ S1 S2 ltac:(set_solver))|set_solver]. }
  split; [split; congruence|]. apply (hstep_weaken ({[p]} ∪ {[p]})); [|set_solver].
  eapply hstep_trans; [|exact H2]. by split.
Qed.

Lemma within_rest s p s' : within s p s' -> rest s' = rest s.
Proof. by intros (_ & [-> _] & _). Qed.

Lemma within_netifs s p s' : within s p s' -> netifs s' = netifs s.
Proof. by intros (_ & (_ & -> & _) & _). Qed.

(** A packet one holds does not see what happens within another. *)
Lemma holder_other s q s1 p x bs l : holder s p x bs l -> within s q s1 -> q ∉ ptrs (Node p x bs :: l) -> holder s1 p x bs l.
Proof.
  intros (_ & Ho & Hsub) Hw Hq. pose proof (within_rest _ _ _ Hw) as Hr. destruct Hw as (Hok & Hs & _ & Hh).
  split; [done|]. split; [|by rewrite Hr]. eapply owns_keep; [exact Ho|exact Hh|set_solver].
Qed.

(** A step that changes nothing in use keeps what one holds. *)
Lemma holder_keeps s s1 R p x bs l : holder s p x bs l -> arp_ok s1 -> steps ∅ R s s1 -> rest s ⊆ R -> holder s1 p x bs l.
Proof.
  intros (_ & Ho & Hsub) Hok Hs HR. split; [done|]. split; [eapply steps_owns; [exact Hs|done|done|set_solver]|].
  destruct Hs as (-> & _). set_solver.
Qed.

Lemma write_runs s p x bs l off cs : holder s p x bs l -> 0 <= off -> off + Z.of_nat (length cs) <= len x -> exists s',
  pbufs (write_mem (payload x) off cs) s = (Ret tt, s') /\ holder s' p x (write_list bs (Z.to_nat off) cs) l /\
  within s p s' /\ dev s' = dev s.
Proof.
  intros Hh Ho1 Ho2. pose proof (holder_in _ _ _ _ _ Hh) as Hp. destruct Hh as (Hok & Ho & Hsub).
  destruct (owns_write (hp s) p [] p x bs l off cs Ho (a_heap _ Hok) Ho1 Ho2) as (h1 & Hw & Hown & Hs1).
  destruct (within_packet s h1 p Hok Hs1 Hp) as [Hok1 Hst1]. exists (with_hp h1 s).
  split; [by apply pbufs_run|]. split; [|by split_and!]. split; [done|]. split; [done|].
  by destruct Hst1 as (-> & _).
Qed.

(** Room for a header of [k] bytes, if there is. *)
Lemma push_runs s p x bs l o k : holder s p x bs l -> payload x = Some (p, o) -> 0 < k <= 32767 -> tot_len x + k <= 65535 ->
  if o <? k then pbufs (pbuf_header p k) s = (Ret 1, s)
  else exists s' hb, pbufs (pbuf_header p k) s = (Ret 0, s') /\ length hb = Z.to_nat k /\
    holder s' p (moved (- k) x) (hb ++ bs) l /\ within s p s' /\ dev s' = dev s /\ bl (hp s') = bl (hp s).
Proof.
  intros Hh Hpl Hk Ht. pose proof (holder_in _ _ _ _ _ Hh) as Hp. destruct Hh as (Hok & Ho & Hsub).
  pose proof (header_push (hp s) p x bs l o k Ho (a_heap _ Hok) Hpl Hk Ht) as Hr. destruct (o <? k).
  { by rewrite (pbufs_run _ s _ _ Hr), with_hp_hp. }
  destruct Hr as (hb & h1 & Hr & Hlb & Ho1 & Hs1 & Hb1). destruct (within_packet s h1 p Hok Hs1 Hp) as [Hok1 Hst1].
  exists (with_hp h1 s), hb. split; [by apply pbufs_run|]. split; [done|]. split; [|by split_and!]. split; [done|]. split; [done|].
  by destruct Hst1 as (-> & _).
Qed.

(** The packet [p] has been worked on since [s0]; [s] holds it now. *)
Definition since s0 p x bs l s : Prop := holder s p x bs l /\ within s0 p s /\ dev s = dev s0.

Lemma since_refl s p x bs l : holder s p x bs l -> since s p x bs l s.
Proof.
  intros Hh. split; [done|]. split; [|done]. destruct Hh as (Hok & _). split; [done|]. split; [by split|].
  split; [done|]. apply hstep_refl, Hok.
Qed.

Lemma since_write s0 s p x bs l off cs : since s0 p x bs l s -> 0 <= off -> off + Z.of_nat (length cs) <= len x ->
  exists s', pbufs (write_mem (payload x) off cs) s = (Ret tt, s') /\ since s0 p x (write_list bs (Z.to_nat off) cs) l s'.
Proof.
  intros (Hh & Hw & Hd) H1 H2. destruct (write_runs s p x bs l off cs Hh H1 H2) as (s' & Hr & Hh' & Hw' & Hd').
  exists s'. split; [done|]. split; [done|]. split; [by eapply within_trans|congruence].
Qed.

(** Memory of another packet is where it was. *)
Lemma since_other s0 s q y cs l p x k m : since s0 q y cs l s -> at_payload (hp s0) p x k m -> p ∈ rest s0 -> p <> q ->
  at_payload (hp s) p x k m.
Proof. intros (_ & (_ & Hs & _) & _) Hm Hp Hne. eapply at_payload_steps; [exact Hm|exact Hs|done|set_solver]. Qed.

(** A packet from fresh memory that is released again leaves no trace. *)
Lemma fresh_released s s1 s2 s3 q : q ∉ live (al (hp s)) -> steps ∅ ({[q]} ∪ rest s) s s1 -> steps {[q]} (rest s1) s1 s2 ->
  steps {[q]} (rest s2 ∖ {[q]}) s2 s3 -> keeps ∅ s s3.
Proof.
  intros Hq (R1 & N1 & K1) (R2 & N2 & K2) (R3 & N3 & K3).
  assert (Hqr : q ∉ rest s) by (unfold rest; set_solver).
  split; [|split; [congruence|]].
  - rewrite R3, R2, R1. clear -Hqr. set_solver.
  - intros p Hp _. assert (Hne : p ∉ ({[q]} : gset ptr)) by (intros ->%elem_of_singleton; done).
    assert (Hp1 : p ∈ rest s1) by (rewrite R1; set_solver). assert (Hp2 : p ∈ rest s2) by (by rewrite R2).
    destruct (K1 p Hp) as [<- <-]; [by apply not_elem_of_empty|]. destruct (K2 p Hp1 Hne) as [<- <-]. by apply K3.
Qed.
End Hold.

(** ** Allocation and release *)
Section Life.
Context {A E : Type} `{Allocator A} `{Controller E}.
Context (custom : ptr -> heap A -> heap A).
Implicit Types (h : heap A) (s : link A E) (l : list node) (X : gset ptr).

Lemma alloc_runs s layer off n : header_offset layer = Some off -> 0 <= n <= 65535 -> arp_ok s -> exists o s',
  pbufs (pbuf_alloc custom layer n PBUF_RAM) s = (Ret o, s') /\ arp_ok s' /\ same_table s s' /\ dev s' = dev s /\
  match o with
  | None => keeps ∅ s s' /\ refused custom layer n PBUF_RAM (hp s)
  | Some q => exists x bs, holder s' q x bs [] /\ len x = n /\ tot_len x = n /\ payload x = Some (q, LWIP_MEM_ALIGN_SIZE off) /\
      (q ∉ live (al (hp s))) /\ steps ∅ ({[q]} ∪ rest s) s s'
  end.
Proof.
  intros Hoff Hn Hok. destruct (owns_alloc_ram custom layer off n (hp s) Hoff Hn (a_heap _ Hok)) as ([q|] & h1 & Hal & Hpost).
  2:{ destruct (after_hkeep s h1 (ucBuffer s) (dev s) Hok) as [Hok1 Hk1]; [by apply (hkeep_fresh _ _ ∅)|by destruct Hok|by destruct Hok|].
      exists None, (with_hp h1 s). split; [by apply pbufs_run|]. split_and!; [done..|by exists h1]. }
  destruct Hpost as (x & bs & Ho & Hl & Hpl & _ & _ & Hfresh & Hs & HL & Hi).
  exists (Some q), (with_hp h1 s). split; [by apply pbufs_run|].
  assert (Hok1 : arp_ok (with_hp h1 s)).
  { change (with_hp h1 s) with (after s h1 (ucBuffer s) (dev s)). apply arp_ok_after; [done|done|by destruct Hok|by destruct Hok|].
    intros r Hr. apply Hs. pose proof (held_live s r Hok Hr). set_solver. }
  assert (Hq : q ∉ list_to_set (C := gset ptr) (held (arp_table s))).
  { rewrite elem_of_list_to_set. intros Hin%(held_live s); done. }
  assert (Hrest : rest (with_hp h1 s) = {[q]} ∪ rest s).
  { unfold rest. cbn. rewrite HL. clear -Hq. set_solver. }
  split; [done|]. split; [done|]. split; [done|]. exists x, bs.
  destruct (owns_head_payload _ _ _ _ _ Ho) as (_ & _ & _ & _ & Hlb & Htot). change (content []) with (@nil Z) in Htot. rewrite app_nil_r in Htot.
  split; [split; [done|split; [done|rewrite Hrest; unfold ptrs; cbn; set_solver]]|]. split; [done|]. split; [lia|]. split; [done|].
  split; [done|]. split; [done|]. split; [done|]. intros r Hr _. apply Hs. unfold rest in Hr. set_solver.
Qed.

(** The packet is released. *)
Lemma free_runs s p x bs l : holder s p x bs l -> exists k s', pbufs (pbuf_free custom (Some p)) s = (Ret k, s') /\
  arp_ok s' /\ steps (ptrs (Node p x bs :: l)) (rest s ∖ ptrs (Node p x bs :: l)) s s' /\ same_table s s' /\ dev s' = dev s.
Proof.
  intros (Hok & Ho & Hsub). destruct (release_runs custom s p (Node p x bs) l Hok Ho Hsub) as (k & s' & Hr & Hok' & Hs & Ht & (_ & _ & Hd)).
  by exists k, s'.
Qed.
End Life.
