(* ===== verification/IpIn.v ===== *)
(** * Datagrams on their way in: [udp_input] and [ip4_input] on every branch *)
From S2P Require Export UdpOut UdpPcbThms IpHold.

#[local] Set Warnings "-clear-no-such-hyp".

Section UdpIn.
Context {A D : Type} `{Allocator A} `{Controller D} `{!Peers A D}.
Context (custom : ptr -> heap A -> heap A) (block_addr : ptr -> Z).
Implicit Types (s : link A (stack D)) (l : list node).

(** The datagram with the destination [k], whose header is off, at the block [pcb]. *)
Definition udp_taken (p : ptr) (pcb : option ptr) (k : packet_to) : cmd (link A (stack D)) unit :=
  match pcb with
  | Some pcb =>
      y <- blocks (pcb_at pcb) ;;
      match recv y with
      | Some f => udp_recv_fn f (recv_arg y) pcb p (src_addr k) (src_port k)
      | None => drop_packet custom p
      end
  | None => udp_unreach custom block_addr p (broadcast k)
  end.

(** The checksum field of the datagram [u] is empty, or it is right. *)
Definition udp_intact (k : packet_to) (u : list Z) : bool :=
  (of_le16 (field 6 2 u) =? 0) || (udp_sum (src_addr k) (dest_addr k) u =? 0).

Lemma udp_for_us_ok s p x bs l pcb k : holder s p x bs l -> 8 <= len x -> tot_len x <= 65535 ->
  bytes (bs ++ content l) -> ip_address (src_addr k) -> ip_address (dest_addr k) ->
  if udp_intact k (bs ++ content l)
  then exists s1, udp_for_us custom block_addr p pcb (of_le16 (field 6 2 bs)) k s = udp_taken p pcb k s1 /\
    holder s1 p (moved 8 x) (drop 8 bs) l /\ within s p s1 /\ dev s1 = dev s /\ bl (hp s1) = bl (hp s)
  else udp_for_us custom block_addr p pcb (of_le16 (field 6 2 bs)) k s = drop_packet custom p s.
Proof.
  intros Hh Hl Ht Hby Hs Hd. pose proof Hh as (_ & Ho & _). pose proof Ho as [Hp _].
  destruct (owns_head_payload _ _ _ _ _ Ho) as (_ & _ & _ & _ & Hlb & Htot).
  destruct (pull_runs s p x bs l 8 Hh ltac:(lia) Hl Ht) as (s1 & Hpull & Hh1 & Hw).
  unfold udp_intact. rewrite field_app by lia. unfold udp_for_us. pstep (load_head _ _ _ _ Ho). cbn [n_buf].
  assert (Hrest : forall sum, (sum =? 0) = true ->
    (if negb (sum =? 0) then drop_packet custom p else
     e <- pbufs (pbuf_header p (- UDP_HLEN)) ;; assert_ (negb (truthy e)) ;;; udp_taken p pcb k) s = udp_taken p pcb k s1).
  { intros sum ->. cbn [negb]. change UDP_HLEN with 8. by cstep Hpull. }
  destruct (Z.eqb_spec (of_le16 (field 6 2 bs)) 0) as [Hz|Hz]; cbn [orb negb].
  { exists s1. split; [|done]. cstep (eq_refl (ret 0 s)). by apply (Hrest 0). }
  pose proof (chksum_pseudo_ok block_addr _ _ (hp s) IP_PROTO_UDP (tot_len x) (src_addr k) (dest_addr k) Hp) as Hsum.
  rewrite content_cons in Hsum. cbn [n_bytes] in Hsum.
  specialize (Hsum Hby ltac:(rewrite <- Htot; lia) Hs Hd ltac:(done) ltac:(lia)).
  unfold ip_chksum_pseudo. pstep Hsum. unfold udp_sum. rewrite <- Htot. set (sum := 65535 - _).
  destruct (sum =? 0); [|done]. exists s1. split; [|done]. exact (Hrest 0 eq_refl).
Qed.

(** ** [udp_input] *)
Definition udp_key s (i inp : Z) (u : list Z) : packet_to :=
  PacketTo (current_iphdr_src (ip_data (dev s))) (be16 0 u) (current_iphdr_dest (ip_data (dev s))) (be16 2 u)
    (ip4_addr_isbroadcast (current_iphdr_dest (ip_data (dev s))) (netifs s i)) (netmask (netifs s inp)).

(** The search has reordered the list of the blocks. *)
Definition searched s ul k s1 : Prop := exists u1,
  s1 = with_blocks u1 s /\ udp_ok u1 (reordered (pcbs (udp (dev s))) k ul) /\ fields (pcbs u1) = fields (pcbs (udp (dev s))).

Lemma searched_holder s ul k s1 p x bs l : holder s p x bs l -> searched s ul k s1 ->
  holder s1 p x bs l /\ within s p s1.
Proof.
  intros (Hok & Ho & Hsub) (u1 & -> & Hu & _).
  assert (Hok1 : arp_ok (with_blocks u1 s)) by (destruct Hok as [T P C N B I [V _]]; split; try done; by split; [|eauto]).
  split; [done|]. split; [done|]. split; [by split_and!|]. split; [done|]. apply hstep_refl, Hok.
Qed.

(** What becomes of the datagram [u], in [s1] after the search. *)
Definition udp_received s1 p x bs l pcb k (ours : bool) (m : cmd (link A (stack D)) unit) s : Prop :=
  if negb ours || negb (udp_intact k (bs ++ content l)) then m s = drop_packet custom p s1
  else exists s2, m s = udp_taken p pcb k s2 /\ holder s2 p (moved 8 x) (drop 8 bs) l /\
    within s1 p s2 /\ dev s2 = dev s1 /\ bl (hp s2) = bl (hp s1).

Lemma udp_input_runs s ul p x bs l i inp : holder s p x bs l -> udp_ok (udp (dev s)) ul ->
  current_netif (ip_data (dev s)) = Some i -> tot_len x <= 65535 -> bytes (bs ++ content l) ->
  ip_address (current_iphdr_src (ip_data (dev s))) -> ip_address (current_iphdr_dest (ip_data (dev s))) ->
  if len x <? 8 then udp_input custom block_addr p inp s = drop_packet custom p s
  else
    let k := udp_key s i inp (bs ++ content l) in
    let pcb := chosen (pcbs (udp (dev s))) k ul in
    exists s1, searched s ul k s1 /\
      udp_received s1 p x bs l pcb k
        (if pcb is Some _ then true else ip_addr (netifs s inp) =? current_iphdr_dest (ip_data (dev s)))
        (udp_input custom block_addr p inp) s.
Proof.
  intros Hh Hu Hcur Ht Hby Hsrc Hdst. pose proof Hh as (_ & Ho & _).
  destruct (owns_head_payload _ _ _ _ _ Ho) as (_ & _ & _ & _ & Hlb & Htot).
  destruct (Z.ltb_spec (len x) 8) as [Hshort|Hlong].
  { unfold udp_input. pstep (load_head _ _ _ _ Ho). cbn [n_buf]. by rewrite (proj2 (Z.ltb_lt _ _)). }
  cbv zeta. set (k := udp_key s i inp (bs ++ content l)). set (pcb := chosen (pcbs (udp (dev s))) k ul).
  destruct (demux_ok (udp (dev s)) ul k Hu) as (u1 & Hr & Hu1 & Hf & _). set (s1 := with_blocks u1 s).
  exists s1. assert (Hsr : searched s ul k s1) by (exists u1; by split_and!).
  split; [done|]. destruct (searched_holder _ _ _ _ _ _ _ _ Hh Hsr) as [Hh1 _].
  set (ours := if pcb is Some _ then true else ip_addr (netifs s inp) =? current_iphdr_dest (ip_data (dev s))). pose proof (owns_holds _ _ _ _ _ Ho) as Hb.
  assert (Hk : PacketTo (current_iphdr_src (ip_data (dev s))) (lwip_htons (of_le16 (field 0 2 bs)))
     (current_iphdr_dest (ip_data (dev s))) (lwip_htons (of_le16 (field 2 2 bs)))
     (ip4_addr_isbroadcast (current_iphdr_dest (ip_data (dev s))) (netifs s i)) (netmask (netifs s inp)) = k).
  { unfold k, udp_key, be16. by rewrite !field_app by lia. }
  assert (Heq : udp_input custom block_addr p inp s =
    if ours then udp_for_us custom block_addr p pcb (of_le16 (field 6 2 bs)) k s1 else drop_packet custom p s1).
  { unfold udp_input. pstep (load_head _ _ _ _ Ho). cbn [n_buf]. change UDP_HLEN with 8. rewrite (proj2 (Z.ltb_ge _ _)) by done.
    cstep (eq_refl (gets (fun s => ip_data (dev s)) s)). rewrite Hcur. cstep (eq_refl (ret i s)).
    cstep (eq_refl (gets (fun s => netifs s i) s)). cstep (eq_refl (gets (fun s => netifs s inp) s)).
    cstep (read16_at s x bs 0 Hb ltac:(lia)). cstep (read16_at s x bs 2 Hb ltac:(lia)).
    rewrite Hk. cstep (blocks_run _ s _ _ Hr). fold pcb s1. change (dest_addr k) with (current_iphdr_dest (ip_data (dev s))).
    fold ours. destruct ours; [|done]. by cstep (read16_at s1 x bs 6 Hb ltac:(lia)). }
  unfold udp_received. rewrite Heq. destruct ours; cbn [negb orb]; [|done].
  pose proof (udp_for_us_ok s1 p x bs l pcb k Hh1 Hlong Ht Hby Hsrc Hdst) as Hfor. revert Hfor. by destruct (udp_intact k _).
Qed.
End UdpIn.

Section IpIn.
Context {A D : Type} `{Allocator A} `{Controller D} `{!Peers A D}.
Context (custom : ptr -> heap A -> heap A) (block_addr : ptr -> Z).
Implicit Types (s : link A (stack D)) (l : list node).

(** A received packet: in pbufs of the pool, [m] in memory from its payload on. *)
Definition incoming s (p : ptr) x bs l (k : nat) (m : list Z) : Prop :=
  holder s p x bs l /\ pooled (Node p x bs :: l) /\ at_payload (hp s) p x k m /\
  tot_len x <= 65535 /\ bytes (bs ++ content l) /\ filled l.

Lemma incoming_bytes s p x bs l k m : incoming s p x bs l k m -> Z.of_nat (length bs) <= Z.of_nat k ->
  bs = take (length bs) m.
Proof.
  intros ((_ & Ho & _) & _ & (o & a & Hpl & Ha & Ho0 & Hle & ->) & _) Hl.
  destruct (owns_head_payload _ _ _ _ _ Ho) as (_ & _ & _ & _ & Hlb & _).
  destruct (owns_holds _ _ _ _ _ Ho) as (b' & o' & a' & Hpl' & Ha' & _ & _ & _ & Hbs). rewrite Hpl in Hpl'.
  injection Hpl' as <- <-. rewrite Ha in Ha'. injection Ha' as <-. rewrite take_take, Nat.min_l by lia.
  rewrite Hbs at 1. f_equal. lia.
Qed.

(** ** The packet is cut to the length its header says *)
Definition trimmed s p x bs l (n : Z) s1 x1 bs1 l1 : Prop :=
  payload x1 = payload x /\ bs1 ++ content l1 = take (Z.to_nat n) (bs ++ content l) /\
  len x1 = Z.min n (len x) /\ tot_len x1 = Z.min n (tot_len x) /\
  only (ptrs (Node p x bs :: l)) s s1 /\ dev s1 = dev s /\ ptrs (Node p x1 bs1 :: l1) ⊆ ptrs (Node p x bs :: l) /\
  rest s1 = rest s ∖ (ptrs (Node p x bs :: l) ∖ ptrs (Node p x1 bs1 :: l1)).

Lemma kept_sub (P P1 R : gset ptr) : P1 ⊆ P -> P ⊆ R ->
  P1 ⊆ R ∖ (P ∖ P1) /\ R ∖ P ⊆ R ∖ (P ∖ P1) /\ R ∖ (P ∖ P1) ⊆ R.
Proof. set_solver. Qed.

Lemma difference_swap (L P R : gset ptr) : L ∖ P ∖ R = L ∖ R ∖ P.
Proof. set_solver. Qed.

Lemma shrink_filled l n : filled l -> 0 < n -> filled (shrink l n).
Proof.
  intros Hl. revert n. induction Hl as [|[q x bs] l Hx Hl IH]; intros n Hn; [constructor|]. rewrite shrink_cons. cbn in Hx.
  destruct (Z.leb_spec n (len x)); (constructor; [done|]); [constructor|]. apply IH. lia.
Qed.

Lemma shrink_head p x bs l n : 0 <= n -> tot_len x = Z.of_nat (length (bs ++ content l)) -> Z.of_nat (length bs) = len x ->
  n < tot_len x -> exists x1 bs1 l1, shrink (Node p x bs :: l) n = Node p x1 bs1 :: l1 /\ payload x1 = payload x /\
    len x1 = Z.min n (len x) /\ tot_len x1 = n /\ (filled l -> filled l1).
Proof.
  intros Hn Ht Hl Hlt. rewrite shrink_cons. rewrite length_app in Ht.
  destruct (Z.leb_spec n (len x)); (eexists _, _, _; split; [reflexivity|]); cbn; (split; [done|]); split; [lia|split; [done|constructor]|lia|split; [done|intros; apply shrink_filled; done || lia]].
Qed.

Lemma realloc_runs s p x bs l k m n : incoming s p x bs l k m -> 0 <= n -> exists s1 x1 bs1 l1,
  (if n <? tot_len x then pbufs (pbuf_realloc custom p n) else ret tt) s = (Ret tt, s1) /\
  incoming s1 p x1 bs1 l1 k m /\ trimmed s p x bs l n s1 x1 bs1 l1.
Proof.
  intros Hin Hn. pose proof Hin as ((Hok & Ho & Hsub) & Hpool & Hm & Ht & Hby & Hfill).
  destruct (owns_head_payload _ _ _ _ _ Ho) as (_ & _ & _ & _ & Hlb & Htot).
  destruct (Z.ltb_spec n (tot_len x)) as [Hlt|Hge].
  2:{ exists s, x, bs, l. split; [done|]. split; [done|]. split; [done|].
      rewrite length_app in Htot. split; [rewrite take_ge by (rewrite length_app; lia); done|]. split; [lia|]. split; [lia|].
      split; [apply only_refl|]. split; [done|]. split; [done|]. set_solver. }
  destruct (owns_realloc custom (hp s) p (Node p x bs) l n Ho Hpool (a_heap _ Hok) ltac:(cbn; lia) Ht) as (h1 & Hr & Ho1 & Hs1 & Hb1).
  destruct (shrink_head p x bs l n Hn Htot Hlb Hlt) as (x1 & bs1 & l1 & Hsh & Hpl1 & Hl1 & Ht1 & Hty1).
  pose proof (shrink_content (Node p x bs :: l) (hp s) (Some p) n (proj1 Ho) Hn) as Hc.
  pose proof (shrink_ptrs (Node p x bs :: l) n) as Hps. pose proof (shrink_pooled _ n Hpool) as Hpool1.
  rewrite Hsh in *. rewrite !content_cons in Hc. cbn [n_bytes] in Hc. specialize (Hc ltac:(lia)).
  assert (Hsubp : ptrs (Node p x1 bs1 :: l1) ⊆ ptrs (Node p x bs :: l)).
  { unfold ptrs. rewrite Hps. intros q Hq. apply elem_of_list_to_set in Hq. apply elem_of_list_to_set.
    eapply elem_of_take in Hq as (i & Hi & _). by eapply list_elem_of_lookup_2. }
  set (s1 := with_hp h1 s). destruct Hs1 as (Hs1 & HL1 & Hi1).
  assert (Hok1 : arp_ok s1).
  { change s1 with (after s h1 (ucBuffer s) (dev s)). apply arp_ok_after; [done|done|by destruct Hok|by destruct Hok|].
    intros r Hr'. apply Hs1. unfold rest in Hsub. set_solver. }
  assert (Hrest : rest s1 = rest s ∖ (ptrs (Node p x bs :: l) ∖ ptrs (Node p x1 bs1 :: l1))).
  { unfold rest, s1. cbn [hp with_hp after arp_table]. rewrite HL1. apply difference_swap. }
  destruct (kept_sub _ _ _ Hsubp Hsub) as (K1 & K2 & K3).
  exists s1, x1, bs1, l1. split; [by rewrite (pbufs_run _ s _ _ Hr)|].
  pose proof Hs1 as Hframe.
  split; [|split; [done|]; split; [done|]; split; [done|]; split; [lia|]; split; [|done]].
  - split; [split; [done|split; [done|by rewrite Hrest]]|]. split; [done|].
    split; [|split; [lia|split; [rewrite Hc; by apply Forall_take|by apply Hty1]]].
    destruct Hm as (o & a & Hpl & Ha & Hm). exists o, a. rewrite Hpl1. split; [done|]. cbn. by rewrite Hb1.
  - split; [done|]. split; [done|]. rewrite Hrest. split; [done|]. split; [done|]. intros q _ Hq. by apply Hs1.
Qed.
(** Reads through a pointer to where the payload of [x] started. *)
Lemma peek s p x k m off n : at_payload (hp s) p x k m -> (off + n <= k)%nat ->
  pbufs (read_mem (payload x) (Z.of_nat off) (Z.of_nat n)) s = (Ret (field off n m), s).
Proof. intros Hm Hl. by rewrite (pbufs_run _ s _ _ (at_payload_read _ _ _ _ _ off n Hm Hl)), with_hp_hp. Qed.

Lemma peek16 s p x k m (off : nat) : at_payload (hp s) p x k m -> (off + 2 <= k)%nat ->
  read16 (payload x) (Z.of_nat off) s = (Ret (of_le16 (field off 2 m)), s).
Proof. intros Hm Hl. unfold read16. by cstep (peek s p x k m off 2 Hm Hl). Qed.

Lemma peek8 s p x k m (off : nat) : at_payload (hp s) p x k m -> (off + 1 <= k)%nat ->
  read8 (payload x) (Z.of_nat off) s = (Ret (nth 0 (field off 1 m) 0), s).
Proof. intros Hm Hl. unfold read8. by cstep (peek s p x k m off 1 Hm Hl). Qed.

(** ** The checks of the header *)

(** The length of the header, and the sum over it. *)
Definition ip_version (m : list Z) : Z := Z.shiftr (nth 0 (field 0 1 m) 0) 4.
Definition ip_hlen (m : list Z) : Z := Z.land (nth 0 (field 0 1 m) 0) 0x0f * 4.
Definition ip_sum (c : list Z) : Z := 65535 - lwip_htons (rfc1071 c).

Lemma ip_hlen_range m : 0 <= ip_hlen m <= 60.
Proof. unfold ip_hlen. change 0x0f with (Z.ones 4). rewrite Z.land_ones by lia. pose proof (Z.mod_pos_bound (nth 0 (field 0 1 m) 0) (2 ^ 4) ltac:(lia)). lia. Qed.

Lemma be16_range off m : 0 <= be16 off m <= 65535.
Proof. pose proof (u16_range (PP_HTONS (of_le16 (field off 2 m)))). unfold be16, lwip_htons. lia. Qed.

(** The header is complete and right, and the packet is as long as it says. *)
Definition ip_sound x1 (bs1 m : list Z) : bool :=
  negb ((len x1 <? ip_hlen m) || (tot_len x1 <? be16 2 m) || (ip_hlen m <? IP_HLEN)) &&
  (ip_sum (take (Z.to_nat (ip_hlen m)) bs1) =? 0).

Lemma ip4_input_checked s p x bs l k m inp : incoming s p x bs l k m -> (4 <= k)%nat ->
  if negb (ip_version m =? 4) then ip4_input_ custom block_addr p inp s = drop_packet custom p s
  else exists s1 x1 bs1 l1, incoming s1 p x1 bs1 l1 k m /\ trimmed s p x bs l (be16 2 m) s1 x1 bs1 l1 /\
    ip4_input_ custom block_addr p inp s =
      if ip_sound x1 bs1 m then ip4_addressed custom block_addr p inp (payload x1) (ip_hlen m) s1
      else drop_packet custom p s1.
Proof.
  intros Hin Hk. pose proof Hin as ((_ & Ho & _) & _ & Hm & _). unfold ip4_input_.
  destruct (Z.eqb_spec (ip_version m) 4) as [Hv|Hv]; cbn [negb].
  2:{ pstep (load_head _ _ _ _ Ho). cbn [n_buf]. cstep (peek8 s p x k m 0 Hm ltac:(lia)). fold (ip_version m).
      by rewrite (proj2 (Z.eqb_neq _ _)). }
  pose proof (be16_range 2 m) as Hn. pose proof (ip_hlen_range m) as Hhl.
  destruct (realloc_runs s p x bs l k m (be16 2 m) Hin ltac:(lia)) as (s1 & x1 & bs1 & l1 & Hr & Hin1 & Htr).
  exists s1, x1, bs1, l1. split; [done|]. split; [done|].
  pose proof Hin1 as ((_ & Ho1 & _) & _ & _ & _ & Hby1 & _).
  destruct (owns_head_payload _ _ _ _ _ Ho1) as (_ & _ & _ & _ & Hlb1 & _).
  pstep (load_head _ _ _ _ Ho). cbn [n_buf]. cstep (peek8 s p x k m 0 Hm ltac:(lia)). fold (ip_version m) (ip_hlen m).
  rewrite Hv. change (negb (4 =? 4)) with false. cbv iota. cstep (peek16 s p x k m 2 Hm ltac:(lia)). fold (be16 2 m).
  cstep Hr. pstep (load_head _ _ _ _ Ho1). cbn [n_buf]. unfold ip_sound. destruct (_ || _) eqn:Hbad; cbn [negb andb]; [done|].
  apply orb_false_iff in Hbad as [[H1 _]%orb_false_iff _]. assert (Hpl : payload x = payload x1) by (symmetry; apply Htr).
  rewrite Hpl. apply Forall_app in Hby1 as [Hby1 _].
  cstep (chksum_at_ok block_addr s1 (hp s1) x1 bs1 p l1 (ip_hlen m) Ho1 ltac:(by apply Forall_take) ltac:(lia) ltac:(lia) eq_refl).
  unfold ip_sum. by destruct (65535 - _ =? 0).
Qed.
(** ** Who the packet is for *)
Definition ip_src (m : list Z) : Z := of_le32 (field 12 4 m).
Definition ip_dst (m : list Z) : Z := of_le32 (field 16 4 m).
Definition ip_proto (m : list Z) : Z := nth 0 (field 9 1 m) 0.

(** [s] with another [ip_data]. *)
Definition with_data d s : link A (stack D) := after s (hp s) (ucBuffer s) (with_ip_data d (dev s)).

Lemma with_data_incoming d s p x bs l k m : incoming s p x bs l k m -> incoming (with_data d s) p x bs l k m.
Proof.
  intros ((Hok & Ho & Hsub) & Hrest). split; [|done]. split; [|done]. destruct Hok as [T P C N B I V]. by split.
Qed.

Definition accepted_by s (inp dest : Z) : option Z :=
  let n := netifs s inp in
  if ip4_addr_ismulticast dest then
    if netif_is_up n && negb (ip4_addr_isany (ip_addr n)) then Some inp else None
  else if accepts n dest then Some inp
  else if ip4_addr_isloopback dest then None
  else accept_loop (netif_list (dev s)) (netifs s) inp dest.

(** A DHCP answer is for the interface that has no address yet. *)
Definition for_dhcp (m : list Z) : bool :=
  (ip_proto m =? IP_PROTO_UDP) && (of_le16 (field (Z.to_nat (ip_hlen m) + 2) 2 m) =? PP_HTONS DHCP_CLIENT_PORT).

Definition destined s (inp : Z) (m : list Z) : option Z :=
  let via := accepted_by s inp (ip_dst m) in
  let dhcp := if via is Some _ then false else for_dhcp m in
  if negb dhcp && negb (ip4_addr_isany (ip_src m))
     && (ip4_addr_isbroadcast (ip_src m) (netifs s inp) || ip4_addr_ismulticast (ip_src m)) then None
  else if dhcp then Some inp else via.

Definition addressed s (m : list Z) : ip_globals :=
  let d := ip_data (dev s) in
  IpGlobals (current_netif d) (current_input_netif d) (current_ip4_header d) (current_ip_header_tot_len d) (ip_src m) (ip_dst m).

Lemma ip4_addressed_ok s p x bs l k m inp : incoming s p x bs l k m -> (64 <= k)%nat ->
  let s1 := with_data (addressed s m) s in
  ip4_addressed custom block_addr p inp (payload x) (ip_hlen m) s =
    match destined s inp m with
    | None => drop_packet custom p s1
    | Some nif => ip4_accepted custom block_addr p inp nif (payload x) (ip_hlen m) s1
    end.
Proof.
  intros Hin Hk s1. pose proof (with_data_incoming (addressed s m) _ _ _ _ _ _ _ Hin) as (_ & _ & Hm1 & _). fold s1 in Hm1.
  destruct Hin as (_ & _ & Hm & _). unfold ip4_addressed.
  cstep (peek s p x k m 16 4 Hm ltac:(lia)). cstep (peek s p x k m 12 4 Hm ltac:(lia)).
  cstep (eq_refl (gets (fun s => ip_data (dev s)) s)). fold (ip_dst m) (ip_src m).
  assert (Hd : on_dev (with_ip_data (addressed s m)) s = (Ret tt, s1)) by done. fold (addressed s m). cstep Hd.
  cstep (eq_refl : accepting_netif inp (ip_dst m) s1 = (Ret (accepted_by s inp (ip_dst m)), s1)).
  unfold destined. set (via := accepted_by s inp (ip_dst m)).
  assert (Hdhcp : (match via with
    | Some _ => ret false
    | None => proto <- read8 (payload x) 9 ;;
        if proto =? IP_PROTO_UDP then port <- read16 (payload x) (ip_hlen m + 2) ;; ret (port =? PP_HTONS DHCP_CLIENT_PORT)
        else ret false
    end) s1 = (Ret (if via is Some _ then false else for_dhcp m), s1)).
  { pose proof (ip_hlen_range m). destruct via; [done|]. cstep (peek8 s1 p x k m 9 Hm1 ltac:(lia)). unfold for_dhcp, ip_proto.
    destruct (nth 0 _ 0 =? IP_PROTO_UDP); [|done].
    pose proof (peek16 s1 p x k m (Z.to_nat (ip_hlen m) + 2) Hm1 ltac:(lia)) as Hp.
    replace (Z.of_nat (Z.to_nat (ip_hlen m) + 2)) with (ip_hlen m + 2) in Hp by lia. by cstep Hp. }
  cstep Hdhcp. set (dhcp := if via is Some _ then false else for_dhcp m).
  cstep (eq_refl (gets (fun s => netifs s inp) s1)). change (netifs s1) with (netifs s).
  destruct (negb dhcp && _ && _); [done|]. by destruct (if dhcp then Some inp else via).
Qed.

(** ** To the protocol *)
Definition fragment (m : list Z) : bool := negb (Z.land (of_le16 (field 6 2 m)) (PP_HTONS (Z.lor IP_OFFMASK IP_MF)) =? 0).

Definition handling s (nif inp : Z) (hdr : option (ptr * Z)) (hlen : Z) : ip_globals :=
  IpGlobals (Some nif) (Some inp) hdr hlen (current_iphdr_src (ip_data (dev s))) (current_iphdr_dest (ip_data (dev s))).

Lemma ip4_whole_ok s p x bs l k m inp nif : incoming s p x bs l k m -> (8 <= k)%nat -> fragment m = false ->
  let s1 := with_data (handling s nif inp (payload x) (ip_hlen m)) s in
  ip4_accepted custom block_addr p inp nif (payload x) (ip_hlen m) s =
    (ip4_deliver custom block_addr p inp nif (payload x) (ip_hlen m) (current_iphdr_dest (ip_data (dev s))) ;;;
     on_dev (with_ip_data idle_ip_data)) s1.
Proof.
  intros ((_ & Ho & _) & _ & Hm & _) Hk Hf s1. unfold ip4_accepted. cstep (peek16 s p x k m 6 Hm ltac:(lia)).
  unfold fragment in Hf. rewrite Hf. cstep (eq_refl (ret (Some p) s)). pstep (load_head _ _ _ _ Ho). cbn [n_buf].
  cstep (eq_refl (gets (fun s => ip_data (dev s)) s)). cstep (peek8 s p x k m 0 Hm ltac:(lia)). fold (ip_hlen m).
  assert (Hd : on_dev (with_ip_data (handling s nif inp (payload x) (ip_hlen m))) s = (Ret tt, s1)) by done.
  fold (handling s nif inp (payload x) (ip_hlen m)). by cstep Hd.
Qed.

(** The packet without its IP header. *)
Definition stripped s p x bs l k m (hlen : Z) s1 : Prop :=
  incoming s1 p (moved hlen x) (drop (Z.to_nat hlen) bs) l (k - Z.to_nat hlen) (drop (Z.to_nat hlen) m) /\
  within s p s1 /\ dev s1 = dev s /\ at_payload (hp s1) p x k m.

Definition ip4_to_protocol (p : ptr) (inp nif : Z) (iphdr : option (ptr * Z)) (hlen dest proto : Z) : cmd (link A (stack D)) unit :=
  if proto =? IP_PROTO_UDP then udp_input custom block_addr p inp
  else if proto =? IP_PROTO_TCP then tcp_input p inp
  else if proto =? IP_PROTO_ICMP then icmp_input custom block_addr p inp
  else
    n <- gets (fun s => netifs s nif) ;;
    (if negb (ip4_addr_isbroadcast dest n) && negb (ip4_addr_ismulticast dest) then
       pbufs (pbuf_header_force p hlen) ;;;
       pbufs (update p (with_payload iphdr)) ;;;
       icmp_dest_unreach custom block_addr p ICMP_DUR_PROTO
     else ret tt) ;;;
    drop_packet custom p.

Lemma at_payload_moved (h : heap A) p x k m (n : Z) : at_payload h p x k m -> 0 <= n <= Z.of_nat k ->
  at_payload h p (moved n x) (k - Z.to_nat n) (drop (Z.to_nat n) m).
Proof.
  intros (o & a & Hpl & Ha & Ho & Hle & ->) Hn. exists (o + n), a. cbn. rewrite Hpl. split; [done|]. split; [done|].
  split; [lia|]. split; [lia|]. rewrite skipn_firstn_comm, drop_drop. do 2 f_equal. lia.
Qed.

Lemma ip4_deliver_ok s p x bs l k m inp nif dest : incoming s p x bs l k m -> (60 <= k)%nat -> 0 < ip_hlen m <= len x ->
  exists s1, stripped s p x bs l k m (ip_hlen m) s1 /\
    ip4_deliver custom block_addr p inp nif (payload x) (ip_hlen m) dest s =
      ip4_to_protocol p inp nif (payload x) (ip_hlen m) dest (ip_proto m) s1.
Proof.
  intros (Hh & Hpool & Hm & Ht & Hby & Hfill) Hk Hl. pose proof (ip_hlen_range m) as Hr. set (hl := ip_hlen m) in *.
  destruct (pull_runs s p x bs l hl Hh ltac:(lia) ltac:(lia) Ht) as (s1 & Hpull & Hh1 & Hw & Hd & Hb).
  assert (Hm1 : at_payload (hp s1) p x k m).
  { destruct Hm as (o & a & Hpl & Ha & Hm). exists o, a. by rewrite Hb. }
  exists s1. split.
  - split; [|done]. split; [done|]. split; [by apply Forall_cons in Hpool as [? ?]; constructor|].
    split; [apply at_payload_moved; [done|lia]|]. split; [cbn; lia|].
    split; [|done]. apply Forall_app in Hby as [Hb1 Hb2]. apply Forall_app. split; [by apply Forall_drop|done].
  - unfold ip4_deliver. cstep Hpull. cstep (peek8 s1 p x k m 9 Hm1 ltac:(lia)). fold (ip_proto m). done.
Qed.
End IpIn.
