(* ===== verification/IcmpFacts.v ===== *)
(** * ICMP errors: [icmp_send_response] *)
From S2P Require Export IpOut IpIn.

#[local] Set Warnings "-clear-no-such-hyp".

(** More commands after two whose run is known. *)
Lemma then_two {S B C X : Type} (a : cmd S unit) (b : cmd S B) (c : B -> cmd S unit) (d : cmd S C) (K : C -> cmd S X) s s1 :
  (a ;;; x <- b ;; c x) s = (Ret tt, s1) -> (u <- (a ;;; x <- b ;; c x ;;; d) ;; K u) s = bind d K s1.
Proof.
  intros Hs. unfold bind in *. destruct (a s) as [[] ?]; try done. destruct (b _) as [[] ?]; try done. by rewrite Hs.
Qed.

(** An ICMP message of eight bytes and the data. *)
Definition icmp_fields (type_ code chksum : Z) (rest_ data : list Z) : list Z := [type_; code] ++ le16 chksum ++ rest_ ++ data.

Lemma response_bytes (bs data : list Z) type_ code : length bs = 36%nat -> length data = 28%nat ->
  write_list (write_list (write_list (write_list (write_list (write_list bs 0 [type_]) 1 [code]) 4 (le16 0)) 6 (le16 0)) 8 data) 2 (le16 0)
  = icmp_fields type_ code 0 [0; 0; 0; 0] data.
Proof.
  intros Hb Hd. destruct bs as [|b0 [|b1 [|b2 [|b3 [|b4 [|b5 [|b6 [|b7 bs]]]]]]]]; try done. cbn in Hb.
  change (write_list (write_list (type_ :: code :: b2 :: b3 :: le16 0 ++ le16 0 ++ bs) 8 data) 2 (le16 0) = icmp_fields type_ code 0 [0; 0; 0; 0] data).
  unfold write_list at 2. rewrite (drop_ge _ (8 + length data)) by (cbn; lia). cbn. by rewrite app_nil_r.
Qed.

Section Response.
Context {A D : Type} `{Allocator A} `{Controller D} `{!Peers A D}.
Context (custom : ptr -> heap A -> heap A) (block_addr : ptr -> Z).
Implicit Types (s : link A (stack D)) (l : list node).

(** ** Routing *)
Definition routed_to s (dest : Z) : option Z :=
  match route_loop (netif_list (dev s)) (netifs s) dest with
  | Some i => Some i
  | None =>
      match netif_default (dev s) with
      | None => None
      | Some i =>
          let n := netifs s i in
          if negb (netif_is_up n) || negb (netif_is_link_up n) || ip4_addr_isany (ip_addr n) then None else Some i
      end
  end.

Lemma ip4_route_run s dest : ip4_route dest s = (Ret (routed_to s dest), s).
Proof.
  unfold ip4_route, routed_to. cstep (eq_refl (gets (fun s => netif_list (dev s)) s)). cstep (eq_refl (gets netifs s)).
  destruct (route_loop _ _ _); [done|]. cstep (eq_refl (gets (fun s => netif_default (dev s)) s)).
  destruct (netif_default _); [|done]. by destruct (_ || _).
Qed.

(** ** The error message *)
Lemma filled_sum a data : bytes a -> bytes data -> Z.even (Z.of_nat (length a)) = true ->
  Z.of_nat (length (a ++ [0; 0] ++ data)) <= 0x20000 -> forall addr,
  bytes (a ++ le16 (inet_chksum addr (a ++ [0; 0] ++ data)) ++ data) /\
  ip_sum (a ++ le16 (inet_chksum addr (a ++ [0; 0] ++ data)) ++ data) = 0.
Proof.
  intros Ha Hd He Hl addr. assert (Hb : bytes (a ++ [0; 0] ++ data)).
  { apply Forall_app_2; [done|]. apply Forall_app_2; [|done]. by repeat constructor. }
  rewrite inet_chksum_ok by done. pose proof (ones_complement_bound _ Hb) as Hr.
  rewrite word_bytes by (rewrite htons_rfc1071 by done; lia). by apply fill_word.
Qed.

(** The sender of the packet [m] is told, unless there is no memory or no way. *)
Definition icmp_told s s' (type_ code : Z) (m : list Z) : Prop :=
  let msg sum := icmp_fields type_ code sum [0; 0; 0; 0] (take 28 m) in
  ((refused custom PBUF_IP 36 PBUF_RAM (hp s) \/ routed_to s (ip_src m) = None) /\
   same_table s s' /\ dev s' = dev s) \/
  exists nif s1 s2 y sum r, routed_to s (ip_src m) = Some nif /\ same_table s s1 /\ netifs s1 = netifs s /\ dev s1 = dev s /\
    (bytes (take 28 m) -> ip_sum (msg sum) = 0) /\
    goes_out s1 s2 nif (ip_addr (netifs s nif)) (ip_src m) ICMP_TTL 0 IP_PROTO_ICMP y (msg sum) r /\
    same_table s2 s' /\ dev s' = dev s2.

Lemma response_message s s0 q y p x bs k m type_ code : since s0 q y bs [] s -> len y = 36 -> length bs = 36%nat ->
  at_payload (hp s0) p x k m -> (28 <= k)%nat -> p ∈ rest s0 -> p <> q ->
  exists s', (forall K : Z -> cmd (link A (stack D)) unit, (pbufs (write_mem (payload y) 0 [type_]) ;;;
      pbufs (write_mem (payload y) 1 [code]) ;;;
      pbufs (write_mem (payload y) 4 (le16 0)) ;;;
      pbufs (write_mem (payload y) 6 (le16 0)) ;;;
      bs <- pbufs (read_mem (payload x) 0 (IP_HLEN + ICMP_DEST_UNREACH_DATASIZE)) ;;
      pbufs (write_mem (payload y) SIZEOF_ICMP_ECHO_HDR bs) ;;;
      src <- pbufs (read_mem (payload x) 12 4) ;;
      K (of_le32 src)) s = K (ip_src m) s') /\
    since s0 q y (write_list (write_list (write_list (write_list (write_list bs 0 [type_]) 1 [code]) 4 (le16 0)) 6 (le16 0)) 8 (take 28 m)) [] s' /\
    at_payload (hp s') p x k m.
Proof.
  intros Hc Hl Hlb Hm Hk Hp Hne.
  destruct (since_write _ _ _ _ _ _ 0 [type_] Hc) as (s1 & Hw1 & Hc1); [lia|cbn; lia|].
  destruct (since_write _ _ _ _ _ _ 1 [code] Hc1) as (s2 & Hw2 & Hc2); [lia|cbn; lia|].
  destruct (since_write _ _ _ _ _ _ 4 (le16 0) Hc2) as (s3 & Hw3 & Hc3); [lia|cbn; lia|].
  destruct (since_write _ _ _ _ _ _ 6 (le16 0) Hc3) as (s4 & Hw4 & Hc4); [lia|cbn; lia|].
  pose proof (since_other _ _ _ _ _ _ _ _ _ _ Hc4 Hm Hp Hne) as Hm4.
  destruct (since_write _ _ _ _ _ _ 8 (take 28 m) Hc4) as (s5 & Hw5 & Hc5); [lia|rewrite length_take; lia|].
  pose proof (since_other _ _ _ _ _ _ _ _ _ _ Hc5 Hm Hp Hne) as Hm5.
  exists s5. split; [|by split]. intros K. cstep Hw1. cstep Hw2. cstep Hw3. cstep Hw4.
  cstep (peek s4 p x k m 0 28 Hm4 ltac:(lia)). cstep Hw5. by cstep (peek s5 p x k m 12 4 Hm5 ltac:(lia)).
Qed.

(** What follows the copy: the message goes to the sender, if there is a way. *)
Definition response_end (q : ptr) (icmphdr : option (ptr * Z)) (n dest : Z) : cmd (link A (stack D)) unit :=
  netif_ <- ip4_route dest ;;
  (match netif_ with
   | Some netif_ =>
       pbufs (write_mem icmphdr 2 (le16 0)) ;;;
       sum <- chksum_at block_addr icmphdr n ;;
       pbufs (write_mem icmphdr 2 (le16 sum)) ;;;
       ip4_output_if custom q None (Some dest) ICMP_TTL 0 IP_PROTO_ICMP netif_ ;;;
       ret tt
   | None => ret tt
   end) ;;;
  pbufs (pbuf_free custom (Some q)) ;;;
  ret tt.

Lemma one_ptr q y bs : ptrs [Node q y bs] = {[q]}.
Proof. unfold ptrs. cbn. by rewrite union_empty_r_L. Qed.

(** The checksum is filled in. *)
Lemma response_summed s0 s q y bs type_ code data : since s0 q y bs [] s -> len y = 36 -> length data = 28%nat ->
  write_list bs 2 (le16 0) = icmp_fields type_ code 0 [0; 0; 0; 0] data ->
  exists s1 sum, (pbufs (write_mem (payload y) 2 (le16 0)) ;;;
     sum <- chksum_at block_addr (payload y) 36 ;;
     pbufs (write_mem (payload y) 2 (le16 sum))) s = (Ret tt, s1) /\
   since s0 q y (icmp_fields type_ code sum [0; 0; 0; 0] data) [] s1 /\
   (octet type_ -> octet code -> bytes data -> ip_sum (icmp_fields type_ code sum [0; 0; 0; 0] data) = 0).
Proof.
  intros Hc Hl Hd Hw. destruct (since_write _ _ _ _ _ _ 2 (le16 0) Hc) as (s1 & Hw1 & Hc1); [lia|cbn; lia|]. cstep Hw1.
  change (Z.to_nat 2) with 2%nat in Hc1. rewrite Hw in Hc1. set (msg := icmp_fields type_ code 0 [0; 0; 0; 0] data) in *.
  assert (Hlm : length msg = 36%nat) by (unfold msg, icmp_fields; rewrite !length_app; cbn; lia).
  set (sum := inet_chksum (payload_addr block_addr (payload y)) msg).
  assert (Hck : chksum_at block_addr (payload y) 36 s1 = (Ret sum, s1)).
  { unfold chksum_at. cstep (read_at s1 y msg 0 36 (owns_holds _ _ _ _ _ (proj1 (proj2 (proj1 Hc1)))) ltac:(lia)).
    unfold field. by rewrite drop_0, take_ge by lia. }
  cstep Hck. destruct (since_write _ _ _ _ _ _ 2 (le16 sum) Hc1) as (s2 & Hw2 & Hc2); [lia|cbn; lia|].
  exists s2, sum. split; [exact Hw2|]. split; [exact Hc2|]. intros Ht Hco Hb.
  apply (filled_sum [type_; code] ([0; 0; 0; 0] ++ data)); [by repeat constructor; apply Ht || apply Hco| |done|].
  - apply Forall_app_2; [|done]. by repeat constructor.
  - cbn. lia.
Qed.

Lemma response_end_runs s0 s q y bs m type_ code : (forall i, one_piece (netifs s0 i) 56) -> since s0 q y bs [] s -> len y = 36 -> tot_len y = 36 ->
  payload y = Some (q, 36) -> length (take 28 m) = 28%nat -> octet type_ -> octet code ->
  write_list bs 2 (le16 0) = icmp_fields type_ code 0 [0; 0; 0; 0] (take 28 m) ->
  exists s', response_end q (payload y) 36 (ip_src m) s = (Ret tt, s') /\ arp_ok s' /\
    (exists s2, steps {[q]} (rest s0) s0 s2 /\ steps {[q]} (rest s2 ∖ {[q]}) s2 s') /\
    ((routed_to s0 (ip_src m) = None /\ same_table s0 s' /\ dev s' = dev s0) \/
     exists nif s1 s2 sum r, routed_to s0 (ip_src m) = Some nif /\ same_table s0 s1 /\ netifs s1 = netifs s0 /\ dev s1 = dev s0 /\
       (bytes (take 28 m) -> ip_sum (icmp_fields type_ code sum [0; 0; 0; 0] (take 28 m)) = 0) /\
       goes_out s1 s2 nif (ip_addr (netifs s0 nif)) (ip_src m) ICMP_TTL 0 IP_PROTO_ICMP y
         (icmp_fields type_ code sum [0; 0; 0; 0] (take 28 m)) r /\
       same_table s2 s' /\ dev s' = dev s2).
Proof.
  intros Hone Hc Hl Ht Hpl Hlm Hty Hco Hw. pose proof Hc as (Hh & Hwi & Hd). unfold response_end. cstep (ip4_route_run s (ip_src m)).
  assert (Hn : netifs s = netifs s0) by (by eapply within_netifs). assert (Hrt : routed_to s (ip_src m) = routed_to s0 (ip_src m)).
  { unfold routed_to. by rewrite Hd, Hn. }
  rewrite Hrt. destruct (routed_to s0 (ip_src m)) as [nif|].
  - destruct (response_summed s0 s q y bs type_ code (take 28 m) Hc Hl Hlm Hw) as (s1 & sum & Hs & (Hh1 & Hw1 & Hd1) & Hsum).
    set (msg := icmp_fields type_ code sum [0; 0; 0; 0] (take 28 m)) in *.
    pose proof Hh1 as (Hok1 & Ho1 & Hsub1). assert (Hn1 : netifs s1 = netifs s0) by (by eapply within_netifs).
    assert (Hr1 : rest s1 = rest s0) by (by eapply within_rest).
    assert (Hout : exists r s2, ip4_output_if custom q None (Some (ip_src m)) ICMP_TTL 0 IP_PROTO_ICMP nif s1 = (Ret r, s2) /\
      arp_ok s2 /\ steps {[q]} (rest s1) s1 s2 /\ (exists x' bs', owns (hp s2) q [Node q x' bs']) /\
      goes_out s1 s2 nif (ip_addr (netifs s0 nif)) (ip_src m) ICMP_TTL 0 IP_PROTO_ICMP y msg r).
    { unfold ip4_output_if. cstep (eq_refl (gets (fun s => netifs s nif) s1)). rewrite Hn1. cbn [andb].
      destruct (ip4_output_runs custom block_addr s1 q y msg [] 36 (Some (ip_addr (netifs s0 nif))) (ip_src m) ICMP_TTL 0 IP_PROTO_ICMP nif)
        as (r & s2 & Hr & Hok2 & Hs2 & Ho2 & Hgo); try done; [constructor|lia|rewrite Hn1, Ht; apply Hone|].
      exists r, s2. split; [done|]. split; [done|]. split; [done|]. split; [done|].
      change (content [Node q y msg]) with (msg ++ []) in Hgo. by rewrite app_nil_r in Hgo. }
    destruct Hout as (r & s2 & Hr & Hok2 & Hs2 & (x' & bs' & Ho2) & Hgo).
    assert (Hh2 : holder s2 q x' bs' []).
    { split; [done|]. split; [done|]. rewrite one_ptr in Hsub1 |- *. by destruct Hs2 as (-> & _). }
    destruct (free_runs custom s2 q x' bs' [] Hh2) as (k & s3 & Hf & Hok3 & Hs3 & Ht3 & Hd3). rewrite one_ptr in Hs3.
    exists s3. split.
    { rewrite (then_two _ _ _ _ _ _ _ Hs). rewrite bind_bind. cstep Hr. cstep (eq_refl (ret tt s2)). by cstep Hf. }
    split; [done|]. split.
    { exists s2. split; [|done]. destruct Hw1 as (_ & Hs1 & _). rewrite Hr1 in Hs2.
      eapply steps_drop; [exact (steps_trans _ _ _ _ _ _ _ Hs1 Hs2 ltac:(set_solver))|set_solver]. }
    right. exists nif, s1, s2, sum, r. split; [done|]. split; [by destruct Hw1 as (_ & _ & ? & _)|]. split; [done|]. split; [done|].
    split; [by apply Hsum|]. by split.
  - cstep (eq_refl (ret tt s)). destruct (free_runs custom s q y bs [] Hh) as (k & s3 & Hf & Hok3 & Hs3 & Ht3 & Hd3).
    rewrite one_ptr in Hs3. exists s3. split; [by cstep Hf|]. split; [done|]. destruct Hwi as (_ & Hs1 & Ht1 & _). split.
    { by exists s. } left. destruct Ht1, Ht3. split; [done|]. split; [split|]; congruence.
Qed.

Lemma response_runs s p x bs l k m type_ code : (forall i, one_piece (netifs s i) 56) -> holder s p x bs l -> at_payload (hp s) p x k m ->
  (28 <= k)%nat -> octet type_ -> octet code ->
  exists s', icmp_send_response custom block_addr p type_ code s = (Ret tt, s') /\ arp_ok s' /\ keeps ∅ s s' /\
    icmp_told s s' type_ code m.
Proof.
  intros Hone Hh Hm Hk Hty Hco. pose proof Hh as (Hok & Ho & Hsub). pose proof (holder_in _ _ _ _ _ Hh) as Hp.
  unfold icmp_send_response. destruct (alloc_runs custom s PBUF_IP 34 36 eq_refl ltac:(lia) Hok) as (o & s1 & Hal & Hok1 & Ht1 & Hd1 & Hpost).
  cstep Hal. destruct o as [q|].
  2:{ destruct Hpost as [Hkeep Hno]. exists s1. split_and!; [done..|]. left. split; [by left|done]. }
  destruct Hpost as (y & cs & Hy & Hly & Hty1 & Hpl & Hfresh & Hs1). change (LWIP_MEM_ALIGN_SIZE 34) with 36 in Hpl.
  assert (Hpq : p <> q) by (intros ->; unfold rest in Hp; set_solver).
  assert (Hp1 : p ∈ rest s1) by (destruct Hs1 as (-> & _); set_solver).
  assert (Hm1 : at_payload (hp s1) p x k m) by (eapply at_payload_steps; [exact Hm|exact Hs1|done|set_solver]).
  pose proof (holder_keeps s s1 _ p x bs l Hh Hok1 Hs1 ltac:(set_solver)) as (_ & Ho1 & _).
  pose proof Hy as (_ & Hoy & _). pstep (load_head _ _ _ _ Hoy). cbn [n_buf]. rewrite Hly.
  erewrite bind_ret by by apply assert_true. pstep (load_head _ _ _ _ Ho1). cbn [n_buf].
  destruct (owns_head_payload _ _ _ _ _ Hoy) as (_ & _ & _ & _ & Hlb & _).
  destruct (response_message s1 s1 q y p x cs k m type_ code (since_refl _ _ _ _ _ Hy) Hly ltac:(lia) Hm1 Hk Hp1 Hpq)
    as (s2 & Hr2 & Hc2 & _).
  pose proof (at_payload_length _ _ _ _ _ Hm) as Hlm.
  assert (Hn1 : netifs s1 = netifs s) by apply Hs1.
  destruct (response_end_runs s1 s2 q y _ m type_ code ltac:(by rewrite Hn1) Hc2 Hly Hty1 Hpl ltac:(rewrite length_take; lia) Hty Hco
    ltac:(apply response_bytes; [lia|rewrite length_take; lia])) as (s3 & Hr3 & Hok3 & (s2' & Hst2 & Hst3) & Htold).
  exists s3. split.
  { transitivity (response_end q (payload y) 36 (ip_src m) s2); [exact (Hr2 (response_end q (payload y) 36))|exact Hr3]. }
  split; [done|]. split; [by eapply (fresh_released s s1 s2' s3 q)|].
  assert (Hrt : routed_to s1 (ip_src m) = routed_to s (ip_src m)) by (unfold routed_to; by rewrite Hd1, Hn1).
  rewrite Hrt, Hn1 in Htold. destruct Ht1 as [T1 C1]. destruct Htold as [(Hno & [T3 C3] & Hd3)|(nif & t1 & t2 & sum & r & H1 & [T2 C2] & H3)].
  - left. split; [by right|]. split; [split|]; congruence.
  - right. exists nif, t1, t2, y, sum, r. split; [done|]. split; [split; congruence|]. rewrite Hd1 in H3. naive_solver.
Qed.
End Response.
