(* ===== verification/IpArrive.v ===== *)
(** * A datagram arrives: from the frame on the wire to its protocol, UDP to the callback of its block *)
From S2P Require Export IpIn EtharpDispatch.

#[local] Set Warnings "-clear-no-such-hyp".

(** ** The fields of a datagram, read back *)
Lemma htons_back v : 0 <= v < 65536 -> lwip_htons (lwip_htons v) = v.
Proof. intros Hv. rewrite !lwip_htons_arith, <- !PP_HTONS_arith. by apply PP_HTONS_involutive. Qed.

Lemma htons_range v : 0 <= lwip_htons v < 65536.
Proof. apply u16_range. Qed.

Lemma field_le16 v : 0 <= v < 65536 -> lwip_htons (of_le16 (le16 (lwip_htons v))) = v.
Proof. intros Hv. rewrite of_le16_le16 by apply htons_range. by apply htons_back. Qed.

Lemma ip_header_parsed total id src dst ttl tos proto c : 0 <= total < 65536 -> ip_address src -> ip_address dst ->
  let d := ip_header total id src dst ttl tos proto ++ c in
  ip_version d = 4 /\ ip_hlen d = 20 /\ be16 2 d = total /\ fragment d = false /\ ip_src d = src /\
  ip_dst d = dst /\ ip_proto d = proto.
Proof.
  intros Ht Hs Hd d.
  split; [done|]. split; [done|]. split; [by apply field_le16|]. split; [done|].
  split; [by apply of_le32_addr|]. split; [by apply of_le32_addr|done].
Qed.

Lemma ip_header_sum total id src dst ttl tos proto : octet ttl -> octet tos -> octet proto ->
  ip_sum (ip_header total id src dst ttl tos proto) = 0.
Proof.
  intros Ht Hs Hp. pose proof (ip_header_verifies 0 total id src dst ttl tos proto Ht Hs Hp) as Hv.
  rewrite inet_chksum_ok in Hv; [done| |done]. by apply ip_fields_bytes.
Qed.

Lemma ip_header_bytes total id src dst ttl tos proto : octet ttl -> octet tos -> octet proto ->
  bytes (ip_header total id src dst ttl tos proto).
Proof. apply ip_fields_bytes. Qed.

Lemma udp_datagram_parsed nochk src dst sport dport c : 0 <= sport < 65536 -> 0 <= dport < 65536 ->
  let u := udp_datagram nochk src dst sport dport c in be16 0 u = sport /\ be16 2 u = dport.
Proof. intros Hs Hd u. split; by apply field_le16. Qed.

Lemma udp_datagram_intact nochk src dst sport dport c k : ip_address src -> ip_address dst -> bytes c ->
  Z.of_nat (length c) + 8 < 65536 -> src_addr k = src -> dest_addr k = dst ->
  udp_intact k (udp_datagram nochk src dst sport dport c) = true.
Proof.
  intros Hs Hd Hc Hl <- <-. unfold udp_intact. destruct nochk; [done|].
  rewrite (proj2 (udp_datagram_verifies _ _ sport dport c Hs Hd Hc Hl)). apply orb_true_r.
Qed.

Lemma ip_fields_agree m c : (forall off n, (off + n <= 20)%nat -> field off n m = field off n c) ->
  ip_version m = ip_version c /\ ip_hlen m = ip_hlen c /\ be16 2 m = be16 2 c /\ fragment m = fragment c /\
  ip_src m = ip_src c /\ ip_dst m = ip_dst c /\ ip_proto m = ip_proto c.
Proof.
  intros Hf. unfold ip_version, ip_hlen, be16, fragment, ip_src, ip_dst, ip_proto.
  rewrite (Hf 0%nat 1%nat), (Hf 2%nat 2%nat), (Hf 6%nat 2%nat), (Hf 12%nat 4%nat), (Hf 16%nat 4%nat), (Hf 9%nat 1%nat) by lia.
  by split_and!.
Qed.

(** The frame is an IP frame. *)
Lemma frame_is_ip n dst src (m : list Z) : length dst = 6%nat -> length src = 6%nat -> (0 < length m)%nat ->
  truthy (Z.land (nflags n) NETIF_FLAG_ETHARP) = true ->
  frame_for ETHTYPE_IP n (eth_frame dst src ETHTYPE_IP m) = true.
Proof.
  intros Hd Hs Hm Hf. unfold frame_for. rewrite Hf.
  assert (Ht : f_type (eth_frame dst src ETHTYPE_IP m) = PP_HTONS ETHTYPE_IP).
  { do 7 (destruct dst as [|? dst]; [try done|]); [|done]. do 7 (destruct src as [|? src]; [try done|]); done. }
  rewrite Ht. rewrite (proj2 (Z.ltb_lt _ _)); [done|].
  unfold eth_frame. rewrite !length_app. cbn [le16 length]. change SIZEOF_ETH_HDR with 14. lia.
Qed.

Lemma frame_payload dst src ty (m : list Z) : length dst = 6%nat -> length src = 6%nat ->
  drop 14 (eth_frame dst src ty m) = m.
Proof.
  intros Hd Hs. unfold eth_frame. do 7 (destruct dst as [|? dst]; [try done|]); [|done].
  do 7 (destruct src as [|? src]; [try done|]); done.
Qed.

(** The same command from another state. *)
Lemma bind_eq {S B C : Type} (m m' : cmd S B) (k : B -> cmd S C) s s' : m s = m' s' -> bind m k s = bind m' k s'.
Proof. unfold bind. by intros ->. Qed.

Section Arrive.
Context {A D : Type} `{Allocator A} `{Controller D} `{!Peers A D}.
Context (custom : ptr -> heap A -> heap A) (block_addr : ptr -> Z).
Implicit Types (s : link A (stack D)) (l : list node).

Lemma incoming_field s p x bs l k m off n : incoming s p x bs l k m -> Z.of_nat (length bs) <= Z.of_nat k ->
  (off + n <= length bs)%nat -> field off n m = field off n (bs ++ content l).
Proof.
  intros Hin Hk Hl. rewrite field_app by done. rewrite (incoming_bytes _ _ _ _ _ _ _ Hin Hk) at 1.
  unfold field. rewrite skipn_firstn_comm, take_take. f_equal. lia.
Qed.

(** The source of a packet that is let in. *)
Definition sender_ok (n : netif) (src : Z) : Prop :=
  src = 0 \/ (ip4_addr_isbroadcast src n = false /\ ip4_addr_ismulticast src = false).

(** The packet as its protocol gets it: the payload of the datagram, with what its header said. *)
Definition unwrapped s (p : ptr) x bs l k m (inp nif src dst : Z) (c : list Z) s1 x1 bs1 l1 : Prop :=
  (exists m1, incoming s1 p x1 bs1 l1 (k - 20) m1) /\ bs1 ++ content l1 = c /\ len x1 = Z.min (Z.of_nat (length c)) (len x - 20) /\
  dev s1 = with_ip_data (IpGlobals (Some nif) (Some inp) (payload x) 20 src dst) (dev s) /\
  at_payload (hp s1) p x k m /\ only (ptrs (Node p x bs :: l)) s s1 /\ ptrs (Node p x1 bs1 :: l1) ⊆ ptrs (Node p x bs :: l) /\
  payload x1 = payload (moved 20 x) /\
  rest s1 = rest s ∖ (ptrs (Node p x bs :: l) ∖ ptrs (Node p x1 bs1 :: l1)).

Lemma ip4_input_datagram s p x bs l k m inp nif id src dst ttl tos proto c pad : incoming s p x bs l k m ->
  (64 <= k)%nat -> Z.of_nat (length bs) <= Z.of_nat k -> 20 <= len x ->
  bs ++ content l = datagram id src dst ttl tos proto c ++ pad -> Z.of_nat (length c) + 20 < 65536 ->
  ip_address src -> ip_address dst -> octet ttl -> octet tos -> octet proto ->
  accepted_by s inp dst = Some nif -> sender_ok (netifs s inp) src ->
  exists s1 x1 bs1 l1, unwrapped s p x bs l k m inp nif src dst c s1 x1 bs1 l1 /\
    ip4_input_ custom block_addr p inp s =
      (ip4_to_protocol custom block_addr p inp nif (payload x) 20 dst proto ;;; on_dev (with_ip_data idle_ip_data)) s1.
Proof.
  intros Hin Hk Hbk Hl Hc Hlc Hsrc Hdst Httl Htos Hproto Hacc Hsnd.
  pose proof Hin as ((_ & Ho & _) & _). destruct (owns_head_payload _ _ _ _ _ Ho) as (_ & _ & _ & _ & Hlb & Htot).
  set (hdr := ip_header (Z.of_nat (length c) + 20) id src dst ttl tos proto).
  assert (Hhdr : length hdr = 20%nat) by done. unfold datagram in Hc. fold hdr in Hc. rewrite <- app_assoc in Hc.
  destruct (ip_fields_agree m (bs ++ content l)) as (Ev & Eh & En & Ef & Es & Ed & Ep).
  { intros off n Hn. eapply incoming_field; [exact Hin|done|lia]. }
  rewrite Hc in Ev, Eh, En, Ef, Es, Ed, Ep.
  destruct (ip_header_parsed (Z.of_nat (length c) + 20) id src dst ttl tos proto (c ++ pad)) as (Fv & Fh & Fn & Ff & Fs & Fd & Fp);
    [lia|done|done|]. fold hdr in Fv, Fh, Fn, Ff, Fs, Fd, Fp. rewrite Fv in Ev. rewrite Fh in Eh. rewrite Fn in En.
  rewrite Ff in Ef. rewrite Fs in Es. rewrite Fd in Ed. rewrite Fp in Ep.
  assert (Htl : Z.of_nat (length (bs ++ content l)) = 20 + Z.of_nat (length c) + Z.of_nat (length pad)).
  { rewrite Hc, !length_app, Hhdr. lia. }
  pose proof (ip4_input_checked custom block_addr s p x bs l k m inp Hin ltac:(lia)) as Hchk. rewrite Ev in Hchk.
  destruct Hchk as (s1 & x1 & bs1 & l1 & Hin1 & Htr & Hrun). rewrite En, Eh in *.
  destruct Htr as (Hpl1 & Hc1 & Hl1 & Ht1 & Hon1 & Hd1 & Hsub1 & Hrest1).
  assert (Hc1' : bs1 ++ content l1 = hdr ++ c).
  { rewrite Hc1, Hc, app_assoc. apply take_app_length'. rewrite length_app, Hhdr. lia. }
  pose proof Hin1 as ((_ & Ho1 & _) & _). destruct (owns_head_payload _ _ _ _ _ Ho1) as (_ & _ & _ & _ & Hlb1 & _).
  assert (Hl20 : 20 <= len x1) by lia.
  assert (Hsound : ip_sound x1 bs1 m = true).
  { unfold ip_sound. rewrite Eh, En. change IP_HLEN with 20. rewrite !(proj2 (Z.ltb_ge _ _)) by lia. cbn [orb negb andb].
    assert (take (Z.to_nat 20) bs1 = hdr) as ->.
    { rewrite <- (take_app_le bs1 (content l1)) by lia. rewrite Hc1'. by apply take_app_length'. }
    unfold hdr. by rewrite ip_header_sum. }
  rewrite Hsound in Hrun. clear Hsound.
  pose proof (ip4_addressed_ok custom block_addr s1 p x1 bs1 l1 k m inp Hin1 Hk) as Hadd. rewrite Eh in Hadd.
  assert (Hn1 : netifs s1 = netifs s) by apply Hon1.
  assert (Hdest : destined s1 inp m = Some nif).
  { unfold destined, accepted_by. rewrite Ed, Es, Hn1, Hd1. unfold accepted_by in Hacc. rewrite Hacc. cbn [negb andb].
    assert (negb (ip4_addr_isany src) && (ip4_addr_isbroadcast src (netifs s inp) || ip4_addr_ismulticast src) = false) as ->; [|done].
    destruct Hsnd as [->|[-> ->]]; [done|]. apply andb_false_r. }
  rewrite Hdest in Hadd. cbv zeta in Hadd. pose proof (with_data_incoming (addressed s1 m) _ _ _ _ _ _ _ Hin1) as Hin2.
  set (s2 := with_data (addressed s1 m) s1) in *.
  pose proof (ip4_whole_ok custom block_addr s2 p x1 bs1 l1 k m inp nif Hin2 ltac:(lia) Ef) as Hwh. rewrite Eh in Hwh. cbv zeta in Hwh.
  pose proof (with_data_incoming (handling s2 nif inp (payload x1) 20) _ _ _ _ _ _ _ Hin2) as Hin3.
  set (s3 := with_data _ s2) in *.
  destruct (ip4_deliver_ok custom block_addr s3 p x1 bs1 l1 k m inp nif (current_iphdr_dest (ip_data (dev s2))) Hin3 ltac:(lia) ltac:(lia))
    as (s4 & (Hin4 & Hw4 & Hd4 & Hm4) & Hdel). rewrite Eh in *. rewrite Ep in Hdel.
  exists s4, (moved 20 x1), (drop 20 bs1), l1. split.
  - split; [eauto|]. split.
    { rewrite <- (drop_app_le bs1 (content l1)) by lia. rewrite Hc1'. by apply drop_app_length'. }
    split; [cbn; lia|]. split.
    { rewrite Hd4. unfold s3, s2, with_data, handling, addressed. cbn. rewrite Hd1, Es, Ed, Hpl1. by destruct (dev s). }
    split; [|split; [|split; [done|split; [cbn; by rewrite Hpl1|]]]].
    3: { rewrite (within_rest _ _ _ Hw4). exact Hrest1. }
    + destruct Hm4 as (o & a & Hpl & Hm4). exists o, a. by rewrite <- Hpl1.
    + apply (only_trans _ _ s1); [done|]. apply (only_trans _ _ s3).
      * unfold only. split_and!; [done..|set_solver|done|done].
      * eapply only_weaken; [by apply within_only|].
        pose proof (ptrs_elem (Node p x bs) (Node p x bs :: l) ltac:(left)) as Hp. cbn in Hp. set_solver.
  - rewrite Hrun, Hadd, Hwh. rewrite <- Hpl1. apply bind_eq. rewrite Hdel. unfold s2. cbn. by rewrite Ed.
Qed.
(** The callback of the block [pcb] gets the payload [c]: what it finds. *)
Definition udp_handed s p x l ul k pcb y (inp nif : Z) (c : list Z) s1 : Prop := exists x1 bs1 l1 u1,
  holder s1 p x1 bs1 l1 /\ bs1 ++ content l1 = c /\ ptrs (Node p x1 bs1 :: l1) ⊆ ptrs (Node p x [] :: l) /\
  only (ptrs (Node p x [] :: l)) s s1 /\
  dev s1 = with_udp u1 (with_ip_data (IpGlobals (Some nif) (Some inp) (payload x) 20 (src_addr k) (dest_addr k)) (dev s)) /\
  udp_ok u1 (reordered (pcbs (udp (dev s))) k ul) /\ fields (pcbs u1) = fields (pcbs (udp (dev s))) /\
  exists y1, pcbs u1 !! pcb = Some y1 /\ unlinked y1 = unlinked y.

Lemma udp_arrives s ul p x bs l k m inp nif id src dst ttl tos nochk sport dport c pad pcb y f : incoming s p x bs l k m ->
  (64 <= k)%nat -> Z.of_nat (length bs) <= Z.of_nat k -> 28 <= len x ->
  bs ++ content l = datagram id src dst ttl tos IP_PROTO_UDP (udp_datagram nochk src dst sport dport c) ++ pad ->
  Z.of_nat (length c) + 28 < 65536 ->
  ip_address src -> ip_address dst -> octet ttl -> octet tos -> 0 <= sport < 65536 -> 0 <= dport < 65536 ->
  accepted_by s inp dst = Some nif -> sender_ok (netifs s inp) src -> udp_ok (udp (dev s)) ul ->
  let key := PacketTo src sport dst dport (ip4_addr_isbroadcast dst (netifs s nif)) (netmask (netifs s inp)) in
  chosen (pcbs (udp (dev s))) key ul = Some pcb -> pcbs (udp (dev s)) !! pcb = Some y -> recv y = Some f ->
  exists s1, udp_handed s p x l ul key pcb y inp nif c s1 /\
    ip4_input_ custom block_addr p inp s =
      (udp_recv_fn f (recv_arg y) pcb p src sport ;;; on_dev (with_ip_data idle_ip_data)) s1.
Proof.
  intros Hin Hk Hbk Hl Hc Hlc Hsrc Hdst Httl Htos Hsp Hdp Hacc Hsnd Hu key Hch Hy Hf.
  set (u := udp_datagram nochk src dst sport dport c) in *.
  assert (Hlu : Z.of_nat (length u) = Z.of_nat (length c) + 8).
  { unfold u, udp_datagram. rewrite length_app. change (length (udp_fields _ _ _ _)) with 8%nat. lia. }
  destruct (ip4_input_datagram s p x bs l k m inp nif id src dst ttl tos IP_PROTO_UDP u pad Hin Hk Hbk
    ltac:(lia) Hc ltac:(lia) Hsrc Hdst Httl Htos ltac:(done) Hacc Hsnd) as (s1 & x1 & bs1 & l1 & Hun & Hrun).
  destruct Hun as ((m1 & Hin1) & Hc1 & Hl1 & Hd1 & _ & Hon1 & Hsub1 & _). pose proof Hin1 as (Hh1 & _ & _ & Ht1 & Hby1 & _).
  assert (Hn1 : netifs s1 = netifs s) by apply Hon1. assert (Hu1 : udp (dev s1) = udp (dev s)) by by rewrite Hd1.
  pose proof (udp_input_runs custom block_addr s1 ul p x1 bs1 l1 nif inp Hh1) as Hudp. rewrite Hu1, Hd1, Hc1 in Hudp.
  specialize (Hudp Hu eq_refl Ht1 ltac:(by rewrite <- Hc1) Hsrc Hdst). rewrite (proj2 (Z.ltb_ge _ _)) in Hudp by lia. cbv zeta in Hudp.
  assert (Hkey : udp_key s1 nif inp u = key).
  { unfold udp_key, key. rewrite Hd1, Hn1. destruct (udp_datagram_parsed nochk src dst sport dport c Hsp Hdp) as [E1 E2].
    fold u in E1, E2. by rewrite E1, E2. }
  rewrite Hkey, Hch in Hudp. destruct Hudp as (s2 & Hsr & Hrec). unfold udp_received in Hrec. rewrite Hc1 in Hrec.
  assert (Hbc : bytes c).
  { rewrite Hc1 in Hby1. unfold u, udp_datagram in Hby1. by apply Forall_app in Hby1 as [_ Hby1]. }
  pose proof (udp_datagram_intact nochk src dst sport dport c key Hsrc Hdst Hbc ltac:(lia) eq_refl eq_refl) as Hint.
  fold u in Hint. rewrite Hint in Hrec. cbn [negb orb] in Hrec.
  destruct Hrec as (s3 & Hrun3 & Hh3 & Hw3 & Hd3 & _).
  destruct (searched_holder _ _ _ _ _ _ _ _ Hh1 Hsr) as [_ Hw2]. destruct Hsr as (u1 & Hs2 & Hok1 & Hfl). rewrite Hu1 in Hok1, Hfl.
  destruct (fields_lookup (pcbs u1) pcb (unlinked y)) as (y1 & Hy1 & Hyy).
  { rewrite Hfl. unfold fields. by rewrite lookup_fmap, Hy. }
  assert (Hd3' : dev s3 = with_udp u1 (dev s1)) by (rewrite Hd3, Hs2; done).
  exists s3. split.
  - exists (moved 8 x1), (drop 8 bs1), l1, u1. split; [done|]. split.
    { destruct (owns_head_payload _ _ _ _ _ (proj1 (proj2 Hh1))) as (_ & _ & _ & _ & Hlb1 & _).
      rewrite <- (drop_app_le bs1 (content l1)) by lia. rewrite Hc1. by apply drop_app_length'. }
    split; [exact Hsub1|]. split; [|split; [by rewrite Hd3', Hd1|split; [done|split; [done|by exists y1]]]].
    assert (Hp : {[p]} ⊆ ptrs (Node p x [] :: l)).
    { pose proof (ptrs_elem (Node p x []) (Node p x [] :: l) ltac:(left)) as Hp. cbn in Hp. set_solver. }
    apply (only_trans _ _ s1); [exact Hon1|]. apply (only_trans _ _ s2); (eapply only_weaken; [by apply within_only|done]).
  - rewrite Hrun. apply bind_eq. unfold ip4_to_protocol. rewrite Z.eqb_refl. rewrite Hrun3. unfold udp_taken.
    assert (Hpcb : blocks (pcb_at pcb) s3 = (Ret y1, s3)).
    { rewrite <- (with_blocks_id s3) at 2. apply blocks_run. rewrite Hd3'. cbn. unfold pcb_at. by rewrite Hy1. }
    cstep Hpcb. assert (Hyr : recv y1 = recv y /\ recv_arg y1 = recv_arg y).
    { clear -Hyy. destruct y1, y. injection Hyy. by intros. }
    destruct Hyr as [-> ->]. by rewrite Hf.
Qed.
End Arrive.

(** ** From the frame on the wire to [ip4_input] *)
Lemma keep_union (R R1 P : gset ptr) : R1 = R ∪ P -> P ## R -> R ⊆ R1 ∖ P /\ P ⊆ R1.
Proof. set_solver. Qed.

Section Frames.
Context {A D : Type} `{Allocator A} `{Controller D} `{!Peers A D}.
Context (custom : ptr -> heap A -> heap A) (block_addr : ptr -> Z).
#[local] Instance up : Upper A (stack D) := stack_upper custom block_addr.
Implicit Types (s t : link A (stack D)) (l : list node).

(** The Ethernet header is off: the packet that [ip4_input] gets. *)
Lemma frame_handed s p x bs l dst src ty m nif : arp_ok s -> received s p (Node p x bs) l (eth_frame dst src ty m) ->
  ptrs (Node p x bs :: l) ⊆ rest s -> Z.of_nat (length m) <= 1504 -> length dst = 6%nat -> length src = 6%nat ->
  (28 <= length m)%nat -> bytes m -> ty = ETHTYPE_IP -> truthy (Z.land (nflags (netifs s nif)) NETIF_FLAG_ETHARP) = true ->
  exists s2 x2 bs2 m2, ethernet_input custom p nif s = (ip4_input_ custom block_addr p nif ;;; ret ERR_OK) s2 /\
    incoming s2 p x2 bs2 l 1502 m2 /\ bs2 ++ content l = m /\ 28 <= len x2 <= 1502 /\ payload x2 = Some (p, 14) /\
    steps {[p]} (rest s) s s2 /\ seen s p s2.
Proof.
  intros Hok Hrec Hsub Hlm Hd Hs Hm28 Hby -> Hfl. set (frame := eth_frame dst src ETHTYPE_IP m) in *.
  assert (Hfr : Z.of_nat (length frame) = 14 + Z.of_nat (length m)).
  { unfold frame, eth_frame. rewrite !length_app, Hd, Hs. cbn [le16 length]. lia. }
  pose proof Hrec as (Ho & Hc & _ & Hpool). rewrite content_cons in Hc. cbn [n_bytes] in Hc.
  destruct (owns_head_payload _ _ _ _ _ Ho) as (_ & _ & _ & _ & Hlb & Htot). rewrite Hc, Hfr in Htot.
  destruct (ethernet_handed custom s p x bs l frame nif Hok Hrec Hsub ltac:(lia)) as (m2 & _ & Hlbs & _ & _ & Hgo).
  destruct (Hgo ETHTYPE_IP (frame_is_ip (netifs s nif) dst src m Hd Hs ltac:(lia) Hfl) ltac:(by left)) as (s2 & Hr & x2 & Hok2 & Hst & Hseen & Ho2 & Hm2 & Hty & Hl2 & Ht2 & Hp2).
  rewrite Z.eqb_refl in Hr. exists s2, x2, (drop 14 bs), m2. split; [exact Hr|].
  assert (Hcont : drop 14 bs ++ content l = m).
  { rewrite <- drop_app_le, Hc by lia. by apply frame_payload. }
  split; [|split; [done|split; [lia|split; [done|done]]]].
  split; [split; [done|split; [done|by destruct Hst as (-> & _)]]|].
  apply Forall_cons in Hpool as [Hpx Hpl]. split; [constructor; [cbn in *; congruence|done]|]. split; [done|].
  split; [lia|]. split; [by rewrite Hcont|by eapply received_filled].
Qed.

(** The packet of the frame: the datagram [m], in memory of its own. *)
Definition arrived t (p : ptr) x bs l (mem m : list Z) s : Prop :=
  incoming s p x bs l 1502 mem /\ bs ++ content l = m /\ 28 <= len x <= 1502 /\ payload x = Some (p, 14) /\
  same_table t s /\ netifs s = netifs t /\ dev s = dev t /\
  rest s = rest t ∪ ptrs (Node p x bs :: l) /\ ptrs (Node p x bs :: l) ## live (al (hp t)) /\
  forall q, q ∈ rest t -> pb (hp s) !! q = pb (hp t) !! q /\ bl (hp s) !! q = bl (hp t) !! q.

Lemma frame_arrives t frames dst src m nif : arp_ok t -> (forall q, PBUF_FLAG_custom (stale_pbuf q) = false) ->
  Z.of_nat (length m) <= 1504 -> length dst = 6%nat -> length src = 6%nat -> (28 <= length m)%nat -> bytes m ->
  truthy (Z.land (nflags (netifs t nif)) NETIF_FLAG_ETHARP) = true ->
  let frame := eth_frame dst src ETHTYPE_IP m in
  (exists t', ethernetif_input custom (frame :: frames) nif t = (Ret tt, t') /\ keeps ∅ t t' /\ dev t' = dev t /\
     refused custom PBUF_RAW (Z.of_nat (length frame)) PBUF_POOL (hp t)) \/
  exists p x bs l mem s, arrived t p x bs l mem m s /\
    ethernetif_input custom (frame :: frames) nif t =
      (ip4_input_ custom block_addr p nif ;;; ethernetif_input custom frames nif) s.
Proof.
  intros Hok Hst Hlm Hdm Hsm Hm28 Hbm Harp frame.
  assert (Hfr : Z.of_nat (length frame) = 14 + Z.of_nat (length m)).
  { unfold frame, eth_frame. rewrite !length_app, Hdm, Hsm. cbn [le16 length]. lia. }
  destruct (low_level_input_ok custom t frame Hok Hst ltac:(lia)) as (o & t0 & Hr0 & Hok0 & Ht0 & (_ & _ & Hd0) & Hpost).
  cbn [ethernetif_input]. destruct o as [p|].
  2:{ destruct Hpost. left. exists t0. cstep Hr0. by split_and!. }
  right. destruct Hpost as (n & l & Hrec & Hfresh & _ & Hs0). pose proof (owns_head _ _ _ _ (proj1 Hrec)) as Hq.
  destruct n as [p' x bs]. cbn in Hq. subst p'. assert (Hn0 : netifs t0 = netifs t) by apply Hs0.
  assert (Hr0' : rest t0 = rest t ∪ ptrs (Node p x bs :: l)) by apply Hs0.
  destruct (keep_union _ _ _ Hr0') as [Hk1 Hk2]. { unfold rest. set_solver. }
  destruct (frame_handed t0 p x bs l dst src ETHTYPE_IP m nif Hok0 Hrec Hk2 ltac:(lia) Hdm Hsm ltac:(lia) Hbm eq_refl ltac:(by rewrite Hn0))
    as (s2 & x2 & bs2 & m2 & Hrun & Hin & Hcont & Hl2 & Hp2 & (R2 & _ & K2) & ([T2 C2] & Hn2 & Hd2 & _)).
  exists p, x2, bs2, l, m2, s2. split.
  - destruct Ht0 as [T0 C0], Hs0 as (_ & _ & K0). change (ptrs (Node p x2 bs2 :: l)) with (ptrs (Node p x bs :: l)).
    split; [done|]. split; [done|]. split; [done|]. split; [done|]. split; [split; congruence|]. split; [congruence|].
    split; [congruence|]. split; [by rewrite R2, Hr0'|]. split; [done|]. intros q Hq.
    pose proof (Hk1 q Hq) as [Hq0 Hqp]%elem_of_difference. destruct (K0 q Hq) as [<- <-]; [by apply not_elem_of_empty|].
    apply K2; [done|]. intros ->%elem_of_singleton. apply Hqp.
    exact (ptrs_elem (Node p x bs) (Node p x bs :: l) ltac:(left)).
  - cstep Hr0. rewrite (bind_eq _ _ _ _ _ Hrun), bind_bind. unfold bind. by destruct (ip4_input_ _ _ _ _ _) as [[] ?].
Qed.
End Frames.
