(* ===== verification/IcmpEcho.v ===== *)
(** * A ping is answered: [icmp_input] *)
From S2P Require Export IcmpFacts IpArrive.

#[local] Set Warnings "-clear-no-such-hyp".

(** ** The answer *)

(** The type becomes 0 and the checksum, a word in memory order, grows by as much: by 8, or
    by 9 when it wraps around. *)
Definition echo_sum (ck : Z) : Z := if 0xfff7 <? ck then ck + 9 else ck + 8.
Definition echo_reply (c : list Z) : list Z :=
  write_list (write_list c 0 [ICMP_ER]) 2 (le16 (echo_sum (of_le16 (field 2 2 c)))).

(** An echo request: type 8, and a right checksum. *)
Definition echo_request (c : list Z) : Prop :=
  bytes c /\ (8 <= length c)%nat /\ nth 0 c 0 = ICMP_ECHO /\ ip_sum c = 0.

Lemma le16_word v : 0 <= v < 65536 -> exists b0 b1, le16 v = [b0; b1] /\ v = b0 + 256 * b1.
Proof. intros Hv. apply word_pair. lia. Qed.

Lemma le16_wrap v : le16 (v + 65536) = le16 v.
Proof.
  unfold le16, u8. rewrite !Z.shiftr_div_pow2 by lia. change (2 ^ 8) with 256.
  replace (v + 65536) with (v + 256 * 256) by lia. rewrite Z.div_add by lia.
  rewrite Z.mod_add by lia. replace (v / 256 + 256) with (v / 256 + 1 * 256) by lia. by rewrite Z.mod_add by lia.
Qed.

(** The new word, and what it adds to the sum. *)
Lemma echo_word k0 k1 : 0 <= k0 < 256 -> 0 <= k1 < 256 -> exists j0 j1,
  le16 (echo_sum (k0 + 256 * k1)) = [j0; j1] /\ 0 <= j0 < 256 /\ 0 <= j1 < 256 /\ 0 < j0 + 256 * j1 /\
  exists m, j0 + 256 * j1 = k0 + 256 * k1 + 8 - 65535 * m.
Proof.
  intros H0 H1. unfold echo_sum. destruct (Z.ltb_spec 0xfff7 (k0 + 256 * k1)) as [Hw|Hw].
  - replace (k0 + 256 * k1 + 9) with (k0 + 256 * k1 + 9 - 65536 + 65536) by lia. rewrite le16_wrap.
    destruct (le16_word (k0 + 256 * k1 + 9 - 65536)) as (j0 & j1 & Hj & E); [lia|].
    pose proof (le16_bytes (k0 + 256 * k1 + 9 - 65536)) as Hb. rewrite Hj in Hb. unfold bytes in Hb. rewrite !Forall_cons in Hb.
    exists j0, j1. split; [done|]. split; [lia|]. split; [lia|]. split; [lia|]. exists 1. lia.
  - destruct (le16_word (k0 + 256 * k1 + 8)) as (j0 & j1 & Hj & E); [lia|].
    pose proof (le16_bytes (k0 + 256 * k1 + 8)) as Hb. rewrite Hj in Hb. unfold bytes in Hb. rewrite !Forall_cons in Hb.
    exists j0, j1. split; [done|]. split; [lia|]. split; [lia|]. split; [lia|]. exists 0. lia.
Qed.

(** The answer has the same sum, so it verifies too. *)
Lemma echo_reply_verifies c : echo_request c ->
  bytes (echo_reply c) /\ ip_sum (echo_reply c) = 0 /\ nth 0 (echo_reply c) 0 = ICMP_ER /\
  length (echo_reply c) = length c /\ drop 4 (echo_reply c) = drop 4 c.
Proof.
  intros (Hb & Hl & H0 & Hs). destruct c as [|b0 [|b1 [|k0 [|k1 r]]]]; try (cbn in Hl; lia). cbn in H0. subst b0.
  pose proof (proj1 (rfc1071_zero _ Hb) Hs) as [Hpos [m Hm]].
  unfold bytes in Hb. rewrite !Forall_cons in Hb. destruct Hb as (_ & H1 & H2 & H3 & Hr).
  destruct (echo_word k0 k1 H2 H3) as (j0 & j1 & Hj & Hj0 & Hj1 & Hjp & n & Hn).
  assert (Hrep : echo_reply (ICMP_ECHO :: b1 :: k0 :: k1 :: r) = 0 :: b1 :: j0 :: j1 :: r).
  { change (echo_reply _) with (0 :: b1 :: le16 (echo_sum (k0 + 256 * k1)) ++ r). by rewrite Hj. }
  rewrite Hrep. assert (Hb' : bytes (0 :: b1 :: j0 :: j1 :: r)) by (repeat constructor; done || lia).
  split; [done|]. split; [|done]. pose proof (le_val_nonneg r Hr) as Hv.
  apply (rfc1071_zero _ Hb'). cbn [le_val] in *. change ICMP_ECHO with 8 in Hm. split; [nia|].
  exists (m + 8 - 65536 * n). lia.
Qed.

Section Echo.
Context {A D : Type} `{Allocator A} `{Controller D} `{!Peers A D}.
Context (custom : ptr -> heap A -> heap A) (block_addr : ptr -> Z).
Implicit Types (h : heap A) (s : link A (stack D)) (l : list node).

(** ** Two headers in one buffer *)

(** Accesses through the message are accesses through the datagram, 20 bytes further. *)
Lemma write_behind (x : pbuf) p o off cs : payload x = Some (p, o) ->
  write_mem (A := A) (payload x) off cs = write_mem (payload (moved (-20) x)) (20 + off) cs.
Proof. intros Hp. cbn. rewrite Hp. cbn. by replace (o + -20 + (20 + off)) with (o + off) by lia. Qed.

Lemma read_behind (x : pbuf) p o off n : payload x = Some (p, o) ->
  read_mem (A := A) (payload x) off n = read_mem (payload (moved (-20) x)) (20 + off) n.
Proof. intros Hp. cbn. rewrite Hp. cbn. by replace (o + -20 + (20 + off)) with (o + off) by lia. Qed.

(** The IP header comes back in front of the message. *)
Lemma header_back s0 s p x bs l o k m : since s0 p x bs l s -> payload x = Some (p, o) -> 20 <= o -> tot_len x <= 65515 ->
  at_payload (hp s) p (moved (-20) x) k m -> (20 <= k)%nat ->
  exists s', pbufs (pbuf_header p 20) s = (Ret 0, s') /\ since s0 p (moved (-20) x) (take 20 m ++ bs) l s'.
Proof.
  intros (Hh & Hw & Hd) Hpl Ho Ht (o' & a & Hpl' & Ha & Ho0 & Hle & Hm) Hk.
  pose proof (push_runs s p x bs l o 20 Hh Hpl ltac:(lia) ltac:(lia)) as Hp. rewrite (proj2 (Z.ltb_ge _ _)) in Hp by lia.
  change (- (20)) with (-20) in Hp. destruct Hp as (s' & hb & Hr & Hlb & Hh' & Hw' & Hd' & Hb). exists s'. split; [done|].
  assert (Hhb : hb = take 20 m).
  { pose proof Hh' as (_ & Hown & _). destruct (owns_head_payload _ _ _ _ _ Hown) as (_ & _ & _ & _ & Hlen & _).
    destruct (owns_holds _ _ _ _ _ Hown) as (b1 & o1 & a1 & Hpl1 & Ha1 & _ & _ & _ & Hbs). rewrite Hpl' in Hpl1.
    injection Hpl1 as <- <-. rewrite Hb, Ha in Ha1. injection Ha1 as <-.
    rewrite Hm, take_take, Nat.min_l by lia. rewrite <- (take_app_length' hb bs 20) by (rewrite Hlb; done).
    rewrite Hbs, take_take. f_equal. cbn [len moved with_tot_len with_len with_payload] in Hlen |- *. rewrite length_app in Hlen. lia. }
  subst hb. split; [done|]. split; [by eapply within_trans|congruence].
Qed.

(** The fields that change, and the rest [K]. *)
Definition echo_fields (iphdr iecho : option (ptr * Z)) (src dst : Z) (K : cmd (link A (stack D)) unit) : cmd (link A (stack D)) unit :=
  pbufs (write_mem iphdr 12 (addr_bytes src)) ;;;
  pbufs (write_mem iphdr 16 (addr_bytes dst)) ;;;
  pbufs (write_mem iecho 0 [ICMP_ER]) ;;;
  chksum <- read16 iecho 2 ;;
  (if PP_HTONS (0xffff - Z.shiftl ICMP_ECHO 8) <? chksum
   then pbufs (write_mem iecho 2 (le16 (chksum + (PP_HTONS (Z.shiftl ICMP_ECHO 8) + 1))))
   else pbufs (write_mem iecho 2 (le16 (chksum + PP_HTONS (Z.shiftl ICMP_ECHO 8))))) ;;;
  pbufs (write_mem iphdr 8 [ICMP_TTL]) ;;;
  pbufs (write_mem iphdr 10 (le16 0)) ;;;
  sum <- chksum_at block_addr iphdr 20 ;;
  pbufs (write_mem iphdr 10 (le16 sum)) ;;;
  K.

Lemma echo_bytes total id src dst ttl tos ck c src' dst' sum : (4 <= length c)%nat ->
  let hdr := ip_fields total id src dst ttl tos IP_PROTO_ICMP ck in
  let w1 := write_list (write_list (write_list (hdr ++ c) 12 (addr_bytes src')) 16 (addr_bytes dst')) 20 [ICMP_ER] in
  field 22 2 w1 = field 2 2 c /\
  write_list (write_list (write_list w1 22 (le16 (echo_sum (of_le16 (field 2 2 c))))) 8 [ICMP_TTL]) 10 (le16 sum) =
    ip_fields total id src' dst' ICMP_TTL tos IP_PROTO_ICMP sum ++ echo_reply c.
Proof. intros Hl. do 4 (destruct c as [|? c]; [cbn in Hl; lia|]). done. Qed.

Lemma echo_bytes_rewritten total id src dst ttl tos c sum sum' :
  write_list (ip_fields total id src dst ttl tos IP_PROTO_ICMP sum ++ c) 10 (le16 sum') =
  ip_fields total id src dst ttl tos IP_PROTO_ICMP sum' ++ c.
Proof. done. Qed.

Lemma echo_fields_runs s0 s p x bs l o total id src dst ttl tos ck src' dst' :
  let X := moved (-20) x in
  since s0 p X (ip_fields total id src dst ttl tos IP_PROTO_ICMP ck ++ bs) l s -> payload x = Some (p, o) -> 4 <= len x ->
  octet tos ->
  exists s', (forall K, echo_fields (payload X) (payload x) src' dst' K s = K s') /\
    since s0 p X (ip_header total id src' dst' ICMP_TTL tos IP_PROTO_ICMP ++ echo_reply bs) l s'.
Proof.
  intros X Hc Hpl Hl Htos. assert (HX : len X = len x + 20) by (cbn; lia).
  assert (Hlbs : Z.of_nat (length bs) = len x).
  { destruct Hc as ((_ & Ho & _) & _). destruct (owns_head_payload _ _ _ _ _ Ho) as (_ & _ & _ & _ & Hlb & _).
    rewrite length_app in Hlb. change (length (ip_fields _ _ _ _ _ _ _ _)) with 20%nat in Hlb. lia. }
  destruct (echo_bytes total id src dst ttl tos ck bs src' dst' 0 ltac:(lia)) as [Hck Hall]. cbv zeta in Hck, Hall.
  destruct (since_write _ _ _ _ _ _ 12 (addr_bytes src') Hc) as (s1 & Hw1 & Hc1); [lia|cbn; lia|].
  destruct (since_write _ _ _ _ _ _ 16 (addr_bytes dst') Hc1) as (s2 & Hw2 & Hc2); [lia|cbn; lia|].
  destruct (since_write _ _ _ _ _ _ 20 [ICMP_ER] Hc2) as (s3 & Hw3 & Hc3); [lia|cbn; lia|].
  pose proof (read_at s3 X _ 22 2 (owns_holds _ _ _ _ _ (proj1 (proj2 (proj1 Hc3)))) ltac:(lia)) as Hrd.
  change (Z.to_nat 12) with 12%nat in *. change (Z.to_nat 16) with 16%nat in *. change (Z.to_nat 20) with 20%nat in *.
  rewrite Hck in Hrd. set (c := of_le16 (field 2 2 bs)) in *.
  destruct (since_write _ _ _ _ _ _ 22 (le16 (echo_sum c)) Hc3) as (s4 & Hw4 & Hc4); [lia|cbn; lia|].
  destruct (since_write _ _ _ _ _ _ 8 [ICMP_TTL] Hc4) as (s5 & Hw5 & Hc5); [lia|cbn; lia|].
  destruct (since_write _ _ _ _ _ _ 10 (le16 0) Hc5) as (s6 & Hw6 & Hc6); [lia|cbn; lia|].
  change (Z.to_nat 22) with 22%nat in *. change (Z.to_nat 8) with 8%nat in *. change (Z.to_nat 10) with 10%nat in *.
  rewrite Hall in Hc6. set (f := ip_fields total id src' dst' ICMP_TTL tos IP_PROTO_ICMP 0) in *.
  assert (Hf : take (Z.to_nat 20) (f ++ echo_reply bs) = f) by done.
  assert (Hfb : bytes f) by (by apply ip_fields_bytes).
  pose proof Hc6 as ((_ & Ho6 & _) & _).
  pose proof (chksum_at_ok block_addr s6 (hp s6) X _ p l 20 Ho6 ltac:(by rewrite Hf) ltac:(lia) ltac:(lia) eq_refl) as Hsum.
  rewrite Hf in Hsum.
  destruct (since_write _ _ _ _ _ _ 10 (le16 (65535 - lwip_htons (rfc1071 f))) Hc6) as (s7 & Hw7 & Hc7); [lia|cbn; lia|].
  exists s7. split; [|exact Hc7]. intros K. unfold echo_fields. cstep Hw1. cstep Hw2.
  rewrite (write_behind x p o 0) by done. cstep Hw3. unfold read16. rewrite (read_behind x p o) by done. rewrite bind_bind.
  cstep Hrd. cstep (eq_refl (ret c s3)).
  assert (Hif : (if PP_HTONS (0xffff - Z.shiftl ICMP_ECHO 8) <? c
      then pbufs (write_mem (payload x) 2 (le16 (c + (PP_HTONS (Z.shiftl ICMP_ECHO 8) + 1))))
      else pbufs (write_mem (payload x) 2 (le16 (c + PP_HTONS (Z.shiftl ICMP_ECHO 8))))) =
    (pbufs (write_mem (payload X) 22 (le16 (echo_sum c))) : cmd (link A (stack D)) unit)).
  { change (PP_HTONS (0xffff - Z.shiftl ICMP_ECHO 8)) with 0xfff7. change (PP_HTONS (Z.shiftl ICMP_ECHO 8)) with 8.
    rewrite !(write_behind x p o 2) by done. unfold echo_sum. by destruct (_ <? c). }
  rewrite Hif. cstep Hw4. cstep Hw5. cstep Hw6. cstep Hsum. by cstep Hw7.
Qed.

(** The packet goes out with the header it has. *)
Lemma output_included s q X l src total id a b ttl tos proto c nif : holder s q X (ip_header total id a b ttl tos proto ++ c) l ->
  filled l -> tot_len X <= 65521 -> one_piece (netifs s nif) (tot_len X) -> ip_address b ->
  runs {[q]} (ip4_output_if custom q src None ICMP_TTL 0 IP_PROTO_ICMP nif) s (rest s) (fun r s' =>
    (exists x' bs', owns (hp s') q (Node q x' bs' :: l)) /\
    sent s s' nif b X (ip_header total id a b ttl tos proto ++ c ++ content l) r).
Proof.
  intros Hh Hf Ht Hone Hb. pose proof Hh as (Hok & Ho & Hsub).
  pose proof (ip4_send_runs custom s nif b q X _ l Hok Ho Hf Hsub Ht Hone) as (r & s' & Hr & Hrest).
  rewrite content_cons in Hrest. cbn [n_bytes] in Hrest. rewrite <- app_assoc in Hrest.
  destruct (owns_head_payload _ _ _ _ _ Ho) as (_ & _ & _ & _ & Hlb & _). rewrite length_app in Hlb.
  change (length (ip_header _ _ _ _ _ _ _)) with 20%nat in Hlb.
  pose proof Ho as [_ [(_ & Hrf & _) _]%Forall_cons]. cbn [n_buf] in Hrf.
  exists r, s'. split; [|exact Hrest]. unfold ip4_output_if. cstep (eq_refl (gets (fun s => netifs s nif) s)).
  unfold ip4_output_if_src, func. pstep (load_head _ _ _ _ Ho). cbn [n_buf].
  rewrite (bind_ret _ _ s tt s) by (apply assert_true; lia). rewrite bind_bind.
  cstep (read_at s X _ 16 4 (owns_holds _ _ _ _ _ Ho) ltac:(lia)). 
  change (field 16 4 (ip_header total id a b ttl tos proto ++ c)) with (addr_bytes b). rewrite of_le32_addr by done.
  cstep (eq_refl (ret b s)). by rewrite Hr.
Qed.

(** ** [icmp_input] on an echo request *)

(** The message at [x] has its IP header before it in the buffer. *)
Definition behind_header s (p : ptr) x (o : Z) (total id a b ttl tos : Z) : Prop := exists k m,
  at_payload (hp s) p (moved (-20) x) k m /\ (20 <= k)%nat /\ payload x = Some (p, o) /\ 20 <= o /\
  take 20 m = ip_header total id a b ttl tos IP_PROTO_ICMP.

(** The answer to the message [c] goes out from [s1], where only the packet differs from [s]. *)
Definition answered s s1 s2 (nif : Z) x (total id a b tos : Z) (c : list Z) (r : Z) : Prop :=
  same_table s s1 /\ netifs s1 = netifs s /\ dev s1 = dev s /\
  sent s1 s2 nif a (moved (-20) x) (ip_header total id b a ICMP_TTL tos IP_PROTO_ICMP ++ echo_reply c) r.

Lemma echo_reply_app bs c : (4 <= length bs)%nat -> echo_reply bs ++ c = echo_reply (bs ++ c).
Proof. intros Hl. do 4 (destruct bs as [|? bs]; [cbn in Hl; lia|]). done. Qed.

Lemma echo_answer_runs s p x bs l o total id a b ttl tos nif : holder s p x bs l ->
  behind_header s p x o total id a b ttl tos -> tot_len x <= 65501 -> 4 <= len x -> octet tos -> filled l ->
  one_piece (netifs s nif) (tot_len x + 20) -> ip_address a ->
  exists r s1 s2, echo_answer custom block_addr p 20 b a nif s = (Ret tt, s2) /\
    arp_ok s2 /\ steps {[p]} (rest s) s s2 /\ (exists x' bs', owns (hp s2) p (Node p x' bs' :: l)) /\
    answered s s1 s2 nif x total id a b tos (bs ++ content l) r.
Proof.
  intros Hh (k & m & Hm & Hk & Hpl & Ho20 & Hhdr) Ht Hl Htos Hf Hone Ha.
  pose proof Hh as (_ & Ho & _). destruct (owns_head_payload _ _ _ _ _ Ho) as (_ & _ & _ & _ & Hlb & _).
  destruct (header_back s s p x bs l o k m (since_refl _ _ _ _ _ Hh) Hpl Ho20 ltac:(lia) Hm Hk) as (s1 & Hr1 & Hc1).
  rewrite Hhdr in Hc1. pose proof Hc1 as ((_ & Ho1 & _) & _).
  destruct (echo_fields_runs s s1 p x bs l o total id a b ttl tos _ b a Hc1 Hpl Hl Htos) as (s2 & Hr2 & Hh2 & Hw2 & Hd2).
  assert (Hn2 : netifs s2 = netifs s) by (by eapply within_netifs).
  assert (Hr2' : rest s2 = rest s) by (by eapply within_rest).
  destruct (output_included s2 p (moved (-20) x) l (Some b) total id b a ICMP_TTL tos IP_PROTO_ICMP (echo_reply bs) nif Hh2 Hf)
    as (r & s3 & Hr3 & Hok3 & Hs3 & Hown3 & Hsent); [cbn; lia|rewrite Hn2; cbn; by replace (tot_len x - -20) with (tot_len x + 20) by lia|done|].
  exists r, s2, s3. split.
  - unfold echo_answer. pstep (load_head _ _ _ _ Ho). cbn [n_buf]. cstep Hr1. change (truthy 0) with false. cbv iota.
    pstep (load_head _ _ _ _ Ho1). cbn [n_buf].
    transitivity ((ip4_output_if custom p (Some b) None ICMP_TTL 0 IP_PROTO_ICMP nif ;;; ret tt) s2); [|by cstep Hr3].
    exact (Hr2 (ip4_output_if custom p (Some b) None ICMP_TTL 0 IP_PROTO_ICMP nif ;;; ret tt)).
  - split; [done|]. split.
    { rewrite Hr2' in Hs3. destruct Hw2 as (_ & Hs2 & _).
      eapply steps_drop; [exact (steps_trans _ _ _ _ _ _ _ Hs2 Hs3 ltac:(set_solver))|set_solver]. }
    split; [done|]. split; [by destruct Hw2 as (_ & _ & ? & _)|]. split; [done|]. split; [done|].
    by rewrite <- echo_reply_app by lia.
Qed.

(** Room for headers is tried out: the packet is as before. *)
Lemma room_tried s p x bs l o n : holder s p x bs l -> payload x = Some (p, o) -> n <= o -> 0 < n <= 32767 -> tot_len x + n <= 65535 ->
  exists s1 s2, pbufs (pbuf_header p n) s = (Ret 0, s1) /\ pbufs (pbuf_header p (- n)) s1 = (Ret 0, s2) /\
    holder s2 p x bs l /\ within s p s2 /\ dev s2 = dev s /\ bl (hp s2) = bl (hp s).
Proof.
  intros Hh Hpl Ho Hn Ht. pose proof (push_runs s p x bs l o n Hh Hpl Hn Ht) as Hp. rewrite (proj2 (Z.ltb_ge _ _)) in Hp by lia.
  destruct Hp as (s1 & hb & Hr1 & Hlb & Hh1 & Hw1 & Hd1 & Hb1).
  assert (Hl : 0 <= len x).
  { destruct Hh as (_ & Hown & _). destruct (owns_head_payload _ _ _ _ _ Hown) as (_ & _ & _ & _ & Hlb' & _). lia. }
  destruct (pull_runs s1 p (moved (- n) x) (hb ++ bs) l n Hh1 Hn ltac:(cbn; lia) ltac:(cbn; lia)) as (s2 & Hr2 & Hh2 & Hw2 & Hd2 & Hb2).
  exists s1, s2. split; [done|]. split; [done|]. pose proof (moved_back (- n) x) as Hmb. rewrite Z.opp_involutive in Hmb.
  rewrite Hmb, drop_app_length' in Hh2 by done. split; [done|]. split; [by eapply within_trans|]. split; congruence.
Qed.

(** The message was not sent to everyone. *)
Definition to_one s (i dst : Z) : Prop :=
  ip4_addr_ismulticast dst = false /\ ip4_addr_isbroadcast dst (netifs s i) = false.

Lemma icmp_input_echo s p x bs l o total id a b ttl tos i nif hdr : holder s p x bs l ->
  behind_header s p x o total id a b ttl tos -> 34 <= o -> tot_len x <= 65501 -> 4 <= len x -> octet tos -> filled l ->
  one_piece (netifs s nif) (tot_len x + 20) -> ip_address a -> echo_request (bs ++ content l) ->
  ip_data (dev s) = IpGlobals (Some i) (Some nif) (payload (moved (-20) x)) hdr a b -> to_one s i b ->
  exists r s1 s2 s', icmp_input custom block_addr p nif s = (Ret tt, s') /\
    arp_ok s' /\ steps (ptrs (Node p x bs :: l)) (rest s ∖ ptrs (Node p x bs :: l)) s s' /\
    answered s s1 s2 nif x total id a b tos (bs ++ content l) r /\ same_table s2 s' /\ dev s' = dev s2.
Proof.
  intros Hh Hbeh Ho34 Ht Hl Htos Hf Hone Ha (Hby & Hlen & Hty & Hsum) Hdata [Hmc Hbc].
  pose proof Hh as (_ & Ho & _). destruct (owns_head_payload _ _ _ _ _ Ho) as (_ & _ & _ & _ & Hlb & Htot).
  pose proof Hbeh as (k & m & Hm & Hk & Hpl & Ho20 & Hhdr).
  destruct (room_tried s p x bs l o 34 Hh Hpl Ho34 ltac:(lia) ltac:(lia)) as (s1 & s2 & Hr1 & Hr2 & Hh2 & Hw2 & Hd2 & Hb2).
  assert (Hn2 : netifs s2 = netifs s) by (by eapply within_netifs).
  assert (Hrest2 : rest s2 = rest s) by (by eapply within_rest).
  destruct (echo_answer_runs s2 p x bs l o total id a b ttl tos nif Hh2) as (r & t1 & s3 & Hr3 & Hok3 & Hs3 & (x' & bs' & Ho3) & Hans);
    try done; [|by rewrite Hn2|].
  { exists k, m. split; [|done]. destruct Hm as (o' & a' & H1 & H2 & H3). exists o', a'. by rewrite Hb2. }
  assert (Hrest3 : rest s3 = rest s) by (destruct Hs3 as (-> & _); done).
  assert (Hh3 : holder s3 p x' bs' l).
  { split; [done|]. split; [done|]. rewrite Hrest3. change (ptrs (Node p x' bs' :: l)) with (ptrs (Node p x bs :: l)). apply Hh. }
  destruct (free_runs custom s3 p x' bs' l Hh3) as (n & s4 & Hr4 & Hok4 & Hs4 & Ht4 & Hd4).
  change (ptrs (Node p x' bs' :: l)) with (ptrs (Node p x bs :: l)) in Hs4. set (P := ptrs (Node p x bs :: l)) in *.
  assert (Hp : {[p]} ⊆ P).
  { intros q ->%elem_of_singleton. exact (ptrs_elem (Node p x bs) (Node p x bs :: l) ltac:(left)). }
  exists r, t1, s3, s4. split; [|split; [done|split; [|split; [|done]]]].
  - unfold icmp_input. cstep (eq_refl (gets (fun s => ip_data (dev s)) s)). rewrite Hdata.
    cbn [current_ip4_header current_iphdr_dest current_iphdr_src current_netif].
    pose proof (peek8 s p (moved (-20) x) k m 0 Hm ltac:(lia)) as Hv.
    assert (Hf0 : field 0 1 m = [0x45]).
    { unfold field. rewrite drop_0. change 1%nat with (Nat.min 1 20). by rewrite <- take_take, Hhdr. }
    rewrite Hf0 in Hv. cstep Hv. change (Z.land (nth 0 [0x45] 0) 0x0f * 4) with 20. change (20 <? IP_HLEN) with false. cbv iota.
    pstep (load_head _ _ _ _ Ho). cbn [n_buf]. rewrite (proj2 (Z.ltb_ge _ _)) by lia.
    cstep (read8_at s x bs 0 (owns_holds _ _ _ _ _ Ho) ltac:(lia)).
    assert (Ht0 : nth 0 (field 0 1 bs) 0 = ICMP_ECHO).
    { rewrite <- Hty. destruct bs; [cbn in Hlb; lia|done]. }
    rewrite Ht0, Z.eqb_refl, Hmc. cstep (eq_refl (ret i s)). cstep (eq_refl (gets (fun s => netifs s i) s)). rewrite Hbc.
    change SIZEOF_ICMP_ECHO_HDR with 8. rewrite (proj2 (Z.ltb_ge _ _)) by lia.
    pose proof (chksum_pbuf_ok block_addr (Node p x bs :: l) (Some p) (hp s) (proj1 Ho)) as Hck.
    rewrite content_cons in Hck. cbn [n_bytes] in Hck. specialize (Hck Hby ltac:(lia)). fold (ip_sum (bs ++ content l)) in Hck.
    rewrite Hsum in Hck. pstep Hck. change (negb (0 =? 0)) with false. cbv iota.
    change (20 + PBUF_LINK_HLEN + PBUF_LINK_ENCAPSULATION_HLEN) with 34. cstep Hr1. change (truthy 0) with false. cbv iota.
    rewrite bind_bind. cstep Hr2. rewrite ?bind_bind. cstep (eq_refl (assert_ true s2)).
    cstep (eq_refl (ret (Some p) s2)). cstep Hr3. unfold drop_packet. by cstep Hr4.
  - rewrite Hrest3 in Hs4. destruct Hw2 as (_ & Hs2 & _). rewrite Hrest2 in Hs3.
    pose proof (steps_trans _ _ _ _ _ _ _ Hs2 Hs3 ltac:(set_solver)) as H12.
    eapply steps_drop; [exact (steps_trans _ _ _ _ _ _ _ H12 Hs4 ltac:(set_solver))|set_solver].
  - destruct Hans as ([T1 C1] & N1 & D1 & Hsent). destruct Hw2 as (_ & _ & [T2 C2] & _).
    split; [split; congruence|]. split; [congruence|]. split; [congruence|done].
Qed.
End Echo.
