(* ===== verification/IpThms.v ===== *)
(** * UDP and ICMP over IPv4 over Ethernet: the theorems *)
From S2P Require Export IcmpEcho.

#[local] Set Warnings "-clear-no-such-hyp".

(** C20: The checksum that ip4_output_if_src sums up while it writes the fields is the one that
    inet_chksum computes over the header, so the header sums up right at the receiver,
    wherever it lies in memory. *)
Theorem inline_chksum_correct addr total id src dest ttl tos proto : octet ttl -> octet tos -> octet proto ->
  inline_chksum total id src dest ttl tos proto = inet_chksum addr (ip_fields total id src dest ttl tos proto 0) /\
  inet_chksum addr (ip_fields total id src dest ttl tos proto (inline_chksum total id src dest ttl tos proto)) = 0.
Proof.
  intros Ht Hs Hp. pose proof (ip_fields_bytes total id src dest ttl tos proto 0 Ht Hs Hp) as Hb.
  rewrite (inline_chksum_ok _ _ _ _ _ _ _ Ht Hs Hp). split; [by rewrite inet_chksum_ok|by apply ip_header_verifies].
Qed.

Lemma func_returns {S : Type} (m : cmd S Z) (s : S) r s' : m s = (Ret r, s') -> func m s = (Ret r, s').
Proof. intros Hm. unfold func. by rewrite Hm. Qed.

Section Theorems.
Context {A D : Type} `{Allocator A} `{Controller D} `{!Peers A D}.
Context (custom : ptr -> heap A -> heap A) (block_addr : ptr -> Z).
#[local] Instance up : Upper A (stack D) := stack_upper custom block_addr.
Implicit Types (s t : link A (stack D)) (l : list node).

(** A host that hears a datagram: the interface [nif] is up, has an address that accepts the
    destination, and some block takes it. *)
Record hears s ul (nif via : Z) (k : packet_to) pcb y f : Prop := {
  h_ok : arp_ok s;
  h_udp : udp_ok (udp (dev s)) ul;
  h_arp : truthy (Z.land (nflags (netifs s nif)) NETIF_FLAG_ETHARP) = true;
  h_dest : accepted_by s nif (dest_addr k) = Some via;
  h_src : sender_ok (netifs s nif) (src_addr k);
  h_bcast : broadcast k = ip4_addr_isbroadcast (dest_addr k) (netifs s via);
  h_mask : inp_netmask k = netmask (netifs s nif);
  h_chosen : chosen (pcbs (udp (dev s))) k ul = Some pcb;
  h_pcb : pcbs (udp (dev s)) !! pcb = Some y;
  h_recv : recv y = Some f
}.

(** What the callback finds: the payload [c] in a packet of its own, in fresh memory. *)
Definition heard s ul (nif via : Z) k pcb y (p : ptr) (c : list Z) s1 : Prop := exists x1 bs1 l1 u1 hdr,
  holder s1 p x1 bs1 l1 /\ bs1 ++ content l1 = c /\ ptrs (Node p x1 bs1 :: l1) ## live (al (hp s)) /\
  same_table s s1 /\ netifs s1 = netifs s /\ rest s ⊆ rest s1 /\
  (forall q, q ∈ rest s -> pb (hp s1) !! q = pb (hp s) !! q /\ bl (hp s1) !! q = bl (hp s) !! q) /\
  dev s1 = with_udp u1 (with_ip_data (IpGlobals (Some via) (Some nif) hdr 20 (src_addr k) (dest_addr k)) (dev s)) /\
  udp_ok u1 (reordered (pcbs (udp (dev s))) k ul) /\ fields (pcbs u1) = fields (pcbs (udp (dev s))) /\
  exists y1, pcbs u1 !! pcb = Some y1 /\ unlinked y1 = unlinked y.

(** C3: A UDP datagram on the wire, as [udp_sendto] makes it, with its checksum or without, padded
    or not, reaches the callback of the block that is bound to its destination: with the
    payload, no byte more or less, in a packet of its own, with the sender's address and
    port.  The only other case is that pbuf_alloc has no buffer for the frame ([refused]):
    then nothing changes. *)
Theorem udp_frame_delivered t ul nif via k pcb y f frames dmac smac id ttl tos nochk c pad :
  hears t ul nif via k pcb y f -> (forall q, PBUF_FLAG_custom (stale_pbuf q) = false) ->
  length dmac = 6%nat -> length smac = 6%nat -> octet ttl -> octet tos -> bytes c -> bytes pad ->
  ip_address (src_addr k) -> ip_address (dest_addr k) -> 0 <= src_port k < 65536 -> 0 <= dest_port k < 65536 ->
  Z.of_nat (length (c ++ pad)) <= 1476 ->
  let u := udp_datagram nochk (src_addr k) (dest_addr k) (src_port k) (dest_port k) c in
  let frame := eth_frame dmac smac ETHTYPE_IP (datagram id (src_addr k) (dest_addr k) ttl tos IP_PROTO_UDP u ++ pad) in
  (exists t', ethernetif_input custom (frame :: frames) nif t = (Ret tt, t') /\ keeps ∅ t t' /\ dev t' = dev t /\
     refused custom PBUF_RAW (Z.of_nat (length frame)) PBUF_POOL (hp t)) \/
  exists p t1, heard t ul nif via k pcb y p c t1 /\
    ethernetif_input custom (frame :: frames) nif t =
      (udp_recv_fn f (recv_arg y) pcb p (src_addr k) (src_port k) ;;; on_dev (with_ip_data idle_ip_data) ;;;
       ethernetif_input custom frames nif) t1.
Proof.
  intros [Hok Hu Harp Hdst Hsrc Hbc Hmask Hch Hy Hf] Hst Hdm Hsm Httl Htos Hc Hpad Hsa Hda Hsp Hdp Hlen u frame.
  assert (Hlu : Z.of_nat (length u) = Z.of_nat (length c) + 8).
  { unfold u, udp_datagram. rewrite length_app. change (length (udp_fields _ _ _ _)) with 8%nat. lia. }
  set (m := datagram id (src_addr k) (dest_addr k) ttl tos IP_PROTO_UDP u ++ pad) in *.
  assert (Hlm : Z.of_nat (length m) = Z.of_nat (length (c ++ pad)) + 28).
  { unfold m, datagram. rewrite !length_app. change (length (ip_header _ _ _ _ _ _ _)) with 20%nat. lia. }
  assert (Hbm : bytes m).
  { unfold m, datagram. apply Forall_app_2; [apply Forall_app_2; [by apply ip_header_bytes|apply Forall_app_2; [apply udp_fields_bytes|done]]|done]. }
  destruct (frame_arrives custom block_addr t frames dmac smac m nif Hok Hst ltac:(lia) Hdm Hsm ltac:(lia) Hbm Harp)
    as [Hno|(p & x2 & bs2 & l & m2 & s2 & (Hin & Hcont & Hl2 & _ & [T2 C2] & Hn2 & Hd2 & R2 & Hfresh & K2) & Hrun)]; [by left|].
  right. rewrite length_app in Hlen. destruct (owns_head_payload _ _ _ _ _ (proj1 (proj2 (proj1 Hin)))) as (_ & _ & _ & _ & Hlb2 & _).
  assert (Hacc : forall a, accepted_by s2 nif a = accepted_by t nif a) by (intros a; unfold accepted_by; by rewrite Hn2, Hd2).
  destruct (udp_arrives custom block_addr s2 ul p x2 bs2 l 1502 m2 nif via id (src_addr k) (dest_addr k) ttl tos nochk
    (src_port k) (dest_port k) c pad pcb y f Hin ltac:(lia) ltac:(lia) ltac:(lia) Hcont) as (s3 & Hh3 & Hrun3); try done.
  { lia. } { by rewrite Hacc. } { by rewrite Hn2. } { by rewrite Hd2. }
  { rewrite Hn2, <- Hbc, <- Hmask, Hd2. by destruct k. } { by rewrite Hd2. }
  exists p, s3. split.
  - destruct Hh3 as (x1 & bs1 & l1 & u1 & Hh1 & Hc1 & Hsub1 & ([T3 C3] & N3 & R3 & _ & K3) & Hdev & Hu1 & Hf1 & Hy1).
    rewrite Hn2, <- Hbc, <- Hmask, Hd2 in *. change (ptrs (Node p x2 [] :: l)) with (ptrs (Node p x2 bs2 :: l)) in *.
    set (P := ptrs (Node p x2 bs2 :: l)) in *.
    assert (HP : forall q, q ∈ rest t -> q ∉ P).
    { intros q Hq1 Hq2. apply (Hfresh q Hq2). unfold rest in Hq1. by apply elem_of_difference in Hq1 as [? _]. }
    exists x1, bs1, l1, u1, (payload x2). split; [done|]. split; [done|].
    split. { intros q Hq1 Hq2. apply (Hfresh q); [by apply Hsub1|done]. }
    split; [split; congruence|]. split; [congruence|]. split.
    { intros q Hq. apply R3. rewrite R2. apply elem_of_difference. split; [by apply elem_of_union_l|by apply HP]. }
    split; [|by destruct k]. intros q Hq. destruct (K2 q Hq) as [<- <-]. apply K3; [rewrite R2; by apply elem_of_union_l|by apply HP].
  - etransitivity; [exact Hrun|]. by rewrite (bind_eq _ _ _ _ _ Hrun3), bind_bind.
Qed.

(** ** Sending *)

(** The interface a datagram to [dst] leaves by, and the address it comes from. *)
Definition leaves_by s y (dst : Z) : option (Z * Z) :=
  match routed_to s dst with
  | None => None
  | Some nif =>
      let a := ip_addr (netifs s nif) in
      if ip4_addr_isany (local_ip y) || ip4_addr_ismulticast (local_ip y) then Some (nif, a)
      else if local_ip y =? a then Some (nif, a) else None
  end.

(** The address the datagram comes from. *)
Lemma sendto_from s pcb y q dst dport nif : blocks (pcb_at pcb) s = (Ret y, s) ->
  let a := ip_addr (netifs s nif) in
  let any := ip4_addr_isany (local_ip y) || ip4_addr_ismulticast (local_ip y) in
  (any = false -> local_ip y <> a -> udp_sendto_if custom block_addr (Some pcb) q (Some dst) dport nif s = (Ret ERR_RTE, s)) /\
  (any = true \/ local_ip y = a -> forall r s', 
     udp_sendto_if_src custom block_addr (Some pcb) q (Some dst) dport nif (if any then a else local_ip y) s = (Ret r, s') ->
     udp_sendto_if custom block_addr (Some pcb) q (Some dst) dport nif s = (Ret r, s')).
Proof.
  intros Hpcb a any. unfold udp_sendto_if. split.
  - intros Hany Hne. unfold func. cstep Hpcb. cstep (eq_refl (gets (fun s => netifs s nif) s)). fold any a. rewrite Hany.
    by rewrite (proj2 (Z.eqb_neq _ _) Hne).
  - intros Hcase r s' Hr. apply func_returns. cstep Hpcb. cstep (eq_refl (gets (fun s => netifs s nif) s)). fold any a.
    destruct any eqn:Hany; [by cstep (eq_refl (ret a s))|]. destruct Hcase as [?|<-]; [done|]. rewrite Z.eqb_refl.
    by cstep (eq_refl (ret (local_ip y) s)).
Qed.

(** C4: udp_sendto with a block, a destination and a packet of the caller that has at least the
    8 bytes for the UDP header in front of its payload and fits, with both headers, the
    MTU of the interfaces (a separate header pbuf, fragments and missing arguments are
    not covered).  Without a route, or when the block is bound to another address than
    the interface of the route, it returns ERR_RTE and changes nothing.  Otherwise a block
    without a port is bound to a free dynamic one, and the payload goes out as a UDP
    datagram with a right checksum (or none, when the block says so) inside an IPv4
    datagram with a right header; without room for the IP header it returns ERR_BUF and
    leaves the UDP header in the packet.  It always returns, and the caller keeps the
    packet. *)
Theorem udp_sendto_correct s ul pcb y q x bs l o dst dport : arp_ok s ->
  udp_ok (udp (dev s)) ul -> pcbs (udp (dev s)) !! pcb = Some y -> octet (ttl y) -> octet (tos y) ->
  owns (hp s) q (Node q x bs :: l) -> filled l -> ptrs (Node q x bs :: l) ⊆ rest s ->
  payload x = Some (q, o) -> 8 <= o -> tot_len x <= 65493 -> (forall i, one_piece (netifs s i) (tot_len x + 28)) ->
  bytes (content (Node q x bs :: l)) -> (forall i, ip_address (ip_addr (netifs s i))) -> ip_address dst ->
  match leaves_by s y dst with
  | None => udp_sendto custom block_addr (Some pcb) q (Some dst) dport s = (Ret ERR_RTE, s)
  | Some (nif, src) => exists port s0 r s',
      udp_sendto custom block_addr (Some pcb) q (Some dst) dport s = (Ret r, s') /\
      arp_ok s' /\ keeps {[q]} s s' /\
      bound s ul pcb y port s0 /\ udp_sent s s0 s' nif src dst y port dport q x bs l o r
  end.
Proof.
  intros Hok Hu Hy Httl Htos Ho Hf Hsub Hpl Hroom Ht Hone Hby Hsrc Hdst.
  assert (Hpcb : blocks (pcb_at pcb) s = (Ret y, s)).
  { rewrite <- (with_blocks_id s) at 2. apply blocks_run. unfold pcb_at. by rewrite Hy. }
  unfold leaves_by, udp_sendto. destruct (routed_to s dst) as [nif|] eqn:Hrt.
  2:{ unfold func. cstep (ip4_route_run s dst). by rewrite Hrt. }
  set (a := ip_addr (netifs s nif)).
  assert (Hto : forall r s', udp_sendto_if custom block_addr (Some pcb) q (Some dst) dport nif s = (Ret r, s') ->
    func (netif_ <- ip4_route dst ;; match netif_ with None => exit ERR_RTE
      | Some netif_ => udp_sendto_if custom block_addr (Some pcb) q (Some dst) dport netif_ end) s = (Ret r, s')).
  { intros r s' Hr. apply func_returns. cstep (ip4_route_run s dst). by rewrite Hrt. }
  destruct (sendto_from s pcb y q dst dport nif Hpcb) as [Hno Hyes]. cbv zeta in Hno, Hyes. fold a in Hno, Hyes.
  assert (Hgo : forall src, ip_address src -> (forall r s',
      udp_sendto_if_src custom block_addr (Some pcb) q (Some dst) dport nif src s = (Ret r, s') ->
      udp_sendto_if custom block_addr (Some pcb) q (Some dst) dport nif s = (Ret r, s')) ->
    exists port s0 r s', udp_sendto custom block_addr (Some pcb) q (Some dst) dport s = (Ret r, s') /\
      arp_ok s' /\ keeps {[q]} s s' /\ bound s ul pcb y port s0 /\ udp_sent s s0 s' nif src dst y port dport q x bs l o r).
  { intros src Hs Hif. destruct (udp_sendto_runs custom block_addr s ul pcb y q x bs l o src dst dport nif Hok Hu Hy Httl Htos Ho Hf
      Hsub Hpl Hroom Ht (Hone nif) Hby Hs Hdst) as (port & s0 & Hb & r & s' & Hr & Hok' & Hk & Hsent).
    exists port, s0, r, s'. split; [by apply Hto, Hif|by split_and!]. }
  destruct (ip4_addr_isany (local_ip y) || ip4_addr_ismulticast (local_ip y)).
  { apply (Hgo a (Hsrc nif)), Hyes. by left. }
  destruct (Z.eqb_spec (local_ip y) a) as [Heq|Hne]; [|by apply Hto, Hno].
  rewrite <- Heq. apply (Hgo (local_ip y)); [rewrite Heq; apply Hsrc|apply Hyes; by right].
Qed.

(** ** Receiving *)

(** C13: ip4_input on every branch, for a received packet with the bytes [m] in its buffer: another
    version, a header that is incomplete or does not sum up right, or a packet shorter than
    it says is released; a longer one is cut first.  A packet that is for no interface and
    not a DHCP answer, or comes from a broadcast or multicast address, is released.  Any
    other is put together if it is a fragment, or handed to its protocol with the header
    off, while ip_data says what the header said. *)
Theorem ip4_input_correct s p x bs l k m inp : incoming s p x bs l k m -> (64 <= k)%nat ->
  if negb (ip_version m =? 4) then ip4_input_ custom block_addr p inp s = drop_packet custom p s
  else exists s1 x1 bs1 l1, incoming s1 p x1 bs1 l1 k m /\ trimmed s p x bs l (be16 2 m) s1 x1 bs1 l1 /\
    if negb (ip_sound x1 bs1 m) then ip4_input_ custom block_addr p inp s = drop_packet custom p s1
    else let s2 := with_data (addressed s1 m) s1 in
      match destined s1 inp m with
      | None => ip4_input_ custom block_addr p inp s = drop_packet custom p s2
      | Some nif =>
          if fragment m then
            ip4_input_ custom block_addr p inp s = ip4_accepted custom block_addr p inp nif (payload x1) (ip_hlen m) s2
          else exists s3, stripped (with_data (handling s2 nif inp (payload x1) (ip_hlen m)) s2) p x1 bs1 l1 k m (ip_hlen m) s3 /\
            ip4_input_ custom block_addr p inp s =
              (ip4_to_protocol custom block_addr p inp nif (payload x1) (ip_hlen m) (ip_dst m) (ip_proto m) ;;;
               on_dev (with_ip_data idle_ip_data)) s3
      end.
Proof.
  intros Hin Hk. pose proof (ip4_input_checked custom block_addr s p x bs l k m inp Hin ltac:(lia)) as Hc.
  destruct (negb (ip_version m =? 4)); [done|]. destruct Hc as (s1 & x1 & bs1 & l1 & Hin1 & Htr & Hrun).
  exists s1, x1, bs1, l1. split; [done|]. split; [done|]. unfold ip_sound in *.
  destruct ((len x1 <? ip_hlen m) || (tot_len x1 <? be16 2 m) || (ip_hlen m <? IP_HLEN)) eqn:Hlen; cbn [negb andb] in *; [done|].
  destruct (ip_sum _ =? 0); cbn [negb] in *; [|done]. cbv zeta.
  rewrite (ip4_addressed_ok custom block_addr s1 p x1 bs1 l1 k m inp Hin1 Hk) in Hrun.
  destruct (destined s1 inp m) as [nif|]; [|done]. destruct (fragment m) eqn:Hfr; [done|].
  pose proof (with_data_incoming (addressed s1 m) _ _ _ _ _ _ _ Hin1) as Hin2. set (s2 := with_data (addressed s1 m) s1) in *.
  rewrite (ip4_whole_ok custom block_addr s2 p x1 bs1 l1 k m inp nif Hin2 ltac:(lia) Hfr) in Hrun.
  pose proof (with_data_incoming (handling s2 nif inp (payload x1) (ip_hlen m)) _ _ _ _ _ _ _ Hin2) as Hin3.
  destruct (ip4_deliver_ok custom block_addr _ p x1 bs1 l1 k m inp nif (ip_dst m) Hin3 ltac:(lia)) as (s3 & Hst & Hd).
  { apply orb_false_iff in Hlen as [[H1%Z.ltb_ge _]%orb_false_iff H2%Z.ltb_ge]. unfold IP_HLEN in H2. lia. }
  exists s3. split; [done|]. rewrite Hrun. change (current_iphdr_dest (ip_data (dev s2))) with (ip_dst m). unfold bind. by rewrite Hd.
Qed.

(** C14: udp_input on every branch: a datagram that is too short is released, and so is one that is for
    no block and not for the address of the interface, or whose checksum is wrong.  The
    others lose their header and go to the callback of the block the search chose, are
    released when it has none, or answered with port unreachable when there is no block. *)
Theorem udp_input_correct s ul p x bs l i inp : holder s p x bs l -> udp_ok (udp (dev s)) ul ->
  current_netif (ip_data (dev s)) = Some i -> tot_len x <= 65535 -> bytes (bs ++ content l) ->
  ip_address (current_iphdr_src (ip_data (dev s))) -> ip_address (current_iphdr_dest (ip_data (dev s))) ->
  let u := bs ++ content l in
  let k := udp_key s i inp u in
  let pcb := chosen (pcbs (udp (dev s))) k ul in
  let ours := if pcb is Some _ then true else ip_addr (netifs s inp) =? current_iphdr_dest (ip_data (dev s)) in
  if len x <? 8 then udp_input custom block_addr p inp s = drop_packet custom p s
  else exists s1, searched s ul k s1 /\
    if negb (ours && udp_intact k u) then udp_input custom block_addr p inp s = drop_packet custom p s1
    else exists s2, udp_input custom block_addr p inp s = udp_taken custom block_addr p pcb k s2 /\
      holder s2 p (moved 8 x) (drop 8 bs) l /\ within s1 p s2 /\ dev s2 = dev s1.
Proof.
  intros Hh Hu Hcur Ht Hby Hs Hd u k pcb ours.
  pose proof (udp_input_runs custom block_addr s ul p x bs l i inp Hh Hu Hcur Ht Hby Hs Hd) as Hr.
  destruct (len x <? 8); [done|]. destruct Hr as (s1 & Hsr & Hrec). exists s1. split; [done|].
  unfold udp_received in Hrec. fold u k pcb ours in Hrec. rewrite negb_andb. destruct (negb ours || negb (udp_intact k u)); [done|].
  destruct Hrec as (s2 & H1 & H2 & H3 & H4 & _). by exists s2.
Qed.


(** ** A ping *)



End Theorems.
