(* ===== verification/IpSafe.v ===== *)
(** * IP takes what it gets: [ip4_input] returns, and ARP sessions with IP are safe

    The lemmas [*_settles] go through every branch of [ip4_input], [udp_input],
    [icmp_input] and the answers they send; [stack_ip_ok] is what the link layer asks of IP
    ([ip_ok]), and [arp_session_safe] the theorem about the whole stack. *)
From S2P Require Export IpThms EtharpThms.

#[local] Set Warnings "-clear-no-such-hyp".

(** The packets whose way through IP is modelled up to its end: no TCP segment and no
    fragment (what is shorter than a header IP drops). *)
Definition plain (c : list Z) : Prop := (20 <= length c)%nat -> fragment c = false /\ ip_proto c <> IP_PROTO_TCP.

Lemma field_bytes off n c : bytes c -> bytes (field off n c).
Proof. intros Hc. unfold field. by apply Forall_take, Forall_drop. Qed.

Lemma le32_address c : bytes c -> length c = 4%nat -> ip_address (of_le32 c).
Proof.
  intros Hb Hl. destruct c as [|b0 [|b1 [|b2 [|b3 [|? ?]]]]]; try done. unfold bytes in Hb. rewrite !Forall_cons in Hb.
  unfold of_le32, word_of, ip_address. cbn [nth]. lia.
Qed.

Section Settles.
Context {A D : Type} `{Allocator A} `{Controller D} `{!Peers A D}.
Context (custom : ptr -> heap A -> heap A) (block_addr : ptr -> Z).
Implicit Types (s : link A (stack D)) (l : list node).

(** [m] returns from [s], with the invariant, and the interfaces as they were. *)
Definition settles {X : Type} (m : cmd (link A (stack D)) X) s : Prop :=
  exists r s', m s = (Ret r, s') /\ arp_ok s' /\ netifs s' = netifs s.

(** The callbacks of the UDP blocks return, whatever packet they are given. *)
Definition callbacks_ok : Prop := forall f arg pcb p src port s x bs l,
  holder s p x bs l -> settles (udp_recv_fn f arg pcb p src port) s.

(** No interface has an MTU below the largest packet of an Ethernet frame. *)
Definition whole_frames (ns : Z -> netif) : Prop := forall i, one_piece (ns i) 1500.

Lemma smaller_piece n k j : one_piece n k -> j <= k -> one_piece n j.
Proof. intros [?|?] Hj; [by left|right; lia]. Qed.

Lemma settles_eq {X} (m m' : cmd (link A (stack D)) X) s s' : m s = m' s' -> netifs s' = netifs s -> settles m' s' -> settles m s.
Proof. intros Heq Hn (r & t & Hr & Hok & Ht). exists r, t. rewrite Heq. split_and!; [done|done|congruence]. Qed.

Lemma settles_bind {X Y} (m : cmd (link A (stack D)) X) (k : X -> cmd (link A (stack D)) Y) s : settles m s ->
  (forall r s', arp_ok s' -> netifs s' = netifs s -> settles (k r) s') -> settles (bind m k) s.
Proof.
  intros (r & s1 & Hr & Hok & Hn) Hk. destruct (Hk r s1 Hok Hn) as (r2 & s2 & Hr2 & Hok2 & Hn2).
  exists r2, s2. cstep Hr. split_and!; [done|done|congruence].
Qed.

Lemma settles_run {X Y} (m : cmd (link A (stack D)) X) (k : X -> cmd (link A (stack D)) Y) r s s1 :
  m s = (Ret r, s1) -> netifs s1 = netifs s -> settles (k r) s1 -> settles (bind m k) s.
Proof. intros Hr Hn Hk. eapply settles_eq; [by cstep Hr|done|done]. Qed.

Lemma settles_assoc {X Y W} (m : cmd (link A (stack D)) X) (f : X -> cmd (link A (stack D)) Y) (g : Y -> cmd (link A (stack D)) W) s :
  settles (bind m (fun u => bind (f u) g)) s -> settles (bind (bind m f) g) s.
Proof. unfold settles. by rewrite bind_bind. Qed.

Lemma settles_ret {X} (r : X) s : arp_ok s -> settles (ret r) s.
Proof. intros Hok. by exists r, s. Qed.

Lemma drop_settles s p x bs l : holder s p x bs l -> settles (drop_packet custom p) s.
Proof.
  intros Hh. destruct (free_runs custom s p x bs l Hh) as (k & s' & Hr & Hok & (_ & Hn & _) & _).
  exists tt, s'. split_and!; [by unfold drop_packet; cstep Hr|done|done].
Qed.

(** For these pbufs [pbuf_header_force] does what [pbuf_header] does. *)
Lemma force_push s p x bs l o k : holder s p x bs l -> payload x = Some (p, o) -> 0 < k <= 32767 -> tot_len x + k <= 65535 ->
  pbufs (pbuf_header_force p k) s = pbufs (pbuf_header p k) s.
Proof.
  intros (_ & Ho & _) Hpl Hk Ht. pose proof Ho as [(_ & Hx & _) _].
  destruct (owns_head_payload _ _ _ _ _ Ho) as (_ & _ & _ & Hty & Hl & Htot). rewrite length_app in Htot.
  unfold pbufs, pbuf_header_force, pbuf_header.
  rewrite !(header_ok (hp s) p x k _ p o Hx Hpl) by (done || lia). done.
Qed.

(** A pushed header leads back to where the payload was before it was pulled. *)
Lemma push_back s p x bs l o k n m : holder s p x bs l -> payload x = Some (p, o) -> 0 < k <= o -> k <= 32767 -> tot_len x + k <= 65535 ->
  at_payload (hp s) p (moved (- k) x) n m -> exists s' hb,
  pbufs (pbuf_header p k) s = (Ret 0, s') /\ holder s' p (moved (- k) x) (hb ++ bs) l /\ within s p s' /\ dev s' = dev s /\
  at_payload (hp s') p (moved (- k) x) n m.
Proof.
  intros Hh Hpl Hk Hk2 Ht Hm. pose proof (push_runs s p x bs l o k Hh Hpl ltac:(lia) Ht) as Hp.
  rewrite (proj2 (Z.ltb_ge _ _)) in Hp by lia. destruct Hp as (s' & hb & Hr & _ & Hh' & Hw & Hd & Hb).
  exists s', hb. split_and!; try done. destruct Hm as (o' & a & H1 & H2 & H3). exists o', a. by rewrite Hb.
Qed.

(** The sender is told, and the packet is dropped. *)
Lemma told_settles s p x bs l m type_ code : whole_frames (netifs s) -> holder s p x bs l -> at_payload (hp s) p x 1502 m ->
  octet type_ -> octet code ->
  settles (icmp_send_response custom block_addr p type_ code ;;; drop_packet custom p) s.
Proof.
  intros Hw Hh Hm Ht Hc.
  destruct (response_runs custom block_addr s p x bs l 1502 m type_ code) as (s1 & Hr & Hok & Hk & _); try done; [|lia|].
  { intros i. eapply smaller_piece; [apply Hw|lia]. }
  eapply settles_eq; [by cstep Hr|by destruct Hk as (_ & -> & _)|]. eapply drop_settles.
  eapply holder_keeps; [exact Hh|exact Hok|exact Hk|done].
Qed.

(** ** The packet as the protocols get it *)

(** The header of [m], [hl] bytes long, is in front of the payload of [x], and [ip_data]
    says what it says. *)
Record opened s (p : ptr) x bs l (hl inp : Z) (m : list Z) : Prop := {
  op_holder : holder s p x bs l;
  op_payload : payload x = Some (p, 14 + hl);
  op_header : at_payload (hp s) p (moved (- hl) x) 1502 m;
  op_hlen : ip_hlen m = hl /\ 20 <= hl <= 60;
  op_size : tot_len x <= 1500 - hl;
  op_bytes : bytes (bs ++ content l);
  op_filled : filled l;
  op_data : exists nif, ip_data (dev s) = IpGlobals (Some nif) (Some inp) (payload (moved (- hl) x)) hl (ip_src m) (ip_dst m);
  op_src : ip_address (ip_src m);
  op_dst : ip_address (ip_dst m)
}.

Lemma moved_moved a b x : moved a (moved b x) = moved (b + a) x.
Proof.
  destruct x as [nx [[q o]|] tl le ty fl rf]; unfold moved, with_tot_len, with_len, with_payload; cbn; f_equal; try lia.
  do 2 f_equal. lia.
Qed.

Lemma pcb_at_run s pcb y : pcbs (udp (dev s)) !! pcb = Some y -> blocks (pcb_at pcb) s = (Ret y, s).
Proof. intros Hy. rewrite <- (with_blocks_id s) at 2. apply blocks_run. unfold pcb_at. by rewrite Hy. Qed.

Lemma chosen_block (pm : gmap ptr udp_pcb) k ul pcb : chosen pm k ul = Some pcb -> exists y, pm !! pcb = Some y.
Proof.
  assert (Hf : forall f, find (hit pm f) ul = Some pcb -> exists y, pm !! pcb = Some y).
  { intros f Hf%find_some. destruct Hf as [_ Hh]. unfold hit in Hh. destruct (pm !! pcb); [eauto|done]. }
  unfold chosen, perfect, taker. intros Hc. case_match; [injection Hc as ->|]; eauto.
Qed.

(** ** UDP *)
Lemma unreach_settles s p x bs l hl inp m n bcast : whole_frames (netifs s) -> holder s p (moved n x) bs l -> payload x = Some (p, 14 + hl) ->
  at_payload (hp s) p (moved (- hl) x) 1502 m -> 20 <= hl <= 60 -> n = 8 -> tot_len x <= 1500 - hl ->
  (exists nif a b, ip_data (dev s) = IpGlobals (Some nif) (Some inp) (payload (moved (- hl) x)) hl a b) ->
  settles (udp_unreach custom block_addr p bcast) s.
Proof.
  intros Hw Hh Hpl Hm Hhl -> Ht (nif & a & b & Hd). unfold udp_unreach.
  eapply settles_run; [reflexivity|done|]. rewrite Hd. cbn [current_ip_header_tot_len current_iphdr_dest].
  destruct (negb bcast && _).
  2:{ eapply settles_run; [reflexivity|done|]. by eapply drop_settles. }
  assert (Hs16 : s16 (hl + UDP_HLEN) = hl + 8).
  { change UDP_HLEN with 8. apply s16_small. lia. }
  rewrite Hs16. assert (Hpl8 : payload (moved 8 x) = Some (p, 14 + hl + 8)) by (cbn; by rewrite Hpl).
  assert (Hback : moved (- (hl + 8)) (moved 8 x) = moved (- hl) x) by (rewrite moved_moved; f_equal; lia).
  pose proof (force_push s p (moved 8 x) bs l _ (hl + 8) Hh Hpl8 ltac:(lia) ltac:(cbn; lia)) as Hforce.
  destruct (push_back s p (moved 8 x) bs l _ (hl + 8) 1502 m Hh Hpl8 ltac:(lia) ltac:(lia) ltac:(cbn; lia)) as
    (s1 & hb & Hr & Hh1 & Hw1 & _ & Hm1); [by rewrite Hback|]. rewrite Hback in *.
  assert (Hn1 : netifs s1 = netifs s) by (by eapply within_netifs).
  eapply (settles_eq _ (icmp_send_response custom block_addr p ICMP_DUR ICMP_DUR_PORT ;;; drop_packet custom p) s s1);
    [|done|by eapply told_settles; rewrite ?Hn1].
  rewrite bind_bind, (bind_ret _ _ s 0 s1) by (by rewrite Hforce). done.
Qed.

Lemma udp_settles s p x bs l hl inp m : callbacks_ok -> whole_frames (netifs s) -> opened s p x bs l hl inp m ->
  settles (udp_input custom block_addr p inp) s.
Proof.
  intros Hcb Hw [Hh Hpl Hm [_ Hhl] Ht Hby Hf (nif & Hd) Hs Hdst]. destruct (stack_ok s (proj1 Hh)) as [_ [ul Hu]].
  pose proof (udp_input_runs custom block_addr s ul p x bs l nif inp Hh Hu) as Hrun. rewrite Hd in Hrun.
  specialize (Hrun eq_refl ltac:(lia) Hby Hs Hdst). destruct (len x <? 8).
  { eapply settles_eq; [exact Hrun|done|by eapply drop_settles]. }
  cbv zeta in Hrun. set (k := udp_key _ _ _ _) in *. destruct Hrun as (s1 & Hsr & Hrec).
  destruct (searched_holder _ _ _ _ _ _ _ _ Hh Hsr) as [Hh1 Hw1]. pose proof (within_netifs _ _ _ Hw1) as Hn1.
  unfold udp_received in Hrec. destruct (_ || _).
  { eapply settles_eq; [exact Hrec|done|by eapply drop_settles]. }
  destruct Hrec as (s2 & Hr2 & Hh2 & Hw2 & Hd2 & Hb2). pose proof (within_netifs _ _ _ Hw2) as Hn2.
  eapply settles_eq; [exact Hr2|congruence|]. destruct Hsr as (u1 & -> & _ & Hfl). unfold udp_taken.
  destruct (chosen _ k ul) as [pcb|] eqn:Hch.
  - destruct (chosen_block _ _ _ _ Hch) as (y & Hy).
    destruct (fields_lookup (pcbs u1) pcb (unlinked y)) as (y1 & Hy1 & _).
    { rewrite Hfl. unfold fields. by rewrite lookup_fmap, Hy. }
    eapply settles_run; [apply pcb_at_run; rewrite Hd2; exact Hy1|done|].
    destruct (recv y1); [by eapply Hcb|by eapply drop_settles].
  - eapply (unreach_settles s2 p x (drop 8 bs) l hl inp m 8); try done.
    + by rewrite Hn2, Hn1.
    + destruct Hm as (o & a & H1 & H2 & H3). exists o, a. by rewrite Hb2.
    + rewrite Hd2. cbn. rewrite Hd. eauto.
Qed.

(** ** ICMP: the answer to an echo request, whatever its header *)

(** The holder of a packet works on it. *)
Definition working s0 (p : ptr) x l s : Prop := exists bs, since s0 p x bs l s.

Lemma working_netifs s0 p x l s : working s0 p x l s -> netifs s = netifs s0.
Proof. intros (bs & _ & Hw & _). by eapply within_netifs. Qed.

Section Work.
Context (s0 : link A (stack D)) (p : ptr) (x : pbuf) (l : list node).

Lemma work_write s o n off cs (k : unit -> cmd (link A (stack D)) unit) : working s0 p x l s -> payload x = Some (p, o) ->
  0 <= n + off -> n + off + Z.of_nat (length cs) <= len x -> (forall s', working s0 p x l s' -> settles (k tt) s') ->
  settles (bind (pbufs (write_mem (Some (p, o + n)) off cs)) k) s.
Proof.
  intros Hs Hpl H1 H2 Hk. pose proof Hs as (bs & Hc).
  destruct (since_write _ _ _ _ _ _ (n + off) cs Hc H1 H2) as (s' & Hr & Hc').
  eapply (settles_run _ _ tt s s'); [|rewrite (working_netifs _ _ _ _ _ Hs); apply (working_netifs s0 p x l); by eexists|apply Hk; by eexists].
  rewrite <- Hr. rewrite Hpl. unfold pbufs, write_mem. by replace (o + n + off) with (o + (n + off)) by lia.
Qed.

Lemma work_read16 s o n off (k : Z -> cmd (link A (stack D)) unit) : working s0 p x l s -> payload x = Some (p, o) ->
  0 <= n + off -> n + off + 2 <= len x -> (forall v, settles (k v) s) -> settles (bind (read16 (Some (p, o + n)) off) k) s.
Proof.
  intros (bs & (_ & Ho & _) & _) Hpl H1 H2 Hk.
  pose proof (read_at s x bs (Z.to_nat (n + off)) 2 (owns_holds _ _ _ _ _ Ho) ltac:(lia)) as Hr. rewrite Z2Nat.id in Hr by lia.
  eapply settles_run; [|done|apply Hk]. unfold read16.
  rewrite (bind_ret _ _ s (field (Z.to_nat (n + off)) 2 bs) s); [reflexivity|]. rewrite <- Hr, Hpl. unfold pbufs, read_mem.
  by replace (o + n + off) with (o + (n + off)) by lia.
Qed.

Lemma work_chksum s n (k : Z -> cmd (link A (stack D)) unit) : working s0 p x l s -> 0 <= n <= len x ->
  (forall v, settles (k v) s) -> settles (bind (chksum_at block_addr (payload x) n) k) s.
Proof.
  intros (bs & (_ & Ho & _) & _) Hn Hk.
  pose proof (read_at s x bs 0 (Z.to_nat n) (owns_holds _ _ _ _ _ Ho) ltac:(lia)) as Hr. rewrite Z2Nat.id in Hr by lia.
  eapply settles_run; [unfold chksum_at; by cstep Hr|done|apply Hk].
Qed.

(** The packet goes out with the header it has, and is dropped. *)
Lemma work_output s src nif : working s0 p x l s -> filled l -> 20 <= len x -> tot_len x <= 1500 -> whole_frames (netifs s) ->
  settles ((ip4_output_if custom p (Some src) None ICMP_TTL 0 IP_PROTO_ICMP nif ;;; ret tt) ;;; drop_packet custom p) s.
Proof.
  intros (bs & (Hh & _)) Hf Hl Ht Hw. pose proof Hh as (Hok & Ho & Hsub).
  pose proof (read_at s x bs 16 4 (owns_holds _ _ _ _ _ Ho) ltac:(lia)) as Hrd.
  destruct (ip4_send_runs custom s nif (of_le32 (field 16 4 bs)) p x bs l Hok Ho Hf Hsub ltac:(lia)
    (smaller_piece _ _ _ (Hw nif) Ht)) as (r & s1 & Hr & Hok1 & Hs1 & (x' & bs' & Ho1) & _).
  pose proof Ho as [_ [(_ & Hrf & _) _]%Forall_cons]. cbn [n_buf] in Hrf.
  assert (Hout : ip4_output_if custom p (Some src) None ICMP_TTL 0 IP_PROTO_ICMP nif s = (Ret r, s1)).
  { unfold ip4_output_if. cstep (eq_refl (gets (fun s => netifs s nif) s)).
    unfold ip4_output_if_src, func. pstep (load_head _ _ _ _ Ho). cbn [n_buf].
    rewrite (bind_ret _ _ s tt s) by (apply assert_true; lia). rewrite bind_bind.
    cstep Hrd. cstep (eq_refl (ret (of_le32 (field 16 4 bs)) s)). by rewrite Hr. }
  eapply (settles_run _ _ tt s s1); [by cstep Hout|by destruct Hs1 as (_ & -> & _)|].
  apply (drop_settles s1 p x' bs' l). split; [done|]. split; [done|]. destruct Hs1 as (-> & _). exact Hsub.
Qed.
End Work.

Lemma echo_settles s p x bs l hl inp m src dst : whole_frames (netifs s) -> opened s p x bs l hl inp m -> 4 <= len x ->
  settles (echo_answer custom block_addr p hl src dst inp ;;; drop_packet custom p) s.
Proof.
  intros Hw [Hh Hpl Hm [_ Hhl] Ht _ Hf _ _ _] Hl. pose proof Hh as (_ & Ho & _).
  destruct (push_back s p x bs l _ hl 1502 m Hh Hpl ltac:(lia) ltac:(lia) ltac:(lia) Hm) as (s1 & hb & Hr & Hh1 & Hw1 & Hd1 & _).
  set (X := moved (- hl) x) in *. assert (HX : payload X = Some (p, 14)) by (unfold X; cbn; rewrite Hpl; cbn; repeat f_equal; lia).
  assert (HlX : len X = len x + hl) by (unfold X; cbn; lia). assert (HtX : tot_len X <= 1500) by (unfold X; cbn; lia).
  assert (Hc : working s p X l s1) by (exists (hb ++ bs); by split_and!). clear Hm. clearbody X.
  pose proof Hh1 as (_ & Ho1 & _). unfold echo_answer. apply settles_assoc.
  eapply settles_run; [exact (pbufs_run _ s _ _ (load_head _ _ _ _ Ho))|by rewrite with_hp_hp|]. rewrite with_hp_hp. cbn [n_buf]. rewrite Hpl.
  apply settles_assoc. eapply settles_run; [exact Hr|by eapply within_netifs|]. change (truthy 0) with false. cbv iota.
  apply settles_assoc. eapply settles_run; [exact (pbufs_run _ s1 _ _ (load_head _ _ _ _ Ho1))|by rewrite with_hp_hp|]. rewrite with_hp_hp. cbn [n_buf].
  pose proof HX as HX0. rewrite <- (Z.add_0_r 14) in HX0. rewrite HX0.
  apply settles_assoc. eapply work_write; [exact Hc|exact HX|lia|cbn; lia|]. clear Hc. intros t Hc.
  apply settles_assoc. eapply work_write; [exact Hc|exact HX|lia|cbn; lia|]. clear Hc. intros t1 Hc.
  apply settles_assoc. eapply work_write; [exact Hc|exact HX|lia|cbn; lia|]. clear Hc. intros t2 Hc.
  apply settles_assoc. eapply work_read16; [exact Hc|exact HX|lia|lia|]. intros v.
  match goal with |- context [if ?b then pbufs (write_mem ?a ?o (le16 ?u)) else pbufs (write_mem _ _ (le16 ?w))] =>
    replace (if b then pbufs (write_mem a o (le16 u)) else pbufs (write_mem a o (le16 w)))
    with (pbufs (write_mem a o (le16 (if b then u else w))) : cmd (link A (stack D)) unit) by (by destruct b) end.
  apply settles_assoc. eapply work_write; [exact Hc|exact HX|lia|cbn; lia|]. clear Hc. intros t3 Hc.
  apply settles_assoc. eapply work_write; [exact Hc|exact HX|lia|cbn; lia|]. clear Hc. intros t4 Hc.
  apply settles_assoc. eapply work_write; [exact Hc|exact HX|lia|cbn; lia|]. clear Hc. intros t5 Hc.
  apply settles_assoc. rewrite <- HX0. eapply work_chksum; [exact Hc|lia|]. intros sum. rewrite HX0.
  apply settles_assoc. eapply work_write; [exact Hc|exact HX|lia|cbn; lia|]. clear Hc. intros t6 Hc.
  eapply work_output; [exact Hc|done|lia|done|]. by rewrite (working_netifs _ _ _ _ _ Hc).
Qed.

Lemma icmp_settles s p x bs l hl inp m : whole_frames (netifs s) -> opened s p x bs l hl inp m ->
  settles (icmp_input custom block_addr p inp) s.
Proof.
  intros Hw Hop. pose proof Hop as [Hh Hpl Hm [Hhm Hhl] Ht Hby Hf (nif & Hd) _ _]. pose proof Hh as (_ & Ho & _).
  assert (Hdrop : settles (drop_packet custom p) s) by (by eapply drop_settles).
  destruct (owns_head_payload _ _ _ _ _ Ho) as (_ & _ & _ & _ & Hlb & Htot).
  unfold icmp_input. eapply settles_run; [reflexivity|done|]. rewrite Hd. cbn [current_ip4_header current_iphdr_dest current_iphdr_src current_netif].
  eapply settles_run; [exact (peek8 s p _ 1502 m 0 Hm ltac:(lia))|done|]. fold (ip_hlen m). rewrite Hhm.
  change IP_HLEN with 20. rewrite (proj2 (Z.ltb_ge hl 20)) by lia.
  eapply settles_run; [exact (pbufs_run _ s _ _ (load_head _ _ _ _ Ho))|by rewrite with_hp_hp|]. rewrite with_hp_hp. cbn [n_buf].
  destruct (Z.ltb_spec (len x) 4) as [|Hl4]; [done|].
  eapply settles_run; [exact (read8_at s x bs 0 (owns_holds _ _ _ _ _ Ho) ltac:(lia))|done|].
  destruct (_ =? ICMP_ECHO); [|done]. destruct (ip4_addr_ismulticast _); [done|].
  eapply settles_run; [reflexivity|done|]. eapply settles_run; [reflexivity|done|].
  destruct (ip4_addr_isbroadcast _ _); [done|]. destruct (tot_len x <? SIZEOF_ICMP_ECHO_HDR); [done|].
  pose proof (chksum_pbuf_ok block_addr (Node p x bs :: l) (Some p) (hp s) (proj1 Ho)) as Hck.
  rewrite content_cons in Hck. cbn [n_bytes] in Hck. specialize (Hck Hby ltac:(lia)).
  eapply settles_run; [exact (pbufs_run _ s _ _ Hck)|by rewrite with_hp_hp|]. rewrite with_hp_hp. destruct (negb _); [done|].
  assert (Hroom : hl + PBUF_LINK_HLEN + PBUF_LINK_ENCAPSULATION_HLEN = hl + 14).
  { change PBUF_LINK_HLEN with 14. change PBUF_LINK_ENCAPSULATION_HLEN with 0. lia. }
  rewrite Hroom. destruct (room_tried s p x bs l _ (hl + 14) Hh Hpl ltac:(lia) ltac:(lia) ltac:(lia))
    as (s1 & s2 & Hr1 & Hr2 & Hh2 & Hw2 & Hd2 & Hb2).
  assert (Hn2 : netifs s2 = netifs s) by (by eapply within_netifs).
  eapply (settles_eq _ (echo_answer custom block_addr p hl (ip_dst m) (ip_src m) inp ;;; drop_packet custom p) s s2); [|done|].
  - cstep Hr1. change (truthy 0) with false. cbv iota. rewrite bind_bind. cstep Hr2. rewrite ?bind_bind.
    cstep (eq_refl (assert_ (S := link A (stack D)) true s2)). by cstep (eq_refl (ret (Some p) s2)).
  - apply (echo_settles s2 p x bs l hl inp m); [by rewrite Hn2| |done]. destruct Hop. split; try done.
    + destruct Hm as (o & a & H1 & H2 & H3). exists o, a. by rewrite Hb2.
    + exists nif. by rewrite Hd2.
Qed.

(** ** IP *)

(** Another protocol: the sender of a packet to us alone is told. *)
Lemma unknown_settles s p x bs l hl inp m i : whole_frames (netifs s) -> opened s p x bs l hl inp m ->
  settles (n <- gets (fun s => netifs s i) ;;
    (if negb (ip4_addr_isbroadcast (ip_dst m) n) && negb (ip4_addr_ismulticast (ip_dst m)) then
       pbufs (pbuf_header_force p hl) ;;;
       pbufs (update p (with_payload (payload (moved (- hl) x)))) ;;;
       icmp_dest_unreach custom block_addr p ICMP_DUR_PROTO
     else ret tt) ;;;
    drop_packet custom p) s.
Proof.
  intros Hw [Hh Hpl Hm [_ Hhl] Ht _ _ _ _ _]. eapply settles_run; [reflexivity|done|]. destruct (_ && _).
  2:{ eapply settles_run; [reflexivity|done|]. by eapply drop_settles. }
  pose proof (force_push s p x bs l _ hl Hh Hpl ltac:(lia) ltac:(lia)) as Hforce.
  destruct (push_back s p x bs l _ hl 1502 m Hh Hpl ltac:(lia) ltac:(lia) ltac:(lia) Hm) as (s1 & hb & Hr & Hh1 & Hw1 & _ & Hm1).
  assert (Hn1 : netifs s1 = netifs s) by (by eapply within_netifs). set (X := moved (- hl) x) in *.
  pose proof Hh1 as (_ & Ho1 & _). pose proof Ho1 as [(_ & Hx1 & _) _].
  assert (Hup : pbufs (update p (with_payload (payload X))) s1 = (Ret tt, s1)).
  { rewrite (pbufs_run _ s1 _ _ (update_at _ _ X _ Hx1)). assert (HX : with_payload (payload X) X = X) by (by destruct X).
    rewrite HX, insert_id by done. destruct s1 as [? ? ? ? [] ?]. done. }
  eapply (settles_eq _ (icmp_send_response custom block_addr p ICMP_DUR ICMP_DUR_PROTO ;;; drop_packet custom p) s s1);
    [|done|by eapply told_settles; rewrite ?Hn1].
  rewrite bind_bind, (bind_ret _ _ s 0 s1) by (by rewrite Hforce). rewrite bind_bind. by cstep Hup.
Qed.

Lemma protocol_settles s p x bs l hl inp m i : callbacks_ok -> whole_frames (netifs s) -> opened s p x bs l hl inp m ->
  ip_proto m <> IP_PROTO_TCP ->
  settles (ip4_to_protocol custom block_addr p inp i (payload (moved (- hl) x)) hl (ip_dst m) (ip_proto m)) s.
Proof.
  intros Hcb Hw Hop Hp. unfold ip4_to_protocol. destruct (_ =? IP_PROTO_UDP); [by eapply udp_settles|].
  destruct (Z.eqb_spec (ip_proto m) IP_PROTO_TCP); [done|].
  destruct (_ =? IP_PROTO_ICMP); [by eapply icmp_settles|by eapply unknown_settles].
Qed.

(** What IP gets from the link layer, and what it is after the checks of its header. *)
Definition deliverable_ip s (p : ptr) x bs l (m : list Z) : Prop :=
  incoming s p x bs l 1502 m /\ payload x = Some (p, 14) /\ tot_len x <= 1500.

Lemma addresses_ok s p x bs l m : deliverable_ip s p x bs l m -> 20 <= len x -> ip_address (ip_src m) /\ ip_address (ip_dst m).
Proof.
  intros (Hin & _ & Ht) Hl. pose proof Hin as ((_ & Ho & _) & _ & _ & _ & Hby & _).
  destruct (owns_head_payload _ _ _ _ _ Ho) as (_ & _ & _ & _ & Hlb & Htot). rewrite length_app in Htot.
  unfold ip_src, ip_dst. rewrite !(incoming_field s p x bs l 1502 m _ _ Hin) by lia.
  split; (apply le32_address; [by apply field_bytes|]); unfold field; rewrite length_take, length_drop, length_app; lia.
Qed.

Lemma ip4_whole_settles s p x bs l m inp i : callbacks_ok -> whole_frames (netifs s) -> deliverable_ip s p x bs l m ->
  20 <= ip_hlen m <= len x -> fragment m = false -> ip_proto m <> IP_PROTO_TCP ->
  ip_data (dev s) = addressed s m ->
  settles (ip4_accepted custom block_addr p inp i (payload x) (ip_hlen m)) s.
Proof.
  intros Hcb Hw Hdel Hhl Hfr Hp Hda. destruct (addresses_ok s p x bs l m Hdel ltac:(lia)) as [Hsrc Hdst].
  pose proof Hdel as (Hin & Hpl & Ht). pose proof (ip_hlen_range m) as Hr.
  pose proof (with_data_incoming (handling s i inp (payload x) (ip_hlen m)) _ _ _ _ _ _ _ Hin) as Hin1.
  eapply settles_eq; [apply (ip4_whole_ok custom block_addr s p x bs l 1502 m inp i Hin ltac:(lia) Hfr)|done|].
  set (s1 := with_data _ s) in *.
  destruct (ip4_deliver_ok custom block_addr s1 p x bs l 1502 m inp i (current_iphdr_dest (ip_data (dev s))) Hin1 ltac:(lia) ltac:(lia))
    as (s2 & (Hin2 & Hw2 & Hd2 & Hm2) & Hrun).
  assert (Hback : moved (- ip_hlen m) (moved (ip_hlen m) x) = x) by apply moved_back.
  apply settles_bind.
  - eapply settles_eq; [exact Hrun|by eapply within_netifs|]. rewrite Hda. rewrite <- Hback at 1.
    apply (protocol_settles s2 p (moved (ip_hlen m) x) (drop (Z.to_nat (ip_hlen m)) bs) l _ inp m); [done| |split|done].
    + by rewrite (within_netifs _ _ _ Hw2).
    + apply Hin2.
    + cbn. by rewrite Hpl.
    + by rewrite Hback.
    + split; [done|lia].
    + cbn. lia.
    + apply Hin2.
    + apply Hin2.
    + exists i. rewrite Hd2, Hback. cbn. unfold handling. by rewrite Hda.
    + done.
    + done.
  - intros [] s3 Hok3 Hn3. exists tt, (with_data idle_ip_data s3). split; [done|]. split; [|done].
    destruct Hok3 as [T P C N B I V]. by split.
Qed.

Lemma ip4_input_settles s p x bs l m inp : callbacks_ok -> whole_frames (netifs s) -> deliverable_ip s p x bs l m ->
  plain (bs ++ content l) -> settles (ip4_input_ custom block_addr p inp) s.
Proof.
  intros Hcb Hw (Hin & Hpl & Ht) Hplain. pose proof Hin as (Hh & _).
  pose proof (ip4_input_checked custom block_addr s p x bs l 1502 m inp Hin ltac:(lia)) as Hc.
  destruct (negb _). { eapply settles_eq; [exact Hc|done|by eapply drop_settles]. }
  destruct Hc as (s1 & x1 & bs1 & l1 & Hin1 & Htr & Hrun). pose proof Hin1 as (Hh1 & _).
  destruct Htr as (Hpl1 & _ & Hl1 & Ht1 & Hon1 & _). assert (Hn1 : netifs s1 = netifs s) by apply Hon1.
  destruct (ip_sound x1 bs1 m) eqn:Hsound; (eapply settles_eq; [exact Hrun|done|]); [|by eapply drop_settles].
  apply andb_true_iff in Hsound as [Hlen%negb_true_iff _]. apply orb_false_iff in Hlen as [[H1 _]%orb_false_iff H2].
  change IP_HLEN with 20 in H2. apply Z.ltb_ge in H1, H2.
  destruct (owns_head_payload _ _ _ _ _ (proj1 (proj2 Hh))) as (_ & _ & _ & _ & Hlb & Htot). rewrite length_app in Htot.
  destruct (ip_fields_agree m (bs ++ content l)) as (_ & _ & _ & Ef & _ & _ & Ep).
  { intros off n Hn. eapply incoming_field; [exact Hin|lia|lia]. }
  destruct Hplain as [Hfr Hp]; [rewrite length_app; lia|].
  pose proof (ip4_addressed_ok custom block_addr s1 p x1 bs1 l1 1502 m inp Hin1 ltac:(lia)) as Hadd. cbv zeta in Hadd.
  pose proof (with_data_incoming (addressed s1 m) _ _ _ _ _ _ _ Hin1) as Hin2. set (s2 := with_data _ s1) in *.
  assert (Hdel2 : deliverable_ip s2 p x1 bs1 l1 m) by (split; [done|split; [congruence|lia]]).
  destruct (destined s1 inp m) as [nif|]; (eapply settles_eq; [exact Hadd|done|]).
  - apply (ip4_whole_settles s2 p x1 bs1 l1 m inp nif); try done; [|by rewrite Ef|by rewrite Ep].
    change (netifs s2) with (netifs s1). by rewrite Hn1.
  - eapply drop_settles, Hin2.
Qed.

(** What the link layer asks of IP. *)
#[local] Instance up : Upper A (stack D) := stack_upper custom block_addr.

Lemma stack_ip_ok ns : callbacks_ok -> whole_frames ns -> ip_ok plain ns.
Proof.
  intros Hcb Hw s p n l m nif Hok <- Ho Hsub Hpool Hm Hpl _ Ht Hf Hby Hp.
  pose proof (owns_head _ _ _ _ Ho) as Hq. destruct n as [p' x bs]. cbn [n_ptr n_buf] in *. subst p'.
  rewrite content_cons in *. cbn [n_bytes] in *.
  destruct (ip4_input_settles s p x bs l m nif Hcb Hw) as ([] & s' & Hr); [|done|by exists s'].
  split; [|done]. split; [by split|]. split; [done|]. split; [done|]. split; [lia|by split].
Qed.


(** C9: Over any sequence of timer ticks, lost interfaces, received frames and packets to send
    through the ARP table, with the modelled ip4_input, udp_input and icmp_input behind it, no
    operation faults or runs out of fuel and the invariant of the table holds after each;
    and as long as no frame goes to IP no pbuf is leaked or released twice: what is in use
    is what the others had and the waiting packets.  Frames are of any content, in octets,
    and not longer than Ethernet allows; a packet to send is the sender's own ([allowed]).
    Frames for IP hold no TCP segment and no fragment ([plain]: tcp_input and ip4_reass are
    not modelled).  The callbacks that applications set with udp_recv return and keep the
    invariant ([callbacks_ok]), no interface has an MTU below 1500 ([whole_frames]), and the
    stale flags of an element of the pbuf pool do not make it a custom pbuf. *)
Theorem arp_session_safe evs s : callbacks_ok -> whole_frames (netifs s) -> (forall q, PBUF_FLAG_custom (stale_pbuf q) = false) ->
  arp_ok s -> safe custom plain evs s.
Proof. intros Hcb Hw. apply session_safe. by apply stack_ip_ok. Qed.
End Settles.
