(* ===== verification/IpRuns.v ===== *)
(** * Concrete runs of the theorems on UDP, IPv4 and ICMP

    Two hosts with the allocator of [PbufRuns] and a controller that logs the frames it
    sends; the callback of a UDP block logs the sender's address and port and the payload.
    The host that is pinged has the firmware's own heap and pools ([Memory]). *)
From S2P Require Export Memory UdpTypes IpSafe EtharpRuns.

#[local] Set Warnings "-clear-no-such-hyp".

(** ** UDP control blocks *)
Definition six : list ptr := [1; 2; 3; 4; 5; 6]%positive.

(** Two blocks: one bound to any address, the other connected to port 7 of 192.168.1.2. *)
Definition started : list call :=
  [New; New; Bind 1 None 5005; Connect 2 0x0201A8C0 7; Recv 1 (Some 9) 42].
Definition bound_blocks : udp_state := issues started (boot six).

Lemma six_ok : NoDup six /\ length six = MEMP_NUM_UDP_PCB.
Proof. split; [|done]. apply (bool_decide_unpack _). vm_compute. exact I. Qed.

Lemma reached_step pool u c : UdpPcbThms.reached pool u -> UdpPcbThms.allowed u c -> (issue c u).1 = Ret tt -> UdpPcbThms.reached pool (issue c u).2.
Proof. intros Hu Hc Hr. apply (reached_call pool u c); [done|done|]. destruct (issue c u). cbn in *. by subst. Qed.

Ltac allowed_tac := cbn [UdpPcbThms.allowed]; first [exact I|vm_compute; eauto; fail|split; [vm_compute; eauto|lia]].

Lemma bound_reached : UdpPcbThms.reached six bound_blocks.
Proof.
  unfold bound_blocks, started. cbn [issues].
  repeat (apply reached_step; [|allowed_tac|vm_compute; reflexivity]).
  apply reached_boot.
Qed.

Definition hello : packet_to := PacketTo 0x0101A8C0 49152 0x0201A8C0 5005 false 0x00FFFFFF.

Lemma bound_ok : udp_ok bound_blocks [2; 1]%positive.
Proof.
  split.
  - repeat (split; [reflexivity|]; eexists; split; [reflexivity|]). reflexivity.
  - apply (bool_decide_unpack _). vm_compute. exact I.
  - intros p x Hx. apply elem_of_map_to_list in Hx. vm_compute in Hx.
    repeat (apply elem_of_cons in Hx as [[= -> ->]|Hx]; [vm_compute; set_solver|]). by apply elem_of_nil in Hx.
  - vm_compute. split; congruence.
  - intros p q x y Hp Hq Hx Hy.
    repeat (apply elem_of_cons in Hp as [->|Hp]); try by apply elem_of_nil in Hp.
    all: repeat (apply elem_of_cons in Hq as [->|Hq]); try by apply elem_of_nil in Hq.
    all: vm_compute in Hx, Hy; injection Hx as <-; injection Hy as <-; done.
  - apply (bool_decide_unpack _). vm_compute. exact I.
  - intros p Hp. repeat (apply elem_of_cons in Hp as [->|Hp]; [reflexivity|]). by apply elem_of_nil in Hp.
  - reflexivity.
Qed.

Lemma udp_blocks_safe_witness : exists u' l, issue (Datagram hello) bound_blocks = (Ret tt, u') /\
  lseg (pcbs u') (udp_pcbs u') l None /\ NoDup l /\
  (forall p x, pcbs u' !! p = Some x -> (local_port x <> 0 <-> p ∈ l)) /\ exclusive (pcbs u') l /\
  (size (pcbs u') + length (memp_udp_pcb u') = MEMP_NUM_UDP_PCB)%nat.
Proof. apply (udp_blocks_safe six bound_blocks (Datagram hello)); [apply six_ok|apply six_ok|exact bound_reached|exact I]. Defined.

(** Two blocks with the same port, on two addresses; the interface of the first gets the
    address of the second, and both are bound to the same address and port. *)
Example readdressed_blocks_clash :
  let u := issues [New; New; Bind 1 (Some 0x0101A8C0) 5005; Bind 2 (Some 0x0201A8C0) 5005; Address 0x0101A8C0 0x0201A8C0] (boot six) in
  (fun x => (local_ip x, local_port x)) <$> pcbs u !! 1%positive = Some (0x0201A8C0, 5005) /\
  (fun x => (local_ip x, local_port x)) <$> pcbs u !! 2%positive = Some (0x0201A8C0, 5005).
Proof. vm_compute. split; reflexivity. Qed.

(** The second block asks for the address and port of the first. *)
Lemma udp_bind_correct_witness : exists x, pcbs bound_blocks !! 2%positive = Some x /\
  exists r u', udp_bind (Some 2%positive) None 5005 bound_blocks = (Ret r, u') /\
    (r = ERR_USE /\ u' = bound_blocks \/ r = ERR_OK /\ exists port',
       placed bound_blocks [2; 1]%positive 2 (with_local_port port' (with_local_ip IPADDR_ANY x)) u' /\
       (5005 = 0 -> dynamic port' /\ ~ in_use (pcbs bound_blocks) [2; 1]%positive port') /\ (5005 <> 0 -> port' = 5005)) /\
    (r = ERR_USE <-> 5005 <> 0 /\ taken (pcbs bound_blocks) [2; 1]%positive 2 IPADDR_ANY 5005).
Proof.
  eexists. split; [vm_compute; reflexivity|].
  apply (udp_bind_correct bound_blocks [2; 1]%positive 2 _ None 5005 bound_ok); [vm_compute; reflexivity|lia].
Defined.

Lemma udp_new_port_correct_witness : exists i,
  let port := nth_port i (udp_port bound_blocks) in
  udp_new_port bound_blocks = (Ret port, with_port port bound_blocks) /\
  UDP_LOCAL_PORT_RANGE_START <= port <= UDP_LOCAL_PORT_RANGE_END /\
  (forall p x, p ∈ [2; 1]%positive -> pcbs bound_blocks !! p = Some x -> local_port x <> port) /\
  forall j, (1 <= j < i)%nat -> in_use (pcbs bound_blocks) [2; 1]%positive (nth_port j (udp_port bound_blocks)).
Proof. apply (udp_new_port_correct bound_blocks [2; 1]%positive bound_ok). Defined.

Lemma udp_demux_correct_witness : exists r u' l', udp_demux hello bound_blocks = (Ret r, u') /\
  match r with
  | Some p => exists x, p ∈ [2; 1]%positive /\ pcbs bound_blocks !! p = Some x /\ meant hello x = true /\
      (from_peer hello x = true /\ head l' = Some p \/ unconnected x = true /\ l' = [2; 1]%positive)
  | None => forall p x, p ∈ [2; 1]%positive -> pcbs bound_blocks !! p = Some x -> meant hello x = true ->
      from_peer hello x = false /\ unconnected x = false
  end /\
  (forall p x, p ∈ [2; 1]%positive -> pcbs bound_blocks !! p = Some x -> meant hello x = true -> from_peer hello x = true ->
     exists q y, r = Some q /\ pcbs bound_blocks !! q = Some y /\ from_peer hello y = true) /\
  udp_ok u' l' /\ l' ≡ₚ [2; 1]%positive /\ fields (pcbs u') = fields (pcbs bound_blocks).
Proof. apply (udp_demux_correct bound_blocks [2; 1]%positive hello bound_ok). Defined.

(** ** Two hosts *)
Definition block_at (p : ptr) : Z := Z.pos p * 0x1000.

(** The callback logs what it gets; fragments are dropped; there is no TCP and no DHCP. *)
#[export] Instance logging {A} `{Allocator A} : Peers A (list (list Z)) := {|
  ip4_frag _ _ _ := ret ERR_OK;
  ip4_reass p := pbufs (pbuf_free (fun _ h => h) (Some p)) ;;; ret None;
  tcp_input p _ := pbufs (pbuf_free (fun _ h => h) (Some p)) ;;; ret tt;
  udp_recv_fn f a pcb p addr port :=
    x <- pbufs (load p) ;;
    bs <- pbufs (read_mem (payload x) 0 (len x)) ;;
    on_dev (fun t => with_phy (phy t ++ [f :: a :: addr :: port :: bs]) t) ;;;
    pbufs (pbuf_free (fun _ h => h) (Some p)) ;;;
    ret tt;
  dhcp_reply _ _ t := t;
  dhcp_reply_inv _ _ _ Ht := Ht
|}.
#[local] Instance stack_up : Upper pool (stack (list (list Z))) := stack_upper no_custom block_at.

Definition stack_of (u : udp_state) : stack (list (list Z)) := Stack u 1 [0] (Some 0) idle_ip_data [].
Definition listener : link pool (stack (list (list Z))) :=
  Link (replicate 10 blank) 0 (fun _ => peer_if) (replicate 1518 0) (Heap ∅ ∅ (Pool 4 ∅)) (stack_of bound_blocks).

(** The sender knows the listener's hardware address and has a packet with room for headers. *)
Definition known := Entry None 0x0201A8C0 (Some 0) peer_mac 1 ETHARP_STATE_STABLE.
Definition payload_buf := Pbuf None (Some (2%positive, 44)) 4 4 PBUF_RAM 0 1.
Definition sender : link pool (stack (list (list Z))) :=
  Link (known :: replicate 9 blank) 0 (fun _ => our_if) (replicate 1518 0)
    (Heap (list_to_map [(2%positive, payload_buf)]) (list_to_map [(2%positive, replicate 44 0 ++ [1; 2; 3; 4])])
       (Pool 3 (list_to_set [2%positive])))
    (stack_of (issues [New] (boot six))).

Example datagram_exchanged :
  match udp_sendto no_custom block_at (Some 1%positive) 2 (Some 0x0201A8C0) 5005 sender with
  | (Ret r, s') => r = ERR_OK /\
      match ethernetif_input no_custom (phy (dev s')) 0 listener with
      | (Ret tt, t') => phy (dev t') = [[9; 42; 0x0101A8C0; 49153; 1; 2; 3; 4]] /\ live (al (hp t')) = ∅
      | _ => False
      end
  | _ => False
  end.
Proof. vm_compute. split; [reflexivity|split; reflexivity]. Qed.

Lemma blank_link_ok n h t : length (hwaddr n) = 6%nat -> hwaddr_len n = 6 -> alloc_inv h -> stack_inv t ->
  arp_ok (Link (replicate 10 blank) 0 (fun _ => n) (replicate 1518 0) h t : link pool (stack (list (list Z)))).
Proof. intros Hn Hl Hh Ht. split; cbn; try done; [exact empty_table_ok|by intros p Hp%elem_of_nil]. Qed.

Lemma bound_stack_inv ip_data_ : stack_inv (with_ip_data ip_data_ (stack_of bound_blocks)).
Proof. split; [exact I|]. exists [2; 1]%positive. exact bound_ok. Qed.

Lemma listener_ok : arp_ok listener.
Proof. apply blank_link_ok; [done|done|done|exact (bound_stack_inv idle_ip_data)]. Qed.

Definition first_block : udp_pcb := UdpPcb 0 0 0 0 255 None 0 5005 0 (Some 9) 42.

Lemma listener_hears : hears listener [2; 1]%positive 0 0 hello 1 first_block 9.
Proof.
  split; [exact listener_ok|exact bound_ok|try (vm_compute; reflexivity)..].
  right. split; vm_compute; reflexivity.
Qed.

Lemma udp_frame_delivered_witness :
  let u := udp_datagram false 0x0101A8C0 0x0201A8C0 49152 5005 [1; 2; 3; 4] in
  let frame := eth_frame peer_mac our_mac ETHTYPE_IP (datagram 1 0x0101A8C0 0x0201A8C0 255 0 IP_PROTO_UDP u ++ replicate 14 0) in
  (exists t', ethernetif_input no_custom [frame] 0 listener = (Ret tt, t') /\ keeps ∅ listener t' /\ dev t' = dev listener /\
     refused no_custom PBUF_RAW (Z.of_nat (length frame)) PBUF_POOL (hp listener)) \/
  exists p t1, heard listener [2; 1]%positive 0 0 hello 1 first_block p [1; 2; 3; 4] t1 /\
    ethernetif_input no_custom [frame] 0 listener =
      (udp_recv_fn 9 42 1 p 0x0101A8C0 49152 ;;; on_dev (with_ip_data idle_ip_data) ;;;
       ethernetif_input no_custom [] 0) t1.
Proof.
  apply (udp_frame_delivered no_custom block_at listener [2; 1]%positive 0 0 hello 1 first_block 9 [] peer_mac our_mac 1 255 0 false
    [1; 2; 3; 4] (replicate 14 0) listener_hears pool_stale);
    first [reflexivity|range_tac|split; vm_compute; congruence|repeat constructor; vm_compute; congruence|vm_compute; congruence].
Defined.

(** ** Sessions *)

(** The callback that logs keeps its contract. *)
Lemma logging_callbacks : callbacks_ok (A := pool) (D := list (list Z)).
Proof.
  intros f arg pcb p src port s x bs l Hh. pose proof Hh as ([T P C N B I V] & Ho & Hsub).
  destruct (owns_head_payload _ _ _ _ _ Ho) as (_ & _ & _ & _ & Hlb & _).
  pose proof (read_at s x bs 0 (length bs) (owns_holds _ _ _ _ _ Ho) ltac:(lia)) as Hr. rewrite Hlb in Hr.
  eapply settles_run; [exact (pbufs_run _ s _ _ (load_head _ _ _ _ Ho))|by rewrite with_hp_hp|]. rewrite with_hp_hp.
  eapply settles_run; [exact Hr|done|]. eapply settles_run; [reflexivity|done|].
  eapply (drop_settles no_custom). split; [by split|]. by split.
Qed.

Definition hello_frame : list Z :=
  eth_frame peer_mac our_mac ETHTYPE_IP (datagram 1 0x0101A8C0 0x0201A8C0 255 0 IP_PROTO_UDP
    (udp_datagram false 0x0101A8C0 0x0201A8C0 49152 5005 [1; 2; 3; 4])).

(** A datagram, what is left of one, and a request for the address arrive. *)
Definition some_events : list event :=
  [Input 0 [hello_frame; take 20 hello_frame; request_frame our_if 0x0201A8C0]; Tick; Cleanup 0].

Lemma some_allowed : allowed plain listener (Input 0 [hello_frame; take 20 hello_frame; request_frame our_if 0x0201A8C0]).
Proof.
  repeat constructor; try done; try (vm_compute; congruence); intros Hf.
Qed.

Lemma arp_session_safe_witness :
  allowed plain listener (Input 0 [hello_frame; take 20 hello_frame; request_frame our_if 0x0201A8C0]) /\
  safe no_custom plain some_events listener.
Proof.
  split; [exact some_allowed|].
  apply (arp_session_safe no_custom block_at some_events listener logging_callbacks); [intros i; right; vm_compute; congruence|exact pool_stale|exact listener_ok].
Defined.

(** ** Sending *)
Lemma single_inv n q x b : alloc_inv (Heap (list_to_map [(q, x)]) (list_to_map [(q, b)]) (Pool n (list_to_set [q]))).
Proof.
  split; intros r Hr%elem_of_dom; destruct Hr as [y Hy]; apply elem_of_list_to_map_2 in Hy;
    apply list_elem_of_singleton in Hy as [= -> _]; set_solver.
Qed.

Lemma sender_blocks : udp_ok (udp (dev sender)) [].
Proof.
  split; try done; cbn.
  - constructor.
  - intros p x Hx. apply elem_of_map_to_list in Hx. vm_compute in Hx.
    repeat (apply elem_of_cons in Hx as [[= -> ->]|Hx]; [vm_compute; set_solver|]). by apply elem_of_nil in Hx.
  - by intros p q x y Hp%elem_of_nil.
  - apply (bool_decide_unpack _). vm_compute. exact I.
  - intros p Hp. repeat (apply elem_of_cons in Hp as [->|Hp]; [reflexivity|]). by apply elem_of_nil in Hp.
Qed.

Lemma sender_ready : arp_ok sender /\ owns (hp sender) 2 [Node 2 payload_buf [1; 2; 3; 4]] /\
  ptrs [Node 2 payload_buf [1; 2; 3; 4]] ⊆ rest sender.
Proof.
  split; [|split].
  - split; try done.
    + split; [done| |cbn; repeat constructor; set_solver|cbn; repeat constructor; set_solver].
      constructor; [by split|by repeat constructor].
    + by intros p Hp%elem_of_nil.
    + split; [exact I|]. exists []. exact sender_blocks.
  - split; [packet_tac|]. repeat constructor; by left.
  - apply (bool_decide_unpack _). vm_compute. exact I.
Qed.

Definition new_block : udp_pcb := UdpPcb 0 0 0 0 255 None 0 0 0 None 0.

Lemma udp_sendto_correct_witness : exists port s0 r s',
    udp_sendto no_custom block_at (Some 1%positive) 2 (Some 0x0201A8C0) 5005 sender = (Ret r, s') /\
    arp_ok s' /\ keeps {[2%positive]} sender s' /\
    bound sender [] 1 new_block port s0 /\
    udp_sent sender s0 s' 0 0x0101A8C0 0x0201A8C0 new_block port 5005 2 payload_buf [1; 2; 3; 4] [] 44 r.
Proof.
  destruct sender_ready as (Hok & Ho & Hsub).
  apply (udp_sendto_correct no_custom block_at sender [] 1 new_block 2 payload_buf [1; 2; 3; 4] [] 44 0x0201A8C0 5005 Hok sender_blocks);
    first [exact Ho|exact Hsub|exact us_filled|vm_compute; reflexivity|range_tac|intros; right; vm_compute; congruence
      |intros; split; vm_compute; congruence|repeat constructor; vm_compute; congruence].
Defined.

Lemma inline_chksum_correct_witness :
  inline_chksum 32 1 0x0101A8C0 0x0201A8C0 255 0 17 = inet_chksum 2 (ip_fields 32 1 0x0101A8C0 0x0201A8C0 255 0 17 0) /\
  inet_chksum 2 (ip_fields 32 1 0x0101A8C0 0x0201A8C0 255 0 17 (inline_chksum 32 1 0x0101A8C0 0x0201A8C0 255 0 17)) = 0.
Proof. apply (inline_chksum_correct 2 32 1 0x0101A8C0 0x0201A8C0 255 0 17); split; vm_compute; congruence. Defined.

(** ** Receiving *)
Definition to_udp : list Z := udp_datagram false 0x0101A8C0 0x0201A8C0 49152 5005 [1; 2; 3; 4].
Definition to_ip : list Z := datagram 1 0x0101A8C0 0x0201A8C0 255 0 IP_PROTO_UDP to_udp.
Definition frame_buf : list Z := replicate 14 0 ++ to_ip ++ replicate 1470 0x55.
Definition arrived_buf := Pbuf None (Some (2%positive, 14)) 32 32 PBUF_POOL 0 1.
Definition holding (b : pbuf) d : link pool (stack (list (list Z))) :=
  Link (replicate 10 blank) 0 (fun _ => peer_if) (replicate 1518 0)
    (Heap (list_to_map [(2%positive, b)]) (list_to_map [(2%positive, frame_buf)]) (Pool 3 (list_to_set [2%positive])))
    (with_ip_data d (stack_of bound_blocks)).

Lemma arrived_ok b d : arp_ok (holding b d).
Proof. apply blank_link_ok; [done|done|exact (single_inv 3 2 b frame_buf)|apply bound_stack_inv]. Qed.

Lemma arrived_incoming : incoming (holding arrived_buf idle_ip_data) 2 arrived_buf to_ip [] 1500 (take 1500 (drop 14 frame_buf)).
Proof.
  split; [split; [apply arrived_ok|split]|split; [by repeat constructor|split; [|split; [|split; [|constructor]]]]].
  - split; [packet_tac|]. constructor; [|constructor]. split_and!; [done|done|done|by right].
  - apply (bool_decide_unpack _). vm_compute. exact I.
  - do 2 eexists. split; [reflexivity|]. split; [reflexivity|]. split; [done|]. split; [vm_compute; congruence|reflexivity].
  - vm_compute. congruence.
  - repeat constructor; vm_compute; congruence.
Qed.

Lemma ip4_input_correct_witness : exists s1 x1 bs1 l1,
  incoming s1 2 x1 bs1 l1 1500 (take 1500 (drop 14 frame_buf)) /\
  trimmed (holding arrived_buf idle_ip_data) 2 arrived_buf to_ip [] 32 s1 x1 bs1 l1.
Proof.
  pose proof (ip4_input_correct no_custom block_at (holding arrived_buf idle_ip_data) 2 arrived_buf to_ip [] 1500
    (take 1500 (drop 14 frame_buf)) 0 arrived_incoming ltac:(lia)) as Hin.
  change (negb (ip_version (take 1500 (drop 14 frame_buf)) =? 4)) with false in Hin. cbv iota in Hin.
  destruct Hin as (s1 & x1 & bs1 & l1 & H1 & H2 & _). by exists s1, x1, bs1, l1.
Defined.

(** Its header is off. *)
Definition opened_buf := Pbuf None (Some (2%positive, 34)) 12 12 PBUF_POOL 0 1.
Definition while_handled : ip_globals := IpGlobals (Some 0) (Some 0) (Some (2%positive, 14)) 20 0x0101A8C0 0x0201A8C0.

Lemma opened_holder : holder (holding opened_buf while_handled) 2 opened_buf to_udp [].
Proof.
  split; [apply arrived_ok|split].
  - split; [packet_tac|]. constructor; [|constructor]. split_and!; [done|done|done|by right].
  - apply (bool_decide_unpack _). vm_compute. exact I.
Qed.

Lemma udp_input_correct_witness : exists s1, searched (holding opened_buf while_handled) [2; 1]%positive
    (udp_key (holding opened_buf while_handled) 0 0 to_udp) s1 /\
  exists s2, udp_input no_custom block_at 2 0 (holding opened_buf while_handled) =
      udp_taken no_custom block_at 2 (Some 1%positive) (udp_key (holding opened_buf while_handled) 0 0 to_udp) s2 /\
    holder s2 2 (moved 8 opened_buf) [1; 2; 3; 4] [] /\ within s1 2 s2 /\ dev s2 = dev s1.
Proof.
  apply (udp_input_correct no_custom block_at (holding opened_buf while_handled) [2; 1]%positive 2 opened_buf to_udp [] 0 0
    opened_holder bound_ok eq_refl);
    first [range_tac|vm_compute; congruence|repeat constructor; vm_compute; congruence|split; vm_compute; congruence].
Defined.


(** ** The firmware's memory *)

(** The pools one after the other, and the heap behind them. *)
Fixpoint placed_at (base : Z) (pools : list (Z * Z)) : list memp_desc :=
  match pools with
  | [] => []
  | (num, size) :: pools => MempDesc size num base :: placed_at (base + num * size) pools
  end.
Definition k64_pools : list memp_desc := placed_at 0x20000000
  [(6, 32); (10, 164); (6, 36); (22, 20); (5, 32); (15, 24); (10, 16); (4, 60); (8, 16); (8, 16); (10, 16); (15, 16); (9, 1532)].

#[export] Instance k64_layout : MempLayout.
Proof.
  refine {| memp_pools := k64_pools; ram_heap := 0x20010000; stale_struct p := Pbuf None None 0 0 0 0 0; stale_byte a := 0xA5 |}.
  - reflexivity.
  - intros d. split; intros [= <-]; reflexivity.
  - intros i d Hi. do 13 (destruct i as [|i]; [injection Hi as <-; split; cbn; split || idtac; lia || done|]). done.
  - split; [lia|done].
  - intros i j d e Hij Hi Hj.
    assert (Hlt : forall i j, (i < j)%nat -> forall d e, k64_pools !! i = Some d -> k64_pools !! j = Some e -> pool_end d <= LWIP_MEM_ALIGN (d_base e)).
    { clear. intros i j Hij d e Hi Hj.
      do 13 (destruct i as [|i]; [injection Hi as <-; do 13 (destruct j as [|j]; [try lia; injection Hj as <-; vm_compute; congruence|]); done|]). done. }
    destruct (lt_eq_lt_dec i j) as [[Hl| ->]|Hl]; [left; by eapply Hlt|done|right; by eapply Hlt].
  - intros i d Hi. left. do 13 (destruct i as [|i]; [injection Hi as <-; vm_compute; congruence|]). done.
Defined.
Definition before_boot : memory := Memory (MemHeap ∅ ∅ 0) (Memps (fun _ => None) ∅).

Lemma booted_ok : memory_ok (memory_init before_boot).2.
Proof. by destruct (memory_init_ok before_boot) as (s & -> & ? & _). Qed.

(** After [lwip_init]. *)
Definition booted : memory_at := exist _ (memory_init before_boot).2 booted_ok.
Definition no_free : ptr -> heap memory_at -> heap memory_at := fun _ h => h.

(** A pool buffer, two blocks of the heap, of which the first is cut and the second freed,
    a pbuf structure, and a request for 65533 bytes that gets 12. *)
Definition requests : list request :=
  [Element 12; Malloc 100; Malloc 61; Shrink 1 40; Release 0; Element 11; Malloc 65533].

Example memory_used :
  match (memory_init ;;; run_requests requests []) before_boot with
  | (Ret held, s') =>
      held = [(None, 0x20010038, 12); (Some 11%nat, 0x20000fd0, 16); (None, 0x20010008, 40); (Some 12%nat, 0x20003fc0, 1532)] /\
      granted s' = [(None, 0x20010008, 40); (None, 0x20010038, 12); (Some 11%nat, 0x20000fd0, 16); (Some 12%nat, 0x20003fc0, 1532)]
  | _ => False
  end.
Proof. vm_compute. split; reflexivity. Qed.

Lemma memory_session_safe_witness :
  exists held s', (memory_init ;;; run_requests requests []) before_boot = (Ret held, s') /\ memory_ok s' /\ serves s' held /\
    (held = [] -> granted s' = []) /\
    (forall o p n, (o, p, n) ∈ held -> 0 < p /\ p mod 4 = 0) /\
    forall i j o1 p1 n1 o2 p2 n2, i <> j -> held !! i = Some (o1, p1, n1) -> held !! j = Some (o2, p2, n2) ->
      p1 + n1 <= p2 \/ p2 + n2 <= p1.
Proof.
  apply (memory_session_safe before_boot requests). repeat constructor; cbn; first [exact I|lia|vm_compute; lia|vm_compute; congruence].
Defined.

(** ** A ping, on the firmware's own heap and pools *)
Definition ping : list Z := [8; 0; 0x20; 0xfe; 0x12; 0x34; 0; 7; 0x61; 0x62; 0x63; 0x64].
Definition caller := Entry None 0x0101A8C0 (Some 0) our_mac 1 ETHARP_STATE_STABLE.
Definition pinged : link memory_at (stack (list (list Z))) :=
  Link (caller :: replicate 9 blank) 0 (fun _ => peer_if) (replicate 1518 0) (Heap ∅ ∅ booted) (stack_of bound_blocks).
#[local] Instance pinged_up : Upper memory_at (stack (list (list Z))) := stack_upper no_free block_at.
Definition ping_frame : list Z :=
  eth_frame peer_mac our_mac ETHTYPE_IP (datagram 5 0x0101A8C0 0x0201A8C0 64 0 IP_PROTO_ICMP ping ++ replicate 14 0).



(** The frame that leaves, and no memory is kept. *)
Example pong :
  match ethernetif_input no_free [ping_frame] 0 pinged with
  | (Ret tt, t') => phy (dev t') =
      [eth_frame our_mac peer_mac ETHTYPE_IP (datagram 5 0x0201A8C0 0x0101A8C0 255 0 IP_PROTO_ICMP
        [0; 0; 0x28; 0xfe; 0x12; 0x34; 0; 7; 0x61; 0x62; 0x63; 0x64])] /\ live (al (hp t')) = ∅
  | _ => False
  end.
Proof. vm_compute. split; reflexivity. Qed.

