(* ===== verification/Timeouts.v ===== *)
(** * One-shot and cyclic timers: [lwip/src/core/timeouts.c]

    Timers are a list ordered by expiry; each entry holds the time from the
    entry before it, the first one from [timeouts_last_time].  The entries come
    from a pool of [MEMP_NUM_SYS_TIMEOUT]; the clock and the protocols' timer
    functions are arguments. *)
From S2P Require Export CInt.

(** The cyclic timers of this configuration, with their place in the table:
    TCP, IP reassembly, ARP, DHCP coarse, DHCP fine. *)
Definition TCP_TMR_INTERVAL := 250.
Definition lwip_cyclic_timers : list Z := [TCP_TMR_INTERVAL; 1000; 1000; 60000; 500].
Definition MEMP_NUM_SYS_TIMEOUT : nat := 10.

Inductive handler : Type :=
  | tcpip_tcp_timer
  | cyclic_timer            (* its [arg] is the place in the table *)
  | user_timer (f : Z).     (* any other function *)

#[export] Instance handler_eq_dec : EqDecision handler.
Proof. solve_decision. Defined.

Record sys_timeo := Timeo { time : Z; h : option handler; arg : Z }.
Definition with_time (v : Z) (t : sys_timeo) : sys_timeo := Timeo v (h t) (arg t).

(** The protocols whose functions the timers call, their state [E], and the test
    [tcp_active_pcbs || tcp_tw_pcbs] on it. *)
Class Protocols (E : Type) := {
  tcp_tmr : E -> E;
  cyclic_handler : Z -> E -> E;
  user_handler : Z -> Z -> E -> E;
  tcp_pcbs : E -> bool
}.

Record timers (E : Type) := Timers {
  next_timeout : list sys_timeo;
  timeouts_last_time : Z;          (* u32_t *)
  tcpip_tcp_timer_active : bool;
  pool : nat;                      (* entries left in MEMP_SYS_TIMEOUT *)
  reads : nat;                     (* calls of sys_now so far *)
  protocols : E
}.
Arguments Timers {E} _ _ _ _ _ _.
Arguments next_timeout {E} _.
Arguments timeouts_last_time {E} _.
Arguments tcpip_tcp_timer_active {E} _.
Arguments pool {E} _.
Arguments reads {E} _.
Arguments protocols {E} _.

Section Timeouts.
Context {E : Type} `{Protocols E}.
(** What the [n]-th call of the tick counter returns. *)
Context (clock : nat -> Z).
#[local] Abbreviation M := (cmd (timers E)).

Definition sys_now : M Z := fun s =>
  (Ret (u32 (clock (reads s))),
   Timers (next_timeout s) (timeouts_last_time s) (tcpip_tcp_timer_active s) (pool s)
     (S (reads s)) (protocols s)).

Definition set_list (l : list sys_timeo) : M unit := modify (fun s =>
  Timers l (timeouts_last_time s) (tcpip_tcp_timer_active s) (pool s) (reads s) (protocols s)).
Definition set_last_time (v : Z) : M unit := modify (fun s =>
  Timers (next_timeout s) v (tcpip_tcp_timer_active s) (pool s) (reads s) (protocols s)).
Definition set_active (v : bool) : M unit := modify (fun s =>
  Timers (next_timeout s) (timeouts_last_time s) v (pool s) (reads s) (protocols s)).
Definition set_pool (v : nat) : M unit := modify (fun s =>
  Timers (next_timeout s) (timeouts_last_time s) (tcpip_tcp_timer_active s) v (reads s) (protocols s)).
Definition on_protocols (f : E -> E) : M unit := modify (fun s =>
  Timers (next_timeout s) (timeouts_last_time s) (tcpip_tcp_timer_active s) (pool s) (reads s)
    (f (protocols s))).

(** [memp_malloc(MEMP_SYS_TIMEOUT)] and [memp_free]: only the number of entries
    matters, an entry is a value here. *)
Definition timeo_alloc : M bool :=
  n <- gets pool ;;
  match n with
  | O => ret false
  | S n => set_pool n ;;; ret true
  end.
Definition timeo_free : M unit := n <- gets pool ;; set_pool (S n).

(** ** [sys_timeout] *)

(** The loop that looks for the place of [timeout]; [first] is the time of the
    first entry. *)
Fixpoint insert_after (l : list sys_timeo) (timeout : sys_timeo) (msecs first : Z) : list sys_timeo :=
  match l with
  | [] => []
  | t :: l =>
      let timeout := with_time (u32 (time timeout - time t)) timeout in
      match l with
      | [] => [t; if time timeout >? msecs then with_time (u32 (msecs + first)) timeout else timeout]
      | n :: l' =>
          if time n >? time timeout
          then t :: timeout :: with_time (u32 (time n - time timeout)) n :: l'
          else t :: insert_after l timeout msecs first
      end
  end.

Definition sys_timeout (msecs : Z) (hd : option handler) (a : Z) : M unit :=
  ok <- timeo_alloc ;;
  assert_ ok ;;;
  now <- sys_now ;;
  l <- gets next_timeout ;;
  match l with
  | [] =>
      set_last_time now ;;;
      set_list [Timeo (u32 (msecs + 0)) hd a]
  | t :: l' =>
      last <- gets timeouts_last_time ;;
      let diff := u32 (now - last) in
      let timeout := Timeo (u32 (msecs + diff)) hd a in
      if time t >? msecs
      then set_list (timeout :: with_time (u32 (time t - msecs)) t :: l')
      else set_list (insert_after l timeout msecs (time t))
  end.

(** ** [sys_untimeout] *)
Fixpoint unlink (l : list sys_timeo) (hd : option handler) (a : Z) : option (list sys_timeo) :=
  match l with
  | [] => None
  | t :: l =>
      if bool_decide (h t = hd) && (arg t =? a)
      then Some (match l with
                 | [] => []
                 | n :: l' => with_time (u32 (time n + time t)) n :: l'
                 end)
      else cons t <$> unlink l hd a
  end.

Definition sys_untimeout (hd : option handler) (a : Z) : M unit :=
  l <- gets next_timeout ;;
  match unlink l hd a with
  | Some l' => set_list l' ;;; timeo_free
  | None => ret tt
  end.

(** ** The handlers *)
Definition tcpip_tcp_timer_ : M unit :=
  on_protocols tcp_tmr ;;;
  needed <- gets (fun s => tcp_pcbs (protocols s)) ;;
  if (needed : bool) then sys_timeout TCP_TMR_INTERVAL (Some tcpip_tcp_timer) 0
  else set_active false.

Definition tcp_timer_needed : M unit :=
  active <- gets tcpip_tcp_timer_active ;;
  needed <- gets (fun s => tcp_pcbs (protocols s)) ;;
  if negb active && needed
  then set_active true ;;; sys_timeout TCP_TMR_INTERVAL (Some tcpip_tcp_timer) 0
  else ret tt.

Definition cyclic_timer_ (a : Z) : M unit :=
  on_protocols (cyclic_handler a) ;;;
  interval_ms <- read_array lwip_cyclic_timers a ;;
  sys_timeout interval_ms (Some cyclic_timer) a.

Definition call_handler (hd : handler) (a : Z) : M unit :=
  match hd with
  | tcpip_tcp_timer => tcpip_tcp_timer_
  | cyclic_timer => cyclic_timer_ a
  | user_timer f => on_protocols (user_handler f a)
  end.

(** [for (i = 1; i < LWIP_ARRAYSIZE(lwip_cyclic_timers); i++) sys_timeout(..)] *)
Fixpoint start_cyclic (i : Z) (l : list Z) : M unit :=
  match l with
  | [] => ret tt
  | interval_ms :: l => sys_timeout interval_ms (Some cyclic_timer) i ;;; start_cyclic (i + 1) l
  end.

Definition sys_timeouts_init : M unit :=
  start_cyclic 1 (drop 1 lwip_cyclic_timers) ;;;
  now <- sys_now ;;
  set_last_time now.

(** ** [sys_check_timeouts] *)
Fixpoint check_loop (n : nat) (diff : Z) : M unit :=
  l <- gets next_timeout ;;
  match l with
  | [] => ret tt
  | t :: l =>
      if time t <=? diff then
        match n with
        | O => diverge
        | S n =>
            last <- gets timeouts_last_time ;;
            set_last_time (u32 (last + time t)) ;;;
            set_list l ;;;
            timeo_free ;;;
            (match h t with Some hd => call_handler hd (arg t) | None => ret tt end) ;;;
            check_loop n (u32 (diff - time t))
        end
      else ret tt
  end.

Definition sys_check_timeouts (fuel : nat) : M unit :=
  l <- gets next_timeout ;;
  match l with
  | [] => ret tt
  | _ =>
      now <- sys_now ;;
      last <- gets timeouts_last_time ;;
      check_loop fuel (u32 (now - last))
  end.

Definition sys_restart_timeouts : M unit := now <- sys_now ;; set_last_time now.

(** ** [sys_timeouts_sleeptime], [sys_timeouts_mbox_fetch] *)
Definition sys_timeouts_sleeptime : M Z :=
  l <- gets next_timeout ;;
  match l with
  | [] => ret 0xffffffff
  | t :: _ =>
      now <- sys_now ;;
      last <- gets timeouts_last_time ;;
      let diff := u32 (now - last) in
      ret (if diff >? time t then 0 else time t - diff)
  end.

(** [arrivals] says, for each wait in turn, whether a message arrives in time. *)
Fixpoint sys_timeouts_mbox_fetch (fuel : nat) (arrivals : list bool) : M unit :=
  l <- gets next_timeout ;;
  match l with
  | [] => ret tt
  | _ =>
      sleeptime <- sys_timeouts_sleeptime ;;
      if sleeptime =? 0 then
        match fuel with
        | O => diverge
        | S n => sys_check_timeouts fuel ;;; sys_timeouts_mbox_fetch n arrivals
        end
      else match arrivals with
           | [] => diverge
           | true :: _ => ret tt
           | false :: arrivals =>
               match fuel with
               | O => diverge
               | S n => sys_check_timeouts fuel ;;; sys_timeouts_mbox_fetch n arrivals
               end
           end
  end.
End Timeouts.
