(* ===== verification/TimeoutThms.v ===== *)
(** * The timers keep time, are never lost, and never exhaust their pool

    The times of the list are differences; [dues] gives each entry its due time.
    The insertion of [sys_timeout] and the removal of [sys_untimeout] are read as
    operations on due times first. *)
From S2P Require Export Timeouts.

Definition total (l : list sys_timeo) : Z := foldr (fun t n => time t + n) 0 l.
Definition key (t : sys_timeo) : option handler * Z := (h t, arg t).
Definition times_ok (l : list sys_timeo) : Prop := Forall (fun t => 0 <= time t < 2 ^ 32) l.

Definition due : Type := Z * (option handler * Z).
Fixpoint dues (base : Z) (l : list sys_timeo) : list due :=
  match l with
  | [] => []
  | t :: l => (base + time t, key t) :: dues (base + time t) l
  end.

(** Into a sorted agenda, behind what is due at the same time. *)
Fixpoint insert_due (x : due) (l : list due) : list due :=
  match l with
  | [] => [x]
  | y :: l => if y.1 <=? x.1 then y :: insert_due x l else x :: y :: l
  end.

Definition delay (d : Z) (l : list due) : list due := (fun x => (x.1 + d, x.2)) <$> l.

Lemma total_cons t l : total (t :: l) = time t + total l.
Proof. done. Qed.
Lemma due_app l1 l2 : total (l1 ++ l2) = total l1 + total l2.
Proof. induction l1 as [|t l1 IH]; [done|]. cbn [app]. rewrite !total_cons, IH. lia. Qed.
Lemma due_nonneg l : times_ok l -> 0 <= total l.
Proof. induction 1 as [|t l Ht Hl IH]; [done|]. rewrite total_cons. lia. Qed.
Lemma times_ok_cons t l : times_ok (t :: l) <-> 0 <= time t < 2 ^ 32 /\ times_ok l.
Proof. unfold times_ok. by rewrite Forall_cons. Qed.

Lemma dues_app b l1 l2 : dues b (l1 ++ l2) = dues b l1 ++ dues (b + total l1) l2.
Proof.
  revert b. induction l1 as [|t l1 IH]; intros b; [cbn [app total foldr]; by rewrite Z.add_0_r|].
  cbn [app dues]. rewrite IH, total_cons. by rewrite Z.add_assoc.
Qed.
Lemma dues_delay b d l : dues (b + d) l = delay d (dues b l).
Proof.
  revert b. induction l as [|t l IH]; intros b; [done|]. cbn [dues delay fmap list_fmap fst snd].
  f_equal; [f_equal; lia|]. by replace (b + d + time t) with (b + time t + d) by lia.
Qed.
Lemma dues_keys b l : (dues b l).*2 = key <$> l.
Proof. revert b. induction l as [|t l IH]; intros b; [done|]. cbn. f_equal. apply IH. Qed.

Lemma dues_length b l : length (dues b l) = length l.
Proof. revert b. induction l as [|t l IH]; intros b; [done|]. cbn. f_equal. apply IH. Qed.

(** Due times lie between the base and the end of the list. *)
Lemma dues_range b l : times_ok l -> Forall (fun x => b <= x.1 <= b + total l) (dues b l).
Proof.
  intros Hl. revert b. induction Hl as [|t l Ht Hl IH]; intros b; [done|]. cbn [dues]. rewrite total_cons.
  pose proof (due_nonneg _ Hl). constructor; [cbn; lia|].
  eapply Forall_impl; [exact (IH (b + time t))|]. cbn. intros. lia.
Qed.

Lemma insert_due_end x l : Forall (fun y => y.1 <= x.1) l -> insert_due x l = l ++ [x].
Proof.
  induction 1 as [|y l Hy Hl IH]; [done|]. cbn [insert_due app].
  by rewrite (proj2 (Z.leb_le _ _) Hy), IH.
Qed.

Lemma insert_due_keys x l : (insert_due x l).*2 ≡ₚ x.2 :: l.*2.
Proof.
  induction l as [|y l IH]; [done|]. cbn [insert_due]. destruct (y.1 <=? x.1); [|done].
  cbn [fmap list_fmap]. rewrite IH. apply Permutation_swap.
Qed.

Lemma u32_diff a b : 0 <= a - b < 2 ^ 32 -> u32 (u32 a - u32 b) = a - b.
Proof. intros Hab. unfold u32. rewrite <- Zminus_mod. by apply Z.mod_small. Qed.
Lemma u32_add a b : u32 (u32 a + b) = u32 (a + b).
Proof. unfold u32. apply Zplus_mod_idemp_l. Qed.

(** ** The insertion loop *)
Lemma insert_after_ok l x msecs first b :
  l <> [] -> times_ok l -> 0 <= msecs -> 0 <= first -> msecs + first < 2 ^ 32 -> 0 <= time x < 2 ^ 32 ->
  (forall t, head l = Some t -> time t <= time x) ->
  times_ok (insert_after l x msecs first) /\
  if time x - msecs <=? total l
  then dues b (insert_after l x msecs first) = insert_due (b + time x, key x) (dues b l)
  else dues b (insert_after l x msecs first) = dues b l ++ [(b + total l + msecs + first, key x)].
Proof.
  revert x b. induction l as [|t l IH]; intros x b Hne Hl Hm Hf Hw Hx Hhd; [done|]. clear Hne.
  apply times_ok_cons in Hl as [Ht Hl]. specialize (Hhd t eq_refl). pose proof (due_nonneg _ Hl).
  cbn [insert_after]. cbv zeta. rewrite (u32_small (time x - time t)) by lia.
  set (x' := with_time (time x - time t) x). assert (time x' = time x - time t) as Hx' by done.
  assert (key x' = key x) as Hk by done. rewrite total_cons.
  destruct l as [|n l].
  { change (total []) with 0. cbn [dues insert_due]. rewrite Hx', Z.gtb_ltb. cbn [fst].
    rewrite (proj2 (Z.leb_le (b + time t) (b + time x))) by lia.
    destruct (Z.ltb_spec msecs (time x - time t)), (Z.leb_spec (time x - msecs) (time t + 0)); try lia.
    - rewrite (u32_small (msecs + first)) by lia. split; [repeat constructor; cbn; lia|]. cbn. do 3 f_equal. lia.
    - split; [repeat constructor; cbn; lia|]. cbn. rewrite <- Hk. do 3 f_equal. lia. }
  rewrite Z.gtb_ltb. cbn [dues insert_due fst]. rewrite (proj2 (Z.leb_le (b + time t) (b + time x))) by lia.
  apply times_ok_cons in Hl as Hl'. destruct Hl' as [Hn Hl'].
  destruct (Z.ltb_spec (time x') (time n)) as [Hlt|Hge].
  - rewrite total_cons in *. pose proof (due_nonneg _ Hl').
    rewrite (proj2 (Z.leb_le (time x - msecs) _)) by lia.
    rewrite (proj2 (Z.leb_gt _ _)) by lia. rewrite (u32_small (time n - time x')) by lia.
    split; [repeat (apply times_ok_cons; split; [cbn; lia|]); done|].
    cbn [dues with_time time]. rewrite Hx', <- Hk. do 2 f_equal; [f_equal; lia|]. f_equal; [f_equal; cbn; lia|].
    f_equal. lia.
  - destruct (IH x' (b + time t)) as [IH1 IH2]; try done; try lia; [by intros ? [= <-]|].
    split; [by apply times_ok_cons|]. rewrite Hx', Hk in IH2.
    replace (b + time t + (time x - time t)) with (b + time x) in IH2 by lia.
    destruct (Z.leb_spec (time x - time t - msecs) (total (n :: l))),
      (Z.leb_spec (time x - msecs) (time t + total (n :: l))); try lia;
      cbn [dues insert_due fst app] in *; f_equal; [exact IH2|].
    rewrite IH2. cbn [app]. do 5 f_equal. lia.
Qed.

Lemma insert_after_keys l x msecs first : l <> [] ->
  key <$> insert_after l x msecs first ≡ₚ key x :: (key <$> l).
Proof.
  revert x. induction l as [|t l IH]; intros x Hne; [done|]. cbn [insert_after]. cbv zeta.
  destruct l as [|n l].
  - cbn. destruct (_ >? _); apply Permutation_swap.
  - destruct (_ >? _).
    + cbn. apply Permutation_swap.
    + cbn [fmap list_fmap]. rewrite IH by done. apply Permutation_swap.
Qed.

(** ** Removal *)
Fixpoint remove_due (k : option handler * Z) (l : list due) : list due :=
  match l with
  | [] => []
  | x :: l => if bool_decide (x.2 = k) then l else x :: remove_due k l
  end.

Lemma unlink_ok l hd a b : times_ok l -> total l < 2 ^ 32 ->
  match unlink l hd a with
  | Some l' => (hd, a) ∈ key <$> l /\ times_ok l' /\ dues b l' = remove_due (hd, a) (dues b l) /\
               S (length l') = length l
  | None => (hd, a) ∉ key <$> l
  end.
Proof.
  revert b. induction l as [|t l IH]; intros b Hl Ht; [cbn; apply not_elem_of_nil|].
  apply times_ok_cons in Hl as [Htt Hl]. rewrite total_cons in Ht. pose proof (due_nonneg _ Hl).
  cbn [unlink dues remove_due snd].
  assert (bool_decide (h t = hd) && (arg t =? a) = bool_decide (key t = (hd, a))) as ->.
  { unfold key. destruct (Z.eqb_spec (arg t) a), (decide (h t = hd)) as [E|E];
      rewrite ?bool_decide_eq_true_2 by congruence; rewrite ?bool_decide_eq_false_2 by congruence; done. }
  destruct (decide (key t = (hd, a))) as [E|E];
    [rewrite bool_decide_eq_true_2 by done|rewrite bool_decide_eq_false_2 by done].
  - split; [rewrite <- E; cbn; apply list_elem_of_here|]. destruct l as [|n l]; [done|].
    apply times_ok_cons in Hl as [Hn Hl]. rewrite total_cons in *. pose proof (due_nonneg _ Hl).
    cbn [length]. rewrite u32_small by lia. split; [apply times_ok_cons; cbn; split; [lia|done]|].
    split; [|done]. cbn. f_equal; [f_equal; lia|]. f_equal. lia.
  - specialize (IH (b + time t) Hl ltac:(lia)). destruct (unlink l hd a) as [l'|]; cbn.
    + destruct IH as (Hin & Hok & Hd & Hlen). split; [by apply list_elem_of_further|].
      split; [by apply times_ok_cons|]. split; [by rewrite Hd|]. cbn in *. lia.
    + intros [?|?]%elem_of_cons; [congruence|done].
Qed.

Section Thms.
Context {E : Type} `{Protocols E}.
Context (clock : nat -> Z).
Implicit Types s : timers E.

(** ** [sys_timeout] *)
Lemma sys_timeout_run s n msecs hd a : pool s = S n ->
  exists l' last', sys_timeout clock msecs hd a s =
      (Ret tt, Timers l' last' (tcpip_tcp_timer_active s) n (S (reads s)) (protocols s)) /\
    key <$> l' ≡ₚ (hd, a) :: (key <$> next_timeout s) /\
    match next_timeout s with
    | [] => last' = u32 (clock (reads s)) /\ l' = [Timeo (u32 (msecs + 0)) hd a]
    | t :: l => last' = timeouts_last_time s /\
        let x := Timeo (u32 (msecs + u32 (u32 (clock (reads s)) - timeouts_last_time s))) hd a in
        l' = if time t >? msecs then x :: with_time (u32 (time t - msecs)) t :: l
             else insert_after (t :: l) x msecs (time t)
    end.
Proof.
  intros Hp. destruct s as [l last act p r e]. cbn in Hp. subst p.
  unfold sys_timeout, timeo_alloc, sys_now, set_list, set_last_time, gets, modify, assert_, bind, ret.
  cbn. destruct l as [|t l]; [by eexists _, _|]. cbn [next_timeout timeouts_last_time].
  destruct (time t >? msecs); eexists _, _; (split; [reflexivity|split; [|done]]); [done|].
  by apply insert_after_keys.
Qed.

(** A timer is due [msecs] from now, behind what is due at the same time,
    with two exceptions.  Before an entry that is more than [msecs] from the last expiry,
    it also delays every other timer by the time passed since then; behind a list whose last entry is
    overdue, it is due when the list's own time plus [msecs] and the first
    entry's time have passed. *)
Theorem sys_timeout_correct s T msecs hd a :
  let now := clock (reads s) in
  let l := next_timeout s in
  let k := (hd, a) in
  pool s <> 0%nat -> timeouts_last_time s = u32 T -> T <= now -> 0 <= msecs ->
  msecs + (now - T) < 2 ^ 32 -> msecs + total l < 2 ^ 32 -> times_ok l ->
  exists s', sys_timeout clock msecs hd a s = (Ret tt, s') /\ times_ok (next_timeout s') /\
    pool s = S (pool s') /\
    match l with
    | [] => timeouts_last_time s' = u32 now /\ dues now (next_timeout s') = [(now + msecs, k)]
    | t :: _ => timeouts_last_time s' = u32 T /\
        dues T (next_timeout s') =
          if msecs <? time t then (now + msecs, k) :: delay (now - T) (dues T l)
          else if now - T <=? total l then insert_due (now + msecs, k) (dues T l)
          else dues T l ++ [(T + total l + msecs + time t, k)]
    end.
Proof.
  intros now l k Hp HT Hn Hm Hd Ht Hok. destruct (pool s) as [|n] eqn:Ep; [done|].
  destruct (sys_timeout_run s n msecs hd a Ep) as (l' & last' & Hr & _ & Hl').
  eexists. split; [exact Hr|]. cbn [next_timeout timeouts_last_time pool]. fold l now in Hl'.
  destruct l as [|t l0] eqn:El.
  - destruct Hl' as [-> ->]. rewrite u32_small by lia.
    split_and!; [repeat constructor; cbn; lia|done..|]. cbn. do 2 f_equal. lia.
  - destruct Hl' as [-> Hl']. cbv zeta in Hl'. rewrite HT, u32_diff, u32_small in Hl' by lia.
    apply times_ok_cons in Hok as Hok'. destruct Hok' as [Htt Hl0]. pose proof (due_nonneg _ Hl0).
    rewrite total_cons in *. rewrite Z.gtb_ltb in Hl'. destruct (Z.ltb_spec msecs (time t)).
    + rewrite u32_small in Hl' by lia. subst l'.
      split_and!; [repeat (apply times_ok_cons; split; [cbn; lia|]); done|done|done|].
      rewrite <- dues_delay. cbn [dues with_time time].
      f_equal; [f_equal; lia|]. f_equal; [f_equal; lia|]. f_equal. lia.
    + set (x := Timeo (msecs + (now - T)) hd a) in *.
      destruct (insert_after_ok (t :: l0) x msecs (time t) T) as [Hi1 Hi2]; try done; try (cbn; lia).
      { intros ? [= <-]. cbn. lia. }
      subst l'. split_and!; [done..|]. rewrite total_cons in Hi2. change (time x) with (msecs + (now - T)) in Hi2.
      replace (msecs + (now - T) - msecs) with (now - T) in Hi2 by lia.
      revert Hi2. destruct (now - T <=? time t + total l0); intros ->; [|done].
      do 2 f_equal. lia.
Qed.

(** Removing a timer leaves the due times of all others as they were, and gives its
    entry back to the pool; an unknown timer changes nothing. *)
Theorem sys_untimeout_correct s T hd a :
  times_ok (next_timeout s) -> total (next_timeout s) < 2 ^ 32 ->
  exists s', sys_untimeout hd a s = (Ret tt, s') /\
    timeouts_last_time s' = timeouts_last_time s /\ times_ok (next_timeout s') /\
    dues T (next_timeout s') = remove_due (hd, a) (dues T (next_timeout s)) /\
    (pool s' + length (next_timeout s') = pool s + length (next_timeout s))%nat.
Proof.
  intros Hok Ht. pose proof (unlink_ok _ hd a T Hok Ht) as Hu.
  unfold sys_untimeout, gets, bind. destruct (unlink (next_timeout s) hd a) as [l'|].
  - destruct Hu as (_ & Hok' & Hd & Hlen). eexists. split; [reflexivity|]. cbn.
    split_and!; [done..|]. lia.
  - exists s. split_and!; [done..| |done]. revert T Hu. clear. induction (next_timeout s) as [|t l IH]; [done|].
    intros T Hu. cbn [dues remove_due snd]. cbn [fmap list_fmap] in Hu. apply not_elem_of_cons in Hu as [Hne Hu].
    rewrite bool_decide_eq_false_2 by congruence. f_equal. by apply IH.
Qed.

(** ** The timers of the stack *)

(** What is armed: every cyclic timer once, the TCP timer when it is active;
    with the entries in use, the pool is complete. *)
Definition stack_timers (active : bool) : list (option handler * Z) :=
  (if active then [(Some tcpip_tcp_timer, 0)] else []) ++
  [(Some cyclic_timer, 1); (Some cyclic_timer, 2); (Some cyclic_timer, 3); (Some cyclic_timer, 4)].

Lemma stack_timers_inv k active : k ∈ stack_timers active ->
  k = (Some tcpip_tcp_timer, 0) /\ active = true \/ exists i, k = (Some cyclic_timer, i) /\ 1 <= i <= 4.
Proof.
  unfold stack_timers. rewrite elem_of_app, !elem_of_cons, elem_of_nil. intros [Hk|Hk].
  - destruct active; [|by apply elem_of_nil in Hk]. apply list_elem_of_singleton in Hk. by left.
  - right. destruct Hk as [->|[->|[->|[->|[]]]]]; eexists; (split; [reflexivity|lia]).
Qed.

Definition armed s : Prop :=
  key <$> next_timeout s ≡ₚ stack_timers (tcpip_tcp_timer_active s) /\
  (pool s + length (next_timeout s) = MEMP_NUM_SYS_TIMEOUT)%nat.

Lemma armed_length s : armed s -> (4 <= length (next_timeout s) <= 5)%nat.
Proof.
  intros [Hk _]. apply Permutation_length in Hk. rewrite length_fmap in Hk. rewrite Hk.
  destruct (tcpip_tcp_timer_active s); cbn; lia.
Qed.

(** The state after the first timer was taken off the list to be called. *)
Definition firing (t : sys_timeo) s : Prop :=
  key t :: (key <$> next_timeout s) ≡ₚ stack_timers (tcpip_tcp_timer_active s) /\
  (pool s + length (next_timeout s) = MEMP_NUM_SYS_TIMEOUT)%nat.

Lemma firing_length t s : firing t s -> (3 <= length (next_timeout s) <= 4)%nat.
Proof.
  intros [Hk _]. apply Permutation_length in Hk. cbn [length] in Hk. rewrite length_fmap in Hk.
  destruct (tcpip_tcp_timer_active s); cbn in Hk; lia.
Qed.

Lemma firing_handler t s : firing t s -> h t <> None.
Proof.
  intros [Hk _] Hn. assert (key t ∈ stack_timers (tcpip_tcp_timer_active s)) as Hin by (rewrite <- Hk; apply list_elem_of_here).
  apply stack_timers_inv in Hin as [[Hin _]|(i & Hin & _)]; unfold key in Hin; congruence.
Qed.

(** Arming again the timer that fired. *)
Lemma rearm t s msecs hd a : firing t s -> key t = (hd, a) ->
  exists s', sys_timeout clock msecs hd a s = (Ret tt, s') /\ armed s'.
Proof.
  intros Hf Hk. pose proof (firing_length _ _ Hf). destruct Hf as [Hks Hp]. unfold MEMP_NUM_SYS_TIMEOUT in Hp.
  destruct (pool s) as [|n] eqn:Ep; [lia|].
  destruct (sys_timeout_run s n msecs hd a Ep) as (l' & last' & Hr & Hl' & _).
  eexists. split; [exact Hr|]. unfold armed. cbn [next_timeout tcpip_tcp_timer_active pool].
  rewrite Hl', <- Hk. split; [done|]. apply Permutation_length in Hl'. cbn [length] in Hl'.
  rewrite !length_fmap in Hl'. unfold MEMP_NUM_SYS_TIMEOUT. lia.
Qed.

(** What the function of a timer does to the protocols. *)
Definition called (k : option handler * Z) (e : E) : E :=
  match k.1 with
  | Some tcpip_tcp_timer => tcp_tmr e
  | Some cyclic_timer => cyclic_handler k.2 e
  | Some (user_timer f) => user_handler f k.2 e
  | None => e
  end.

(** After what time a timer of the stack is armed again. *)
Definition interval (k : option handler * Z) : Z := nth (Z.to_nat k.2) lwip_cyclic_timers 0.

Lemma interval_range k active : k ∈ stack_timers active -> 250 <= interval k <= 60000.
Proof.
  intros [[-> _]|(i & -> & Hi)]%stack_timers_inv; [by vm_compute|].
  assert (i = 1 \/ i = 2 \/ i = 3 \/ i = 4) as [-> | [-> | [-> | ->]]] by lia; by vm_compute.
Qed.

(** The TCP timer is not armed again when there is no connection. *)
Definition ends (k : option handler * Z) (e : E) : bool :=
  match k.1 with Some tcpip_tcp_timer => negb (tcp_pcbs e) | _ => false end.

(** What a handler does: its protocol's function is called, and the TCP timer stops, or
    the timer that fired is armed again after its interval. *)
Lemma handler_run t hd s : firing t s -> h t = Some hd ->
  exists s1, firing t s1 /\ next_timeout s1 = next_timeout s /\
    timeouts_last_time s1 = timeouts_last_time s /\ reads s1 = reads s /\
    protocols s1 = called (key t) (protocols s) /\ 250 <= interval (key t) <= 60000 /\
    if ends (key t) (protocols s1) then
      exists s2, call_handler clock hd (arg t) s = (Ret tt, s2) /\ armed s2 /\ next_timeout s2 = next_timeout s /\
        timeouts_last_time s2 = timeouts_last_time s /\ reads s2 = reads s /\ protocols s2 = protocols s1
    else call_handler clock hd (arg t) s = sys_timeout clock (interval (key t)) (h t) (arg t) s1.
Proof.
  intros Hf Ht. assert (key t ∈ stack_timers (tcpip_tcp_timer_active s)) as Hin.
  { destruct Hf as [<- _]. apply list_elem_of_here. }
  pose proof (interval_range _ _ Hin) as Hiv.
  apply stack_timers_inv in Hin as [[Hin Ea]|(i & Hin & Hi)]; unfold key in Hin.
  - assert (hd = tcpip_tcp_timer /\ arg t = 0) as [-> Ha] by (split; congruence).
    cbn [call_handler]. unfold tcpip_tcp_timer_, on_protocols, modify, gets, bind.
    set (s1 := Timers _ _ _ _ _ (tcp_tmr _)). assert (firing t s1) as Hf1 by done. exists s1.
    split_and!; [done..|unfold called, key; by rewrite Hin|apply Hiv|apply Hiv|].
    assert (ends (key t) (protocols s1) = negb (tcp_pcbs (protocols s1))) as -> by (unfold ends, key; by rewrite Hin).
    assert (interval (key t) = TCP_TMR_INTERVAL) as -> by (unfold interval, key; by rewrite Hin).
    destruct (tcp_pcbs (protocols s1)); cbn [negb]; [by rewrite Ht, Ha|].
    eexists. split_and!; [reflexivity| |done..].
    destruct Hf1 as [Hk Hp]. split; [|done]. cbn. cbn in Hk. unfold key in Hk at 1. rewrite Hin, Ea in Hk.
    by apply Permutation_cons_inv in Hk.
  - assert (hd = cyclic_timer /\ arg t = i) as [-> <-] by (split; congruence).
    cbn [call_handler]. unfold cyclic_timer_, on_protocols. rewrite (bind_ret (modify _) _ s tt _ eq_refl).
    set (s1 := Timers _ _ _ _ _ (cyclic_handler _ _)). exists s1.
    split_and!; [done..|unfold called, key; by rewrite Ht|apply Hiv|apply Hiv|].
    unfold ends, interval, key. rewrite Ht. cbn [fst snd].
    unfold read_array. rewrite (proj2 (Z.leb_le 0 (arg t))), (proj2 (Z.ltb_lt _ _)) by (cbn; lia).
    cbn [andb]. by rewrite (bind_ret (ret _) _ s1 _ s1 eq_refl).
Qed.

Lemma handler_ok t hd s : firing t s -> h t = Some hd ->
  exists s', call_handler clock hd (arg t) s = (Ret tt, s') /\ armed s'.
Proof.
  intros Hf Ht. destruct (handler_run t hd s Hf Ht) as (s1 & Hf1 & _ & _ & _ & _ & _ & Hcase).
  destruct (ends _ _); [destruct Hcase as (s2 & ? & ? & _); by exists s2|]. rewrite Hcase. by apply (rearm t).
Qed.

(** ** Whatever happens, no timer is lost and the pool never runs out *)
Definition runs_armed (o : outcome unit) s : Prop := (o = Ret tt \/ o = Diverge) /\ armed s.

Lemma fire_ok t l s : armed s -> next_timeout s = t :: l ->
  forall last, firing t (Timers l last (tcpip_tcp_timer_active s) (S (pool s)) (reads s) (protocols s)).
Proof.
  intros [Hk Hp] El last. rewrite El in Hk, Hp. split; cbn [next_timeout tcpip_tcp_timer_active pool]; [done|].
  cbn [length] in Hp. lia.
Qed.

(** One round of the loop, up to the handler's call. *)
Lemma check_loop_step n diff t l s : next_timeout s = t :: l -> time t <= diff ->
  check_loop clock (S n) diff s =
    ((match h t with Some hd => call_handler clock hd (arg t) | None => ret tt end) ;;;
     check_loop clock n (u32 (diff - time t)))
    (Timers l (u32 (timeouts_last_time s + time t)) (tcpip_tcp_timer_active s) (S (pool s)) (reads s) (protocols s)).
Proof.
  intros El Ht. cbn [check_loop]. unfold gets at 1. unfold bind at 1. rewrite El, (proj2 (Z.leb_le _ _) Ht). done.
Qed.

Lemma check_loop_armed n diff s : armed s ->
  runs_armed (check_loop clock n diff s).1 (check_loop clock n diff s).2.
Proof.
  revert diff s. induction n as [|n IH]; intros diff s Ha; destruct (next_timeout s) as [|t l] eqn:El.
  1-3: cbn [check_loop]; unfold gets, bind; rewrite El; try (destruct (time t <=? diff));
       by (split; [auto|]).
  destruct (Z.leb_spec (time t) diff) as [Ht|Ht].
  - rewrite (check_loop_step _ _ _ _ _ El Ht).
    pose proof (fire_ok t l s Ha El (u32 (timeouts_last_time s + time t))) as Hf.
    destruct (h t) as [hd|] eqn:Eh.
    + destruct (handler_ok t hd _ Hf Eh) as (s' & Hr & Ha'). cstep Hr. by apply IH.
    + by apply firing_handler in Hf.
  - cbn [check_loop]. unfold gets, bind. rewrite El, (proj2 (Z.leb_gt _ _) Ht). by (split; [left|]).
Qed.

Lemma check_armed n s : armed s ->
  runs_armed (sys_check_timeouts clock n s).1 (sys_check_timeouts clock n s).2.
Proof.
  intros Ha. unfold sys_check_timeouts, gets, sys_now, bind. pose proof (armed_length _ Ha).
  destruct (next_timeout s) as [|t l] eqn:El; [cbn in *; lia|]. apply check_loop_armed.
  unfold armed in *. cbn. by rewrite El in *.
Qed.
End Thms.
