(* ===== verification/TimeoutLive.v ===== *)
(** * The timers of the stack, for ever: sessions, catching up, and concrete runs *)
From S2P Require Export TimeoutThms.

Section Live.
Context {E : Type} `{Protocols E}.
Context (clock : nat -> Z).
Implicit Types s : timers E.

(** ** Sessions *)

(** What the stack's thread does with the timers after [sys_timeouts_init]: waiting
    for messages, checks, and the messages' effect on the protocols ([tcp_timer_needed] is called
    when a connection is registered). *)
Inductive timer_op : Type :=
  | Wait (arrivals : list bool)
  | CheckTimeouts
  | Traffic (f : E -> E)
  | Registered
  | RestartTimeouts.

Definition run_timer_op (fuel : nat) (op : timer_op) : cmd (timers E) unit :=
  match op with
  | Wait arrivals => sys_timeouts_mbox_fetch clock fuel arrivals
  | CheckTimeouts => sys_check_timeouts clock fuel
  | Traffic f => on_protocols f
  | Registered => tcp_timer_needed clock
  | RestartTimeouts => sys_restart_timeouts clock
  end.

Fixpoint run_timer_ops (fuel : nat) (ops : list timer_op) : cmd (timers E) unit :=
  match ops with
  | [] => ret tt
  | op :: ops => run_timer_op fuel op ;;; run_timer_ops fuel ops
  end.

Definition booted (last : Z) (e : E) : timers E := Timers [] last false MEMP_NUM_SYS_TIMEOUT 0 e.

#[local] Abbreviation keeps m := (forall s, armed s -> runs_armed (m s).1 (m s).2).

Lemma keeps_bind (m : cmd (timers E) unit) (k : unit -> cmd (timers E) unit) :
  keeps m -> keeps (k tt) -> keeps (bind m k).
Proof.
  intros Hm Hk s Ha. specialize (Hm s Ha) as [Ho Ha']. unfold bind.
  destruct (m s) as [o s']; cbn [fst snd] in *. destruct Ho as [-> | ->]; [by apply Hk|]. by (split; [right|]).
Qed.

Lemma needed_armed : keeps (tcp_timer_needed clock).
Proof.
  intros s Ha. unfold tcp_timer_needed, gets, bind.
  destruct (negb (tcpip_tcp_timer_active s) && tcp_pcbs (protocols s)) eqn:Eb; [|by (split; [left|])].
  apply andb_prop in Eb as [Eb _]. apply negb_true_iff in Eb. destruct Ha as [Hk Hp]. cbn.
  set (s1 := Timers _ _ true _ _ _).
  destruct (rearm clock (Timeo 0 (Some tcpip_tcp_timer) 0) s1 TCP_TMR_INTERVAL (Some tcpip_tcp_timer) 0) as (s' & -> & Ha').
  - split; [|done]. cbn. cbn in Hk. rewrite Hk, Eb. done.
  - done.
  - by (split; [left|]).
Qed.

Lemma restart_armed : keeps (sys_restart_timeouts clock).
Proof. intros s Ha. by (split; [left|]). Qed.

Lemma sleeptime_armed s : armed s ->
  exists v s', sys_timeouts_sleeptime clock s = (Ret v, s') /\ armed s'.
Proof.
  intros Ha. unfold sys_timeouts_sleeptime, gets, sys_now, bind.
  destruct (next_timeout s) eqn:El; [by eexists _, _|]. eexists _, _. split; [reflexivity|].
  unfold armed in *. cbn. by rewrite El in *.
Qed.

Lemma wait_armed fuel arrivals : keeps (sys_timeouts_mbox_fetch clock fuel arrivals).
Proof.
  revert arrivals. induction fuel as [|fuel IH]; intros arrivals s Ha.
  all: destruct (sleeptime_armed s Ha) as (v & s1 & Hv & Ha1); pose proof (armed_length _ Ha).
  all: cbn [sys_timeouts_mbox_fetch]; cstep (eq_refl (gets next_timeout s));
    destruct (next_timeout s) as [|t l]; [cbn in *; lia|]; cstep Hv.
  all: destruct (v =? 0); [|destruct arrivals as [|[] arrivals]]; try by (split; [auto|]).
  all: apply (keeps_bind _ (fun _ => _)); try done; intros ? ?; try apply check_armed; try apply IH; done.
Qed.

Lemma ops_armed fuel ops : keeps (run_timer_ops fuel ops).
Proof.
  induction ops as [|op ops IH]; [by (intros s Ha; split; [left|])|]. cbn [run_timer_ops].
  apply (keeps_bind _ (fun _ => _)); [|done]. destruct op; cbn [run_timer_op].
  - apply wait_armed.
  - intros. by apply check_armed.
  - intros s Ha. by (split; [left|]).
  - apply needed_armed.
  - apply restart_armed.
Qed.

Lemma init_armed last e : exists s, sys_timeouts_init clock (booted last e) = (Ret tt, s) /\ armed s.
Proof.
  assert (forall l i s, (length l <= pool s)%nat ->
    exists s', start_cyclic clock i l s = (Ret tt, s') /\
      key <$> next_timeout s' ≡ₚ ((fun j : Z => (Some cyclic_timer, j)) <$> seqZ i (Z.of_nat (length l))) ++ (key <$> next_timeout s) /\
      tcpip_tcp_timer_active s' = tcpip_tcp_timer_active s /\ (pool s' + length l = pool s)%nat) as Hst.
  { induction l as [|iv l IH]; intros i s Hp; [by exists s|]. cbn [length] in *. cbn [start_cyclic].
    destruct (pool s) as [|n] eqn:Ep; [lia|].
    destruct (sys_timeout_run clock s n iv (Some cyclic_timer) i Ep) as (l' & last' & Hr & Hk & _). cstep Hr.
    destruct (IH (i + 1) (Timers l' last' (tcpip_tcp_timer_active s) n (S (reads s)) (protocols s)))
      as (s' & Hr' & Hk' & Ha & Hp'); [cbn; lia|].
    exists s'. split_and!; [done| |done|cbn in Hp'; lia].
    rewrite Hk'. cbn [next_timeout]. rewrite Hk, Nat2Z.inj_succ, (seqZ_cons i) by lia.
    rewrite Z.pred_succ, <- Z.add_1_r.
    cbn [fmap list_fmap app]. by rewrite <- Permutation_middle. }
  destruct (Hst (drop 1 lwip_cyclic_timers) 1 (booted last e)) as (s & Hr & Hk & Hac & Hp);
    [by apply Nat.leb_le|].
  unfold sys_timeouts_init. cstep Hr. eexists. split; [reflexivity|]. split; cbn [next_timeout tcpip_tcp_timer_active pool].
  - rewrite Hk, Hac. done.
  - apply Permutation_length in Hk. rewrite length_fmap in Hk.
    change (length (next_timeout s) = 4%nat) in Hk. rewrite Hk. exact Hp.
Qed.

(** C35: From start-up on, whatever the clock reads, the traffic does and the thread waits
    for: the assertion that the pool of timers is not empty never fails, and
    every cyclic timer is armed exactly once, the TCP timer exactly when it is marked active. *)
Theorem timers_never_lost fuel ops last e :
  let '(o, s) := (sys_timeouts_init clock ;;; run_timer_ops fuel ops) (booted last e) in
  (o = Ret tt \/ o = Diverge) /\ armed s.
Proof.
  destruct (init_armed last e) as (s & Hr & Ha). cstep Hr.
  pose proof (ops_armed fuel ops s Ha) as Ho. by destruct (run_timer_ops fuel ops s).
Qed.

(** ** The agenda

    What a check does, read on due times: the timers that are due by [now] are called one
    after the other, and each is armed again, its interval after the clock's reading, by
    the rules of [sys_timeout_correct]. *)
Definition last_due (A : list due) : Z := default 0 (fst <$> last A).

(** A timer armed at [now_] on an agenda whose last expiry was at [T]. *)
Definition arm_again (now_ T msecs : Z) (k : option handler * Z) (A : list due) : list due :=
  match A with
  | [] => [(now_ + msecs, k)]
  | y :: _ =>
      if msecs <? y.1 - T then (now_ + msecs, k) :: delay (now_ - T) A
      else if now_ <=? last_due A then insert_due (now_ + msecs, k) A
      else A ++ [(last_due A + msecs + (y.1 - T), k)]
  end.

(** [rounds now T A e ks T' A' e']: from the last expiry [T], the agenda [A] and the
    protocols [e], the timers [ks] are called in this order. *)
Inductive rounds (now : Z) : Z -> list due -> E -> list (option handler * Z) -> Z -> list due -> E -> Prop :=
  | rounds_done T A e : rounds now T A e [] T A e
  | rounds_ends T d k A e ks T' A' e' :
      d <= now -> ends k (called k e) = true ->
      rounds now d A (called k e) ks T' A' e' ->
      rounds now T ((d, k) :: A) e (k :: ks) T' A' e'
  | rounds_again T d k A e now_ ks T' A' e' :
      d <= now <= now_ -> ends k (called k e) = false ->
      rounds now d (arm_again now_ d (interval k) k A) (called k e) ks T' A' e' ->
      rounds now T ((d, k) :: A) e (k :: ks) T' A' e'.

Lemma rounds_protocols now T A e ks T' A' e' : rounds now T A e ks T' A' e' ->
  e' = foldl (fun e k => called k e) e ks.
Proof. induction 1; done. Qed.

Lemma elem_insert_due x y A : y ∈ A -> y ∈ insert_due x A.
Proof.
  induction A as [|z A IH]; intros Hy; [by apply elem_of_nil in Hy|]. cbn [insert_due].
  apply elem_of_cons in Hy as [->|Hy]; destruct (z.1 <=? x.1); rewrite !elem_of_cons; auto.
Qed.

(** A timer due within 250 ms of the last expiry is not put off. *)
Lemma arm_again_keeps now_ T msecs k l y : times_ok l -> 250 <= msecs ->
  y ∈ dues T l -> y.1 <= T + 250 -> y ∈ arm_again now_ T msecs k (dues T l).
Proof.
  intros Hl Hm Hy Hd. destruct l as [|t l]; [by apply elem_of_nil in Hy|]. cbn [dues arm_again fst].
  apply times_ok_cons in Hl as [Ht Hl].
  assert (T + time t <= y.1).
  { cbn [dues] in Hy. apply elem_of_cons in Hy as [->|Hy]; [cbn; lia|].
    pose proof (proj1 (List.Forall_forall _ _) (dues_range (T + time t) l Hl) y (proj1 (list_elem_of_In _ _) Hy)). cbn in *. lia. }
  rewrite (proj2 (Z.ltb_ge _ _)) by lia. destruct (_ <=? _); [by apply elem_insert_due|].
  apply elem_of_app. by left.
Qed.

(** ** Catching up

    The work a delay leaves: for each timer, the number of periods of 250 ms that
    fit between its due time and now.  Every firing takes at least one off. *)
Definition beats (x : Z) : Z := if x <? 0 then 0 else x / 250 + 1.
Definition lateness (now : Z) (A : list due) : Z := foldr (fun y n => beats (now - y.1) + n) 0 A.

Lemma beats_nonneg x : 0 <= beats x.
Proof. unfold beats. destruct (Z.ltb_spec x 0); [done|]. Z.to_euclidean_division_equations; lia. Qed.
Lemma beats_mono x y : x <= y -> beats x <= beats y.
Proof.
  intros Hxy. unfold beats. destruct (Z.ltb_spec x 0), (Z.ltb_spec y 0); try lia;
    Z.to_euclidean_division_equations; lia.
Qed.
Lemma beats_step x y : 0 <= x -> y <= x - 250 -> beats y + 1 <= beats x.
Proof.
  intros Hx Hxy. unfold beats. destruct (Z.ltb_spec x 0), (Z.ltb_spec y 0); try lia;
    Z.to_euclidean_division_equations; lia.
Qed.

Lemma lateness_cons now y A : lateness now (y :: A) = beats (now - y.1) + lateness now A.
Proof. done. Qed.
Lemma lateness_nonneg now A : 0 <= lateness now A.
Proof.
  induction A as [|y A IH]; [done|]. rewrite lateness_cons. pose proof (beats_nonneg (now - y.1)). lia.
Qed.
Lemma lateness_app now A B : lateness now (A ++ B) = lateness now A + lateness now B.
Proof. induction A as [|y A IH]; [done|]. cbn [app]. rewrite !lateness_cons, IH. lia. Qed.
Lemma lateness_insert now x A : lateness now (insert_due x A) = beats (now - x.1) + lateness now A.
Proof.
  induction A as [|y A IH]; [done|]. cbn [insert_due]. destruct (y.1 <=? x.1); rewrite !lateness_cons; [lia|done].
Qed.
Lemma lateness_delay now d A : 0 <= d -> lateness now (delay d A) <= lateness now A.
Proof.
  intros Hd. induction A as [|y A IH]; [done|]. cbn [delay fmap list_fmap]. rewrite !lateness_cons. cbn [fst].
  pose proof (beats_mono (now - (y.1 + d)) (now - y.1) ltac:(lia)). unfold delay in IH. lia.
Qed.
Lemma lateness_bound now T l N : times_ok l -> 0 <= now - T -> Z.of_nat (length l) <= N ->
  lateness now (dues T l) <= N * ((now - T) / 250 + 1).
Proof.
  intros Hl Hn HN. assert (lateness now (dues T l) <= Z.of_nat (length l) * ((now - T) / 250 + 1)).
  { clear HN. pose proof (dues_range T l Hl) as Hr. remember (dues T l) as A eqn:EA.
    assert (length A = length l) as <-.
    { rewrite EA. apply dues_length. }
    clear EA. induction Hr as [|y A Hy Hr IH]; [done|]. rewrite lateness_cons. cbn [length].
    pose proof (beats_mono (now - y.1) (now - T) ltac:(lia)) as Hb. unfold beats in Hb at 2.
    rewrite (proj2 (Z.ltb_ge _ _) Hn) in Hb. lia. }
  pose proof (Z.div_pos (now - T) 250 ltac:(lia) ltac:(lia)). nia.
Qed.

Lemma last_dues T l : l <> [] -> last_due (dues T l) = T + total l.
Proof.
  intros Hne. destruct l as [|t l _] using rev_ind; [done|]. unfold last_due. rewrite dues_app, last_app. cbn.
  rewrite due_app, total_cons. change (total []) with 0. lia.
Qed.

(** [sys_timeout] on the agenda. *)
Lemma sys_timeout_agenda s T msecs hd a : pool s <> 0%nat -> next_timeout s <> [] ->
  timeouts_last_time s = u32 T -> T <= clock (reads s) -> 0 <= msecs ->
  msecs + (clock (reads s) - T) < 2 ^ 32 -> msecs + total (next_timeout s) < 2 ^ 32 -> times_ok (next_timeout s) ->
  exists s', sys_timeout clock msecs hd a s = (Ret tt, s') /\ times_ok (next_timeout s') /\
    timeouts_last_time s' = u32 T /\ reads s' = S (reads s) /\ protocols s' = protocols s /\
    dues T (next_timeout s') = arm_again (clock (reads s)) T msecs (hd, a) (dues T (next_timeout s)).
Proof.
  intros Hp Hne HT Hn Hm Hd Ht Hok. destruct (pool s) as [|n] eqn:Ep; [done|].
  destruct (sys_timeout_run clock s n msecs hd a Ep) as (l' & last' & Hr & _).
  destruct (sys_timeout_correct clock s T msecs hd a) as (s' & Hr' & Hok' & _ & Hdue); try done; try lia.
  assert (Hs' : s' = Timers l' last' (tcpip_tcp_timer_active s) n (S (reads s)) (protocols s)) by congruence.
  exists s'. destruct (next_timeout s) as [|t l] eqn:El; [done|]. destruct Hdue as [HT' Hdue].
  split; [done|]. split; [done|]. split; [done|]. rewrite Hs' at 1 2. split; [done|]. split; [done|].
  rewrite Hdue. unfold arm_again. rewrite last_dues by done. cbn [dues fst].
  replace (T + time t - T) with (time t) by lia. destruct (msecs <? time t); [done|].
  destruct (Z.leb_spec (clock (reads s) - T) (total (t :: l))), (Z.leb_spec (clock (reads s)) (T + total (t :: l))); done || lia.
Qed.

Lemma total_le T l B : l <> [] -> Forall (fun y => y.1 <= B) (dues T l) -> total l <= B - T.
Proof.
  intros Hne HB. destruct l as [|t l _] using rev_ind; [done|].
  rewrite dues_app in HB. apply Forall_app in HB as [_ HB]. apply Forall_inv in HB. cbn in HB.
  rewrite due_app, total_cons. change (total []) with 0. lia.
Qed.

Lemma Forall_insert_due (P : due -> Prop) x A : P x -> Forall P A -> Forall P (insert_due x A).
Proof.
  intros Hx HA. induction HA as [|y A Hy HA IH]; [by repeat constructor|]. cbn [insert_due].
  destruct (y.1 <=? x.1); repeat constructor; done.
Qed.

Lemma insert_due_ne x A : insert_due x A <> [].
Proof. destruct A; [done|]. cbn. by destruct (_ <=? _). Qed.

(** Arming a timer [msecs] after one that fired at [T] costs at most one beat less. *)
Lemma again_late now now_ T msecs k l c : l <> [] -> times_ok l -> T <= now <= now_ -> now_ - T <= 2 ^ 18 ->
  250 <= msecs <= 60000 -> total l <= c -> 2 ^ 19 <= c ->
  lateness now (arm_again now_ T msecs k (dues T l)) + 1 <= beats (now - T) + lateness now (dues T l) /\
  Forall (fun y => y.1 <= T + c + 2 ^ 18) (arm_again now_ T msecs k (dues T l)) /\
  arm_again now_ T msecs k (dues T l) <> [].
Proof.
  intros Hne Hok Hn Hc Hm Htot Hcc. pose proof (dues_range T _ Hok) as Hrange. pose proof (due_nonneg _ Hok).
  unfold arm_again. rewrite last_dues by done.
  destruct l as [|t l]; [done|]. cbn [dues fst]. fold (dues T (t :: l)).
  change ((T + time t, key t) :: dues (T + time t) l) with (dues T (t :: l)).
  replace (T + time t - T) with (time t) by lia.
  apply times_ok_cons in Hok as [Htt Hl]. pose proof (due_nonneg _ Hl). rewrite total_cons in *.
  pose proof (fun y => beats_step (now - T) y ltac:(lia)) as Hb.
  destruct (Z.ltb_spec msecs (time t)); [|destruct (Z.leb_spec now_ (T + (time t + total l)))].
  - rewrite lateness_cons. pose proof (lateness_delay now (now_ - T) (dues T (t :: l)) ltac:(lia)).
    specialize (Hb (now - (now_ + msecs)) ltac:(lia)). cbn [fst]. split; [lia|]. split; [|done].
    constructor; [cbn; lia|]. apply Forall_fmap. eapply Forall_impl; [exact Hrange|]. cbn. intros. lia.
  - rewrite lateness_insert. specialize (Hb (now - (now_ + msecs)) ltac:(lia)). cbn [fst]. split; [lia|].
    split; [|apply insert_due_ne]. apply Forall_insert_due; [cbn; lia|]. eapply Forall_impl; [exact Hrange|]. cbn. intros. lia.
  - rewrite lateness_app, lateness_cons. change (lateness now []) with 0.
    specialize (Hb (now - (T + (time t + total l) + msecs + time t)) ltac:(lia)). cbn [fst]. split; [lia|].
    split; [|by intros E'%(f_equal length); rewrite length_app in E'; cbn in E'; lia].
    apply Forall_app. split; [eapply Forall_impl; [exact Hrange|]; cbn; intros; lia|]. constructor; [cbn; lia|done].
Qed.

(** What a check leaves: nothing due, and every timer that was due soon enough called. *)
Definition caught_up now T s ks T' s' : Prop :=
  armed s' /\ timeouts_last_time s' = u32 T' /\ T <= T' <= now /\
  rounds now T (dues T (next_timeout s)) (protocols s) ks T' (dues T' (next_timeout s')) (protocols s') /\
  (forall y, y ∈ dues T (next_timeout s) -> y.1 <= Z.min now (T + 250) -> y.2 ∈ ks) /\
  Forall (fun y => now < y.1) (dues T' (next_timeout s')).

Lemma nothing_due fuel now T s t l : armed s -> timeouts_last_time s = u32 T -> next_timeout s = t :: l ->
  times_ok l -> T <= now -> now - T < time t ->
  check_loop clock fuel (now - T) s = (Ret tt, s) /\ caught_up now T s [] T s.
Proof.
  intros Ha HT El Hl HTn Ht.
  assert (Hall : Forall (fun y => now < y.1) (dues T (next_timeout s))).
  { rewrite El. cbn [dues]. pose proof (dues_range (T + time t) l Hl) as Hr. constructor; [cbn; lia|].
    eapply Forall_impl; [exact Hr|]; cbn; intros; lia. }
  split.
  - destruct fuel; cbn [check_loop]; unfold gets, bind; by rewrite El, (proj2 (Z.leb_gt _ _) Ht).
  - split; [done|]. split; [done|]. split; [lia|]. split; [constructor|]. split; [|done].
    intros y Hy Hd. apply list_elem_of_In in Hy. pose proof (proj1 (List.Forall_forall _ _) Hall y Hy). cbn in *. lia.
Qed.

(** A call more in front. *)
Lemma caught_up_cons now T s t l s2 ks T' s' : next_timeout s = t :: l -> times_ok l -> T <= T + time t <= now ->
  caught_up now (T + time t) s2 ks T' s' ->
  rounds now T (dues T (next_timeout s)) (protocols s) (key t :: ks) T' (dues T' (next_timeout s')) (protocols s') ->
  (forall y, y ∈ dues (T + time t) l -> y.1 <= T + time t + 250 -> y ∈ dues (T + time t) (next_timeout s2)) ->
  caught_up now T s (key t :: ks) T' s'.
Proof.
  intros El Hl Ht (Ha & HT & HTn & _ & Hin & Hall) Hr Hkeep. split; [done|]. split; [done|]. split; [lia|].
  split; [done|]. split; [|done]. intros y Hy Hd. rewrite El in Hy. cbn [dues] in Hy.
  apply elem_of_cons in Hy as [->|Hy]; [by left|]. right. apply Hin; [|lia]. apply Hkeep; [done|lia].
Qed.

Lemma catch_up_loop m : forall fuel s T T0 now c,
  armed s -> timeouts_last_time s = u32 T -> times_ok (next_timeout s) -> T0 <= T <= now -> now - T0 <= 2 ^ 18 ->
  (forall k, (reads s <= k < reads s + m)%nat -> now <= clock k <= T0 + 2 ^ 18) ->
  lateness now (dues T (next_timeout s)) <= Z.of_nat m -> (m <= fuel)%nat ->
  total (next_timeout s) <= c -> 2 ^ 19 <= c -> c + Z.of_nat m * 2 ^ 18 <= 2 ^ 31 ->
  exists s' T' ks, check_loop clock fuel (now - T) s = (Ret tt, s') /\ caught_up now T s ks T' s'.
Proof.
  induction m as [|m IH]; intros fuel s T T0 now c Ha HT Hok HTn HT0 Hclk Hlate Hfuel Htot Hc Hcm;
    pose proof (armed_length _ Ha); destruct (next_timeout s) as [|t l] eqn:El; try (cbn in *; lia);
    apply times_ok_cons in Hok as Hok'; destruct Hok' as [Htt Hl];
    cbn [dues] in Hlate; rewrite lateness_cons in Hlate; cbn [fst] in Hlate;
    pose proof (lateness_nonneg now (dues (T + time t) l));
    (destruct (Z.leb_spec (time t) (now - T)) as [Ht|Ht];
     [pose proof (beats_step (now - (T + time t)) (now - (T + time t) - 250) ltac:(lia) ltac:(lia)) as Hb1;
      pose proof (beats_nonneg (now - (T + time t) - 250))|
      exists s, T, []; apply (nothing_due fuel now T s t l); done || lia]); try lia.
  destruct fuel as [|fuel]; [lia|]. rewrite (check_loop_step _ _ _ _ _ _ El Ht), u32_small by lia.
  rewrite HT, u32_add. pose proof (fire_ok t l s Ha El (u32 (T + time t))) as Hf.
  rewrite total_cons in Htot. pose proof (due_nonneg _ Hl).
  replace (now - T - time t) with (now - (T + time t)) by lia.
  destruct (h t) as [hd|] eqn:Eh; [|by apply firing_handler in Hf].
  destruct (handler_run clock t hd _ Hf Eh) as (s1 & Hf1 & Hn1 & HT1 & Hr1 & Hp1 & Hiv & Hcase).
  cbn [next_timeout timeouts_last_time reads protocols] in Hn1, HT1, Hr1, Hp1.
  pose proof (firing_length _ _ Hf1) as Hlen. destruct (ends (key t) (protocols s1)) eqn:Eend.
  - destruct Hcase as (s2 & Hr & Ha2 & Hn2 & HT2 & Hr2 & Hp2). cbn [next_timeout timeouts_last_time reads] in Hn2, HT2, Hr2. cstep Hr.
    destruct (IH fuel s2 (T + time t) T0 now c) as (s' & T' & ks & Hr' & Hcu);
      try done; try lia; rewrite ?Hn2; try done; try lia.
    { intros k Hk. apply Hclk. lia. }
    exists s', T', (key t :: ks). split; [done|]. apply (caught_up_cons now T s t l s2); try done; [lia| |by rewrite Hn2].
    rewrite El. cbn [dues]. destruct Hcu as (_ & _ & _ & Hro & _). rewrite Hn2, Hp2, Hp1 in Hro.
    apply rounds_ends; [lia|by rewrite <- Hp1|done].
  - pose proof (Hclk (reads s1) ltac:(lia)) as Hread. pose proof (proj2 Hf1) as Hpool. unfold MEMP_NUM_SYS_TIMEOUT in Hpool.
    rewrite Hn1 in Hlen, Hpool. assert (l <> []) by (by intros ->; cbn in Hlen; lia).
    destruct (sys_timeout_agenda s1 (T + time t) (interval (key t)) (h t) (arg t)) as (s2 & Hr2 & Hok2 & HT2 & Hrd2 & Hp2 & Hd2);
      rewrite ?Hn1; try done; try lia.
    destruct (rearm clock t s1 (interval (key t)) (h t) (arg t) Hf1 eq_refl) as (s2' & Hr2' & Ha2).
    assert (s2' = s2) as -> by congruence. clear Hr2'.
    rewrite Hn1 in Hd2. change (h t, arg t) with (key t) in Hd2.
    destruct (again_late now (clock (reads s1)) (T + time t) (interval (key t)) (key t) l c) as (Hlate2 & Htot2 & Hne2); try done; try lia.
    rewrite <- Hd2 in Hlate2, Htot2, Hne2.
    apply total_le in Htot2; [|by intros E'; rewrite E' in Hne2].
    rewrite <- Hcase in Hr2. cstep Hr2.
    destruct (IH fuel s2 (T + time t) T0 now (c + 2 ^ 18)) as (s' & T' & ks & Hr' & Hcu); try done; try lia.
    { intros k Hk. apply Hclk. lia. }
    exists s', T', (key t :: ks). split; [done|]. apply (caught_up_cons now T s t l s2); try done; [lia| |].
    + rewrite El. cbn [dues]. destruct Hcu as (_ & _ & _ & Hro & _). rewrite Hd2, Hp2, Hp1 in Hro.
      apply (rounds_again now T (T + time t) (key t) _ _ (clock (reads s1))); [lia|by rewrite <- Hp1, Eend|exact Hro].
    + intros y Hy Hdy. rewrite Hd2. by apply (arm_again_keeps _ _ _ _ _ _ Hl (proj1 Hiv) Hy Hdy).
Qed.

(** C36: Even after a delay of four minutes a check catches up: it returns, and then every
    timer of the stack is armed for a time still to come.  The timers it called are
    [ks]: their protocols' functions ran, in this order, each timer was the first of the
    agenda and due, and was armed again as [rounds] says.  Every timer that was due
    within 250 ms of the last expiry was called, and the first one that was due in any
    case; one due later can be put off by the fault of sys_timeout (see the findings).
    Of the clock, only the readings this check can make are bounded. *)
Theorem check_catches_up s T fuel :
  let now := clock (reads s) in
  armed s -> timeouts_last_time s = u32 T -> times_ok (next_timeout s) -> T <= now ->
  (forall k, 0 <= Z.of_nat k - Z.of_nat (reads s) <= 5245 -> now <= clock k <= T + 2 ^ 18) -> total (next_timeout s) <= 2 ^ 29 ->
  5245 <= Z.of_nat fuel ->
  exists s' T' ks, sys_check_timeouts clock fuel s = (Ret tt, s') /\ armed s' /\
    timeouts_last_time s' = u32 T' /\ T <= T' <= now /\
    rounds now T (dues T (next_timeout s)) (protocols s) ks T' (dues T' (next_timeout s')) (protocols s') /\
    protocols s' = foldl (fun e k => called k e) (protocols s) ks /\
    (forall y, head (dues T (next_timeout s)) = Some y -> y.1 <= now -> head ks = Some y.2) /\
    (forall y, y ∈ dues T (next_timeout s) -> y.1 <= Z.min now (T + 250) -> y.2 ∈ ks) /\
    Forall (fun y => now < y.1) (dues T' (next_timeout s')).
Proof.
  intros now Ha HT Hok HTn Hclk Htot Hfuel. pose proof (armed_length _ Ha) as Hlen.
  unfold sys_check_timeouts. cstep (eq_refl (gets next_timeout s)).
  destruct (next_timeout s) as [|t l] eqn:El; [cbn in *; lia|]. pose proof (Hclk (reads s) ltac:(lia)).
  unfold sys_now at 1, gets at 1, bind at 1 2. cbn [timeouts_last_time reads].
  fold now. rewrite HT, u32_diff by lia. set (s1 := Timers _ _ _ _ _ _).
  assert (next_timeout s1 = t :: l) as El1 by done.
  assert (armed s1) as Ha1 by (unfold armed in *; cbn; by rewrite El in *).
  pose proof (lateness_bound now T (t :: l) 5 Hok ltac:(lia) ltac:(lia)).
  assert ((now - T) / 250 <= 1048) by (Z.to_euclidean_division_equations; lia).
  destruct (catch_up_loop (Z.to_nat 5245) fuel s1 T T now (2 ^ 29)) as (s' & T' & ks & Hr & ? & ? & ? & Hro & Hin & Hall);
    rewrite ?El1; try done; try lia.
  { intros k Hk. apply Hclk. change (reads s1) with (S (reads s)) in Hk. lia. }
  rewrite El1 in Hro, Hin. change (protocols s1) with (protocols s) in Hro.
  exists s', T', ks. split; [done|]. split; [done|]. split; [done|]. split; [done|]. split; [done|].
  split; [by eapply rounds_protocols|]. split; [|by split].
  intros y [= <-] Hy. cbn [fst snd] in *. inversion Hro; subst; try done.
  match goal with Hd : _ = dues T' _ |- _ => rewrite <- Hd in Hall end. apply Forall_inv in Hall. cbn in *. lia.
Qed.
End Live.

(** Protocols that log the calls, latest first: 0 for TCP, else the place in the table. *)
#[local] Instance logged : Protocols (list Z * bool) := {
  tcp_tmr e := (0 :: e.1, e.2);
  cyclic_handler i e := (i :: e.1, e.2);
  user_handler f _ e := (f :: e.1, e.2);
  tcp_pcbs := snd
}.

Definition entry (v i : Z) : sys_timeo := Timeo v (Some cyclic_timer) i.

(** Four cyclic timers, due at 500, 1000, 1000 and 60000; the clock is at 2600. *)
Definition late : timers (list Z * bool) :=
  Timers [entry 500 4; entry 500 1; entry 0 2; entry 59000 3] 0 false 6 0 ([], false).
Definition at_2600 (_ : nat) : Z := 2600.

(** The three timers that are due run in order.  Rearming the 1000 ms timers delays
    the 500 ms timer, armed before them for 3100, to 4700. *)
Example late_run :
  let s := (sys_check_timeouts at_2600 20 late).2 in
  rev (protocols s).1 = [4; 1; 2] /\
  (fun y => (y.1, y.2.2)) <$> dues 1000 (next_timeout s) = [(3600, 2); (4700, 4); (5200, 1); (61600, 3)].
Proof. by vm_compute. Qed.

(** The second timer was due at 1100; arming the first again, at 1200, in front of it puts
    it off to 1800, and the check does not call it. *)
Example due_timer_put_off :
  let s := (sys_check_timeouts (fun _ => 1200) 20
    (Timers [entry 500 4; entry 600 1; entry 0 2; entry 59000 3] 0 false 6 0 ([], false))).2 in
  (protocols s).1 = [4] /\ (fun y => (y.1, y.2.2)) <$> dues 500 (next_timeout s) = [(1700, 4); (1800, 1); (1800, 2); (60800, 3)].
Proof. by vm_compute. Qed.

Lemma late_armed : armed late.
Proof. split; [|done]. change (key <$> next_timeout late) with ([key (entry 500 4)] ++ [key (entry 500 1); key (entry 0 2); key (entry 59000 3)]). by rewrite (comm (++)). Qed.

Definition due_at (T : Z) (s : timers (list Z * bool)) : list Z := fst <$> dues T (next_timeout s).

(** A timer of 100 ms armed 50 ms after the last expiry delays the others by 50 ms. *)
Lemma sys_timeout_correct_witness :
  exists s', sys_timeout (fun _ => 50) 100 (Some (user_timer 7)) 0 late = (Ret tt, s') /\
    due_at 0 s' = [150; 550; 1050; 1050; 60050].
Proof.
  destruct (sys_timeout_correct (fun _ => 50) late 0 100 (Some (user_timer 7)) 0) as (s' & Hr & _ & _ & _ & Hd);
    try done; [by repeat constructor|].
  exists s'. split; [done|]. unfold due_at. cbn [next_timeout late] in Hd. rewrite Hd. by vm_compute.
Defined.

Lemma sys_untimeout_correct_witness :
  exists s', sys_untimeout (Some cyclic_timer) 1 late = (Ret tt, s') /\ due_at 0 s' = [500; 1000; 60000].
Proof.
  destruct (sys_untimeout_correct late 0 (Some cyclic_timer) 1) as (s' & Hr & _ & _ & Hd & _);
    [by repeat constructor|done|].
  exists s'. split; [done|]. unfold due_at. rewrite Hd. by vm_compute.
Defined.

Lemma check_catches_up_witness :
  exists s' T' ks, sys_check_timeouts at_2600 (Z.to_nat 6000) late = (Ret tt, s') /\ armed s' /\
    head ks = Some (Some cyclic_timer, 4) /\ protocols s' = foldl (fun e k => called k e) ([], false) ks /\
    Forall (fun y => 2600 < y.1) (dues T' (next_timeout s')).
Proof.
  destruct (check_catches_up at_2600 late 0 (Z.to_nat 6000)) as (s' & T' & ks & ? & ? & ? & ? & ? & ? & Hh & ? & ?);
    [apply late_armed|done|by repeat constructor|done|intros ? _; unfold at_2600; cbn; lia|done|lia|].
  exists s', T', ks. split; [done|]. split; [done|]. split; [by apply (Hh (500, (Some cyclic_timer, 4)))|]. by split.
Defined.
