(* ===== verification/Audio.v ===== *)
(** * Sound output: [source/Audio.c], [source/DAC.c], [source/pit.c] and the
    driver functions they call in [drivers/fsl_pit] and [drivers/fsl_dac]

    The state is what the interrupt handler and the threads share: the two
    sample buffers, the index [i], the buffer flag, and the registers of the two
    peripherals.  The masks and features of the device header, which is not in
    the repository, are the class [AudioHw]. *)
From S2P Require Export CInt.

Definition audio_buffer_sizes := 750.

Class AudioHw := {
  PIT_MCR_MDIS_MASK : Z; PIT_MCR_FRZ_MASK : Z;
  PIT_TCTRL_TEN_MASK : Z; PIT_TCTRL_TIE_MASK : Z; PIT_TFLG_TIF_MASK : Z;
  DAC_C0_DACEN_MASK : Z; DAC_C0_DACRFS_MASK : Z; DAC_C0_LPEN_MASK : Z;
  DAC_DATL_COUNT : Z;
  PIT_HAS_MDIS : bool;
  PIT0_IRQn : Z; PIT1_IRQn : Z;
  (** [CLOCK_GetFreq(kCLOCK_BusClk)] *)
  bus_clk : Z;
  masks_pos : 0 < PIT_TCTRL_TEN_MASK /\ 0 < PIT_TCTRL_TIE_MASK;
  masks_disjoint : Z.land PIT_TCTRL_TEN_MASK PIT_TCTRL_TIE_MASK = 0;
  masks_fit : PIT_TCTRL_TEN_MASK < 2 ^ 32 /\ PIT_TCTRL_TIE_MASK < 2 ^ 32;
  DATL_pos : 0 < DAC_DATL_COUNT
}.

(** What the rest of the machine sees: clocks ungated, interrupts enabled and
    their priority, timer flags cleared; the UDP connection bound, closed and
    sent to, and the port number's memory returned. *)
Inductive event : Type :=
  | EPitClock | EDacClock
  | EIrq (irq : Z) | EPrio (irq prio : Z)
  | EFlag (channel mask : Z)
  | EBind (port : Z) | EClose | ESend (bs : list Z) | EFree.

Record audio := Audio {
  buffer1 : list Z; buffer2 : list Z;
  idx : Z;                       (* i of Audio.c *)
  buffer_flag : bool;
  PIT_MCR : Z; TCTRL : Z -> Z; LDVAL : Z -> Z;
  DAC_C0 : Z; DATL : Z -> Z; DATH : Z -> Z;
  events : list event            (* latest first *)
}.

Definition set_buffer1 v s := Audio v (buffer2 s) (idx s) (buffer_flag s) (PIT_MCR s) (TCTRL s)
  (LDVAL s) (DAC_C0 s) (DATL s) (DATH s) (events s).
Definition set_buffer2 v s := Audio (buffer1 s) v (idx s) (buffer_flag s) (PIT_MCR s) (TCTRL s)
  (LDVAL s) (DAC_C0 s) (DATL s) (DATH s) (events s).
Definition set_idx v s := Audio (buffer1 s) (buffer2 s) v (buffer_flag s) (PIT_MCR s) (TCTRL s)
  (LDVAL s) (DAC_C0 s) (DATL s) (DATH s) (events s).
Definition set_flag v s := Audio (buffer1 s) (buffer2 s) (idx s) v (PIT_MCR s) (TCTRL s)
  (LDVAL s) (DAC_C0 s) (DATL s) (DATH s) (events s).
Definition set_MCR v s := Audio (buffer1 s) (buffer2 s) (idx s) (buffer_flag s) v (TCTRL s)
  (LDVAL s) (DAC_C0 s) (DATL s) (DATH s) (events s).
Definition set_TCTRL v s := Audio (buffer1 s) (buffer2 s) (idx s) (buffer_flag s) (PIT_MCR s) v
  (LDVAL s) (DAC_C0 s) (DATL s) (DATH s) (events s).
Definition set_LDVAL v s := Audio (buffer1 s) (buffer2 s) (idx s) (buffer_flag s) (PIT_MCR s)
  (TCTRL s) v (DAC_C0 s) (DATL s) (DATH s) (events s).
Definition set_C0 v s := Audio (buffer1 s) (buffer2 s) (idx s) (buffer_flag s) (PIT_MCR s)
  (TCTRL s) (LDVAL s) v (DATL s) (DATH s) (events s).
Definition set_DATL v s := Audio (buffer1 s) (buffer2 s) (idx s) (buffer_flag s) (PIT_MCR s)
  (TCTRL s) (LDVAL s) (DAC_C0 s) v (DATH s) (events s).
Definition set_DATH v s := Audio (buffer1 s) (buffer2 s) (idx s) (buffer_flag s) (PIT_MCR s)
  (TCTRL s) (LDVAL s) (DAC_C0 s) (DATL s) v (events s).
Definition set_events v s := Audio (buffer1 s) (buffer2 s) (idx s) (buffer_flag s) (PIT_MCR s)
  (TCTRL s) (LDVAL s) (DAC_C0 s) (DATL s) (DATH s) v.

(** An element of an array of registers. *)
Definition updZ (k v : Z) (f : Z -> Z) : Z -> Z := fun j => if j =? k then v else f j.
Definition emit (e : event) : cmd audio unit := modify (fun s => set_events (e :: events s) s).

Section Drivers.
Context `{AudioHw}.
#[local] Abbreviation M := (cmd audio).

(** ** [drivers/fsl_pit.h], [drivers/fsl_pit.c] *)
Definition PIT_EnableInterrupts (channel mask : Z) : M unit :=
  modify (fun s => set_TCTRL (updZ channel (Z.lor (TCTRL s channel) mask) (TCTRL s)) s).
Definition PIT_ClearStatusFlags (channel mask : Z) : M unit := emit (EFlag channel mask).
Definition PIT_SetTimerPeriod (channel count : Z) : M unit :=
  modify (fun s => set_LDVAL (updZ channel (u32 count) (LDVAL s)) s).
Definition PIT_StartTimer (channel : Z) : M unit :=
  modify (fun s => set_TCTRL (updZ channel (Z.lor (TCTRL s channel) PIT_TCTRL_TEN_MASK) (TCTRL s)) s).
Definition PIT_StopTimer (channel : Z) : M unit :=
  modify (fun s => set_TCTRL (updZ channel
    (u32 (Z.land (TCTRL s channel) (Z.lnot PIT_TCTRL_TEN_MASK))) (TCTRL s)) s).

(** The configuration structure has the one field [enableRunInDebug]. *)
Definition PIT_GetDefaultConfig : bool := false.

Definition PIT_Init (enableRunInDebug : bool) : M unit :=
  emit EPitClock ;;;
  (if PIT_HAS_MDIS
   then modify (fun s => set_MCR (u32 (Z.land (PIT_MCR s) (Z.lnot PIT_MCR_MDIS_MASK))) s)
   else ret tt) ;;;
  (if enableRunInDebug
   then modify (fun s => set_MCR (u32 (Z.land (PIT_MCR s) (Z.lnot PIT_MCR_FRZ_MASK))) s)
   else modify (fun s => set_MCR (Z.lor (PIT_MCR s) PIT_MCR_FRZ_MASK) s)).

(** ** [drivers/fsl_dac.h], [drivers/fsl_dac.c] *)
Record dac_config_t := DacConfig {
  referenceVoltageSource : Z;    (* kDAC_ReferenceVoltageSourceVref1 = 0, Vref2 = 1 *)
  enableLowPowerMode : bool
}.

Definition DAC_GetDefaultConfig : dac_config_t := DacConfig 1 false.

Definition DAC_Init (config : dac_config_t) : M unit :=
  emit EDacClock ;;;
  c0 <- gets DAC_C0 ;;
  let tmp8 := u8 (Z.land c0 (Z.lnot (Z.lor DAC_C0_DACRFS_MASK DAC_C0_LPEN_MASK))) in
  let tmp8 := if referenceVoltageSource config =? 1 then u8 (Z.lor tmp8 DAC_C0_DACRFS_MASK) else tmp8 in
  let tmp8 := if enableLowPowerMode config then u8 (Z.lor tmp8 DAC_C0_LPEN_MASK) else tmp8 in
  modify (set_C0 tmp8).

Definition DAC_Enable (enable : bool) : M unit :=
  if enable
  then modify (fun s => set_C0 (u8 (Z.lor (DAC_C0 s) DAC_C0_DACEN_MASK)) s)
  else modify (fun s => set_C0 (u8 (Z.land (DAC_C0 s) (Z.lnot DAC_C0_DACEN_MASK))) s).

Definition DAC_SetBufferValue (index value : Z) : M unit :=
  assert_ (index <? DAC_DATL_COUNT) ;;;
  modify (fun s => set_DATL (updZ index (u8 (Z.land 0xFF value)) (DATL s)) s) ;;;
  modify (fun s => set_DATH (updZ index (u8 (Z.shiftr (Z.land 0xF00 value) 8)) (DATH s)) s).

(** ** [source/DAC.c], [source/pit.c] *)
Definition DAC_Config : M unit :=
  let dacConfigStruct := DAC_GetDefaultConfig in
  DAC_Init dacConfigStruct ;;;
  DAC_Enable true.

Definition u64 (x : Z) : Z := x mod 2 ^ 64.
Definition USEC_TO_COUNT (us clockFreqInHz : Z) : Z := u64 (us * clockFreqInHz) / 1000000.
Definition MSEC_TO_COUNT (ms clockFreqInHz : Z) : Z := u64 (ms * clockFreqInHz) / 1000.

Definition PIT_ConfigAndStart (channel usecs : Z) : M unit :=
  let pitConfig := PIT_GetDefaultConfig in
  PIT_Init pitConfig ;;;
  if channel =? 0 then
    PIT_SetTimerPeriod 0 (USEC_TO_COUNT usecs bus_clk) ;;;
    PIT_EnableInterrupts 0 PIT_TCTRL_TIE_MASK ;;;
    emit (EIrq PIT0_IRQn) ;;;
    PIT_StartTimer 0
  else if channel =? 1 then
    PIT_SetTimerPeriod 1 (MSEC_TO_COUNT usecs bus_clk) ;;;
    PIT_EnableInterrupts 1 PIT_TCTRL_TIE_MASK ;;;
    emit (EIrq PIT1_IRQn) ;;;
    emit (EPrio PIT1_IRQn 3) ;;;
    PIT_StartTimer 1
  else ret tt.

(** ** [source/Audio.c] *)
Definition AudioConfig (Tx : Z) : M unit :=
  DAC_Config ;;;
  PIT_ConfigAndStart 0 Tx ;;;
  PIT_ConfigAndStart 1 1000.

Definition AudioOutput (ON_OFF : Z) : M unit :=
  if ON_OFF =? 1 then PIT_StartTimer 0
  else PIT_StopTimer 0 ;;; DAC_SetBufferValue 0 0.

Definition PIT0_IRQHandler : M unit :=
  PIT_ClearStatusFlags 0 PIT_TFLG_TIF_MASK ;;;
  flag <- gets buffer_flag ;;
  i <- gets idx ;;
  (if negb flag then
     b <- gets buffer1 ;; v <- read_array b i ;; DAC_SetBufferValue 0 v
   else
     b <- gets buffer2 ;; v <- read_array b i ;; DAC_SetBufferValue 0 v) ;;;
  modify (fun s => set_idx (if idx s <? audio_buffer_sizes - 1 then u16 (idx s + 1) else 0) s).

(** [i = 0] as [UDP.c] compiles it: that file declares [extern uint8_t i], so
    the store reaches only the low byte of the [uint16_t i] of [Audio.c]. *)
Definition reset_i : M unit := modify (fun s => set_idx (Z.land (idx s) 0xFF00) s).
End Drivers.
