(* ===== verification/UdpTask.v ===== *)
(** * The receiving thread: [lwip/contrib/apps/UDP/UDP.c]

    The thread and the interrupt handler of [Audio.c] share the sample buffers,
    the flag and the index without a lock, so the thread is a list of atomic steps
    and the handler may run any number of times before each.  Datagrams, their
    errors and the port numbers from the queue are inputs. *)
From S2P Require Export Audio.

(** ** A C array of [uint16_t] as bytes *)
Fixpoint bytes_of (l : list Z) : list Z :=
  match l with [] => [] | x :: l => x mod 256 :: x / 256 :: bytes_of l end.

Fixpoint samples_of (bs : list Z) : list Z :=
  match bs with b0 :: b1 :: bs => b0 + 256 * b1 :: samples_of bs | _ => [] end.

Definition sizeof_buffer := 2 * audio_buffer_sizes.

(** [netbuf_copy(buf, buffer, sizeof(buffer))]: the bytes copied, and the buffer after. *)
Definition netbuf_copy (bs : list Z) (n : Z) : list Z := take (Z.to_nat n) bs.
Definition copy_into (buffer bs : list Z) : list Z :=
  samples_of (write_list (bytes_of buffer) 0 (netbuf_copy bs sizeof_buffer)).

Section Thread.
Context `{AudioHw}.
#[local] Abbreviation M := (cmd audio).

(** The statements of one received datagram, as the branch of [flag] has them. *)
Definition udp_steps (flag : bool) (bs : list Z) : list (M unit) :=
  [ if flag then modify (fun s => set_buffer2 (copy_into (buffer2 s) bs) s)
    else modify (fun s => set_buffer1 (copy_into (buffer1 s) bs) s);
    if negb (Z.of_nat (length (netbuf_copy bs sizeof_buffer)) =? Z.of_nat (length bs))
    then reset_i else emit (ESend bs);
    modify (set_flag (negb flag));
    reset_i ].

Fixpoint ticks (n : nat) : M unit :=
  match n with O => ret tt | S n => PIT0_IRQHandler ;;; ticks n end.

(** The steps, with the handler run before each as the schedule says. *)
Fixpoint run_steps (sched : list nat) (steps : list (M unit)) : M unit :=
  match steps with
  | [] => ret tt
  | m :: steps =>
      ticks (nth 0 sched 0%nat) ;;;
      m ;;;
      run_steps (drop 1 sched) steps
  end.

Definition udp_datagram (sched : list nat) (bs : list Z) : M unit :=
  flag <- gets buffer_flag ;;
  run_steps sched (udp_steps flag bs).

(** [netconn_bind] of [api_lib.c] checks [conn] with [LWIP_ERROR] first. *)
Definition netconn_bind (conn : bool) (port : Z) : M unit :=
  assert_ conn ;;;
  emit (EBind port).

(** The driver calls of [AudioConfig(45)], one by one. *)
Definition audio_steps : list (M unit) :=
  [ DAC_Init DAC_GetDefaultConfig; DAC_Enable true;
    PIT_Init PIT_GetDefaultConfig; PIT_SetTimerPeriod 0 (USEC_TO_COUNT 45 bus_clk);
    PIT_EnableInterrupts 0 PIT_TCTRL_TIE_MASK; emit (EIrq PIT0_IRQn); PIT_StartTimer 0;
    PIT_Init PIT_GetDefaultConfig; PIT_SetTimerPeriod 1 (MSEC_TO_COUNT 1000 bus_clk);
    PIT_EnableInterrupts 1 PIT_TCTRL_TIE_MASK; emit (EIrq PIT1_IRQn); emit (EPrio PIT1_IRQn 3); PIT_StartTimer 1 ].

(** The head of [while (1)]: [conn] says whether [netconn_new] gave a connection,
    [received] is what [*received_port] reads, [None] when that read faults. *)
Definition new_port (received : option Z) (port : Z) : Z :=
  match received with
  | Some received => if negb (received =? 0) then received else port
  | None => port
  end.
Definition bind_steps (conn : bool) (received : option Z) (port : Z) : list (M unit) :=
  [ match received with
    | None => fault
    | Some received => if negb (received =? 0) then emit EFree else ret tt
    end;
    netconn_bind conn (new_port received port);
    assert_ conn ] ++ audio_steps.
Definition udp_bind (conn : bool) (sched : list nat) (received : option Z) (port : Z) : M Z :=
  run_steps sched (bind_steps conn received port) ;;;
  ret (new_port received port).

(** One pass of [do .. while]: what [netconn_recv] gives, then what the queue gives; the
    schedules say when the handler runs. *)
Record udp_input := UdpInput {
  in_sched : list nat;
  in_recv : option (list Z);     (* the datagram, or an error *)
  in_rebind : list nat;
  in_port : option Z             (* [xQueueReceive(port_selection, ..)] *)
}.

Fixpoint udp_loop (conn : bool) (ins : list udp_input) (port : Z) : M Z :=
  match ins with
  | [] => ret port
  | x :: ins =>
      (match in_recv x with Some bs => udp_datagram (in_sched x) bs | None => ret tt end) ;;;
      match in_port x with
      | Some p =>
          run_steps (take 1 (in_rebind x)) [emit EClose] ;;;
          port <- udp_bind conn (drop 1 (in_rebind x)) (Some p) port ;;
          udp_loop conn ins port
      | None => udp_loop conn ins port
      end
  end.

(** [received_port] starts as the null pointer: [word0] is what the read at address 0 gives. *)
Definition UDP_thread (conn : bool) (word0 : option Z) (sched : list nat) (ins : list udp_input) : M Z :=
  port <- udp_bind conn sched word0 50007 ;;
  udp_loop conn ins port.
End Thread.

(** ** What the handler plays *)
Definition playing (s : audio) : list Z := if buffer_flag s then buffer2 s else buffer1 s.

(** The two buffers are arrays of 750, and the index is inside. *)
Record playable (s : audio) : Prop := {
  pl_buffer1 : Z.of_nat (length (buffer1 s)) = audio_buffer_sizes;
  pl_buffer2 : Z.of_nat (length (buffer2 s)) = audio_buffer_sizes;
  pl_idx : 0 <= idx s < audio_buffer_sizes
}.

Lemma samples_bytes l : Forall (fun x => 0 <= x < 65536) l -> samples_of (bytes_of l) = l.
Proof.
  induction 1 as [|x l Hx Hl IH]; [done|]. cbn [bytes_of samples_of]. rewrite IH. f_equal.
  Z.to_euclidean_division_equations; lia.
Qed.

Lemma bytes_of_length l : length (bytes_of l) = (2 * length l)%nat.
Proof. induction l as [|x l IH]; [done|]. cbn [bytes_of length]. lia. Qed.

Lemma samples_of_length n : forall bs, length bs = (2 * n)%nat -> length (samples_of bs) = n.
Proof.
  induction n as [|n IH]; intros bs Hl; [by destruct bs|].
  destruct bs as [|b0 [|b1 bs]]; cbn [length] in *; [lia..|]. cbn [samples_of length].
  f_equal. apply IH. lia.
Qed.

Lemma copy_into_length buffer bs : Z.of_nat (length buffer) = audio_buffer_sizes ->
  length (copy_into buffer bs) = length buffer.
Proof.
  intros Hl. unfold copy_into. apply samples_of_length. unfold write_list, netbuf_copy.
  rewrite take_0. cbn [app]. rewrite length_app, length_drop, bytes_of_length, length_take. cbn [Nat.add].
  change sizeof_buffer with 1500. change audio_buffer_sizes with 750 in Hl. lia.
Qed.

(** A datagram of the full size replaces the buffer. *)
Lemma copy_into_full buffer bs : Z.of_nat (length buffer) = audio_buffer_sizes ->
  Z.of_nat (length bs) = sizeof_buffer -> copy_into buffer bs = samples_of bs.
Proof.
  intros Hl Hb. unfold copy_into, write_list, netbuf_copy. rewrite take_0, take_ge by lia.
  change sizeof_buffer with 1500 in Hb. change audio_buffer_sizes with 750 in Hl. cbn [app Nat.add].
  rewrite drop_ge by (rewrite bytes_of_length; lia). by rewrite app_nil_r.
Qed.
