(* ===== verification/AudioThms.v ===== *)
(** * Sound output, and the receiving thread with the handler interleaved: the theorems *)
From S2P Require Export UdpTask.

(** ** One tick *)
Section Ticks.
Context `{AudioHw}.

Definition next_idx (i : Z) : Z := if i <? audio_buffer_sizes - 1 then i + 1 else 0.

Definition tick (s : audio) : audio :=
  let v := nth (Z.to_nat (idx s)) (playing s) 0 in
  Audio (buffer1 s) (buffer2 s) (next_idx (idx s)) (buffer_flag s) (PIT_MCR s) (TCTRL s) (LDVAL s)
    (DAC_C0 s) (updZ 0 (u8 (Z.land 0xFF v)) (DATL s)) (updZ 0 (u8 (Z.shiftr (Z.land 0xF00 v) 8)) (DATH s))
    (EFlag 0 PIT_TFLG_TIF_MASK :: events s).

Lemma tick_ok s : playable s -> PIT0_IRQHandler s = (Ret tt, tick s).
Proof.
  intros [H1 H2 Hi]. destruct s as [b1 b2 i f mcr tc ld c0 dl dh ev]. cbn in H1, H2, Hi.
  assert (Hr : forall b (s : audio), Z.of_nat (length b) = audio_buffer_sizes ->
            read_array b i s = (Ret (nth (Z.to_nat i) b 0), s)).
  { intros b s Hb. unfold read_array. rewrite Hb, (proj2 (Z.leb_le 0 i)), (proj2 (Z.ltb_lt i _)) by lia. done. }
  unfold PIT0_IRQHandler, PIT_ClearStatusFlags, DAC_SetBufferValue, emit, modify, gets, tick, next_idx, playing.
  pose proof DATL_pos. change audio_buffer_sizes with 750 in *.
  unfold bind; cbn; destruct f; cbn; first [rewrite (Hr b1) by done | rewrite (Hr b2) by done]; unfold assert_;
    rewrite (proj2 (Z.ltb_lt 0 _)) by done; cbn; unfold set_idx; cbn;
    destruct (Z.ltb_spec i 749); rewrite ?u16_small by lia; done.
Qed.

Lemma tick_playable s : playable s -> playable (tick s).
Proof.
  intros [H1 H2 Hi]. split; [done|done|]. cbn [tick idx]. unfold next_idx.
  change audio_buffer_sizes with 750 in *. destruct (Z.ltb_spec (idx s) (750 - 1)); lia.
Qed.

Lemma ticks_ok n : forall s, playable s ->
  ticks n s = (Ret tt, Nat.iter n tick s) /\ playable (Nat.iter n tick s).
Proof.
  induction n as [|n IH]; intros s Hs; [done|]. cbn [ticks].
  rewrite (bind_ret _ _ _ _ _ (tick_ok s Hs)), Nat.iter_succ_r. apply IH. by apply tick_playable.
Qed.

(** What ticks leave alone. *)
Lemma ticks_frame n s : let s' := Nat.iter n tick s in
  buffer1 s' = buffer1 s /\ buffer2 s' = buffer2 s /\ buffer_flag s' = buffer_flag s /\
  TCTRL s' = TCTRL s /\ LDVAL s' = LDVAL s.
Proof. induction n as [|n IH]; [done|]. exact IH. Qed.

Lemma ticks_idx n s : playable s -> idx (Nat.iter n tick s) = (idx s + Z.of_nat n) mod audio_buffer_sizes.
Proof.
  intros [_ _ Hi]. change audio_buffer_sizes with 750 in *. induction n as [|n IH].
  - rewrite Z.add_0_r, Z.mod_small by lia. done.
  - cbn [Nat.iter nat_rect tick idx]. change (nat_rect _ _ _ n) with (Nat.iter n tick s).
    rewrite IH. unfold next_idx. change audio_buffer_sizes with 750.
    rewrite Nat2Z.inj_succ.
    destruct (Z.ltb_spec ((idx s + Z.of_nat n) mod 750) (750 - 1));
      Z.to_euclidean_division_equations; lia.
Qed.

(** The twelve bits that reach the converter. *)
Lemma dac_word v : u8 (Z.land 0xFF v) + 256 * u8 (Z.shiftr (Z.land 0xF00 v) 8) = v mod 4096.
Proof.
  rewrite !(Z.land_comm _ v), land_ff. unfold u8.
  assert (Z.shiftr (Z.land v 0xF00) 8 = (v / 256) mod 16) as ->.
  { rewrite Z.shiftr_land. change (Z.shiftr 0xF00 8) with (Z.ones 4).
    by rewrite Z.land_ones, Z.shiftr_div_pow2 by lia. }
  change (2 ^ 8) with 256. Z.to_euclidean_division_equations; lia.
Qed.

(** while the thread stays quiet, the timer ticks play the selected buffer in
    order, from the current index, wrapping at its end: after [n + 1] ticks the
    converter holds the low twelve bits of the sample [n] places further on, and
    buffers, flag and timer are as before. *)
Theorem ticks_play_buffer s n : playable s ->
  exists s', ticks (S n) s = (Ret tt, s') /\
    DATL s' 0 + 256 * DATH s' 0 =
      nth (Z.to_nat ((idx s + Z.of_nat n) mod audio_buffer_sizes)) (playing s) 0 mod 4096 /\
    idx s' = (idx s + Z.of_nat (S n)) mod audio_buffer_sizes /\ playable s' /\
    playing s' = playing s /\ TCTRL s' = TCTRL s.
Proof.
  intros Hs. destruct (ticks_ok (S n) s Hs) as [Hr Hp]. exists (Nat.iter (S n) tick s).
  pose proof (ticks_idx (S n) s Hs) as Hi. pose proof (ticks_frame (S n) s) as (H1 & H2 & H3 & H4 & _).
  pose proof (ticks_frame n s) as (F1 & F2 & F3 & _). pose proof (ticks_idx n s Hs) as Hin.
  split_and!; try done.
  - cbn [Nat.iter nat_rect tick DATL DATH]. change (nat_rect _ _ _ n) with (Nat.iter n tick s).
    unfold updZ. cbn [Z.eqb]. rewrite dac_word, Hin. unfold playing. by rewrite F1, F2, F3.
  - unfold playing. by rewrite H1, H2, H3.
Qed.
End Ticks.

(** ** Commands that keep the buffers playable and always return *)
Definition safe {A : Type} (m : cmd audio A) : Prop :=
  forall s, playable s -> exists a s', m s = (Ret a, s') /\ playable s'.

Lemma safe_ret {A} (a : A) : safe (ret a).
Proof. intros s Hs. by exists a, s. Qed.
Lemma safe_bind {A B} (m : cmd audio A) (k : A -> cmd audio B) :
  safe m -> (forall a, safe (k a)) -> safe (bind m k).
Proof.
  intros Hm Hk s Hs. destruct (Hm s Hs) as (a & s1 & Hr & Hs1).
  cstep Hr. by apply Hk.
Qed.
Lemma safe_gets {A} (f : audio -> A) : safe (gets f).
Proof. intros s Hs. by exists (f s), s. Qed.
Lemma safe_modify f : (forall s, playable s -> playable (f s)) -> safe (modify f).
Proof. intros Hf s Hs. exists tt, (f s). auto. Qed.
Lemma safe_if {A} (b : bool) (m1 m2 : cmd audio A) : safe m1 -> safe m2 -> safe (if b then m1 else m2).
Proof. by destruct b. Qed.

Create HintDb play discriminated.
#[export] Hint Resolve safe_ret safe_gets safe_if : play.
#[export] Hint Extern 1 (safe (bind _ _)) => (apply safe_bind; [|intros ?]) : play.
#[export] Hint Extern 1 (safe (modify _)) => (apply safe_modify; intros ? []; split; done) : play.

Section Safety.
Context `{AudioHw}.

Lemma safe_emit e : safe (emit e).
Proof. unfold emit. auto with play. Qed.
Lemma safe_reset : safe reset_i.
Proof.
  unfold reset_i. apply safe_modify. intros s [? ? Hi]. split; [done|done|]. cbn [idx set_idx].
  change audio_buffer_sizes with 750 in *. change 0xFF00 with (Z.ldiff (Z.ones 16) (Z.ones 8)).
  assert (Z.land (idx s) (Z.ldiff (Z.ones 16) (Z.ones 8)) = Z.ldiff (idx s) (Z.ones 8)) as ->.
  { apply Z.bits_inj'. intros j Hj. rewrite Z.land_spec, !Z.ldiff_spec.
    destruct (Z.lt_ge_cases j 16); [by rewrite (Z.ones_spec_low 16) by lia|].
    rewrite (Z.ones_spec_high 16) by lia. cbn. rewrite andb_false_r.
    rewrite <- (Z.mod_small (idx s) (2 ^ 16)) by lia. by rewrite Z.mod_pow2_bits_high by lia. }
  rewrite Z.ldiff_ones_r, Z.shiftr_div_pow2, Z.shiftl_mul_pow2 by lia.
  change (2 ^ 8) with 256. Z.to_euclidean_division_equations; lia.
Qed.
#[local] Hint Resolve safe_emit safe_reset : play.

Lemma safe_copy (flag : bool) bs :
  safe (if flag then modify (fun s => set_buffer2 (copy_into (buffer2 s) bs) s)
        else modify (fun s => set_buffer1 (copy_into (buffer1 s) bs) s)).
Proof.
  apply safe_if; apply safe_modify; intros s [? ? ?]; split;
    cbn [buffer1 buffer2 idx set_buffer1 set_buffer2]; rewrite ?copy_into_length by done; done.
Qed.

Lemma safe_ticks n : safe (ticks n).
Proof. intros s Hs. destruct (ticks_ok n s Hs) as [Hr Hp]. by eexists _, _. Qed.
#[local] Hint Resolve safe_copy safe_ticks : play.

Lemma safe_run_steps steps : forall sched, Forall safe steps -> safe (run_steps sched steps).
Proof.
  induction steps as [|m steps IH]; intros sched Hf; cbn [run_steps]; [auto with play|].
  inversion_clear Hf. apply safe_bind; [auto with play|intros _]. apply safe_bind; [done|intros _]. auto.
Qed.

Lemma safe_datagram sched bs : safe (udp_datagram sched bs).
Proof.
  unfold udp_datagram. apply safe_bind; [auto with play|intros flag]. apply safe_run_steps.
  unfold udp_steps. repeat (apply Forall_cons; split); [auto with play..|constructor].
Qed.

(** The steps of [audio_steps] without an interrupt are [AudioConfig(45)]. *)
Lemma then_ext (m m' k k' : cmd audio unit) : (forall s, m s = m' s) -> (forall s, k s = k' s) ->
  forall s, (m ;;; k) s = (m' ;;; k') s.
Proof. intros Hm Hk s. unfold bind. rewrite Hm. by destruct (m' s) as [[] ?]. Qed.

Lemma one_step m s : run_steps [] [m] s = m s.
Proof. cbn [run_steps nth ticks drop]. unfold bind, ret. by destruct (m s) as [[[]| | |] ?]. Qed.

Lemma more_steps m l k : (forall s, run_steps [] l s = k s) -> forall s, run_steps [] (m :: l) s = (m ;;; k) s.
Proof. intros Hl s. exact (then_ext m m _ k (fun _ => eq_refl) Hl s). Qed.

Lemma steps_after l1 l2 (m k : cmd audio unit) : (forall s, run_steps [] l1 s = m s) -> (forall s, run_steps [] l2 s = k s) ->
  forall s, run_steps [] (l1 ++ l2) s = (m ;;; k) s.
Proof.
  intros Hm Hk s. rewrite <- (then_ext _ _ _ _ Hm Hk s). clear. revert s. induction l1 as [|x l1 IH]; intros s; [done|].
  change (run_steps [] ((x :: l1) ++ l2) s) with ((x ;;; run_steps [] (l1 ++ l2)) s).
  change (run_steps [] (x :: l1)) with (x ;;; run_steps [] l1). rewrite bind_bind.
  by apply then_ext.
Qed.

Lemma audio_steps_ok s : run_steps [] audio_steps s = AudioConfig 45 s.
Proof.
  apply (steps_after [_; _]); [|apply (steps_after [_; _; _; _; _])];
    intros; repeat (apply more_steps; intros); apply one_step.
Qed.

Lemma safe_audio : Forall safe audio_steps.
Proof.
  unfold audio_steps, DAC_Init, DAC_Enable, PIT_Init, PIT_SetTimerPeriod, PIT_EnableInterrupts, PIT_StartTimer, emit.
  repeat (apply Forall_cons; split); [auto 20 with play..|constructor].
Qed.

Lemma safe_bind_port sched w port : safe (udp_bind true sched (Some w) port).
Proof.
  unfold udp_bind. apply safe_bind; [|auto with play]. apply safe_run_steps. unfold bind_steps. apply Forall_app_2; [|apply safe_audio].
  repeat (apply Forall_cons; split); [| | |constructor]; unfold netconn_bind, assert_; auto with play.
Qed.
#[local] Hint Resolve safe_datagram safe_bind_port : play.

Lemma safe_loop ins : forall port, safe (udp_loop true ins port).
Proof.
  induction ins as [|x ins IH]; intros port; cbn [udp_loop]; [auto with play|].
  apply safe_bind; [destruct (in_recv x); auto with play|intros _].
  destruct (in_port x); [|auto with play]. apply safe_bind; [|intros _; auto with play].
  apply safe_run_steps. repeat constructor. auto with play.
Qed.

(** Without a connection, or when the first read faults, the thread ends before it binds. *)
Lemma bind_stops sched received port s : playable s -> forall conn, conn = false \/ received = None ->
  exists s', udp_bind conn sched received port s = (Fault, s') /\ playable s'.
Proof.
  intros Hs conn Hcase. unfold udp_bind. cbn [bind_steps app run_steps]. rewrite bind_bind.
  destruct (ticks_ok (nth 0 sched 0%nat) s Hs) as [Hr Hp]. cstep Hr. set (s1 := Nat.iter _ tick s) in *.
  destruct received as [w|]; [|by exists s1]. destruct Hcase as [-> |]; [|done].
  assert (Hw : safe (if negb (w =? 0) then emit EFree else ret tt)) by auto with play.
  destruct (Hw s1 Hp) as ([] & s2 & Hr2 & Hp2). rewrite bind_bind. cstep Hr2. rewrite bind_bind.
  destruct (ticks_ok (nth 0 (drop 1 sched) 0%nat) s2 Hp2) as [Hr3 Hp3]. cstep Hr3. by eexists.
Qed.

(** C8: whatever datagrams, receive errors and port changes arrive, and however
    often the timer interrupt runs before any statement of the thread, those of the binding
    and of the sound's set-up too, the handler never reads outside a buffer: the index
    stays below 750 and the buffers keep their size.  The thread ends in exactly two
    cases, both in its first pass: the read through the null pointer of UDP.c:83 faults
    ([word0] is None; where address 0 can be read, as the flash of the K64, it is what is
    read there), or there is no connection (the LWIP_ERROR of netconn_bind stops). *)
Theorem udp_playback_safe conn word0 sched ins s : playable s ->
  exists o s', UDP_thread conn word0 sched ins s = (o, s') /\ playable s' /\
    if conn && (if word0 is Some _ then true else false) then exists port, o = Ret port else o = Fault.
Proof.
  intros Hs. unfold UDP_thread. destruct (conn && _) eqn:E.
  - destruct conn, word0 as [w|]; try done.
    destruct (safe_bind _ _ (safe_bind_port sched w 50007) (fun port => safe_loop ins port) s Hs) as (port & s' & Hr & Hp).
    exists (Ret port), s'. split; [exact Hr|]. split; [done|]. by exists port.
  - destruct (bind_stops sched word0 50007 s Hs conn) as (s' & Hr & Hp); [by destruct conn, word0; auto|].
    exists Fault, s'. split; [|done]. unfold bind. by rewrite Hr.
Qed.

(** ** What one datagram does *)
Lemma run_step sched m steps s s1 s2 :
  ticks (nth 0 sched 0%nat) s = (Ret tt, s1) -> m s1 = (Ret tt, s2) ->
  run_steps sched (m :: steps) s = run_steps (drop 1 sched) steps s2.
Proof. intros H1 H2. cbn [run_steps]. by rewrite (bind_ret _ _ _ _ _ H1), (bind_ret _ _ _ _ _ H2). Qed.

(** The parts of the state the thread owns. *)
Definition same_sound (s s' : audio) : Prop :=
  buffer1 s' = buffer1 s /\ buffer2 s' = buffer2 s /\ buffer_flag s' = buffer_flag s.

(** Some ticks, then a step [m]: what [m] says of the sound holds, as ticks change none. *)
Lemma step_after_ticks n m (f : audio -> audio) s : playable s -> safe m ->
  (forall s, exists s', m s = (Ret tt, s') /\ same_sound (f s) s') ->
  (forall s s', same_sound s s' -> same_sound (f s) (f s')) ->
  exists s1 s2, ticks n s = (Ret tt, s1) /\ m s1 = (Ret tt, s2) /\ playable s2 /\ same_sound (f s) s2.
Proof.
  intros Hs Hm Hf Hp. destruct (ticks_ok n s Hs) as [Ht Hp1]. set (s1 := Nat.iter n tick s) in *.
  destruct (Hm s1 Hp1) as (u & s2 & Hr & Hp2). destruct u. destruct (Hf s1) as (s2' & Hr' & Hss).
  rewrite Hr in Hr'. injection Hr' as <-. exists s1, s2. split_and!; [done|done|done|].
  destruct (ticks_frame n s) as (F1 & F2 & F3 & _). fold s1 in F1, F2, F3.
  destruct (Hp s s1) as (G1 & G2 & G3); [done|]. destruct Hss as (E1 & E2 & E3).
  split_and!; congruence.
Qed.

Lemma datagram_ok sched bs s : playable s -> exists s', udp_datagram sched bs s = (Ret tt, s') /\
  playable s' /\ buffer_flag s' = negb (buffer_flag s) /\ idx s' mod 256 = 0 /\
  buffer1 s' = (if buffer_flag s then buffer1 s else copy_into (buffer1 s) bs) /\
  buffer2 s' = (if buffer_flag s then copy_into (buffer2 s) bs else buffer2 s).
Proof.
  intros Hs. unfold udp_datagram. rewrite (bind_ret (gets buffer_flag) _ s (buffer_flag s) s) by done.
  set (f := buffer_flag s). unfold udp_steps.
  destruct (step_after_ticks (nth 0 sched 0%nat) _
    (fun s => if f then set_buffer2 (copy_into (buffer2 s) bs) s else set_buffer1 (copy_into (buffer1 s) bs) s)
    s Hs (safe_copy f bs)) as (s1 & s2 & T1 & R1 & P1 & E1).
  { intros t. destruct f; by eexists. }
  { intros t t' (? & ? & ?). destruct f; split_and!; cbn; congruence. }
  rewrite (run_step _ _ _ _ _ _ T1 R1).
  destruct (step_after_ticks (nth 0 (drop 1 sched) 0%nat)
    (if negb (Z.of_nat (length (netbuf_copy bs sizeof_buffer)) =? Z.of_nat (length bs))
     then reset_i else emit (ESend bs)) (fun s => s) s2 P1) as (s3 & s4 & T2 & R2 & P2 & E2).
  { auto with play. }
  { intros t. destruct (negb _); by eexists. }
  { done. }
  rewrite (run_step _ _ _ _ _ _ T2 R2).
  destruct (step_after_ticks (nth 0 (drop 1 (drop 1 sched)) 0%nat) (modify (set_flag (negb f)))
    (set_flag (negb f)) s4 P2) as (s5 & s6 & T3 & R3 & P3 & E3).
  { auto with play. }
  { intros t. by eexists. }
  { intros t t' (? & ? & ?). split_and!; done. }
  rewrite (run_step _ _ _ _ _ _ T3 R3).
  set (n := nth 0 (drop 1 (drop 1 (drop 1 sched))) 0%nat).
  destruct (ticks_ok n s6 P3) as [T4 P4]. destruct (ticks_frame n s6) as (F1 & F2 & F3 & _).
  destruct (safe_reset _ P4) as ([] & s' & R4 & P5). rewrite (run_step _ _ _ _ _ _ T4 R4).
  exists s'. unfold reset_i, modify in R4. injection R4 as <-. split; [done|]. split; [exact P5|].
  cbn [set_idx buffer_flag idx buffer1 buffer2].
  destruct E1 as (A1 & A2 & A3), E2 as (B1 & B2 & B3), E3 as (C1 & C2 & C3). cbn in C1, C2, C3.
  rewrite F1, F2, F3, C1, C2, C3, B1, B2, A1, A2. split_and!; [done| |by destruct f|by destruct f].
  rewrite <- (Z.land_ones _ 8) by lia. rewrite <- Z.land_assoc. change (Z.land 0xFF00 (Z.ones 8)) with 0.
  apply Z.land_0_r.
Qed.

(** the double buffer plays one datagram late: a datagram overwrites the buffer
    being played and switches to the other one, so after a datagram the old content
    of the other buffer is played, and a full datagram is played once the next has
    arrived; with each switch playback restarts at a multiple of 256 samples. *)
Theorem datagram_heard_one_late sched1 sched2 bs1 bs2 s : playable s ->
  Z.of_nat (length bs1) = sizeof_buffer ->
  exists s1 s2, udp_datagram sched1 bs1 s = (Ret tt, s1) /\ udp_datagram sched2 bs2 s1 = (Ret tt, s2) /\
    playing s1 = (if buffer_flag s then buffer1 s else buffer2 s) /\ playing s2 = samples_of bs1 /\
    idx s1 mod 256 = 0 /\ idx s2 mod 256 = 0 /\ playable s2.
Proof.
  intros Hs Hb. destruct (datagram_ok sched1 bs1 s Hs) as (s1 & R1 & P1 & F1 & I1 & A1 & A2).
  destruct (datagram_ok sched2 bs2 s1 P1) as (s2 & R2 & P2 & F2 & I2 & B1 & B2).
  exists s1, s2. pose proof (copy_into_full (buffer1 s) bs1 (pl_buffer1 _ Hs) Hb).
  pose proof (copy_into_full (buffer2 s) bs1 (pl_buffer2 _ Hs) Hb).
  unfold playing. rewrite F2, B1, B2, F1, A1, A2.
  split_and!; try done; destruct (buffer_flag s); done.
Qed.
End Safety.
