(* ===== verification/TcpTask.v ===== *)
(** * The control thread: [lwip/contrib/apps/TCP/TCP.c]

    A client's menu over TCP: mute, choice of the UDP port, statistics.  The
    state is what the thread keeps between messages, what it wrote to the client
    and to the queues, and the sound output it drives.  Messages, the success of
    the memory allocator and of the queue are inputs. *)
From Stdlib Require Import String Ascii.
From S2P Require Export UdpTask.

(** ** Texts *)
Fixpoint text (s : string) : list Z :=
  match s with EmptyString => [] | String c s => Z.of_nat (nat_of_ascii c) :: text s end.

(** A string literal is an array that ends in a zero byte. *)
Definition literal (s : string) : list Z := text s ++ [0].

Definition menus : string := "WIRELESS K64 SPEAKERS

1)Mute/Unmute audio
2)Select music source device
3)Deploy comms stats
".
Definition spacing5 : string := "




".
Definition menu2 : string := "Type in the port
you want to listen to:".
Definition spacing9 : string := "








".
Definition menu3_1 : string := "comms stats
UDP packs received per second: ".
Definition menu3_2 : string := "
UDP packs lost per second: ".
Definition menu3_3 : string := "
UDP comm quality: ".
Definition spacing : string := "






".

(** ** State *)
Inductive menus_t : Type := main_menu | port_selector | comm_status.

#[export] Instance menus_t_eq_dec : EqDecision menus_t.
Proof. solve_decision. Defined.

Record UDP_val_t := UdpVal { losses : Z; received : Z; relation : Z }.

Record tcp := Tcp {
  current_menu : menus_t;
  MusicState : Z;                (* uint8_t *)
  on_udp_menu : bool;            (* the event bit ON_UDP_MENU *)
  written : list (list Z);       (* netconn_write, latest first *)
  port_selection : list Z;       (* ports the UDP thread will get, latest first *)
  leaked : nat;                  (* port numbers allocated and never freed *)
  UDP_status_values : list UDP_val_t;  (* the queue, next first *)
  sound : audio
}.

Definition set_menu v s := Tcp v (MusicState s) (on_udp_menu s) (written s) (port_selection s) (leaked s)
  (UDP_status_values s) (sound s).
Definition set_music v s := Tcp (current_menu s) v (on_udp_menu s) (written s) (port_selection s) (leaked s)
  (UDP_status_values s) (sound s).
Definition set_bit v s := Tcp (current_menu s) (MusicState s) v (written s) (port_selection s) (leaked s)
  (UDP_status_values s) (sound s).
Definition set_written v s := Tcp (current_menu s) (MusicState s) (on_udp_menu s) v (port_selection s)
  (leaked s) (UDP_status_values s) (sound s).
Definition set_ports v s := Tcp (current_menu s) (MusicState s) (on_udp_menu s) (written s) v (leaked s)
  (UDP_status_values s) (sound s).
Definition set_leaked v s := Tcp (current_menu s) (MusicState s) (on_udp_menu s) (written s)
  (port_selection s) v (UDP_status_values s) (sound s).
Definition set_status v s := Tcp (current_menu s) (MusicState s) (on_udp_menu s) (written s)
  (port_selection s) (leaked s) v (sound s).
Definition set_sound v s := Tcp (current_menu s) (MusicState s) (on_udp_menu s) (written s)
  (port_selection s) (leaked s) (UDP_status_values s) v.

(** A message is the chain of its fragments; with it come the answers of the
    services the thread calls while it handles the message. *)
Record message := Message {
  fragments : list (list Z);
  pvPortMalloc_ok : bool;        (* memory for the port number was granted *)
  xQueueSend_ok : bool           (* the queue took it within 100 ticks *)
}.

Definition digit0 : Z := 48.     (* '0' *)

Section Thread.
Context `{AudioHw}.
(** What the stack held where [read_port] lies. *)
Context (stack_read_port : list Z).
#[local] Abbreviation M := (cmd tcp).

Definition on_sound (m : cmd audio unit) : M unit := fun s =>
  let '(o, a) := m (sound s) in (o, set_sound a s).

(** [netconn_write(connection, p, n, NETCONN_COPY)]; its result is not used. *)
Definition netconn_write (p : list Z) (n : Z) : M unit :=
  bs <- read_bytes p 0 n ;;
  modify (fun s => set_written (bs :: written s) s).

(** ** The menus *)
Definition tcp_printMenu : M unit :=
  modify (set_bit false) ;;;
  netconn_write (literal menus) 93 ;;;
  netconn_write (literal spacing5) 5.

Definition tcp_printSelector : M unit :=
  netconn_write (literal menu2) 39 ;;;
  netconn_write (literal spacing9) 9.

(** The five decimal digits of a [uint16_t], each from those before it. *)
Definition decimal (v : Z) : list Z :=
  let v0 := u8 (cdiv v 10000 + digit0) in
  let v1 := u8 (cdiv (v - (v0 - digit0) * 10000) 1000 + digit0) in
  let v2 := u8 (cdiv (v - (v0 - digit0) * 10000 - (v1 - digit0) * 1000) 100 + digit0) in
  let v3 := u8 (cdiv (v - (v0 - digit0) * 10000 - (v1 - digit0) * 1000 - (v2 - digit0) * 100) 10 + digit0) in
  let v4 := u8 (v - (v0 - digit0) * 10000 - (v1 - digit0) * 1000 - (v2 - digit0) * 100
                  - (v3 - digit0) * 10 + digit0) in
  [v0; v1; v2; v3; v4].

(** [xQueueReceive(.., portMAX_DELAY)] waits for ever when nothing is sent. *)
Definition receive_status : M UDP_val_t :=
  q <- gets UDP_status_values ;;
  match q with
  | [] => diverge
  | v :: q => modify (set_status q) ;;; ret v
  end.

Definition tcp_printUDPstatus : M unit :=
  modify (set_bit true) ;;;
  receiver_values <- receive_status ;;
  netconn_write (literal menu3_1) 43 ;;;
  netconn_write (decimal (received receiver_values)) 5 ;;;
  netconn_write (literal menu3_2) 28 ;;;
  netconn_write (decimal (losses receiver_values)) 5 ;;;
  netconn_write (literal menu3_3) 19 ;;;
  netconn_write (decimal (relation receiver_values)) 5 ;;;
  netconn_write (literal spacing) 7.

(** ** The keys *)
Definition key_mute : M unit :=
  music <- gets MusicState ;;
  if music =? 1 then on_sound (AudioOutput 1) ;;; modify (set_music 0)
  else if music =? 0 then on_sound (AudioOutput 0) ;;; modify (set_music 1)
  else ret tt.

(** The port number in the first five bytes of [read_port], in [uint16_t]. *)
Definition parse_port (read_port : list Z) : M Z :=
  r0 <- read_array read_port 0 ;;
  r1 <- read_array read_port 1 ;;
  r2 <- read_array read_port 2 ;;
  r3 <- read_array read_port 3 ;;
  r4 <- read_array read_port 4 ;;
  ret (u16 ((r0 - digit0) * 10000 + (r1 - digit0) * 1000 + (r2 - digit0) * 100
            + (r3 - digit0) * 10 + (r4 - digit0))).

(** [*port_transporter = new_port] is not guarded: without memory it writes through a null
    pointer. *)
Definition send_port (m : message) (new_port : Z) : M unit :=
  (if pvPortMalloc_ok m then ret tt else fault) ;;;
  if xQueueSend_ok m
  then modify (fun s => set_ports (new_port :: port_selection s) s)
  else modify (fun s => set_leaked (S (leaked s)) s).

(** [case '2']: the client's answer is the next message; after a receive error
    [netbuf_copy] dereferences the null [buf].  Without input the thread waits. *)
Definition key_port (rest : list (option message)) : M unit :=
  menu <- gets current_menu ;;
  if bool_decide (menu = main_menu) || bool_decide (menu = port_selector) then
    modify (set_menu port_selector) ;;;
    tcp_printSelector ;;;
    match rest with
    | [] => ret tt
    | None :: _ => fault
    | Some m :: _ =>
        let read_port := write_list stack_read_port 0 (netbuf_copy (concat (fragments m)) 10) in
        r0 <- read_array read_port 0 ;;
        (if negb (r0 =? 120) then p <- parse_port read_port ;; send_port m p else ret tt) ;;;
        modify (set_menu main_menu) ;;;
        tcp_printMenu
    end
  else ret tt.

Definition key_status : M unit :=
  menu <- gets current_menu ;;
  if bool_decide (menu = main_menu) then
    modify (set_menu comm_status) ;;;
    tcp_printUDPstatus
  else ret tt.

Definition key_exit : M unit := modify (set_menu main_menu) ;;; tcp_printMenu.

(** ** The fragments of a message, and the messages of a connection

    The [switch] looks at the first byte of each fragment.  The answer
    to [case '2'] takes the place of the message, so its later fragments come
    next. *)
Fixpoint tcp_messages (n : nat) (frags : list (list Z)) (rest : list (option message)) : M unit :=
  match n with
  | O => diverge
  | S n =>
    match frags with
    | [] =>
        match rest with
        | Some m :: rest => tcp_messages n (fragments m) rest
        | _ => ret tt
        end
    | f :: frags =>
        c <- read_array f 0 ;;
        if c =? 120 then key_exit ;;; tcp_messages n frags rest
        else if c =? 49 then key_mute ;;; tcp_messages n frags rest
        else if c =? 50 then
          menu <- gets current_menu ;;
          if bool_decide (menu = comm_status) then tcp_messages n frags rest
          else
            key_port rest ;;;
            tcp_messages n (match rest with Some m :: _ => drop 1 (fragments m) | _ => [] end) (drop 1 rest)
        else if c =? 51 then key_status ;;; tcp_messages n frags rest
        else tcp_messages n frags rest
    end
  end.

(** The steps a connection can take: one for each fragment and each message. *)
Definition work (frags : list (list Z)) (rest : list (option message)) : nat :=
  length frags + sum_list (map (fun m => match m with Some m => S (length (fragments m)) | None => 1%nat end) rest).

(** [first_menu_print] is never set, so every connection starts with the menu. *)
Definition tcp_connection (rest : list (option message)) : M unit :=
  tcp_printMenu ;;;
  tcp_messages (S (work [] rest)) [] rest.
End Thread.
