(* ===== verification/TcpThms.v ===== *)
(** * The theorems on the control thread *)
From S2P Require Export TcpTask AudioThms.

(** ** Texts and digits *)
Lemma write_literal (s : String.string) n t : length (text s) = Z.to_nat n -> 0 <= n ->
  netconn_write (literal s) n t = (Ret tt, set_written (text s :: written t) t).
Proof.
  intros Hl Hn. unfold netconn_write, bind, read_bytes, literal.
  rewrite !(proj2 (Z.leb_le _ _)) by (rewrite ?length_app, ?Hl; cbn [length]; lia). cbn [andb ret].
  change (Z.to_nat 0) with 0%nat. rewrite drop_0, take_app_length' by done. done.
Qed.

Lemma write_decimal v t : netconn_write (decimal v) 5 t = (Ret tt, set_written (decimal v :: written t) t).
Proof. reflexivity. Qed.

(** The decimal notation of [v]. *)
Definition digits (v : Z) : list Z :=
  (fun k => digit0 + v / k mod 10) <$> [10000; 1000; 100; 10; 1].

Lemma decimal_ok v : 0 <= v < 65536 -> decimal v = digits v.
Proof.
  intros Hv. unfold decimal, digits, digit0, cdiv. cbn [fmap list_fmap].
  rewrite (Z.quot_div_nonneg v) by lia.
  assert (H0 : v / 10000 mod 10 = v / 10000) by (Z.to_euclidean_division_equations; lia).
  rewrite (u8_small (v / 10000 + 48)) by (Z.to_euclidean_division_equations; lia).
  replace (v / 10000 + 48 - 48) with (v / 10000) by lia.
  assert (H1 : 0 <= v - v / 10000 * 10000 < 10000) by (Z.to_euclidean_division_equations; lia).
  remember (v - v / 10000 * 10000) as v1 eqn:E1. rewrite (Z.quot_div_nonneg v1) by lia.
  rewrite (u8_small (v1 / 1000 + 48)) by (Z.to_euclidean_division_equations; lia).
  replace (v1 / 1000 + 48 - 48) with (v1 / 1000) by lia.
  assert (H2 : 0 <= v1 - v1 / 1000 * 1000 < 1000) by (Z.to_euclidean_division_equations; lia).
  remember (v1 - v1 / 1000 * 1000) as v2 eqn:E2. rewrite (Z.quot_div_nonneg v2) by lia.
  rewrite (u8_small (v2 / 100 + 48)) by (Z.to_euclidean_division_equations; lia).
  replace (v2 / 100 + 48 - 48) with (v2 / 100) by lia.
  assert (H3 : 0 <= v2 - v2 / 100 * 100 < 100) by (Z.to_euclidean_division_equations; lia).
  remember (v2 - v2 / 100 * 100) as v3 eqn:E3. rewrite (Z.quot_div_nonneg v3) by lia.
  rewrite (u8_small (v3 / 10 + 48)) by (Z.to_euclidean_division_equations; lia).
  replace (v3 / 10 + 48 - 48) with (v3 / 10) by lia.
  rewrite (u8_small (v3 - v3 / 10 * 10 + 48)) by (clear - H3; Z.to_euclidean_division_equations; lia).
  assert (G1 : v1 = v mod 10000) by (subst; Z.to_euclidean_division_equations; lia).
  assert (G2 : v2 = v mod 1000) by (clear E3; subst; Z.to_euclidean_division_equations; lia).
  assert (G3 : v3 = v mod 100) by (rewrite E3, G2; clear; Z.to_euclidean_division_equations; lia).
  rewrite G1, G2, G3, H0. clear.
  assert (v mod 10000 / 1000 = v / 1000 mod 10) as -> by (Z.to_euclidean_division_equations; lia).
  assert (v mod 1000 / 100 = v / 100 mod 10) as -> by (Z.to_euclidean_division_equations; lia).
  assert (v mod 100 / 10 = v / 10 mod 10) as E by (Z.to_euclidean_division_equations; lia).
  assert (v mod 100 - v mod 100 / 10 * 10 = v / 1 mod 10) as -> by (Z.to_euclidean_division_equations; lia).
  rewrite E, !(Z.add_comm _ 48). done.
Qed.

Lemma digits_value v : 0 <= v < 65536 -> exists d0 d1 d2 d3 d4,
  digits v = [digit0 + d0; digit0 + d1; digit0 + d2; digit0 + d3; digit0 + d4] /\
  0 <= d0 <= 9 /\ 0 <= d1 <= 9 /\ 0 <= d2 <= 9 /\ 0 <= d3 <= 9 /\ 0 <= d4 <= 9 /\
  d0 * 10000 + d1 * 1000 + d2 * 100 + d3 * 10 + d4 = v.
Proof.
  intros Hv. do 5 eexists. split; [reflexivity|]. Z.to_euclidean_division_equations; lia.
Qed.

Section Thread.
Context `{AudioHw}.
Context (stack_read_port : list Z).

Lemma printMenu_ok t : tcp_printMenu t =
  (Ret tt, set_written (text spacing5 :: text menus :: written t) (set_bit false t)).
Proof.
  unfold tcp_printMenu, bind, modify. rewrite !write_literal by done. done.
Qed.

Lemma printSelector_ok t : tcp_printSelector t =
  (Ret tt, set_written (text spacing9 :: text menu2 :: written t) t).
Proof. unfold tcp_printSelector, bind. rewrite !write_literal by done. done. Qed.

(** Reading an answer: [read_port] starts with the answer's bytes. *)
Lemma read_array_at {S} (l : list Z) k x (s : S) : 0 <= k -> l !! Z.to_nat k = Some x ->
  read_array l k s = (Ret x, s).
Proof.
  intros Hk Hx. pose proof (lookup_lt_Some _ _ _ Hx). unfold read_array.
  rewrite (proj2 (Z.leb_le 0 k)), (proj2 (Z.ltb_lt k _)) by lia. cbn [andb].
  by rewrite (nth_lookup_Some _ _ _ _ Hx).
Qed.

Lemma read_port_front c0 c1 c2 c3 c4 more : exists tail,
  write_list stack_read_port 0 (netbuf_copy (c0 :: c1 :: c2 :: c3 :: c4 :: more) 10) =
    c0 :: c1 :: c2 :: c3 :: c4 :: tail.
Proof. eexists. reflexivity. Qed.

Lemma parse_ok c0 c1 c2 c3 c4 tail t :
  parse_port (c0 :: c1 :: c2 :: c3 :: c4 :: tail) t =
    (Ret (u16 ((c0 - digit0) * 10000 + (c1 - digit0) * 1000 + (c2 - digit0) * 100
               + (c3 - digit0) * 10 + (c4 - digit0))), t).
Proof.
  unfold parse_port, bind. rewrite !(read_array_at _ _ c0), (read_array_at _ _ c1),
    (read_array_at _ _ c2), (read_array_at _ _ c3), (read_array_at _ _ c4) by done. done.
Qed.

(** What answering the port menu with a number does. *)
Lemma key_port_ok m p more rest t : current_menu t <> comm_status -> 0 <= p < 65536 ->
  concat (fragments m) = digits p ++ more ->
  if negb (pvPortMalloc_ok m) then (key_port stack_read_port (Some m :: rest) t).1 = Fault else
  key_port stack_read_port (Some m :: rest) t =
    (Ret tt,
     let t := set_written (text spacing9 :: text menu2 :: written t) t in
     let t := if xQueueSend_ok m then set_ports (p :: port_selection t) t
              else set_leaked (S (leaked t)) t in
     set_written (text spacing5 :: text menus :: written t) (set_bit false (set_menu main_menu t))).
Proof.
  intros Hm Hp Hc. destruct (digits_value p Hp) as (d0 & d1 & d2 & d3 & d4 & Hd & R0 & R1 & R2 & R3 & R4 & Hv).
  assert (Hrun : key_port stack_read_port (Some m :: rest) t = (send_port m p ;;; modify (set_menu main_menu) ;;; tcp_printMenu)
    (set_written (text spacing9 :: text menu2 :: written t) (set_menu port_selector t))).
  { unfold key_port, bind at 1, gets.
  assert (bool_decide (current_menu t = main_menu) || bool_decide (current_menu t = port_selector) = true) as ->
    by (destruct (current_menu t); done).
  unfold bind at 1, modify at 1. unfold bind at 1. rewrite printSelector_ok. rewrite Hc, Hd. cbn [app].
  destruct (read_port_front (digit0 + d0) (digit0 + d1) (digit0 + d2) (digit0 + d3) (digit0 + d4) more)
    as [tail ->]. cbv zeta.
  unfold bind at 1. rewrite (read_array_at _ 0 (digit0 + d0)) by done.
  rewrite (proj2 (Z.eqb_neq (digit0 + d0) 120)) by (unfold digit0; lia). cbn [negb].
  unfold bind at 1 2. rewrite parse_ok.
  replace ((digit0 + d0 - digit0) * 10000 + (digit0 + d1 - digit0) * 1000 + (digit0 + d2 - digit0) * 100
    + (digit0 + d3 - digit0) * 10 + (digit0 + d4 - digit0)) with p by lia.
  rewrite u16_small by lia. reflexivity. }
  rewrite Hrun. unfold send_port. destruct (pvPortMalloc_ok m); cbn [negb]; [|done].
  destruct (xQueueSend_ok m); unfold modify, bind; cbn [ret]; by rewrite printMenu_ok.
Qed.

(** C40: choosing a port: from the main menu or the port menu, the key 2 and then an
    answer that starts with the five decimal digits of a port number put exactly
    that number into the UDP thread's queue (or leak its memory when the queue is
    full), show the port menu and then the main menu, and end in the main menu.  When
    pvPortMalloc has no memory for the number, the code writes it through the null
    pointer instead: the thread faults. *)
Theorem port_selected f frags m p more rest t n :
  current_menu t <> comm_status -> 0 <= p < 65536 ->
  concat (fragments m) = digits p ++ more ->
  if negb (pvPortMalloc_ok m)
  then (tcp_messages stack_read_port (S n) ((50 :: f) :: frags) (Some m :: rest) t).1 = Fault
  else exists t', tcp_messages stack_read_port (S n) ((50 :: f) :: frags) (Some m :: rest) t =
      tcp_messages stack_read_port n (drop 1 (fragments m)) rest t' /\
    port_selection t' = (if xQueueSend_ok m then p :: port_selection t else port_selection t) /\
    leaked t' = (if xQueueSend_ok m then leaked t else S (leaked t)) /\
    written t' = text spacing5 :: text menus :: text spacing9 :: text menu2 :: written t /\
    current_menu t' = main_menu /\ sound t' = sound t.
Proof.
  intros Hm Hp Hc. pose proof (key_port_ok m p more rest t Hm Hp Hc) as Hk.
  assert (Hrun : tcp_messages stack_read_port (S n) ((50 :: f) :: frags) (Some m :: rest) t =
    (key_port stack_read_port (Some m :: rest) ;;; tcp_messages stack_read_port n (drop 1 (fragments m)) rest) t).
  { cbn [tcp_messages]. unfold bind at 1. rewrite (read_array_at _ 0 50) by done. cbn [Z.eqb Pos.eqb].
    unfold bind at 1, gets. by rewrite bool_decide_eq_false_2 by done. }
  rewrite Hrun. unfold bind. destruct (pvPortMalloc_ok m); cbn [negb] in *.
  - eexists. split; [by rewrite Hk|]. cbv zeta. destruct (xQueueSend_ok m); done.
  - by destruct (key_port _ _ t) as [[] ?].
Qed.

(** the statistics key shows the three values in decimal, five digits each,
    between the menu texts, whose stated lengths are their true lengths; it waits
    for ever when nobody put values into the queue, as nobody in the program does. *)
Theorem status_shown t : current_menu t = main_menu ->
  match UDP_status_values t with
  | [] => (key_status t).1 = Diverge
  | v :: q => 0 <= received v < 65536 -> 0 <= losses v < 65536 -> 0 <= TcpTask.relation v < 65536 ->
      exists t', key_status t = (Ret tt, t') /\ UDP_status_values t' = q /\
        current_menu t' = comm_status /\ on_udp_menu t' = true /\
        concat (rev (written t')) = concat (rev (written t)) ++ text menu3_1 ++ digits (received v) ++
          text menu3_2 ++ digits (losses v) ++ text menu3_3 ++ digits (TcpTask.relation v) ++ text spacing
  end.
Proof.
  destruct t as [menu music bit w ports lk q snd]. intros Hm. change (menu = main_menu) in Hm. subst menu.
  cbn [UDP_status_values]. destruct q as [|v q]; [reflexivity|]. intros H1 H2 H3.
  unfold key_status, tcp_printUDPstatus, receive_status, modify, gets, bind.
  rewrite bool_decide_eq_true_2 by done. cbn [UDP_status_values set_menu set_bit ret].
  rewrite !write_literal, !write_decimal, !decimal_ok by done.
  eexists. split_and!; [reflexivity|done|done|done|].
  cbn [written set_written set_status set_bit set_menu rev].
  rewrite !concat_app. cbn [concat]. rewrite !app_nil_r. by rewrite <- !app_assoc.
Qed.

(** ** The mute key *)
Definition timer_running (s : audio) : bool := truthy (Z.land (TCTRL s 0) PIT_TCTRL_TEN_MASK).

Fixpoint mute_keys (k : nat) : cmd tcp unit :=
  match k with O => ret tt | S k => key_mute ;;; mute_keys k end.

Lemma land_lor_self x m : Z.land (Z.lor x m) m = m.
Proof. apply Z.bits_inj'. intros i _. rewrite Z.land_spec, Z.lor_spec. by destruct (Z.testbit x i), (Z.testbit m i). Qed.

Lemma land_clear x m : Z.land (u32 (Z.land x (Z.lnot m))) m = 0.
Proof.
  unfold u32. rewrite <- (Z.land_ones _ 32) by lia. apply Z.bits_inj'. intros i Hi.
  rewrite !Z.land_spec, Z.lnot_spec, Z.bits_0 by done.
  destruct (Z.testbit x i), (Z.testbit m i), (Z.testbit (Z.ones 32) i); done.
Qed.

Lemma start_runs s : exists s', AudioOutput 1 s = (Ret tt, s') /\ timer_running s' = true.
Proof.
  eexists. split; [reflexivity|]. unfold timer_running. cbn [TCTRL set_TCTRL]. unfold updZ. cbn [Z.eqb].
  rewrite land_lor_self. apply truthy_true. destruct masks_pos. lia.
Qed.

Lemma stop_stops s : exists s', AudioOutput 0 s = (Ret tt, s') /\ timer_running s' = false.
Proof.
  unfold AudioOutput, bind, DAC_SetBufferValue. cbn [Z.eqb]. unfold PIT_StopTimer, modify, assert_, bind.
  rewrite (proj2 (Z.ltb_lt 0 _)) by apply DATL_pos. cbn [ret].
  eexists. split; [reflexivity|]. unfold timer_running.
  cbn [TCTRL set_TCTRL set_DATL set_DATH]. unfold updZ. cbn [Z.eqb]. rewrite land_clear. done.
Qed.

Lemma key_mute_ok t : MusicState t = 1 \/ MusicState t = 0 -> exists t', key_mute t = (Ret tt, t') /\
  MusicState t' = 1 - MusicState t /\ timer_running (sound t') = (MusicState t =? 1).
Proof.
  intros Hm. unfold key_mute, bind, gets, on_sound, modify.
  destruct Hm as [Hm|Hm]; rewrite Hm; cbn [Z.eqb Pos.eqb].
  - destruct (start_runs (sound t)) as (s' & -> & Hs). eexists. by split_and!.
  - destruct (stop_stops (sound t)) as (s' & -> & Hs). eexists. by split_and!.
Qed.

(** the mute key and the music are out of step: from the start, when the music
    plays, the first press (which the code takes for "off") starts the timer that
    already runs, and every later press toggles it, so the music is off exactly
    after an even, positive number of presses. *)
Theorem mute_key_inverted k t : MusicState t = 1 -> timer_running (sound t) = true ->
  exists t', mute_keys k t = (Ret tt, t') /\
    MusicState t' = (if Nat.even k then 1 else 0) /\
    timer_running (sound t') = negb (Nat.even k) || (k =? 0)%nat.
Proof.
  intros Hm Ht.
  assert (Hgen : forall k t b, MusicState t = (if b : bool then 1 else 0) -> exists t', mute_keys k t = (Ret tt, t') /\
    MusicState t' = (if eqb b (Nat.even k) then 1 else 0) /\
    timer_running (sound t') = if (k =? 0)%nat then timer_running (sound t) else negb (eqb b (Nat.even k))).
  { clear. induction k as [|k IH]; intros t b Hm; [exists t; by destruct b|]. cbn [mute_keys].
    destruct (key_mute_ok t) as (t1 & Hk & Hm1 & Ht1); [destruct b; auto|].
    cstep Hk. destruct (IH t1 (negb b)) as (t' & Hr & Hm' & Ht').
    { rewrite Hm1, Hm. by destruct b. }
    exists t'. rewrite Nat.even_succ, <- Nat.negb_even. split; [done|].
    assert (eqb b (negb (Nat.even k)) = eqb (negb b) (Nat.even k)) as -> by (by destruct b, (Nat.even k)).
    split; [done|]. rewrite Ht'. destruct k as [|k]; [|done]. cbn [Nat.eqb]. rewrite Ht1, Hm. by destruct b. }
  destruct (Hgen k t true Hm) as (t' & Hr & Hm' & Ht'). exists t'. split; [done|].
  replace (eqb true (Nat.even k)) with (Nat.even k) in * by (by destruct (Nat.even k)).
  split; [done|]. rewrite Ht'. destruct k; [done|]. cbn [Nat.eqb]. by rewrite orb_false_r.
Qed.
End Thread.
