(* ===== verification/AppRuns.v ===== *)
(** * Concrete runs of the theorems on sound, UDP and TCP

    The device header's values for the K64, a sound state with two distinct
    buffers, and a control thread that starts with the music on. *)
From Stdlib Require Import String.
From S2P Require Export AudioThms TcpThms.

#[export] Instance k64_audio : AudioHw.
Proof.
  refine {| PIT_MCR_MDIS_MASK := 2; PIT_MCR_FRZ_MASK := 1; PIT_TCTRL_TEN_MASK := 1;
            PIT_TCTRL_TIE_MASK := 2; PIT_TFLG_TIF_MASK := 1; DAC_C0_DACEN_MASK := 0x80;
            DAC_C0_DACRFS_MASK := 0x40; DAC_C0_LPEN_MASK := 0x08; DAC_DATL_COUNT := 16;
            PIT_HAS_MDIS := true; PIT0_IRQn := 48; PIT1_IRQn := 49; bus_clk := 60000000 |};
    vm_compute; repeat split.
Defined.

Definition ramp (k : Z) : list Z := (fun n => k + Z.of_nat n) <$> seq 0 750.

Definition quiet : audio := Audio (ramp 5000) (ramp 100) 748 false 2 (fun _ => 3) (fun _ => 2699)
  0xC0 (fun _ => 0) (fun _ => 0) [].

Lemma quiet_playable : playable quiet.
Proof. split; vm_compute; auto; split; congruence. Qed.

Lemma ticks_play_buffer_witness : exists s', ticks 4 quiet = (Ret tt, s') /\
  DATL s' 0 + 256 * DATH s' 0 = 5001 mod 4096 /\ idx s' = 2 /\ playable s' /\
  playing s' = ramp 5000 /\ TCTRL s' = TCTRL quiet.
Proof. exact (ticks_play_buffer quiet 3 quiet_playable). Defined.

(** A full datagram, a short one, and one that is too long. *)
Definition full_datagram : list Z := bytes_of (ramp 300).
Definition inputs : list udp_input :=
  [ UdpInput [10%nat; 3%nat; 700%nat; 1%nat] (Some full_datagram) [] None;
    UdpInput [] None [0%nat; 2%nat; 0%nat; 1%nat; 9%nat] (Some 50010);
    UdpInput [0%nat; 751%nat] (Some (full_datagram ++ [1])) [] None;
    UdpInput [2%nat] (Some [7; 8; 9]) [] None ].

Lemma udp_playback_safe_witness :
  exists o s', UDP_thread true (Some 0x8000) [0%nat; 1%nat] inputs quiet = (o, s') /\ playable s' /\ exists port, o = Ret port.
Proof. exact (udp_playback_safe true (Some 0x8000) [0%nat; 1%nat] inputs quiet quiet_playable). Defined.

Lemma datagram_heard_one_late_witness : exists s1 s2,
  udp_datagram [10%nat; 3%nat; 700%nat; 1%nat] full_datagram quiet = (Ret tt, s1) /\
  udp_datagram [2%nat] [7; 8; 9] s1 = (Ret tt, s2) /\
  playing s1 = ramp 100 /\ playing s2 = ramp 300 /\ idx s1 mod 256 = 0 /\ idx s2 mod 256 = 0 /\ playable s2.
Proof.
  exact (datagram_heard_one_late [10%nat; 3%nat; 700%nat; 1%nat] [2%nat] full_datagram [7; 8; 9]
           quiet quiet_playable eq_refl).
Defined.

(** The reset of the index: it keeps the multiple of 256. *)
Lemma reset_i_keeps_high_byte : idx (reset_i (set_idx 300 quiet)).2 = 256.
Proof. reflexivity. Qed.

Definition control : tcp := Tcp main_menu 1 false [] [] 0 [UdpVal 3 4711 65535] quiet.
Definition stack10 : list Z := replicate 10 0xA5.

Lemma port_selected_witness : exists t',
  tcp_messages stack10 5 [[50; 13]] [Some (Message [text "50021x"] true true); None] control =
    tcp_messages stack10 4 [] [None] t' /\
  port_selection t' = [50021] /\ leaked t' = 0%nat /\
  written t' = [text spacing5; text menus; text spacing9; text menu2] /\
  current_menu t' = main_menu /\ sound t' = quiet.
Proof.
  apply (port_selected stack10 [13] [] (Message [text "50021x"] true true) 50021 (text "x") [None] control 4);
    [done|split; [done|reflexivity]|reflexivity].
Defined.

Lemma status_shown_witness : exists t', key_status control = (Ret tt, t') /\ UDP_status_values t' = [] /\
  current_menu t' = comm_status /\ on_udp_menu t' = true /\
  concat (rev (written t')) = text menu3_1 ++ text "04711" ++ text menu3_2 ++ text "00003" ++
    text menu3_3 ++ text "65535" ++ text spacing.
Proof. apply (status_shown control eq_refl); split; done. Defined.

Lemma mute_key_inverted_witness : exists t', mute_keys 3 control = (Ret tt, t') /\
  MusicState t' = 0 /\ timer_running (sound t') = true.
Proof. exact (mute_key_inverted 3 control eq_refl eq_refl). Defined.
